(* ===== verification/_CoqProject ===== *)
-Q . S2P
Prelude.v
Config.v
Wire.v
NetUtils.v
NakDedup.v
AuthRateLimiter.v
Connection.v
World.v
Registry.v
Double.v
Quality.v
Exporter.v
SrtHandler.v
SrtlaHandler.v
MainLoop.v
Hoare.v
Invariant.v
RegistryProofs.v
QualityProofs.v
HandlerProofs.v
Scenario.v
LoopProofs.v
Accounts.v
Exposition.v
Metrics.v
Helpers.v
Startup.v
Registration.v
AckStream.v
Relay.v
DataPath.v
Maintenance.v
QualityProperties.v
Telemetry.v
Packets.v
SenderModel.v
SenderLog.v
SenderProofs.v
SenderProperties.v
SenderUpkeep.v
SenderScenario.v
SenderShares.v
EndToEnd.v
Session.v
Protocol.v
Simulation.v
Types.v
Refinement.v
SenderSpeech.v
Speech.v
Integrity.v
Establishment.v
Forgetting.v
Program.v
