(* ===== verification/Prelude.v ===== *)
(** * A verification library for SRTLA: the receiver and the sender

    SRTLA bonds several network links into one SRT stream.  The sender
    [srtla_send] spreads the packets of a local SRT caller over its links; the
    receiver [srtla_rec] (both under src/, C++) puts them together again.

    The receiver listens on one UDP socket.  A client registers a
    group (REG1, answered by REG2 with a group id) and then one connection per
    link (REG2, answered by REG3); data packets that arrive on any of the
    connections are forwarded to the SRT server on a socket of the group's
    own, acknowledged to the link in blocks of ten, and what the server sends
    comes back to the clients.  Around that path are a throttle on hosts whose
    SRT authentication fails, suppression of duplicate NAKs, telemetry in
    extended keepalives, a quality score and weight per connection, the
    periodic removal of dead connections and groups, and counters and gauges
    served to a Prometheus scraper.

    The sender registers its links with a receiver, sends each packet on the
    link with the largest window per packet in flight, keeps a log of what it
    sent on each link, grows windows on acknowledgements and shrinks them on
    NAKs, and re-registers links that went silent.

    ** The model

    Code is translated to executable functions in a monad [M] over one state
    record, [world] ([World]): the registry's groups, the throttle, the
    counters, the C++ static variables, the epoll set, and the trace of
    everything the process sent, opened or closed.  Pure functions stay pure.
    A group or connection that the code reaches through a pointer is reached
    through its pointer here too ([g_ptr], [c_ptr]): updates are visible
    through every alias, and a read through a pointer to a destroyed group is
    the outcome [Raised (UseAfterFree _)].  A C++ exception is [Raised
    RuntimeError].  The kernel, clock, files and random device are the class
    [OS]: an arbitrary instance answers each call as it likes, so theorems
    hold for every order of successes and errors; the SRT server is what
    [os_recv] returns, the clients are the batches of the [EvSrtla] events.
    Integers are [Z] with their wrap-around written out ([u8] to [u64],
    [i32]); [double]s are IEEE binary64 values of the Standard Library's
    [SpecFloat] ([Double]).

    The sender is a model of its own ([SenderModel]) in the same style: a
    state record [sender] of its globals, a monad [SM] whose computations
    return or stop (exit, uncaught exception, signed overflow, access out of
    bounds, pointer to a freed connection), and the class [SenderOS] for the
    kernel.  [int] arithmetic that can overflow is partial ([c_int]).

    ** Files and sources

    - this file: machine integers, bytes, record update, list lemmas;
    - [Config]: constants of common.h, receiver_config.h, srtla_handler.h;
    - [Wire]: packet classifiers and the keepalive parser of common.c, the
      padding of protocol/pad_sendto.h, the ACK packet;
    - [NetUtils]: socket addresses, [constant_time_compare],
      [addresses_equal];
    - [NakDedup], [AuthRateLimiter]: utils/nak_dedup.cpp,
      utils/auth_rate_limiter.cpp, with their properties;
    - [Connection]: connection/connection.cpp, the data of
      connection/connection_group.cpp, quality/metrics_collector.cpp, and the
      telemetry updates of protocol/srtla_handler.cpp;
    - [World]: the state, the monad, the system calls of
      utils/network_utils.cpp and common.c, metrics counters;
    - [Registry]: connection/connection_registry.cpp and the group destructor;
    - [Double], [Quality]: quality/quality_evaluator.cpp,
      quality/load_balancer.cpp;
    - [SrtHandler], [SrtlaHandler]: protocol/srt_handler.cpp with
      protocol/forward_policy.h, protocol/srtla_handler.cpp;
    - [Exporter]: the exposition and the HTTP responses of
      metrics/prometheus.cpp;
    - [MainLoop]: one iteration of the loop of receiver_main.cpp;
    - [Startup]: resolve_srt_address of utils/network_utils.cpp, the
      exporter's listener and [main] up to the loop, with their properties;
    - [Program]: [main] of receiver_main.cpp as a whole, with its options;
    - [SenderModel]: sender.cpp from start-up to the select loop, and
      [parse_ip] of common.c;
    - [Helpers]: [parse_port] of common.c and [is_srt_handshake] of
      protocol/srt_handler.cpp, which nothing calls, with their properties.

    The definitions above are followed by the proofs: [Hoare] (weakest
    preconditions, and the class [Quiet] of code that only talks to the
    kernel), [Invariant] (the registry invariant [inv]), [RegistryProofs],
    [QualityProofs] and [HandlerProofs] (each operation keeps it),
    [Scenario] (a concrete kernel and states reached by running the model, on
    which the theorems are exercised), [Accounts] (the class [Steady] of code
    that adds and removes no group, and the balance of the counters),
    [Exposition] (a reader of the text format), [SenderLog] and
    [SenderProofs] (the packet log; the class [Keeps] of code that keeps the
    sender's invariant [sender_ok]), [SenderScenario] (a concrete kernel for
    the sender and the witnesses of its theorems), and the files of theorems.

    [Protocol] is an abstract specification: a table of sessions with an id,
    members and dates, and a step relation labelled with the datagram heard and
    the packet forwarded.  [Simulation] relates the receiver's state to such a
    table and has the class [Within] of code whose effect lies within a
    preorder on states; [Refinement] proves that the receiver implements the
    specification and carries properties over.  [SenderSpeech] and [Speech]
    use the same method to describe every datagram either program ever sends,
    and [Types] to bound every field of the receiver's state.  [Forgetting]
    uses it for the relation [upholds], under which nothing in the table grows
    stale between two runs of the cleanup.  [Program] has the class [Shifted]
    of code that runs after start-up as it runs from [initial_world].

    ** What the theorems show

    - [LoopProofs]: the states [reachable] by iterations of the loop satisfy
      [inv] for every input and every kernel whose [socket] does not return 0;
      an iteration without a REG1 then completes and never follows a dangling
      pointer; with a REG1 it can.
    - [Registration]: REG1 and REG2 on every branch against a specification
      of their verdicts, their composition to the handshake, the protection of
      active groups from eviction, and exact demultiplexing by address.
    - [DataPath], [AckStream]: what one data packet does, end to end, for every
      answer of the group's open socket, and the ACKs that a stream of packets
      gives.
    - [Relay]: server packets (ACK and NAK to all, rejection, anything else)
      and the outcomes of forwarding.
    - [Maintenance]: exactly what a cleanup run keeps and whom it probes, and
      that between runs nothing happens.
    - [Forgetting]: in every run nothing stays in the table beyond its
      time-out and one period of the cleanup.
    - [Telemetry]: extended keepalives end to end, field by field; duplicate
      NAKs, random ids.
    - [QualityProperties]: the scales of the penalties and their sum, weights,
      period counters, RTT history.
    - [Packets]: disjoint packet classes, padding, lookup by id, address
      equality, and the effect of descriptor 0.
    - [AuthRateLimiter], [NakDedup], [Wire]: the throttle's threshold and its
      transparent cleanup, the duplicate filter over all sequences, and the
      round trip of extended keepalives.
    - [Metrics]: the counters of groups balance in every reachable state, a
      scraper reads back exactly the counters and gauges, and every scrape is
      answered without disturbing the receiver.
    - [Startup]: exactly when start-up succeeds, with the first address that
      answers a probe, and that it leaves an empty receiver and no stray
      descriptor.
    - [Program]: from [main] on, the receiver exits before its loop or its
      states are those the other theorems are about.
    - [SenderLog]: the circular log refines a window of the last 255 packets;
      the effect of NAKs, SRTLA ACKs and cumulative SRT ACKs on logs and
      windows.
    - [SenderProofs]: the states [s_reachable] by iterations satisfy
      [sender_ok] and no iteration follows a pointer to a freed connection; a
      reload of the address file leaves exactly its addresses.
    - [SenderProperties]: a packet is sent once, on the best live link; loss
      lists without wrapping ranges are read; NAKs whose treatment is undefined
      or whose ranges are dropped.
    - [SenderUpkeep]: a round of housekeeping, exactly: which links get a
      socket, are emptied or left alone, what is sent, the next address, and
      when the sender exits.
    - [SenderShares]: a burst of packets fills the links evenly by their
      windows.
    - [EndToEnd]: the two programs together: they agree on the id of a group
      and on the registration of a link, and a block of ten packets is
      forwarded by the receiver, acknowledged, and in flight at the sender no
      more.
    - [Session], [Establishment]: from a sender and a receiver that do not
      know each other to the first registered link in three exchanges, each a
      whole turn of the receiver's loop, and the keepalives that keep the link
      on both sides.
    - [Types]: every field of the receiver's state stays within its machine
      type.
    - [Refinement]: each iteration of the loop is a run of [Protocol]; every
      group and connection of a reachable state goes back to a REG1 and a REG2
      with its id, and every packet forwarded to one datagram of a member;
      packets are forwarded in the order they came, none twice.  Only sends to
      the SRT server count ([IoSend]); the exporter's answers to scrapes, sent
      on other sockets with [MSG_NOSIGNAL], are [IoRespond] in the trace.
    - [Integrity]: over a network that loses, repeats, delays and reorders
      datagrams but makes none up, the SRT server gets only packets of the SRT
      caller and the caller only packets of the server (and REG_ERR).

    ** Hypotheses and fuel

    [StdinOpen] ([HandlerProofs]) says that [socket] does not return 0, which
    holds when the process is started with standard input open; without it
    the invariant fails, as [Packets] shows.  Besides the invariant it is
    assumed where that is used: [Refinement], [stream_up], [block_delivered],
    [exposition_exact].  [Inline] ([Exposition]) says
    that the version and the texts of addresses have no newline.  [SenderEnv]
    ([SenderProofs]) says that a receive buffer has 1500 bytes;
    [ListenerKept] ([SenderSpeech]) that [socket] does not return the listening descriptor, which stays open.
    [KernelTyped] ([Types]) gives the types of the kernel's answers, and
    [MonotoneClock] ([Forgetting]) says that the monotonic clock is not
    negative and does not go back.
    [delivered] ([Refinement]) says that the group events of a batch point to
    groups that were registered with epoll when the batch was taken, as
    [epoll_wait] guarantees.  [carried_up] and [carried_down] ([Integrity])
    are the network that makes nothing up.  Each has an instance among the
    sample sessions.
    The fuel of [read_random] is one unit per byte asked for, enough because
    every turn of the loop reads at least one byte or throws ([Telemetry]).
    That of [send_response] comes with the scrape: it is enough when it covers
    the bytes of the response and the calls a signal interrupts ([Metrics]).
    The sender's [nak_loop] and [ack_loop] get a unit per byte of the packet
    and advance by a word; [visited] gets one per log entry ([SenderLog]).
    Loops over groups, connections, events and batches are structural.  A
    batch of events is cut to [MAX_EPOLL_EVENTS] and a batch of datagrams to
    [RECV_BATCH_SIZE], as the buffers of the calls are.  A SIGHUP that reaches
    the sender takes effect at the head of its loop, where the flag is read.

    ** Not modelled

    Log lines, which change no state: [validate_bitrate], the comparison log
    of the load balancer and the sender's periodic summary only log.  Argument
    parsing is a library's: the receiver's [main] gets what it makes of the
    command line, the sender's starts after it.  The text of the socket info
    files is not part of the state, and the sender's descriptors stay below
    [FD_SETSIZE].

    ** Plan

    What could follow: uniqueness of the series per connection in the
    exposition; the rate limit of the drop warning; the machine types of the
    sender's state; how the quality of a link comes out of its losses over
    several evaluations. *)

From Stdlib Require Export ZArith Lia.
From Stdlib Require Import Strings.Byte.
From stdpp Require Export base tactics numbers gmap option list.
Export Corelib.Init.Byte (byte).

#[global] Open Scope Z_scope.

(** Simplification leaves integer arithmetic to [lia]. *)
#[global] Arguments Z.add : simpl never.
#[global] Arguments Z.sub : simpl never.
#[global] Arguments Z.mul : simpl never.
#[global] Arguments Z.succ : simpl never.
#[global] Arguments Z.pow : simpl never.
#[global] Arguments Z.div : simpl never.
#[global] Arguments Z.modulo : simpl never.
#[global] Arguments Z.max : simpl never.
#[global] Arguments Z.min : simpl never.
#[global] Arguments Z.of_nat : simpl never.
#[global] Arguments Z.ltb : simpl never.
#[global] Arguments Z.leb : simpl never.
#[global] Arguments Z.eqb : simpl never.
#[global] Arguments Z.testbit : simpl never.

(** ** Record update

    [r <| f := v |>] is the record [r] with its field [f] replaced.  A record
    type joins the notation with an [Eta] instance, its constructor applied
    to its own projections; the setter of a field is computed from it. *)

Class Eta (R : Type) := eta : R → R.
Class Setter {R T : Type} (proj : R → T) := upd : (T → T) → R → R.
Arguments upd {R T} proj {_} f r : assert.

Ltac derive_setter :=
  match goal with
  | |- @Setter ?R ?T ?p =>
      let e := constr:(_ : Eta R) in
      let e' := eval hnf in e in
      let f := fresh "f" in
      let r := fresh "r" in
      unfold Setter; intros f r;
      let body := eval cbv beta in (e' r) in
      match eval pattern (p r) in body with
      | ?g _ => let t := eval cbv beta in (g (f (p r))) in exact t
      end
  end.
#[export] Hint Extern 1 (Setter _) => derive_setter : typeclass_instances.

Declare Scope update_scope.
Delimit Scope update_scope with upd.
#[warning="-postfix-notation-not-level-1"]
Notation "r <| p ::= f |>" := (upd p f r)
  (at level 12, p at level 9, left associativity,
   format "r  <| p  ::=  f |>") : update_scope.
#[warning="-postfix-notation-not-level-1"]
Notation "r <| p := v |>" := (upd p (fun _ => v) r)
  (at level 12, p at level 9, left associativity,
   format "r  <| p  :=  v |>") : update_scope.
#[global] Open Scope update_scope.

(** ** Machine integers

    A [w]-bit unsigned value is a [Z] in [0, 2^w); the wrap-around of C's
    unsigned arithmetic and of its narrowing conversions is written out. *)

Definition u8 (z : Z) : Z := z mod 2 ^ 8.
Definition u16 (z : Z) : Z := z mod 2 ^ 16.
Definition u32 (z : Z) : Z := z mod 2 ^ 32.
Definition u64 (z : Z) : Z := z mod 2 ^ 64.

(** The conversion to [int32_t]: two's complement. *)
Definition i32 (z : Z) : Z :=
  let r := u32 z in if r <? 2 ^ 31 then r else r - 2 ^ 32.

Lemma u8_range z : 0 <= u8 z < 2 ^ 8.
Proof. apply Z.mod_pos_bound; lia. Qed.
Lemma u16_range z : 0 <= u16 z < 2 ^ 16.
Proof. apply Z.mod_pos_bound; lia. Qed.
Lemma u32_range z : 0 <= u32 z < 2 ^ 32.
Proof. apply Z.mod_pos_bound; lia. Qed.
Lemma u64_range z : 0 <= u64 z < 2 ^ 64.
Proof. apply Z.mod_pos_bound; lia. Qed.
Lemma i32_range z : - 2 ^ 31 <= i32 z < 2 ^ 31.
Proof.
  unfold i32. pose proof (u32_range z). destruct (Z.ltb_spec (u32 z) (2 ^ 31)); lia.
Qed.

Lemma u8_small z : 0 <= z < 2 ^ 8 -> u8 z = z.
Proof. apply Z.mod_small. Qed.
Lemma u16_small z : 0 <= z < 2 ^ 16 -> u16 z = z.
Proof. apply Z.mod_small. Qed.
Lemma u32_small z : 0 <= z < 2 ^ 32 -> u32 z = z.
Proof. apply Z.mod_small. Qed.
Lemma u64_small z : 0 <= z < 2 ^ 64 -> u64 z = z.
Proof. apply Z.mod_small. Qed.
Lemma i32_small z : - 2 ^ 31 <= z < 2 ^ 31 -> i32 z = z.
Proof.
  intros H. unfold i32, u32. destruct (decide (0 <= z)).
  - rewrite Z.mod_small by lia. destruct (Z.ltb_spec z (2 ^ 31)); lia.
  - rewrite <- (Z.mod_add z 1) by lia. rewrite Z.mod_small by lia.
    destruct (Z.ltb_spec (z + 1 * 2 ^ 32) (2 ^ 31)); lia.
Qed.

(** A wrapping counter read back through a wrapping difference gives the
    true increment, even across the wrap. *)
Lemma u64_diff base d : 0 <= d < 2 ^ 64 -> u64 (u64 (base + d) - base) = d.
Proof.
  intros H. unfold u64. rewrite Zminus_mod_idemp_l.
  replace (base + d - base) with d by lia. apply Z.mod_small; lia.
Qed.
Lemma u32_diff base d : 0 <= d < 2 ^ 32 -> u32 (u32 (base + d) - base) = d.
Proof.
  intros H. unfold u32. rewrite Zminus_mod_idemp_l.
  replace (base + d - base) with d by lia. apply Z.mod_small; lia.
Qed.

Create HintDb words.
Create Rewrite HintDb words.
#[export] Hint Resolve u8_range u16_range u32_range u64_range i32_range : words.
#[export] Hint Rewrite u8_small u16_small u32_small u64_small i32_small
  using lia : words.

(** ** Bytes *)

Definition bval (b : byte) : Z := Z.of_N (Byte.to_N b).
Definition byte_of (z : Z) : byte :=
  match Byte.of_N (Z.to_N (u8 z)) with Some b => b | None => Byte.x00 end.

Lemma bval_range b : 0 <= bval b < 2 ^ 8.
Proof. unfold bval. pose proof (Byte.to_N_bounded b). lia. Qed.

Lemma bval_byte_of z : bval (byte_of z) = u8 z.
Proof.
  pose proof (u8_range z) as Hr. unfold byte_of, bval.
  destruct (Byte.of_N (Z.to_N (u8 z))) as [b|] eqn:E.
  - apply Byte.to_of_N in E. rewrite E. lia.
  - apply Byte.of_N_None_iff in E. lia.
Qed.

Lemma bval_inj a b : bval a = bval b -> a = b.
Proof.
  unfold bval. intros H. apply N2Z.inj in H.
  pose proof (Byte.of_to_N a) as Ha. pose proof (Byte.of_to_N b) as Hb.
  rewrite H, Hb in Ha. congruence.
Qed.

Lemma byte_of_bval b : byte_of (bval b) = b.
Proof. apply bval_inj. rewrite bval_byte_of. apply u8_small, bval_range. Qed.

#[export] Instance byte_eq_dec : EqDecision byte.
Proof. intros a b. destruct (Byte.byte_eq_dec a b); [left|right]; done. Defined.

#[export] Instance byte_countable : Countable byte :=
  inj_countable Byte.to_N Byte.of_N Byte.of_to_N.

#[export] Hint Resolve bval_range : words.

(** Byte [i] of a buffer.  Every read below is guarded by a length test of
    the source, so the default value is never observed. *)
Definition at_ (buf : list byte) (i : nat) : byte := nth i buf Byte.x00.

Definition Zlength {A} (l : list A) : Z := Z.of_nat (length l).

(** Big-endian reads, the composition of a load with [be16toh]/[be32toh],
    and the shifts-and-ors of the hand-written parsers. *)
Definition be16 (b0 b1 : byte) : Z := Z.lor (Z.shiftl (bval b0) 8) (bval b1).
Definition be32 (b0 b1 b2 b3 : byte) : Z :=
  Z.lor (Z.lor (Z.lor (Z.shiftl (bval b0) 24) (Z.shiftl (bval b1) 16))
               (Z.shiftl (bval b2) 8)) (bval b3).

(** Memory images of integers, most and least significant byte first. *)
Definition be16_bytes (z : Z) : list byte := [byte_of (Z.shiftr z 8); byte_of z].
Definition be32_bytes (z : Z) : list byte :=
  [byte_of (Z.shiftr z 24); byte_of (Z.shiftr z 16); byte_of (Z.shiftr z 8); byte_of z].
Definition le32_bytes (z : Z) : list byte :=
  [byte_of z; byte_of (Z.shiftr z 8); byte_of (Z.shiftr z 16); byte_of (Z.shiftr z 24)].

(** [htobe32] on the little-endian hosts the receiver runs on. *)
Definition htobe32 (z : Z) : Z :=
  be32 (byte_of z) (byte_of (Z.shiftr z 8)) (byte_of (Z.shiftr z 16)) (byte_of (Z.shiftr z 24)).

(** A bitwise or of disjoint fields is a sum. *)
Lemma lor_shiftl_add hi lo k :
  0 <= k -> 0 <= lo < 2 ^ k -> Z.lor (Z.shiftl hi k) lo = hi * 2 ^ k + lo.
Proof.
  intros Hk Hlo. rewrite <- Z.shiftl_mul_pow2 by done.
  rewrite <- Z.add_lor_land.
  replace (Z.land (Z.shiftl hi k) lo) with 0; [lia|].
  apply Z.bits_inj'. intros n Hn. rewrite Z.bits_0, Z.land_spec.
  destruct (decide (n < k)).
  - by rewrite Z.shiftl_spec_low.
  - rewrite <- (Z.mod_small lo (2 ^ k)), Z.mod_pow2_bits_high by lia.
    by rewrite andb_false_r.
Qed.

Lemma be16_eq b0 b1 : be16 b0 b1 = bval b0 * 2 ^ 8 + bval b1.
Proof. apply lor_shiftl_add; auto with words; lia. Qed.

Lemma be32_eq b0 b1 b2 b3 :
  be32 b0 b1 b2 b3 = bval b0 * 2 ^ 24 + bval b1 * 2 ^ 16 + bval b2 * 2 ^ 8 + bval b3.
Proof.
  pose proof (bval_range b0). pose proof (bval_range b1).
  pose proof (bval_range b2). pose proof (bval_range b3).
  unfold be32. rewrite <- !Z.lor_assoc.
  rewrite (lor_shiftl_add (bval b2)), (lor_shiftl_add (bval b1)),
    (lor_shiftl_add (bval b0)); lia.
Qed.

Lemma be16_range b0 b1 : 0 <= be16 b0 b1 < 2 ^ 16.
Proof.
  rewrite be16_eq. pose proof (bval_range b0). pose proof (bval_range b1). lia.
Qed.
Lemma be32_range b0 b1 b2 b3 : 0 <= be32 b0 b1 b2 b3 < 2 ^ 32.
Proof.
  rewrite be32_eq. pose proof (bval_range b0). pose proof (bval_range b1).
  pose proof (bval_range b2). pose proof (bval_range b3). lia.
Qed.
#[export] Hint Resolve be16_range be32_range : words.

Lemma bval_byte_of_shiftr z k :
  0 <= k -> bval (byte_of (Z.shiftr z k)) = (z / 2 ^ k) mod 2 ^ 8.
Proof. intros Hk. rewrite bval_byte_of, Z.shiftr_div_pow2 by done. done. Qed.

(** Writing an integer most significant byte first and reading it back. *)
Lemma be16_roundtrip z :
  be16 (byte_of (Z.shiftr z 8)) (byte_of z) = u16 z.
Proof.
  rewrite be16_eq, bval_byte_of_shiftr, bval_byte_of by lia. unfold u8, u16.
  change (2 ^ 16) with (2 ^ 8 * 2 ^ 8). rewrite Z.rem_mul_r by lia. lia.
Qed.

Lemma be32_roundtrip z :
  be32 (byte_of (Z.shiftr z 24)) (byte_of (Z.shiftr z 16))
       (byte_of (Z.shiftr z 8)) (byte_of z) = u32 z.
Proof.
  rewrite be32_eq, !bval_byte_of_shiftr, bval_byte_of by lia. unfold u8, u32.
  change (2 ^ 32) with (2 ^ 8 * (2 ^ 8 * (2 ^ 8 * 2 ^ 8))).
  rewrite !Z.rem_mul_r by lia.
  change (2 ^ 24) with (2 ^ 8 * 2 ^ 8 * 2 ^ 8). change (2 ^ 16) with (2 ^ 8 * 2 ^ 8).
  rewrite <- !Z.div_div by lia. lia.
Qed.

(** The bytes in memory of a value passed through [htobe32]. *)
Lemma le32_bytes_be32 b0 b1 b2 b3 : le32_bytes (be32 b3 b2 b1 b0) = [b0; b1; b2; b3].
Proof.
  pose proof (bval_range b0). pose proof (bval_range b1).
  pose proof (bval_range b2). pose proof (bval_range b3).
  unfold le32_bytes.
  repeat f_equal; apply bval_inj;
    rewrite ?bval_byte_of_shiftr, ?bval_byte_of by lia; unfold u8;
    rewrite be32_eq; Z.to_euclidean_division_equations; lia.
Qed.

Lemma htobe32_mem z : le32_bytes (htobe32 z) = be32_bytes z.
Proof. unfold htobe32. by rewrite le32_bytes_be32. Qed.

(** ** Lists *)

(** The first element satisfying a test, as the source's search loops find it. *)
Fixpoint find_first {A} (p : A -> bool) (l : list A) : option A :=
  match l with
  | [] => None
  | x :: l' => if p x then Some x else find_first p l'
  end.

Section find_first_facts.
Context {A : Type}.
Implicit Types (p : A -> bool) (l : list A).

Lemma find_first_Some p l x :
  find_first p l = Some x -> x ∈ l /\ p x = true.
Proof.
  induction l as [|y l IH]; simpl; [done|].
  destruct (p y) eqn:E; intros H; simplify_eq.
  - split; [left|done].
  - destruct (IH H). split; [by right|done].
Qed.

Lemma find_first_None p l :
  find_first p l = None <-> forall x, x ∈ l -> p x = false.
Proof.
  induction l as [|y l IH]; simpl.
  - split; [intros _ x Hx; by apply elem_of_nil in Hx|done].
  - setoid_rewrite elem_of_cons. destruct (p y) eqn:E.
    + split; [done|]. intros H. rewrite (H y) in E; [done|by left].
    + rewrite IH. split; [intros H x [->|Hx]; auto|auto].
Qed.

Lemma find_first_complete p l x :
  x ∈ l -> p x = true -> exists y, find_first p l = Some y.
Proof.
  intros Hx Hp. destruct (find_first p l) as [y|] eqn:E; [by exists y|].
  rewrite find_first_None in E. by rewrite (E x Hx) in Hp.
Qed.

End find_first_facts.

Lemma sublist_map {A B} (f : A -> B) l1 l2 : l1 `sublist_of` l2 -> map f l1 `sublist_of` map f l2.
Proof. induction 1; cbn; by constructor. Qed.

Lemma length_map_id {A} (f : A -> A) (l : list A) : length (map f l) = length l.
Proof. apply length_map. Qed.

Lemma Zlength_nonneg {A} (l : list A) : 0 <= Zlength l.
Proof. unfold Zlength. lia. Qed.

(** Two elements with the same key, when keys are unique. *)
Lemma NoDup_map_inj {A B} (f : A -> B) (l : list A) x y :
  NoDup (map f l) -> x ∈ l -> y ∈ l -> f x = f y -> x = y.
Proof.
  induction l as [|z l IH]; cbn; intros Hnd Hx Hy E; [by apply elem_of_nil in Hx|].
  apply NoDup_cons in Hnd as [Hz Hnd].
  apply elem_of_cons in Hx as [->|Hx]; apply elem_of_cons in Hy as [->|Hy]; try done.
  - exfalso. apply Hz. rewrite E. by apply list_elem_of_fmap_2.
  - exfalso. apply Hz. rewrite <- E. by apply list_elem_of_fmap_2.
  - by apply IH.
Qed.

Lemma Forall_sublist_of {A} (P : A -> Prop) l1 l2 :
  Forall P l2 -> l1 `sublist_of` l2 -> Forall P l1.
Proof.
  rewrite !Forall_forall. intros H Hsub x Hx. apply H. by eapply elem_of_sublist.
Qed.

(** Filters that agree on the list. *)
Lemma filter_agree {A} (P Q : A -> Prop) `{!forall x, Decision (P x)} `{!forall x, Decision (Q x)} (l : list A) :
  (forall x, x ∈ l -> P x <-> Q x) -> filter P l = filter Q l.
Proof.
  induction l as [|x l IH]; intros Hl; [done|]. rewrite !filter_cons, IH.
  - destruct (decide (P x)), (decide (Q x)); [done| | |done]; specialize (Hl x (list_elem_of_here _ _)); tauto.
  - intros y Hy. apply Hl. by right.
Qed.
Lemma filter_all {A} (P : A -> Prop) `{!forall x, Decision (P x)} (l : list A) :
  (forall x, x ∈ l -> P x) -> filter P l = l.
Proof.
  induction l as [|x l IH]; intros Hl; [done|]. rewrite filter_cons_True, IH; [done| |].
  - intros y Hy. apply Hl. by right.
  - apply Hl. left.
Qed.

(** ** Proof automation *)

(** Case analysis on every test and match that blocks the goal. *)
Ltac split_tests :=
  repeat (case_match || (progress simplify_eq/=)); try done.

(** Boolean comparisons in the context as propositions. *)
Ltac bools :=
  repeat match goal with
  | H : (_ <? _) = true |- _ => apply Z.ltb_lt in H
  | H : (_ <? _) = false |- _ => apply Z.ltb_ge in H
  | H : (_ <=? _) = true |- _ => apply Z.leb_le in H
  | H : (_ <=? _) = false |- _ => apply Z.leb_gt in H
  | H : (_ =? _) = true |- _ => apply Z.eqb_eq in H
  | H : (_ =? _) = false |- _ => apply Z.eqb_neq in H
  | H : (_ && _) = true |- _ => apply andb_true_iff in H as [??]
  | H : (_ || _) = false |- _ => apply orb_false_iff in H as [??]
  | H : negb _ = true |- _ => apply negb_true_iff in H
  | H : negb _ = false |- _ => apply negb_false_iff in H
  end.
