(* ===== verification/Config.v ===== *)
(** * Constants of src/common.h and src/receiver_config.h

    Wire constants of the SRTLA and SRT protocols, table sizes, timeouts and
    quality thresholds, with the source's names and values. *)

From S2P Require Import Prelude.

Definition MTU : Z := 1500.

Definition SRT_TYPE_HANDSHAKE : Z := 0x8000.
Definition SRT_TYPE_ACK : Z := 0x8002.
Definition SRT_TYPE_NAK : Z := 0x8003.
Definition SRT_TYPE_SHUTDOWN : Z := 0x8005.

Definition SRTLA_TYPE_KEEPALIVE : Z := 0x9000.
Definition SRTLA_TYPE_ACK : Z := 0x9100.
Definition SRTLA_TYPE_REG1 : Z := 0x9200.
Definition SRTLA_TYPE_REG2 : Z := 0x9201.
Definition SRTLA_TYPE_REG3 : Z := 0x9202.
Definition SRTLA_TYPE_REG_ERR : Z := 0x9210.
Definition SRTLA_TYPE_REG_NGP : Z := 0x9211.

Definition SRTLA_KEEPALIVE_MAGIC : Z := 0xC01F.
Definition SRTLA_KEEPALIVE_EXT_LEN : Z := 38.
Definition SRTLA_KEEPALIVE_EXT_VERSION : Z := 0x0001.

Definition SRT_MIN_LEN : Z := 16.
(** [sizeof(srt_header_t)] and [sizeof(srt_handshake_t)], both packed. *)
Definition SIZEOF_SRT_HEADER : Z := 16.
Definition SIZEOF_SRT_HANDSHAKE : Z := 64.
Definition SRT_REJECTION_CODE_BASE : Z := 1000.

Definition SRTLA_ID_LEN : Z := 256.
Definition SRTLA_TYPE_REG1_LEN : Z := 2 + SRTLA_ID_LEN.
Definition SRTLA_TYPE_REG2_LEN : Z := 2 + SRTLA_ID_LEN.
Definition SRTLA_TYPE_REG3_LEN : Z := 2.

Definition MAX_CONNS_PER_GROUP : Z := 16.
Definition MAX_GROUPS : Z := 200.

Definition CLEANUP_PERIOD : Z := 3.
Definition GROUP_TIMEOUT : Z := 30.
Definition PENDING_GROUP_TIMEOUT : Z := 5.
Definition CONN_TIMEOUT : Z := 15.
Definition KEEPALIVE_PERIOD : Z := 1.
Definition RECOVERY_CHANCE_PERIOD : Z := 5.

Definition AUTH_FAIL_THRESHOLD : Z := 5.
Definition AUTH_FAIL_WINDOW : Z := 60.
Definition AUTH_FAIL_COOLDOWN : Z := 60.

Definition CONN_QUALITY_EVAL_PERIOD : Z := 5.
Definition CONNECTION_GRACE_PERIOD : Z := 10.

Definition WEIGHT_FULL : Z := 100.
Definition WEIGHT_EXCELLENT : Z := 85.
Definition WEIGHT_DEGRADED : Z := 70.
Definition WEIGHT_FAIR : Z := 55.
Definition WEIGHT_POOR : Z := 40.
Definition WEIGHT_CRITICAL : Z := 10.

Definition RTT_THRESHOLD_CRITICAL : Z := 500.
Definition RTT_THRESHOLD_HIGH : Z := 200.
Definition RTT_THRESHOLD_MODERATE : Z := 100.
Definition RTT_VARIANCE_THRESHOLD : Z := 50.
Definition KEEPALIVE_STALENESS_THRESHOLD : Z := 2.
Definition RTT_HISTORY_SIZE : nat := 5.

Definition RECV_ACK_INT : Z := 10.
Definition RECV_BATCH_SIZE : nat := 64.
Definition MAX_EPOLL_EVENTS : nat := 10.

(** Linux values of the errno and address-family names the source uses. *)
Definition EINTR : Z := 4.
Definition EAGAIN : Z := 11.
Definition EWOULDBLOCK : Z := 11.
Definition ENOBUFS : Z := 105.
Definition ECONNREFUSED : Z := 111.
Definition AF_INET : Z := 2.
Definition AF_INET6 : Z := 10.
