(* ===== verification/Wire.v ===== *)
(** * Packets on the wire (src/common.c, src/protocol/pad_sendto.h)

    Classification of received packets, the parser of extended keepalives
    and the layout of the packets the receiver sends. *)

From stdpp Require Import list.
From S2P Require Import Prelude Config.

(** ** Classification *)

Definition get_srt_sn (pkt : list byte) (n : Z) : Z :=
  if n <? 4 then -1 else
  let sn := be32 (at_ pkt 0) (at_ pkt 1) (at_ pkt 2) (at_ pkt 3) in
  if Z.land sn (Z.shiftl 1 31) =? 0 then i32 sn else -1.

Definition get_srt_type (pkt : list byte) (n : Z) : Z :=
  if n <? 2 then 0 else be16 (at_ pkt 0) (at_ pkt 1).

Definition is_srt_ack (pkt : list byte) (n : Z) : bool := get_srt_type pkt n =? SRT_TYPE_ACK.
Definition is_srt_nak (pkt : list byte) (n : Z) : bool := get_srt_type pkt n =? SRT_TYPE_NAK.
Definition is_srtla_keepalive (pkt : list byte) (n : Z) : bool :=
  get_srt_type pkt n =? SRTLA_TYPE_KEEPALIVE.
Definition is_srt_shutdown (pkt : list byte) (n : Z) : bool :=
  get_srt_type pkt n =? SRT_TYPE_SHUTDOWN.

(** [handshake_type] is at offset 36 of the packed [srt_handshake_t]. *)
Definition is_srt_handshake_reject (pkt : list byte) (n : Z) : bool :=
  if n <? SIZEOF_SRT_HANDSHAKE then false else
  if negb (get_srt_type pkt n =? SRT_TYPE_HANDSHAKE) then false else
  let hs_type := be32 (at_ pkt 36) (at_ pkt 37) (at_ pkt 38) (at_ pkt 39) in
  (SRT_REJECTION_CODE_BASE <=? hs_type) && (hs_type <? 0x80000000).

Definition is_srtla_reg1 (pkt : list byte) (len : Z) : bool :=
  if negb (len =? SRTLA_TYPE_REG1_LEN) then false
  else get_srt_type pkt len =? SRTLA_TYPE_REG1.
Definition is_srtla_reg2 (pkt : list byte) (len : Z) : bool :=
  if negb (len =? SRTLA_TYPE_REG2_LEN) then false
  else get_srt_type pkt len =? SRTLA_TYPE_REG2.
Definition is_srtla_reg3 (pkt : list byte) (len : Z) : bool :=
  if negb (len =? SRTLA_TYPE_REG3_LEN) then false
  else get_srt_type pkt len =? SRTLA_TYPE_REG3.

(** ** Extended keepalives *)

Record connection_info_t := mkConnInfo {
  ci_conn_id : Z;
  ci_window : Z;
  ci_in_flight : Z;
  ci_rtt_ms : Z;
  ci_nak_count : Z;
  ci_bitrate_bytes_per_sec : Z
}.

(** Four bytes of [buf] from offset [i], as the parser combines them. *)
Definition read_be32 (buf : list byte) (i : nat) : Z :=
  be32 (at_ buf i) (at_ buf (i + 1)) (at_ buf (i + 2)) (at_ buf (i + 3)).
Definition read_be16 (buf : list byte) (i : nat) : Z :=
  be16 (at_ buf i) (at_ buf (i + 1)).

Definition parse_keepalive_conn_info (buf : list byte) (len : Z) : option connection_info_t :=
  if len <? SRTLA_KEEPALIVE_EXT_LEN then None else
  if negb (read_be16 buf 0 =? SRTLA_TYPE_KEEPALIVE) then None else
  if negb (read_be16 buf 10 =? SRTLA_KEEPALIVE_MAGIC) then None else
  if negb (read_be16 buf 12 =? SRTLA_KEEPALIVE_EXT_VERSION) then None else
  Some {|
    ci_conn_id := read_be32 buf 14;
    ci_window := i32 (read_be32 buf 18);
    ci_in_flight := i32 (read_be32 buf 22);
    ci_rtt_ms := read_be32 buf 26;
    ci_nak_count := read_be32 buf 30;
    ci_bitrate_bytes_per_sec := read_be32 buf 34
  |}.

(** The field types of [connection_info_t]. *)
Definition conn_info_ok (i : connection_info_t) : Prop :=
  0 <= ci_conn_id i < 2 ^ 32 /\ - 2 ^ 31 <= ci_window i < 2 ^ 31 /\
  - 2 ^ 31 <= ci_in_flight i < 2 ^ 31 /\ 0 <= ci_rtt_ms i < 2 ^ 32 /\
  0 <= ci_nak_count i < 2 ^ 32 /\ 0 <= ci_bitrate_bytes_per_sec i < 2 ^ 32.

(** The packet a sender builds: type, eight zero bytes (a timestamp no
    receiver reads), magic, version and the six fields. *)
Definition build_ext_ka (f : connection_info_t) : list byte :=
  be16_bytes SRTLA_TYPE_KEEPALIVE ++ replicate 8 Byte.x00 ++
  be16_bytes SRTLA_KEEPALIVE_MAGIC ++ be16_bytes SRTLA_KEEPALIVE_EXT_VERSION ++
  be32_bytes (ci_conn_id f) ++ be32_bytes (ci_window f) ++
  be32_bytes (ci_in_flight f) ++ be32_bytes (ci_rtt_ms f) ++
  be32_bytes (ci_nak_count f) ++ be32_bytes (ci_bitrate_bytes_per_sec f).

(** ** Packets the receiver sends *)

(** A two-byte control packet: [uint16_t header = htobe16(type)]. *)
Definition header_packet (type : Z) : list byte := be16_bytes type.

(** The REG2 reply of [register_group]: type and full group id. *)
Definition reg2_packet (id : list byte) : list byte :=
  be16_bytes SRTLA_TYPE_REG2 ++ id.

(** [srtla_ack_pkt]: [type] holds [htobe32(SRTLA_TYPE_ACK << 16)] and [acks]
    a copy of the connection's log, whose entries are in network order. *)
Definition ack_packet (log : list Z) : list byte :=
  le32_bytes (htobe32 (Z.shiftl SRTLA_TYPE_ACK 16)) ++ concat (map le32_bytes log).

(** The bytes [pad_sendto] hands to [sendto]: at least 32 of them. *)
Definition PAD_LEN : Z := 32.
Definition pad_payload (buf : list byte) : list byte :=
  if PAD_LEN <=? Zlength buf then buf
  else buf ++ replicate (Z.to_nat (PAD_LEN - Zlength buf)) Byte.x00.

(** The value [pad_sendto] returns for a [sendto] that returned [ret]. *)
Definition pad_result (buf : list byte) (ret : Z) : Z :=
  if PAD_LEN <=? Zlength buf then ret
  else if ret =? PAD_LEN then Zlength buf else ret.

(** ** Facts about the packets *)

Lemma length_be32_bytes z : length (be32_bytes z) = 4%nat.
Proof. done. Qed.

Lemma build_ext_ka_length f : Zlength (build_ext_ka f) = SRTLA_KEEPALIVE_EXT_LEN.
Proof. done. Qed.

Lemma read_be16_bytes z rest : read_be16 (be16_bytes z ++ rest) 0 = u16 z.
Proof. apply be16_roundtrip. Qed.

Lemma read_be32_at pre z rest i :
  length pre = i -> read_be32 (pre ++ be32_bytes z ++ rest) i = u32 z.
Proof.
  intros <-. unfold read_be32, at_.
  rewrite !app_nth2_plus, <- (Nat.add_0_r (length pre)) at 1.
  rewrite app_nth2_plus. apply be32_roundtrip.
Qed.

(** The magic and version of a built packet are where the parser looks. *)
Lemma parse_build_fields f :
  parse_keepalive_conn_info (build_ext_ka f) (Zlength (build_ext_ka f)) =
  Some {|
    ci_conn_id := u32 (ci_conn_id f);
    ci_window := i32 (u32 (ci_window f));
    ci_in_flight := i32 (u32 (ci_in_flight f));
    ci_rtt_ms := u32 (ci_rtt_ms f);
    ci_nak_count := u32 (ci_nak_count f);
    ci_bitrate_bytes_per_sec := u32 (ci_bitrate_bytes_per_sec f)
  |}.
Proof.
  rewrite build_ext_ka_length. unfold parse_keepalive_conn_info.
  change (SRTLA_KEEPALIVE_EXT_LEN <? SRTLA_KEEPALIVE_EXT_LEN) with false. cbv iota.
  replace (read_be16 (build_ext_ka f) 0) with (u16 SRTLA_TYPE_KEEPALIVE)
    by (symmetry; apply be16_roundtrip).
  replace (read_be16 (build_ext_ka f) 10) with (u16 SRTLA_KEEPALIVE_MAGIC)
    by (symmetry; apply be16_roundtrip).
  replace (read_be16 (build_ext_ka f) 12) with (u16 SRTLA_KEEPALIVE_EXT_VERSION)
    by (symmetry; apply be16_roundtrip).
  cbn [negb]. change (negb _) with false. cbv iota.
  rewrite <- !be32_roundtrip. reflexivity.
Qed.

Lemma i32_u32 z : i32 (u32 z) = i32 z.
Proof. unfold i32, u32. by rewrite Z.mod_mod. Qed.

(** The top bit of a 32-bit word, as [sn & (1 << 31)] tests it. *)
Lemma msb_clear sn :
  0 <= sn < 2 ^ 32 -> (Z.land sn (Z.shiftl 1 31) =? 0) = (sn <? 2 ^ 31).
Proof.
  intros Hr. change (Z.shiftl 1 31) with (2 ^ 31).
  assert (Z.testbit sn 31 = negb (sn <? 2 ^ 31)) as Hbit.
  { rewrite Z.testbit_odd, Z.shiftr_div_pow2 by lia.
    destruct (Z.ltb_spec sn (2 ^ 31)).
    - rewrite Z.div_small by lia. done.
    - replace (sn / 2 ^ 31) with 1; [done|].
      apply Z.div_unique with (sn - 2 ^ 31); lia. }
  destruct (sn <? 2 ^ 31) eqn:E; cbn [negb] in Hbit.
  - apply Z.eqb_eq, Z.bits_inj'. intros k Hk.
    rewrite Z.land_spec, Z.bits_0, Z.pow2_bits_eqb by lia.
    destruct (Z.eqb_spec 31 k) as [<-|]; [by rewrite Hbit|by rewrite andb_false_r].
  - apply Z.eqb_neq. intros H0.
    assert (Z.testbit (Z.land sn (2 ^ 31)) 31 = false) as Hf by by rewrite H0.
    by rewrite Z.land_spec, Hbit, Z.pow2_bits_true in Hf by lia.
Qed.

Lemma get_srt_sn_eq pkt n :
  get_srt_sn pkt n =
  if n <? 4 then -1 else
  if read_be32 pkt 0 <? 2 ^ 31 then read_be32 pkt 0 else -1.
Proof.
  unfold get_srt_sn, read_be32. cbn [Nat.add].
  pose proof (be32_range (at_ pkt 0) (at_ pkt 1) (at_ pkt 2) (at_ pkt 3)) as Hr.
  destruct (n <? 4); [done|]. rewrite msb_clear by done.
  destruct (Z.ltb_spec (be32 (at_ pkt 0) (at_ pkt 1) (at_ pkt 2) (at_ pkt 3)) (2 ^ 31));
    [|done]. apply i32_small. lia.
Qed.

Lemma get_srt_type_sn pkt n :
  4 <= n -> get_srt_type pkt n = read_be32 pkt 0 / 2 ^ 16.
Proof.
  intros Hn. unfold get_srt_type, read_be32. cbn [Nat.add].
  rewrite (proj2 (Z.ltb_ge n 2)) by lia. rewrite be16_eq, be32_eq.
  pose proof (bval_range (at_ pkt 0)). pose proof (bval_range (at_ pkt 1)).
  pose proof (bval_range (at_ pkt 2)). pose proof (bval_range (at_ pkt 3)).
  apply Z.div_unique with (bval (at_ pkt 2) * 2 ^ 8 + bval (at_ pkt 3)); lia.
Qed.

Lemma get_srt_sn_range pkt n : -1 <= get_srt_sn pkt n < 2 ^ 31.
Proof.
  rewrite get_srt_sn_eq. destruct (n <? 4); [lia|].
  destruct (Z.ltb_spec (read_be32 pkt 0) (2 ^ 31)); [|lia].
  unfold read_be32 in *. pose proof (be32_range (at_ pkt 0) (at_ pkt 1) (at_ pkt 2) (at_ pkt 3)).
  cbn [Nat.add] in *. lia.
Qed.

(** The first byte decides between data and control, whatever the length. *)
Lemma data_packet_type pkt n :
  0 <= get_srt_sn pkt n -> get_srt_type pkt n < 2 ^ 15.
Proof.
  rewrite get_srt_sn_eq. destruct (Z.ltb_spec n 4); [lia|].
  destruct (Z.ltb_spec (read_be32 pkt 0) (2 ^ 31)); [|lia].
  intros _. rewrite get_srt_type_sn by done.
  apply Z.div_lt_upper_bound; lia.
Qed.

Lemma length_pad_payload buf : Zlength (pad_payload buf) = Z.max PAD_LEN (Zlength buf).
Proof.
  unfold pad_payload. destruct (Z.leb_spec PAD_LEN (Zlength buf)); [lia|].
  unfold Zlength in *. rewrite length_app, length_replicate. lia.
Qed.

Lemma pad_payload_prefix buf : take (length buf) (pad_payload buf) = buf.
Proof.
  unfold pad_payload. destruct (PAD_LEN <=? Zlength buf); [apply firstn_all|].
  apply take_app_length.
Qed.

Lemma ack_packet_mem sns :
  ack_packet (map htobe32 sns) =
  be32_bytes (Z.shiftl SRTLA_TYPE_ACK 16) ++ concat (map be32_bytes sns).
Proof.
  unfold ack_packet. rewrite htobe32_mem, map_map. do 2 f_equal.
  apply map_ext. intros z. apply htobe32_mem.
Qed.

(** ** Properties of the wire format *)

(** An extended keepalive built from telemetry whose fields fit their C
    types is parsed back to exactly that telemetry. *)
Theorem keepalive_roundtrip f :
  conn_info_ok f ->
  parse_keepalive_conn_info (build_ext_ka f) (Zlength (build_ext_ka f)) = Some f.
Proof.
  intros (H1 & H2 & H3 & H4 & H5 & H6). rewrite parse_build_fields, !i32_u32.
  autorewrite with words; try done. by destruct f.
Qed.

Lemma keepalive_roundtrip_witness :
  let f := mkConnInfo 7 (-5) 100 30 2 250000 in
  conn_info_ok f /\
  parse_keepalive_conn_info (build_ext_ka f) (Zlength (build_ext_ka f)) = Some f.
Proof. split; [|apply keepalive_roundtrip]; repeat split; simpl; lia. Defined.
