(* ===== verification/NetUtils.v ===== *)
(** * Addresses and byte comparison

    [sockaddr_storage] as the bytes the source reads from it,
    [NetworkUtils::constant_time_compare] (src/utils/network_utils.cpp) and
    [addresses_equal] (src/connection/connection_registry.cpp). *)

From stdpp Require Import list.
From S2P Require Import Prelude Config.

(** ** Socket addresses *)

(** The family and the bytes that follow it.  In [sockaddr_in] those are the
    port (2 bytes) and the address (4); in [sockaddr_in6] the port (2), the
    flow label (4), the address (16) and the scope id (4). *)
Record sockaddr_storage := mkAddr { ss_family : Z; ss_data : list byte }.

#[export] Instance sockaddr_eq_dec : EqDecision sockaddr_storage.
Proof. solve_decision. Defined.

Definition bytes_at (off len : nat) (d : list byte) : list byte :=
  map (fun i => at_ d (off + i)) (seq 0 len).

Definition sin_port (a : sockaddr_storage) : Z := be16 (at_ (ss_data a) 0) (at_ (ss_data a) 1).
Definition sin_addr (a : sockaddr_storage) : list byte := bytes_at 2 4 (ss_data a).
Definition sin6_addr (a : sockaddr_storage) : list byte := bytes_at 6 16 (ss_data a).

(** The zero-initialised storage of a fresh object. *)
Definition zero_addr : sockaddr_storage := mkAddr 0 [].

(** ** Constant-time comparison *)

Definition ct_step (a b : list byte) (diff : Z) (i : nat) : Z :=
  u8 (Z.lor diff (Z.lxor (bval (at_ a i)) (bval (at_ b i)))).

Definition constant_time_compare (a b : list byte) (length : Z) : Z :=
  let diff := fold_left (ct_step a b) (seq 0 (Z.to_nat length)) 0 in
  if diff =? 0 then 0 else -1.

Definition addresses_equal (a b : sockaddr_storage) : bool :=
  if negb (ss_family a =? ss_family b) then false else
  if ss_family a =? AF_INET6 then
    (constant_time_compare (sin6_addr a) (sin6_addr b) 16 =? 0) && (sin_port a =? sin_port b)
  else
    (constant_time_compare (sin_addr a) (sin_addr b) 4 =? 0) && (sin_port a =? sin_port b).

(** ** Facts *)

Lemma u8_lor_lxor d x y :
  0 <= d < 2 ^ 8 -> 0 <= x < 2 ^ 8 -> 0 <= y < 2 ^ 8 ->
  u8 (Z.lor d (Z.lxor x y)) = Z.lor d (Z.lxor x y).
Proof.
  intros Hd Hx Hy.
  assert (forall z n, 0 <= z < 2 ^ 8 -> 8 <= n -> Z.testbit z n = false) as Hhigh.
  { intros z n Hz Hn. rewrite <- (Z.mod_small z (2 ^ 8)) by done.
    apply Z.mod_pow2_bits_high. lia. }
  unfold u8. apply Z.bits_inj'. intros n Hn.
  destruct (decide (n < 8)).
  - by rewrite Z.mod_pow2_bits_low.
  - rewrite Z.mod_pow2_bits_high, Z.lor_spec, Z.lxor_spec by lia.
    by rewrite !Hhigh by lia.
Qed.

Lemma ct_step_zero a b d i :
  0 <= d < 2 ^ 8 -> ct_step a b d i = 0 <-> d = 0 /\ at_ a i = at_ b i.
Proof.
  intros Hd. unfold ct_step. rewrite u8_lor_lxor by auto with words.
  rewrite Z.lor_eq_0_iff, Z.lxor_eq_0_iff. split; intros [-> H].
  - split; [done|]. by apply bval_inj.
  - split; [done|]. by rewrite H.
Qed.

Lemma ct_fold_zero a b l d :
  0 <= d < 2 ^ 8 ->
  fold_left (ct_step a b) l d = 0 <-> d = 0 /\ forall i, i ∈ l -> at_ a i = at_ b i.
Proof.
  revert d. induction l as [|i l IH]; intros d Hd; simpl.
  - split; [intros ->; split; [done|]; intros i Hi; by apply elem_of_nil in Hi|by intros [-> _]].
  - rewrite IH by apply u8_range. rewrite ct_step_zero by done.
    setoid_rewrite elem_of_cons. split.
    + intros [[-> Hi] H]. split; [done|]. intros j [->|Hj]; auto.
    + intros [-> H]. repeat split; auto.
Qed.

Lemma bytes_at_length off len d : length (bytes_at off len d) = len.
Proof. unfold bytes_at. by rewrite length_map, length_seq. Qed.

Lemma at_ext (a b : list byte) n :
  length a = n -> length b = n -> (forall i, (i < n)%nat -> at_ a i = at_ b i) -> a = b.
Proof.
  intros Ha Hb H. apply nth_ext with Byte.x00 Byte.x00; [congruence|].
  intros i Hi. apply H. lia.
Qed.

Lemma constant_time_compare_spec a b n :
  length a = Z.to_nat n -> length b = Z.to_nat n ->
  (constant_time_compare a b n =? 0) = bool_decide (a = b).
Proof.
  intros Ha Hb. unfold constant_time_compare.
  pose proof (ct_fold_zero a b (seq 0 (Z.to_nat n)) 0) as Hz.
  destruct (Z.eqb_spec (fold_left (ct_step a b) (seq 0 (Z.to_nat n)) 0) 0) as [E|E].
  - rewrite Hz in E by lia. destruct E as [_ E]. rewrite bool_decide_eq_true_2; [done|].
    apply (at_ext a b (Z.to_nat n)); try done. intros i Hi.
    apply E, elem_of_seq. lia.
  - rewrite bool_decide_eq_false_2; [done|]. intros ->. apply E, Hz; [lia|done].
Qed.

(** What [addresses_equal] compares: family, address bytes and port. *)
Definition addr_key (a : sockaddr_storage) : Z * list byte * Z :=
  (ss_family a, if ss_family a =? AF_INET6 then sin6_addr a else sin_addr a, sin_port a).

Lemma addresses_equal_spec a b :
  addresses_equal a b = bool_decide (addr_key a = addr_key b).
Proof.
  unfold addresses_equal, addr_key.
  destruct (Z.eqb_spec (ss_family a) (ss_family b)) as [E|E]; cbn [negb].
  - rewrite <- E. destruct (ss_family a =? AF_INET6);
      rewrite constant_time_compare_spec by apply bytes_at_length;
      (destruct (Z.eqb_spec (sin_port a) (sin_port b)) as [P|P];
       [rewrite andb_true_r, P; apply bool_decide_ext; split; congruence
       |rewrite andb_false_r; symmetry; apply bool_decide_eq_false_2; congruence]).
  - symmetry. apply bool_decide_eq_false_2. congruence.
Qed.

Lemma addresses_equal_true a b : addresses_equal a b = true <-> addr_key a = addr_key b.
Proof. rewrite addresses_equal_spec. apply bool_decide_eq_true. Qed.

Lemma addresses_equal_false a b : addresses_equal a b = false <-> addr_key a <> addr_key b.
Proof. rewrite addresses_equal_spec. apply bool_decide_eq_false. Qed.

Lemma addresses_equal_refl a : addresses_equal a a = true.
Proof. by apply addresses_equal_true. Qed.
