(* ===== verification/NakDedup.v ===== *)
(** * NAK de-duplication (src/utils/nak_dedup.{h,cpp})

    The hash of a NAK packet's loss list and the per-group cache that
    suppresses repeated NAKs. *)

From stdpp Require Import list gmap.
From S2P Require Import Prelude Config.

Definition FNV_OFFSET_BASIS : Z := 1469598103934665603.
Definition FNV_PRIME : Z := 1099511628211.
Definition SUPPRESS_MS : Z := 100.
Definition MAX_REPEATS : Z := 1.

Record NakHashEntry := mkNakEntry { timestamp_ms : Z; repeat_count : Z }.
#[export] Instance NakHashEntry_eta : Eta NakHashEntry :=
  fun e => mkNakEntry (timestamp_ms e) (repeat_count e).

Definition fnv_step (hash : Z) (b : byte) : Z :=
  u64 (Z.lxor hash (bval b) * FNV_PRIME).

Definition hash_nak_payload (buffer : list byte) (length prefix_bytes : Z) : Z :=
  if length <=? 16 then 0 else
  let payload := drop 16 buffer in
  let payload_length := length - 16 in
  let payload_length :=
    if (0 <=? prefix_bytes) && (prefix_bytes <? payload_length)
    then prefix_bytes else payload_length in
  fold_left (fun hash i => fnv_step hash (at_ payload i))
    (seq 0 (Z.to_nat payload_length)) FNV_OFFSET_BASIS.

(** The cache is updated in place; the new cache is returned with the verdict. *)
Definition should_accept_nak (cache : gmap Z NakHashEntry) (hash current_time_ms : Z)
  : bool * gmap Z NakHashEntry :=
  match cache !! hash with
  | None => (true, <[hash := mkNakEntry current_time_ms 0]> cache)
  | Some e =>
      if current_time_ms <? timestamp_ms e then (false, cache) else
      if current_time_ms - timestamp_ms e <? SUPPRESS_MS then (false, cache) else
      if MAX_REPEATS <=? repeat_count e then (false, cache) else
      (true, <[hash := e <| timestamp_ms := current_time_ms |> <| repeat_count ::= Z.succ |>]> cache)
  end.

(** ** Histories of queries *)

(** The times at which NAKs with hash [h] are accepted, oldest first, over a
    sequence of (hash, time) queries starting from [cache]. *)
Fixpoint accepted_times (h : Z) (cache : gmap Z NakHashEntry) (qs : list (Z * Z)) : list Z :=
  match qs with
  | [] => []
  | (h', t) :: qs' =>
      let '(ok, cache') := should_accept_nak cache h' t in
      if ok && (h' =? h) then t :: accepted_times h cache' qs'
      else accepted_times h cache' qs'
  end.

(** What the cache promises about one hash: accepted at its first sight, and
    at most once more, no sooner than [SUPPRESS_MS] later. *)
Definition dedup_spec (h : Z) (qs : list (Z * Z)) (times : list Z) : Prop :=
  match times with
  | [] => forall t, (h, t) ∉ qs
  | [t1] => find_first (fun q => q.1 =? h) qs = Some (h, t1)
  | [t1; t2] => find_first (fun q => q.1 =? h) qs = Some (h, t1) /\ t1 + SUPPRESS_MS <= t2
  | _ => False
  end.

(** ** Facts *)

Lemma should_accept_other cache h h' t :
  h' <> h -> (should_accept_nak cache h' t).2 !! h = cache !! h.
Proof.
  intros Hne. unfold should_accept_nak.
  repeat case_match; simpl; by rewrite ?lookup_insert_ne.
Qed.

(** Once a hash has used its repeat, it is never accepted again. *)
Lemma accepted_exhausted h cache qs e :
  cache !! h = Some e -> MAX_REPEATS <= repeat_count e -> accepted_times h cache qs = [].
Proof.
  revert cache. induction qs as [|[h' t] qs IH]; intros cache Hl Hr; simpl; [done|].
  destruct (decide (h' = h)) as [->|Hne].
  - unfold should_accept_nak. rewrite Hl.
    rewrite (proj2 (Z.leb_le _ _) Hr). repeat case_match; simplify_eq/=; by apply IH.
  - destruct (should_accept_nak cache h' t) as [ok cache'] eqn:E.
    rewrite (proj2 (Z.eqb_neq _ _) Hne), andb_false_r. apply IH; [|done].
    rewrite <- Hl. change cache' with ((ok, cache').2). rewrite <- E.
    by apply should_accept_other.
Qed.

(** A hash seen once is accepted at most once more, [SUPPRESS_MS] later. *)
Lemma accepted_seen h cache qs e :
  cache !! h = Some e -> 0 <= repeat_count e ->
  accepted_times h cache qs = [] \/
  exists t, accepted_times h cache qs = [t] /\ timestamp_ms e + SUPPRESS_MS <= t.
Proof.
  revert cache. induction qs as [|[h' t] qs IH]; intros cache Hl Hr; simpl; [by left|].
  destruct (decide (h' = h)) as [->|Hne].
  - unfold should_accept_nak. rewrite Hl, Z.eqb_refl.
    repeat case_match; simplify_eq/=; try (by apply IH).
    right. exists t. bools. split; [|lia]. f_equal.
    eapply accepted_exhausted; [apply lookup_insert_eq|].
    unfold MAX_REPEATS. simpl. lia.
  - destruct (should_accept_nak cache h' t) as [ok cache'] eqn:E.
    rewrite (proj2 (Z.eqb_neq _ _) Hne), andb_false_r. apply IH; [|done].
    rewrite <- Hl. change cache' with ((ok, cache').2). rewrite <- E.
    by apply should_accept_other.
Qed.

Lemma accepted_times_fresh h cache qs :
  cache !! h = None -> dedup_spec h qs (accepted_times h cache qs).
Proof.
  revert cache. induction qs as [|[h' t] qs IH]; intros cache Hl; simpl.
  { intros t Ht. by apply elem_of_nil in Ht. }
  destruct (decide (h' = h)) as [->|Hne].
  - unfold should_accept_nak. rewrite Hl, Z.eqb_refl. simpl.
    edestruct (accepted_seen h (<[h:=mkNakEntry t 0]> cache) qs) as [->|(t2 & -> & Ht)];
      [apply lookup_insert_eq|done|..]; simpl; rewrite Z.eqb_refl; done.
  - destruct (should_accept_nak cache h' t) as [ok cache'] eqn:E.
    rewrite (proj2 (Z.eqb_neq _ _) Hne), andb_false_r.
    assert (cache' !! h = None) as Hn.
    { rewrite <- Hl. change cache' with ((ok, cache').2). rewrite <- E.
      by apply should_accept_other. }
    specialize (IH _ Hn). revert IH. unfold dedup_spec. simpl.
    rewrite (proj2 (Z.eqb_neq _ _) Hne). repeat case_match; try done.
    intros Hall u Hu. apply elem_of_cons in Hu as [Hu|Hu]; [congruence|by apply (Hall u)].
Qed.

(** ** Properties *)

(** C38: over any sequence of NAKs a group receives, at any times, a NAK with
    a given payload hash is accepted when first seen and at most once more,
    at least [SUPPRESS_MS] ms later; every other occurrence is suppressed. *)
Theorem nak_dedup_spec h qs : dedup_spec h qs (accepted_times h ∅ qs).
Proof. apply accepted_times_fresh, lookup_empty. Qed.
