(* ===== verification/AuthRateLimiter.v ===== *)
(** * The authentication throttle (src/utils/auth_rate_limiter.{h,cpp})

    Failures counted per source IP in a window, with a cooldown once the
    threshold is reached. *)

From stdpp Require Import list gmap.
From S2P Require Import Prelude Config NetUtils.

Record Entry := mkEntry { failures : Z; window_start : Z; blocked_until : Z }.
#[export] Instance Entry_eta : Eta Entry :=
  fun e => mkEntry (failures e) (window_start e) (blocked_until e).

(** The value [operator[]] creates for a missing key. *)
Definition default_entry : Entry := mkEntry 0 0 0.

(** The [std::string] key: a family prefix and the raw address bytes. *)
Definition key_for (addr : sockaddr_storage) : list byte :=
  if ss_family addr =? AF_INET6
  then [Byte.x36; Byte.x3a] ++ sin6_addr addr
  else [Byte.x34; Byte.x3a] ++ sin_addr addr.

Definition entry_failure (entry : Entry) (now : Z) : Entry :=
  let entry :=
    if (window_start entry =? 0) || (AUTH_FAIL_WINDOW <? now - window_start entry)
    then entry <| window_start := now |> <| failures := 0 |> else entry in
  let entry := entry <| failures ::= Z.succ |> in
  if AUTH_FAIL_THRESHOLD <=? failures entry
  then entry <| blocked_until := now + AUTH_FAIL_COOLDOWN |>
             <| failures := 0 |> <| window_start := 0 |>
  else entry.

Definition record_failure (addr : sockaddr_storage) (now : Z)
  (entries : gmap (list byte) Entry) : gmap (list byte) Entry :=
  let entry := default default_entry (entries !! key_for addr) in
  <[key_for addr := entry_failure entry now]> entries.

Definition is_blocked (addr : sockaddr_storage) (now : Z)
  (entries : gmap (list byte) Entry) : bool :=
  match entries !! key_for addr with
  | None => false
  | Some e => now <? blocked_until e
  end.

Definition blocked_count (now : Z) (entries : gmap (list byte) Entry) : nat :=
  length (filter (fun kv : list byte * Entry => now < blocked_until kv.2) (map_to_list entries)).

Definition entry_live (now : Z) (e : Entry) : bool :=
  let blocked := now <? blocked_until e in
  let window_active :=
    negb (window_start e =? 0) && (now - window_start e <=? AUTH_FAIL_WINDOW) in
  blocked || window_active.

Definition cleanup (now : Z) (entries : gmap (list byte) Entry) : gmap (list byte) Entry :=
  filter (fun kv => entry_live now kv.2 = true) entries.

(** ** Observational equivalence

    From time [now] on, two entries answer every query alike: same block, or
    both over; same open window, or both closed.  A missing entry counts as
    the default one. *)

Definition window_open (now : Z) (e : Entry) : bool :=
  negb (window_start e =? 0) && (now - window_start e <=? AUTH_FAIL_WINDOW).

Definition entry_equiv (now : Z) (a b : Entry) : Prop :=
  (Z.max now (blocked_until a) = Z.max now (blocked_until b)) /\
  window_open now a = window_open now b /\
  (window_open now a = true -> window_start a = window_start b /\ failures a = failures b).

Definition limiter_equiv (now : Z) (m1 m2 : gmap (list byte) Entry) : Prop :=
  forall k, entry_equiv now (default default_entry (m1 !! k)) (default default_entry (m2 !! k)).

#[export] Instance entry_equiv_equivalence now : Equivalence (entry_equiv now).
Proof.
  split.
  - intros e. done.
  - intros a b (H1 & H2 & H3). split; [done|split; [done|]]. intros Ho.
    rewrite <- H2 in Ho. by destruct (H3 Ho).
  - intros a b c (H1 & H2 & H3) (K1 & K2 & K3).
    split; [congruence|split; [congruence|]]. intros Ho. destruct (H3 Ho).
    rewrite H2 in Ho. destruct (K3 Ho). split; congruence.
Qed.

#[export] Instance limiter_equiv_equivalence now : Equivalence (limiter_equiv now).
Proof.
  split.
  - intros m k. reflexivity.
  - intros m1 m2 H k. symmetry. apply H.
  - intros m1 m2 m3 H K k. by transitivity (default default_entry (m2 !! k)).
Qed.

(** Equivalence is kept as time passes: windows and blocks only close. *)
Lemma entry_equiv_later now t a b :
  now <= t -> entry_equiv now a b -> entry_equiv t a b.
Proof.
  intros Ht (H1 & H2 & H3). unfold entry_equiv, window_open in *.
  destruct (Z.eqb_spec (window_start a) 0), (Z.eqb_spec (window_start b) 0),
    (Z.leb_spec (now - window_start a) AUTH_FAIL_WINDOW),
    (Z.leb_spec (now - window_start b) AUTH_FAIL_WINDOW),
    (Z.leb_spec (t - window_start a) AUTH_FAIL_WINDOW),
    (Z.leb_spec (t - window_start b) AUTH_FAIL_WINDOW);
    simpl in *; try done; split; try lia; split; try done; try lia;
    destruct (H3 eq_refl); lia.
Qed.

Lemma limiter_equiv_later now t m1 m2 :
  now <= t -> limiter_equiv now m1 m2 -> limiter_equiv t m1 m2.
Proof. intros Ht H k. by apply (entry_equiv_later now). Qed.

(** A failure at time [now] does not tell equivalent entries apart. *)
Lemma entry_failure_equiv now a b :
  entry_equiv now a b -> entry_equiv now (entry_failure a now) (entry_failure b now).
Proof.
  intros (H1 & H2 & H3). unfold entry_failure.
  assert (forall e, (window_start e =? 0) || (AUTH_FAIL_WINDOW <? now - window_start e)
                    = negb (window_open now e)) as Hw.
  { intros e. unfold window_open. rewrite negb_andb, negb_involutive.
    f_equal. apply Z.ltb_antisym. }
  rewrite !Hw, <- H2. destruct (window_open now a) eqn:Ho; cbn.
  - destruct (H3 eq_refl) as [Hs Hf]. rewrite Hf.
    destruct (AUTH_FAIL_THRESHOLD <=? Z.succ (failures b)); cbn.
    + done.
    + unfold entry_equiv, window_open. cbn. by rewrite Hs, ?Hf.
  - by unfold entry_equiv, window_open.
Qed.

#[export] Instance record_failure_proper addr now :
  Proper (limiter_equiv now ==> limiter_equiv now) (record_failure addr now).
Proof.
  intros m1 m2 H k. unfold record_failure.
  destruct (decide (key_for addr = k)) as [<-|Hne].
  - rewrite !lookup_insert_eq. apply entry_failure_equiv, H.
  - rewrite !lookup_insert_ne by done. apply H.
Qed.

(** The monotonic clock is never negative, so the zero-initialised
    [blocked_until] of a missing entry is in the past. *)
Lemma is_blocked_equiv addr now m1 m2 :
  0 <= now -> limiter_equiv now m1 m2 -> is_blocked addr now m1 = is_blocked addr now m2.
Proof.
  intros Hnow H. unfold is_blocked. specialize (H (key_for addr)) as (H & _ & _).
  assert (forall o : option Entry,
    match o with None => false | Some e => now <? blocked_until e end
    = (now <? Z.max now (blocked_until (default default_entry o)))) as Hb.
  { intros [e|]; cbn.
    - destruct (Z.ltb_spec now (blocked_until e)),
        (Z.ltb_spec now (Z.max now (blocked_until e))); lia.
    - symmetry. apply Z.ltb_ge. lia. }
  rewrite !Hb. by rewrite H.
Qed.

(** [cleanup] only drops entries equivalent to a missing one. *)
Lemma cleanup_equiv now m : 0 <= now -> limiter_equiv now (cleanup now m) m.
Proof.
  intros Hnow k. unfold cleanup. rewrite map_lookup_filter.
  destruct (m !! k) as [e|] eqn:E; cbn; [|reflexivity].
  destruct (decide (entry_live now e = true)) as [Hl|Hl].
  - rewrite option_guard_True by done. reflexivity.
  - rewrite option_guard_False by done. cbn.
    apply not_true_is_false in Hl. unfold entry_live in Hl.
    apply orb_false_iff in Hl as [Hb Hw]. bools.
    split; [cbn; lia|]. unfold window_open. by rewrite Hw.
Qed.

(** ** Sequences of operations *)

Inductive limiter_op :=
  | OpFail (addr : sockaddr_storage)
  | OpQuery (addr : sockaddr_storage)
  | OpCleanup.

(** The answers to the queries of a timed sequence of operations. *)
Fixpoint limiter_answers (m : gmap (list byte) Entry) (ops : list (Z * limiter_op)) : list bool :=
  match ops with
  | [] => []
  | (t, OpFail a) :: ops' => limiter_answers (record_failure a t m) ops'
  | (t, OpQuery a) :: ops' => is_blocked a t m :: limiter_answers m ops'
  | (t, OpCleanup) :: ops' => limiter_answers (cleanup t m) ops'
  end.

(** Times do not go backwards, starting at [now]. *)
Fixpoint times_from (now : Z) (ops : list (Z * limiter_op)) : Prop :=
  match ops with
  | [] => True
  | (t, _) :: ops' => now <= t /\ times_from t ops'
  end.

Definition not_cleanup (op : Z * limiter_op) : bool :=
  match op.2 with OpCleanup => false | _ => true end.

Lemma limiter_answers_equiv now m1 m2 ops :
  0 <= now -> times_from now ops -> limiter_equiv now m1 m2 ->
  limiter_answers m1 ops = limiter_answers m2 (List.filter not_cleanup ops).
Proof.
  revert now m1 m2. induction ops as [|[t op] ops IH]; intros now m1 m2 Hnow Ht H; [done|].
  destruct Ht as [Hle Ht]. apply (limiter_equiv_later now t) in H; [|done].
  destruct op as [a|a|]; cbn.
  - apply (IH t); [lia|done|]. by rewrite H.
  - rewrite (is_blocked_equiv a t m1 m2) by (done || lia). f_equal.
    by apply (IH t); [lia|..].
  - apply (IH t); [lia|done|]. by rewrite cleanup_equiv by lia.
Qed.

(** A burst of failures of one source. *)
Definition fail_all (addr : sockaddr_storage) (ts : list Z)
  (m : gmap (list byte) Entry) : gmap (list byte) Entry :=
  fold_left (fun m t => record_failure addr t m) ts m.

Lemma fail_all_lookup addr ts m :
  default default_entry (fail_all addr ts m !! key_for addr) =
  fold_left entry_failure ts (default default_entry (m !! key_for addr)).
Proof.
  revert m. induction ts as [|t ts IH]; intros m; cbn; [done|].
  unfold fail_all in IH. rewrite IH. f_equal.
  unfold record_failure. by rewrite lookup_insert_eq.
Qed.

Lemma is_blocked_fail_all addr ts now m :
  ts <> [] ->
  is_blocked addr now (fail_all addr ts m) =
  (now <? blocked_until (fold_left entry_failure ts (default default_entry (m !! key_for addr)))).
Proof.
  intros Hne. rewrite <- fail_all_lookup. unfold is_blocked.
  destruct (fail_all addr ts m !! key_for addr) as [e|] eqn:E; [done|].
  exfalso. destruct (exists_last Hne) as (ts' & t & ->). revert E. unfold fail_all.
  rewrite fold_left_app. cbn. unfold record_failure. by rewrite lookup_insert_eq.
Qed.

(** A failure inside an open window counts. *)
Lemma entry_failure_in_window e t :
  window_open t e = true -> failures e + 1 < AUTH_FAIL_THRESHOLD ->
  entry_failure e t = e <| failures := failures e + 1 |>.
Proof.
  intros Hw Hf. unfold entry_failure, window_open in *. bools.
  rewrite (proj2 (Z.eqb_neq _ _)) by done.
  rewrite (proj2 (Z.ltb_ge _ _)) by lia. cbn.
  rewrite (proj2 (Z.leb_gt _ _)) by lia. done.
Qed.

Lemma fold_failures_in_window ts e :
  Forall (fun t => window_open t e = true) ts ->
  failures e + Zlength ts < AUTH_FAIL_THRESHOLD ->
  fold_left entry_failure ts e = e <| failures := failures e + Zlength ts |>.
Proof.
  revert e. induction ts as [|t ts IH]; intros e Hw Hf; cbn [fold_left].
  - unfold Zlength. cbn. destruct e; cbn. by rewrite Z.add_0_r.
  - apply Forall_cons_1 in Hw as [Ht Hts]. unfold Zlength in *. cbn [length] in Hf |- *.
    rewrite entry_failure_in_window by (done || lia).
    rewrite IH; [|exact Hts|cbn; lia].
    replace (failures e + Z.of_nat (S (length ts)))
      with (failures e + 1 + Z.of_nat (length ts)) by lia. by destruct e.
Qed.

Lemma first_failure t0 : entry_failure default_entry t0 = mkEntry 1 t0 0.
Proof. done. Qed.

Lemma threshold_failure e t :
  window_open t e = true -> failures e = AUTH_FAIL_THRESHOLD - 1 ->
  entry_failure e t = mkEntry 0 0 (t + AUTH_FAIL_COOLDOWN).
Proof.
  intros Hw Hf. unfold entry_failure, window_open in *. bools.
  rewrite (proj2 (Z.eqb_neq _ _)) by done.
  rewrite (proj2 (Z.ltb_ge _ _)) by lia. cbn. rewrite Hf. done.
Qed.

(** The host part of an address, as the keys distinguish sources. *)
Definition host_of (a : sockaddr_storage) : bool * list byte :=
  if ss_family a =? AF_INET6 then (true, sin6_addr a) else (false, sin_addr a).

Lemma key_for_inj a b : key_for a = key_for b <-> host_of a = host_of b.
Proof.
  unfold key_for, host_of.
  destruct (ss_family a =? AF_INET6), (ss_family b =? AF_INET6); cbn; split; congruence.
Qed.

(** ** Properties *)

(** C37: dropping stale entries is invisible: in any sequence of failures,
    queries and cleanups whose times do not go backwards, the answers are
    those of the same sequence without the cleanups. *)
Theorem cleanup_transparent now m ops :
  0 <= now -> times_from now ops ->
  limiter_answers m ops = limiter_answers m (List.filter not_cleanup ops).
Proof. intros Hnow Ht. by apply (limiter_answers_equiv now). Qed.

Definition loopback (port : Z) : sockaddr_storage :=
  mkAddr AF_INET (be16_bytes port ++ map byte_of [127; 0; 0; 1]).

Lemma cleanup_transparent_witness :
  let a := loopback 5000 in
  let ops := [(1, OpFail a); (2, OpFail a); (70, OpCleanup); (71, OpFail a); (72, OpFail a);
              (73, OpFail a); (74, OpQuery a); (75, OpFail a); (76, OpFail a); (77, OpQuery a)] in
  limiter_answers ∅ (List.filter not_cleanup ops) = [false; true] /\
  limiter_answers ∅ ops = limiter_answers ∅ (List.filter not_cleanup ops).
Proof.
  split; [by vm_compute|].
  apply (cleanup_transparent 0); [lia|]. cbn. lia.
Defined.

(** A source seen for the first time is refused exactly when it has
    failed [AUTH_FAIL_THRESHOLD] times within [AUTH_FAIL_WINDOW] seconds of
    its first failure, and then for [AUTH_FAIL_COOLDOWN] seconds. *)
Theorem throttle_threshold addr m t0 ts tl now :
  m !! key_for addr = None -> 0 < t0 -> 0 <= now ->
  Forall (fun t => t - t0 <= AUTH_FAIL_WINDOW) (ts ++ [tl]) ->
  Zlength (t0 :: ts ++ [tl]) <= AUTH_FAIL_THRESHOLD ->
  is_blocked addr now (fail_all addr (t0 :: ts ++ [tl]) m) =
  (Zlength (t0 :: ts ++ [tl]) =? AUTH_FAIL_THRESHOLD) && (now <? tl + AUTH_FAIL_COOLDOWN).
Proof.
  intros Hm Ht0 Hnow Hw Hlen. rewrite is_blocked_fail_all, Hm by done. cbn [default].
  assert (forall t f, t - t0 <= AUTH_FAIL_WINDOW -> window_open t (mkEntry f t0 0) = true) as Ho.
  { intros t f Ht. unfold window_open. cbn. rewrite (proj2 (Z.eqb_neq _ _)) by lia.
    cbn. by apply Z.leb_le. }
  apply Forall_app in Hw as [Hw Htl]. rewrite Forall_singleton in Htl.
  assert (Zlength (t0 :: ts ++ [tl]) = Zlength ts + 2) as Hall.
  { unfold Zlength. cbn [length]. rewrite length_app. cbn. lia. }
  cbn [fold_left]. rewrite first_failure, fold_left_app, (fold_failures_in_window ts).
  2: { eapply Forall_impl; [exact Hw|]. cbn. auto. }
  2: { cbn. unfold AUTH_FAIL_THRESHOLD in *. lia. }
  cbn [fold_left failures]. destruct (Z.eqb_spec (Zlength (t0 :: ts ++ [tl])) AUTH_FAIL_THRESHOLD).
  - rewrite threshold_failure; [done|by apply Ho|cbn; lia].
  - rewrite entry_failure_in_window; [|by apply Ho|cbn; lia].
    cbn. apply Z.ltb_ge. lia.
Qed.

Lemma throttle_threshold_witness :
  let a := loopback 5000 in
  is_blocked a 100 (fail_all a [10; 20; 30; 40; 50] ∅) = true /\
  is_blocked a 110 (fail_all a [10; 20; 30; 40; 50] ∅) = false.
Proof.
  split.
  - apply (throttle_threshold (loopback 5000) ∅ 10 [20; 30; 40] 50 100);
      [done|lia|lia|repeat constructor; unfold AUTH_FAIL_WINDOW; lia|by vm_compute].
  - apply (throttle_threshold (loopback 5000) ∅ 10 [20; 30; 40] 50 110);
      [done|lia|lia|repeat constructor; unfold AUTH_FAIL_WINDOW; lia|by vm_compute].
Defined.

(** A failure counts against the host only: it changes the standing of
    every port of that host alike, and of no other host. *)
Theorem throttle_per_host a b t now m :
  is_blocked b now (record_failure a t m) =
  if decide (host_of b = host_of a)
  then now <? blocked_until (entry_failure (default default_entry (m !! key_for a)) t)
  else is_blocked b now m.
Proof.
  unfold is_blocked, record_failure. case_decide as H.
  - apply key_for_inj in H. by rewrite H, lookup_insert_eq.
  - rewrite lookup_insert_ne; [done|]. rewrite key_for_inj. congruence.
Qed.
