(* ===== verification/Connection.v ===== *)
(** * Connections and connection groups

    [ConnectionStats] (src/receiver_config.h), [Connection] and
    [ConnectionGroup] (src/connection/), and [MetricsCollector]
    (src/quality/metrics_collector.cpp). *)

From stdpp Require Import list gmap.
From S2P Require Import Prelude Config Wire NetUtils NakDedup.

(** ** Statistics of a connection *)

Record ConnectionStats := mkStats {
  bytes_received : Z;
  packets_received : Z;
  packets_lost : Z;
  last_eval_time : Z;
  last_bytes_received : Z;
  last_packets_received : Z;
  last_packets_lost : Z;
  error_points : Z;
  weight_percent : Z;
  nack_count : Z;
  rtt_ms : Z;
  rtt_history : list Z;
  rtt_history_idx : Z;
  last_keepalive : Z;
  window : Z;
  in_flight : Z;
  sender_nak_count : Z;
  last_sender_nak_count : Z;
  sender_bitrate_bps : Z;
  sender_supports_extended_keepalives : bool;
  legacy_error_points : Z;
  legacy_weight_percent : Z
}.
#[export] Instance ConnectionStats_eta : Eta ConnectionStats := fun s =>
  mkStats (bytes_received s) (packets_received s) (packets_lost s) (last_eval_time s)
    (last_bytes_received s) (last_packets_received s) (last_packets_lost s)
    (error_points s) (weight_percent s) (nack_count s) (rtt_ms s) (rtt_history s)
    (rtt_history_idx s) (last_keepalive s) (window s) (in_flight s)
    (sender_nak_count s) (last_sender_nak_count s) (sender_bitrate_bps s)
    (sender_supports_extended_keepalives s) (legacy_error_points s)
    (legacy_weight_percent s).

(** The default member initialisers. *)
Definition initial_stats : ConnectionStats := {|
  bytes_received := 0; packets_received := 0; packets_lost := 0; last_eval_time := 0;
  last_bytes_received := 0; last_packets_received := 0; last_packets_lost := 0;
  error_points := 0; weight_percent := WEIGHT_FULL; nack_count := 0;
  rtt_ms := 0; rtt_history := replicate RTT_HISTORY_SIZE 0; rtt_history_idx := 0;
  last_keepalive := 0; window := 0; in_flight := 0;
  sender_nak_count := 0; last_sender_nak_count := 0; sender_bitrate_bps := 0;
  sender_supports_extended_keepalives := false;
  legacy_error_points := 0; legacy_weight_percent := WEIGHT_FULL
|}.

Definition has_valid_sender_telemetry (s : ConnectionStats) (current_time : Z) : bool :=
  if last_keepalive s =? 0 then false else
  if KEEPALIVE_STALENESS_THRESHOLD <? current_time - last_keepalive s then false else
  (0 <? rtt_ms s) || (0 <? window s).

Definition supports_extended_keepalives (s : ConnectionStats) : bool :=
  sender_supports_extended_keepalives s.

(** ** Connections *)

(** [c_ptr] is the identity of the heap object, the address a [shared_ptr]
    holds; two pointers are equal when they are. *)
Record Connection := mkConn {
  c_ptr : nat;
  address : sockaddr_storage;
  last_received : Z;
  recv_index : Z;
  recv_log : list Z;
  stats : ConnectionStats;
  recovery_start : Z;
  connection_start : Z;
  extensions_negotiated : bool;
  sender_capabilities : Z
}.
#[export] Instance Connection_eta : Eta Connection := fun c =>
  mkConn (c_ptr c) (address c) (last_received c) (recv_index c) (recv_log c) (stats c)
    (recovery_start c) (connection_start c) (extensions_negotiated c) (sender_capabilities c).

Definition new_connection (ptr : nat) (addr : sockaddr_storage) (timestamp : Z) : Connection := {|
  c_ptr := ptr; address := addr; last_received := timestamp;
  recv_index := 0; recv_log := replicate (Z.to_nat RECV_ACK_INT) 0;
  stats := initial_stats; recovery_start := 0; connection_start := timestamp;
  extensions_negotiated := false; sender_capabilities := 0
|}.

(** ** Groups *)

Record ConnectionGroup := mkGroup {
  g_ptr : nat;
  g_id : list byte;
  connections : list Connection;
  created_at : Z;
  data_seen : bool;
  established : bool;
  srt_socket : Z;
  last_address : sockaddr_storage;
  total_target_bandwidth : Z;
  last_quality_eval : Z;
  last_load_balance_eval : Z;
  load_balancing_enabled : bool;
  nak_cache : gmap Z NakHashEntry;
  epoll_fd : Z
}.
#[export] Instance ConnectionGroup_eta : Eta ConnectionGroup := fun g =>
  mkGroup (g_ptr g) (g_id g) (connections g) (created_at g) (data_seen g) (established g)
    (srt_socket g) (last_address g) (total_target_bandwidth g) (last_quality_eval g)
    (last_load_balance_eval g) (load_balancing_enabled g) (nak_cache g) (epoll_fd g).

(** The constructor, given the random half of the id: the first half is
    copied from the client's REG1, the rest is the receiver's. *)
Definition new_group (ptr : nat) (client_id random_bytes : list byte) (timestamp : Z)
  : ConnectionGroup := {|
  g_ptr := ptr;
  g_id := take (Z.to_nat (SRTLA_ID_LEN / 2)) client_id ++ random_bytes;
  connections := []; created_at := timestamp; data_seen := false; established := false;
  srt_socket := -1; last_address := zero_addr; total_target_bandwidth := 0;
  last_quality_eval := 0; last_load_balance_eval := 0; load_balancing_enabled := true;
  nak_cache := ∅; epoll_fd := -1
|}.

Definition add_connection (conn : Connection) (g : ConnectionGroup) : ConnectionGroup :=
  g <| connections ::= fun cs => cs ++ [conn] |>.

(** [std::remove] on the vector of [shared_ptr]s, by pointer equality. *)
Definition remove_connection (conn : Connection) (g : ConnectionGroup) : ConnectionGroup :=
  g <| connections ::= filter (fun c => c_ptr c <> c_ptr conn) |>.

Definition get_client_addresses (g : ConnectionGroup) : list sockaddr_storage :=
  map address (connections g).

(** ** Metrics *)

Definition on_packet_received (bytes : Z) (s : ConnectionStats) : ConnectionStats :=
  s <| bytes_received := u64 (bytes_received s + bytes) |>
    <| packets_received := u64 (packets_received s + 1) |>.

Definition on_nak_detected (n : Z) (s : ConnectionStats) : ConnectionStats :=
  s <| packets_lost := u32 (packets_lost s + n) |>
    <| nack_count := u16 (nack_count s + n) |>.

Definition reset_period (current_ms : Z) (s : ConnectionStats) : ConnectionStats :=
  s <| last_bytes_received := bytes_received s |>
    <| last_packets_received := packets_received s |>
    <| last_packets_lost := packets_lost s |>
    <| last_eval_time := current_ms |>.

Definition bytes_in_period (s : ConnectionStats) : Z :=
  u64 (bytes_received s - last_bytes_received s).
Definition packets_in_period (s : ConnectionStats) : Z :=
  u64 (packets_received s - last_packets_received s).
Definition naks_in_period (s : ConnectionStats) : Z :=
  u32 (packets_lost s - last_packets_lost s).

(** ** Keepalive telemetry (src/protocol/srtla_handler.cpp) *)

(** Writing one slot of [rtt_history]; the index is kept below
    [RTT_HISTORY_SIZE] by the modulus. *)
Definition update_rtt_history (rtt : Z) (s : ConnectionStats) : ConnectionStats :=
  s <| rtt_history ::= fun h => <[Z.to_nat (rtt_history_idx s) := rtt]> h |>
    <| rtt_history_idx := u8 ((rtt_history_idx s + 1) mod Z.of_nat RTT_HISTORY_SIZE) |>
    <| rtt_ms := rtt |>.

Definition update_connection_telemetry (info : connection_info_t) (current_time : Z)
  (s : ConnectionStats) : ConnectionStats :=
  let s := s <| sender_supports_extended_keepalives := true |> in
  let s := update_rtt_history (ci_rtt_ms info) s in
  s <| window := ci_window info |>
    <| in_flight := ci_in_flight info |>
    <| sender_nak_count := ci_nak_count info |>
    <| sender_bitrate_bps := ci_bitrate_bytes_per_sec info |>
    <| last_keepalive := current_time |>.
