(* ===== verification/World.v ===== *)
(** * The receiver's state, its system calls and the monad of its code

    [world] is the process state the handlers share: the registry's groups,
    the throttle's table, the Prometheus counters (src/metrics/prometheus.h),
    the function-local statics, the epoll set, and a log of the I/O done.
    Handlers are written in a state-and-exception monad over it. *)

From stdpp Require Import list gmap.
From S2P Require Import Prelude Config Wire NetUtils AuthRateLimiter Connection.

(** ** Counters *)

Inductive Counter :=
  | PACKETS_RECEIVED | BYTES_RECEIVED | RECV_BATCHES
  | FORWARDED_PACKETS | FORWARDED_BYTES | FORWARD_ERRORS | FORWARD_DROPPED
  | SRT_PACKETS_RECEIVED | SRT_BYTES_RECEIVED | NAKS_RECEIVED | NAKS_SUPPRESSED
  | GROUP_REGISTRATIONS | GROUP_REG_THROTTLED | GROUP_REG_TABLE_FULL
  | GROUP_REG_DUP_ADDR | GROUP_REG_SEND_ERROR
  | CONN_REGISTRATIONS | CONN_REG_NO_GROUP | CONN_REG_GROUP_MISMATCH
  | CONN_REG_MAX_CONNS | CONN_REG_SEND_ERROR
  | GROUPS_REMOVED_IDLE | GROUPS_REMOVED_AUTH | GROUPS_REMOVED_SRT_ERROR
  | GROUPS_REMOVED_EVICTED | CONNECTIONS_REMOVED | AUTH_FAILURES
  | SEND_ERR_ACK | SEND_ERR_KEEPALIVE | SEND_ERR_DOWNSTREAM
  | RECOVERY_STARTED | RECOVERY_COMPLETED | RECOVERY_FAILED.

#[export] Instance Counter_eq_dec : EqDecision Counter.
Proof. solve_decision. Defined.

(** ** I/O *)

(** What the process does to the outside, with the result it got. *)
Inductive io :=
  | IoSendto (dst : sockaddr_storage) (data : list byte) (ret : Z)
  | IoSendmmsg (dsts : list sockaddr_storage) (data : list byte) (ret : Z)
  | IoSend (fd : Z) (data : list byte) (ret : Z)
  | IoRespond (client : Z) (data : list byte) (ret : Z)
  | IoSocket (fd : Z)
  | IoClose (fd : Z)
  | IoEpollAdd (fd : Z) (ptr : nat) (ret : Z)
  | IoEpollDel (fd : Z)
  | IoWriteInfo (port : Z) (addrs : list sockaddr_storage)
  | IoRemoveInfo (port : Z).

(** The kernel and the C library.  The first argument of each operation is
    the number of calls made so far, so an instance can answer every call
    differently: an arbitrary instance stands for arbitrary behaviour. *)
Class OS := {
  os_sendto : nat -> sockaddr_storage -> list byte -> Z;
  os_sendmmsg : nat -> list sockaddr_storage -> list byte -> Z;
  os_send : nat -> Z -> list byte -> Z * Z;
  os_recv : nat -> Z -> option (list byte);
  os_socket : nat -> Z;
  os_setsockopt : nat -> Z -> Z;
  os_fcntl_getfl : nat -> Z -> Z;
  os_fcntl_setfl : nat -> Z -> Z;
  os_connect : nat -> Z -> Z;
  os_epoll_ctl : nat -> Z -> Z;
  os_getsockname : nat -> Z -> option sockaddr_storage;
  os_clock_gettime : nat -> option (Z * Z);
  os_open_file : nat -> bool;
  os_urandom_open : nat -> bool;
  os_urandom_read : nat -> Z -> list byte
}.

(** ** State *)

Record world := mkWorld {
  groups : list ConnectionGroup;
  next_ptr : nat;
  limiter : gmap (list byte) Entry;
  counters : Counter -> Z;
  last_run : Z;
  dropped_since_log : Z;
  last_log_ms : Z;
  epoll_set : list (Z * nat);
  calls : nat;
  trace : list io
}.
#[export] Instance world_eta : Eta world := fun w =>
  mkWorld (groups w) (next_ptr w) (limiter w) (counters w) (last_run w)
    (dropped_since_log w) (last_log_ms w) (epoll_set w) (calls w) (trace w).

(** The state when [main] enters its loop. *)
Definition initial_world : world := {|
  groups := []; next_ptr := 0; limiter := ∅; counters := fun _ => 0; last_run := 0;
  dropped_since_log := 0; last_log_ms := 0; epoll_set := []; calls := 0; trace := []
|}.

(** ** The monad *)

(** A C++ exception, or a read through a pointer to a destroyed group. *)
Inductive exn := RuntimeError | UseAfterFree (ptr : nat).

Inductive outcome (A : Type) :=
  | Done (a : A) (w : world)
  | Raised (e : exn) (w : world).
Arguments Done {A} a w.
Arguments Raised {A} e w.

Definition M (A : Type) : Type := world -> outcome A.

#[export] Instance M_ret : MRet M := fun A a w => Done a w.
#[export] Instance M_bind : MBind M := fun A B k m w =>
  match m w with Done a w' => k a w' | Raised e w' => Raised e w' end.

Definition raise {A} (e : exn) : M A := fun w => Raised e w.
Definition get : M world := fun w => Done w w.
Definition gets {A} (f : world -> A) : M A := fun w => Done (f w) w.
Definition modify (f : world -> world) : M unit := fun w => Done tt (f w).
Definition skip : M unit := mret tt.
Definition when (b : bool) (m : M unit) : M unit := if b then m else skip.

Fixpoint mfor {A} (l : list A) (body : A -> M unit) : M unit :=
  match l with
  | [] => skip
  | x :: l' => body x;; mfor l' body
  end.

(** The state after a computation, and whether it returned. *)
Definition state_of {A} (o : outcome A) : world :=
  match o with Done _ w => w | Raised _ w => w end.
Definition run {A} (m : M A) (w : world) : world := state_of (m w).

(** ** Primitive actions *)

Definition inc_by (c : Counter) (n : Z) : M unit :=
  modify (fun w => w <| counters ::= fun v c' =>
    if decide (c' = c) then u64 (v c + n) else v c' |>).
Definition inc (c : Counter) : M unit := inc_by c 1.

(** The number of the next system call. *)
Definition next_call : M nat :=
  fun w => Done (calls w) (w <| calls ::= S |>).
Definition emit (e : io) : M unit := modify (fun w => w <| trace ::= cons e |>).

(** [operator new]: a fresh object identity. *)
Definition fresh_ptr : M nat :=
  fun w => Done (next_ptr w) (w <| next_ptr ::= S |>).

Definition set_groups (gs : list ConnectionGroup) : M unit :=
  modify (fun w => w <| groups := gs |>).

(** Writing through a [shared_ptr<ConnectionGroup>] or
    [shared_ptr<Connection>]: the object with that identity changes. *)
Definition on_group (p : nat) (f : ConnectionGroup -> ConnectionGroup)
  (gs : list ConnectionGroup) : list ConnectionGroup :=
  map (fun g => if decide (g_ptr g = p) then f g else g) gs.
Definition on_conn (p : nat) (f : Connection -> Connection)
  (cs : list Connection) : list Connection :=
  map (fun c => if decide (c_ptr c = p) then f c else c) cs.

Definition modify_group (p : nat) (f : ConnectionGroup -> ConnectionGroup) : M unit :=
  modify (fun w => w <| groups ::= on_group p f |>).
(** Reading through such a pointer. *)
Definition lookup_group (p : nat) (gs : list ConnectionGroup) : option ConnectionGroup :=
  find_first (fun g => bool_decide (g_ptr g = p)) gs.
Definition lookup_conn (p : nat) (cs : list Connection) : option Connection :=
  find_first (fun c => bool_decide (c_ptr c = p)) cs.

Definition deref_group (p : nat) : M ConnectionGroup := fun w =>
  match lookup_group p (groups w) with
  | Some g => Done g w
  | None => Raised (UseAfterFree p) w
  end.
Definition deref_conn (gp cp : nat) : M Connection :=
  g ← deref_group gp;
  match lookup_conn cp (connections g) with
  | Some c => mret c
  | None => raise (UseAfterFree cp)
  end.
Definition modify_conn (gp cp : nat) (f : Connection -> Connection) : M unit :=
  modify_group gp (fun g => g <| connections ::= on_conn cp f |>).

Section SystemCalls.
Context `{OS}.

Definition sendto (dst : sockaddr_storage) (data : list byte) : M Z :=
  t ← next_call; let ret := os_sendto t dst data in
  emit (IoSendto dst data ret);; mret ret.

Definition sendmmsg (dsts : list sockaddr_storage) (data : list byte) : M Z :=
  t ← next_call; let ret := os_sendmmsg t dsts data in
  emit (IoSendmmsg dsts data ret);; mret ret.

(** [send] on a group's socket, with the [errno] it leaves. *)
Definition send (fd : Z) (data : list byte) : M (Z * Z) :=
  t ← next_call; let r := os_send t fd data in
  emit (IoSend fd data r.1);; mret r.

(** [send] with [MSG_NOSIGNAL], to a client of the metrics endpoint. *)
Definition respond (client : Z) (data : list byte) : M (Z * Z) :=
  t ← next_call; let r := os_send t client data in
  emit (IoRespond client data r.1);; mret r.

(** [recv] into an [MTU]-byte buffer; [None] is a failed call. *)
Definition recv (fd : Z) : M (option (list byte)) :=
  t ← next_call; mret (take (Z.to_nat MTU) <$> os_recv t fd).

Definition socket : M Z :=
  t ← next_call; let fd := os_socket t in emit (IoSocket fd);; mret fd.
Definition setsockopt (fd : Z) : M Z := t ← next_call; mret (os_setsockopt t fd).
Definition fcntl_getfl (fd : Z) : M Z := t ← next_call; mret (os_fcntl_getfl t fd).
Definition fcntl_setfl (fd : Z) : M Z := t ← next_call; mret (os_fcntl_setfl t fd).
Definition connect (fd : Z) : M Z := t ← next_call; mret (os_connect t fd).

(** [close] also takes the descriptor out of every epoll set. *)
Definition close (fd : Z) : M unit :=
  t ← next_call; emit (IoClose fd);;
  modify (fun w => w <| epoll_set ::= filter (fun e => e.1 <> fd) |>).

(** [NetworkUtils::epoll_add] and [epoll_remove] on the receiver's epoll. *)
Definition epoll_add (fd : Z) (ptr : nat) : M Z :=
  t ← next_call; let ret := os_epoll_ctl t fd in
  emit (IoEpollAdd fd ptr ret);;
  when (ret =? 0) (modify (fun w => w <| epoll_set ::= cons (fd, ptr) |>));;
  mret ret.
Definition epoll_remove (fd : Z) : M unit :=
  t ← next_call; emit (IoEpollDel fd);;
  modify (fun w => w <| epoll_set ::= filter (fun e => e.1 <> fd) |>).

(** [NetworkUtils::get_local_port]: 0 when the port cannot be read. *)
Definition get_local_port (fd : Z) : M Z :=
  t ← next_call;
  mret (match os_getsockname t fd with
        | None => 0
        | Some a =>
            if ss_family a =? AF_INET then sin_port a
            else if ss_family a =? AF_INET6 then sin_port a else 0
        end).

(** [get_seconds] and [get_ms] read [CLOCK_MONOTONIC_COARSE] as seconds and
    nanoseconds; [None] is a failed [clock_gettime]. *)
Definition get_seconds : M (option Z) :=
  t ← next_call; mret (fst <$> os_clock_gettime t).
Definition get_ms : M (option Z) :=
  t ← next_call;
  mret ((fun ts => u64 (u64 ts.1 * 1000 + u64 ts.2 / 1000 / 1000)) <$> os_clock_gettime t).

(** Opening a file for writing. *)
Definition open_file : M bool := t ← next_call; mret (os_open_file t).

(** [pad_sendto]: a datagram of at least [PAD_LEN] bytes. *)
Definition pad_sendto (buf : list byte) (dst : sockaddr_storage) : M Z :=
  ret ← sendto dst (pad_payload buf); mret (pad_result buf ret).

(** The read loop of [NetworkUtils::get_random_bytes]; [fuel] bounds its
    iterations, each of which reads at least one byte or throws. *)
Fixpoint read_random (fuel : nat) (total_read : list byte) (size : Z) : M (list byte) :=
  if Zlength total_read <? size then
    match fuel with
    | O => raise RuntimeError
    | S fuel' =>
        t ← next_call;
        let chunk := take (Z.to_nat (size - Zlength total_read))
                       (os_urandom_read t (size - Zlength total_read)) in
        if Zlength chunk <=? 0 then raise RuntimeError
        else read_random fuel' (total_read ++ chunk) size
    end
  else mret total_read.

Definition get_random_bytes (size : Z) : M (list byte) :=
  t ← next_call;
  if negb (os_urandom_open t) then raise RuntimeError
  else read_random (Z.to_nat size) [] size.

End SystemCalls.
