(* ===== verification/Registry.v ===== *)
(** * The connection registry (src/connection/connection_registry.cpp) and
    the group operations with side effects (src/connection/connection_group.cpp) *)

From stdpp Require Import list gmap.
From S2P Require Import Prelude Config Wire NetUtils NakDedup Connection World.

(** ** Socket info files and destruction of groups *)

Section GroupFiles.
Context `{OS}.

Definition write_socket_info_file (g : ConnectionGroup) : M unit :=
  if srt_socket g =? -1 then skip else
  local_port ← get_local_port (srt_socket g);
  let client_addresses := get_client_addresses g in
  opened ← open_file;
  when opened (emit (IoWriteInfo local_port client_addresses)).

Definition remove_socket_info_file (g : ConnectionGroup) : M unit :=
  if srt_socket g =? -1 then skip else
  local_port ← get_local_port (srt_socket g);
  emit (IoRemoveInfo local_port).

(** [~ConnectionGroup], run when the last [shared_ptr] goes away. *)
Definition destroy_group (g : ConnectionGroup) : M unit :=
  if 0 <? srt_socket g then
    remove_socket_info_file g;;
    when (0 <=? epoll_fd g) (epoll_remove (srt_socket g));;
    close (srt_socket g)
  else skip.

End GroupFiles.

(** ** Lookup *)

Definition conn_timed_out (conn : Connection) (ts : Z) : bool :=
  last_received conn + CONN_TIMEOUT <? ts.

Definition find_group_by_id (id : list byte) (gs : list ConnectionGroup)
  : option ConnectionGroup :=
  find_first (fun g => constant_time_compare (g_id g) id SRTLA_ID_LEN =? 0) gs.

(** The group an address belongs to and, when the address is that of one of
    its connections rather than only the group's last address, that one. *)
Fixpoint find_by_address (addr : sockaddr_storage) (gs : list ConnectionGroup)
  : option (ConnectionGroup * option Connection) :=
  match gs with
  | [] => None
  | g :: gs' =>
      match find_first (fun c => addresses_equal (address c) addr) (connections g) with
      | Some c => Some (g, Some c)
      | None =>
          if addresses_equal (last_address g) addr then Some (g, None)
          else find_by_address addr gs'
      end
  end.

(** ** Updates *)

Definition add_group (g : ConnectionGroup) : M unit :=
  modify (fun w => w <| groups ::= fun gs => gs ++ [g] |>).

(** The scan of [evict_oldest_pending_group]. *)
Definition is_pending (g : ConnectionGroup) : bool :=
  negb (negb (bool_decide (connections g = [])) || data_seen g).

Definition older (oldest : option ConnectionGroup) (g : ConnectionGroup)
  : option ConnectionGroup :=
  if negb (is_pending g) then oldest else
  match oldest with
  | None => Some g
  | Some o => if created_at g <? created_at o then Some g else Some o
  end.
Definition oldest_pending (gs : list ConnectionGroup) : option ConnectionGroup :=
  fold_left older gs None.

Section Updates.
Context `{OS}.

(** Erasing the pointer from the vector drops the last reference kept
    beyond the current handler: the group is destroyed. *)
Definition remove_group (p : nat) : M unit :=
  gs ← gets groups;
  set_groups (filter (fun g => g_ptr g <> p) gs);;
  match lookup_group p gs with
  | Some g => destroy_group g
  | None => skip
  end.

Definition evict_oldest_pending_group : M bool :=
  gs ← gets groups;
  match oldest_pending gs with
  | None => mret false
  | Some oldest =>
      inc GROUPS_REMOVED_EVICTED;;
      remove_group (g_ptr oldest);;
      mret true
  end.

(** ** Periodic cleanup *)

(** One connection: recovery bookkeeping, then expiry or a keepalive.
    [None] is an erased connection. *)
Definition cleanup_recovery (current_time : Z) (conn : Connection) : M Connection :=
  if 0 <? recovery_start conn then
    if recovery_start conn <? last_received conn then
      if RECOVERY_CHANCE_PERIOD <? current_time - recovery_start conn then
        inc RECOVERY_COMPLETED;; mret (conn <| recovery_start := 0 |>)
      else mret conn
    else if recovery_start conn + RECOVERY_CHANCE_PERIOD <? current_time then
      inc RECOVERY_FAILED;; mret (conn <| recovery_start := 0 |>)
    else mret conn
  else mret conn.

Definition cleanup_conn (current_time : Z) (keepalive_cb : Connection -> M unit)
  (conn : Connection) : M (option Connection) :=
  conn ← cleanup_recovery current_time conn;
  if conn_timed_out conn current_time then
    inc CONNECTIONS_REMOVED;; mret None
  else
    when (last_received conn + KEEPALIVE_PERIOD <? current_time) (keepalive_cb conn);;
    mret (Some conn).

Fixpoint cleanup_conns (current_time : Z) (keepalive_cb : Connection -> M unit)
  (cs : list Connection) : M (list Connection) :=
  match cs with
  | [] => mret []
  | c :: cs' =>
      kept ← cleanup_conn current_time keepalive_cb c;
      rest ← cleanup_conns current_time keepalive_cb cs';
      mret (match kept with Some c' => c' :: rest | None => rest end)
  end.

Definition empty_timeout (g : ConnectionGroup) : Z :=
  if data_seen g then GROUP_TIMEOUT else PENDING_GROUP_TIMEOUT.

(** One group: [None] is an erased (and destroyed) group. *)
Definition cleanup_group (current_time : Z) (keepalive_cb : Connection -> M unit)
  (g : ConnectionGroup) : M (option ConnectionGroup) :=
  let before_conns := length (connections g) in
  cs ← cleanup_conns current_time keepalive_cb (connections g);
  let g := g <| connections := cs |> in
  if bool_decide (cs = []) && (created_at g + empty_timeout g <? current_time) then
    inc GROUPS_REMOVED_IDLE;; destroy_group g;; mret None
  else
    when (negb (before_conns =? length cs)%nat) (write_socket_info_file g);;
    mret (Some g).

Fixpoint cleanup_groups (current_time : Z) (keepalive_cb : Connection -> M unit)
  (gs : list ConnectionGroup) : M (list ConnectionGroup) :=
  match gs with
  | [] => mret []
  | g :: gs' =>
      kept ← cleanup_group current_time keepalive_cb g;
      rest ← cleanup_groups current_time keepalive_cb gs';
      mret (match kept with Some g' => g' :: rest | None => rest end)
  end.

Definition cleanup_inactive (current_time : Z) (keepalive_cb : Connection -> M unit) : M unit :=
  run_at ← gets last_run;
  if current_time <? run_at + CLEANUP_PERIOD then skip else
  modify (fun w => w <| last_run := current_time |>);;
  gs ← gets groups;
  if bool_decide (gs = []) then skip else
  gs' ← cleanup_groups current_time keepalive_cb gs;
  set_groups gs'.

End Updates.
