(* ===== verification/Double.v ===== *)
(** * IEEE 754 double precision

    The receiver's quality arithmetic is on C++ [double]s.  It is modelled
    bit for bit by the Standard Library's executable specification of binary
    floating point at precision 53 and exponent bound 1024 (round to nearest
    even; no extended precision and no contraction to fused operations). *)

From Corelib Require Export SpecFloat.
From stdpp Require Import list.
From S2P Require Import Prelude.

Definition double : Type := spec_float.

Definition dadd : double -> double -> double := SFadd 53 1024.
Definition dsub : double -> double -> double := SFsub 53 1024.
Definition dmul : double -> double -> double := SFmul 53 1024.
Definition ddiv : double -> double -> double := SFdiv 53 1024.
Definition dsqrt : double -> double := SFsqrt 53 1024.

(** The C++ comparisons: false as soon as one side is a NaN. *)
Definition dlt : double -> double -> bool := SFltb.
Definition dle : double -> double -> bool := SFleb.
Definition dgt (a b : double) : bool := SFltb b a.

(** Conversion of an integer, rounded to nearest even. *)
Definition of_int (z : Z) : double := binary_normalize 53 1024 z 0 false.

(** A decimal literal [n / d]: the nearest double, since [n] and [d] are
    exact and division is correctly rounded. *)
Definition lit (n d : Z) : double := ddiv (of_int n) (of_int d).

Definition d0 : double := of_int 0.

(** [static_cast<uint64_t>]: truncation, for values in range. *)
Definition to_u64 (x : double) : Z :=
  match x with
  | S754_finite s m e =>
      let t := if 0 <=? e then Z.pos m * 2 ^ e else Z.pos m / 2 ^ (- e) in
      u64 (if s then - t else t)
  | _ => 0
  end.

(** [std::max(a, b)]: [a] unless [a < b]. *)
Definition dmax (a b : double) : double := if dlt a b then b else a.

(** [std::sort] with [operator<]. *)
Fixpoint dinsert (x : double) (l : list double) : list double :=
  match l with
  | [] => [x]
  | y :: l' => if dlt y x then y :: dinsert x l' else x :: l
  end.
Definition dsort (l : list double) : list double := fold_right dinsert [] l.

Example lit_tenths : lit 3 10 = S754_finite false 5404319552844595 (-54).
Proof. by vm_compute. Qed.

(** ** Facts *)

Lemma dlt_zero_l s x : dlt (S754_zero s) x = true -> exists m e, x = S754_finite false m e \/ x = S754_infinity false.
Proof.
  unfold dlt, SFltb. destruct x as [s'|[]| |[] m e]; cbn; try done; intros _.
  - by exists 1%positive, 0; right.
  - by exists m, e; left.
Qed.

(** Zero divided by a positive number is zero. *)
Lemma ddiv_zero s x : dgt x (S754_zero s) = true -> exists s', ddiv (S754_zero s) x = S754_zero s'.
Proof.
  unfold dgt. intros H. destruct (dlt_zero_l _ _ H) as (m & e & [E|E]); rewrite E; cbn; eauto.
Qed.

Lemma dinsert_length x l : length (dinsert x l) = S (length l).
Proof. induction l as [|y l IH]; cbn; [done|]. destruct (dlt y x); cbn; congruence. Qed.

Lemma dsort_length l : length (dsort l) = length l.
Proof. induction l as [|x l IH]; cbn; [done|]. rewrite dinsert_length. by f_equal. Qed.

Lemma dinsert_perm x l : dinsert x l ≡ₚ x :: l.
Proof.
  induction l as [|y l IH]; cbn; [done|]. destruct (dlt y x); [|done].
  rewrite IH. apply Permutation_swap.
Qed.

Lemma dsort_perm l : dsort l ≡ₚ l.
Proof. induction l as [|x l IH]; cbn; [done|]. rewrite dinsert_perm. by constructor. Qed.
