(* ===== verification/Quality.v ===== *)
(** * Quality evaluation and load balancing
    (src/quality/quality_evaluator.cpp, src/quality/load_balancer.cpp) *)

From stdpp Require Import list gmap.
From S2P Require Import Prelude Config NetUtils Connection World Double.

(** ** Floating-point thresholds *)

Definition D100 : double := Eval vm_compute in of_int 100.
Definition D1000 : double := Eval vm_compute in of_int 1000.
Definition D8 : double := Eval vm_compute in of_int 8.
Definition D2 : double := Eval vm_compute in of_int 2.
Definition D0_01 : double := Eval vm_compute in lit 1 100.
Definition D0_05 : double := Eval vm_compute in lit 5 100.
Definition D0_10 : double := Eval vm_compute in lit 10 100.
Definition D0_20 : double := Eval vm_compute in lit 20 100.
Definition D0_3 : double := Eval vm_compute in lit 3 10.
Definition D0_5 : double := Eval vm_compute in lit 5 10.
Definition D0_7 : double := Eval vm_compute in lit 7 10.
Definition D0_85 : double := Eval vm_compute in lit 85 100.
Definition MIN_ACCEPTABLE_TOTAL_BANDWIDTH_KBPS : double := D1000.
Definition GOOD_CONNECTION_THRESHOLD : double := D0_5.
Definition WINDOW_UTILIZATION_CONGESTED : double := Eval vm_compute in lit 95 100.
Definition NAK_RATE_CRITICAL : double := D0_20.
Definition NAK_RATE_HIGH : double := D0_10.
Definition NAK_RATE_MODERATE : double := D0_05.
Definition NAK_RATE_LOW : double := D0_01.

(** ** Measurement: the first loop of [evaluate_group] *)

Record QualityMetrics := mkMetrics {
  bandwidth_kbits_per_sec : double;
  packet_loss_ratio : double;
  packets_diff : Z
}.

(** Metrics of one connection and its contribution to the group's
    [total_target_bandwidth]. *)
Definition measure (current_ms : Z) (s : ConnectionStats) : QualityMetrics * Z :=
  let time_diff_ms :=
    if 0 <? last_eval_time s then u64 (current_ms - last_eval_time s) else 0 in
  if 0 <? time_diff_ms then
    let bytes_diff := u64 (bytes_received s - last_bytes_received s) in
    let packets_diff := u64 (packets_received s - last_packets_received s) in
    let lost_diff := u32 (packets_lost s - last_packets_lost s) in
    let seconds := ddiv (of_int time_diff_ms) D1000 in
    let bandwidth_bytes_per_sec := ddiv (of_int bytes_diff) seconds in
    let kbits := ddiv (dmul bandwidth_bytes_per_sec D8) D1000 in
    let loss :=
      if 0 <? packets_diff
      then ddiv (of_int lost_diff) (of_int (u64 (packets_diff + lost_diff))) else d0 in
    (mkMetrics kbits loss packets_diff, to_u64 bandwidth_bytes_per_sec)
  else (mkMetrics d0 d0 0, 0).

(** ** Reference bandwidth *)

Definition max_kbits (infos : list QualityMetrics) : double :=
  fold_left (fun m i => dmax m (bandwidth_kbits_per_sec i)) infos d0.

(** The lambda [compute_median]; [values] is not empty. *)
Definition compute_median (values : list double) : double :=
  let sorted := dsort values in
  let mid := (length sorted / 2)%nat in
  if Nat.even (length sorted)
  then ddiv (dadd (nth (mid - 1) sorted d0) (nth mid sorted d0)) D2
  else nth mid sorted d0.

Definition median_kbits (infos : list QualityMetrics) : double :=
  let all_bandwidths := map bandwidth_kbits_per_sec infos in
  let mx := max_kbits infos in
  if negb (bool_decide (infos = [])) && dgt mx d0 then
    let good_threshold := dmul mx GOOD_CONNECTION_THRESHOLD in
    let good_bandwidths := List.filter (fun bw => dle good_threshold bw) all_bandwidths in
    match good_bandwidths with
    | [] => compute_median all_bandwidths
    | _ => compute_median good_bandwidths
    end
  else d0.

Definition min_expected_kbits (n : nat) : double :=
  dmax D100 (ddiv MIN_ACCEPTABLE_TOTAL_BANDWIDTH_KBPS (of_int (Z.of_nat n))).

(** ** Penalties *)

Definition bandwidth_points (ext : bool) (performance_ratio : double) : Z :=
  if ext then
    if dlt performance_ratio D0_3 then 10 else
    if dlt performance_ratio D0_5 then 7 else
    if dlt performance_ratio D0_7 then 4 else
    if dlt performance_ratio D0_85 then 2 else 0
  else
    if dlt performance_ratio D0_3 then 40 else
    if dlt performance_ratio D0_5 then 25 else
    if dlt performance_ratio D0_7 then 15 else
    if dlt performance_ratio D0_85 then 5 else 0.

Definition loss_points (packet_loss_ratio : double) : Z :=
  if dgt packet_loss_ratio D0_20 then 40 else
  if dgt packet_loss_ratio D0_10 then 20 else
  if dgt packet_loss_ratio D0_05 then 10 else
  if dgt packet_loss_ratio D0_01 then 5 else 0.

Definition calculate_rtt_variance (s : ConnectionStats) : double :=
  let samples := List.filter (fun r => 0 <? r) (rtt_history s) in
  let count := Zlength samples in
  let sum := fold_left (fun acc r => dadd acc (of_int r)) samples d0 in
  if count <? 2 then d0 else
  let mean := ddiv sum (of_int count) in
  let variance_sum := fold_left (fun acc r =>
    let diff := dsub (of_int r) mean in dadd acc (dmul diff diff)) samples d0 in
  dsqrt (ddiv variance_sum (of_int count)).

Definition calculate_rtt_error_points (s : ConnectionStats) (current_time : Z) : Z :=
  if (last_keepalive s =? 0)
     || (KEEPALIVE_STALENESS_THRESHOLD <? current_time - last_keepalive s) then 0 else
  let base :=
    if RTT_THRESHOLD_CRITICAL <? rtt_ms s then 20 else
    if RTT_THRESHOLD_HIGH <? rtt_ms s then 10 else
    if RTT_THRESHOLD_MODERATE <? rtt_ms s then 5 else 0 in
  let jitter :=
    if dgt (calculate_rtt_variance s) (of_int RTT_VARIANCE_THRESHOLD) then 10 else 0 in
  base + jitter.

(** The points, and the statistics with [last_sender_nak_count] moved on. *)
Definition calculate_nak_error_points (s : ConnectionStats) (packets_diff : Z)
  : Z * ConnectionStats :=
  if (packets_diff =? 0) || (sender_nak_count s =? 0) then (0, s) else
  let nak_diff := u32 (sender_nak_count s - last_sender_nak_count s) in
  let nak_rate := ddiv (of_int nak_diff) (of_int packets_diff) in
  let points :=
    if dgt nak_rate NAK_RATE_CRITICAL then 40 else
    if dgt nak_rate NAK_RATE_HIGH then 20 else
    if dgt nak_rate NAK_RATE_MODERATE then 10 else
    if dgt nak_rate NAK_RATE_LOW then 5 else 0 in
  (points, s <| last_sender_nak_count := sender_nak_count s |>).

Definition calculate_window_error_points (s : ConnectionStats) : Z :=
  if window s <=? 0 then 0 else
  let utilization := ddiv (of_int (in_flight s)) (of_int (window s)) in
  if dgt utilization WINDOW_UTILIZATION_CONGESTED then 15 else 0.

(** The legacy scoring run beside the main one for comparison. *)
Definition legacy_weight (points : Z) : Z :=
  if 40 <=? points then WEIGHT_CRITICAL else
  if 30 <=? points then WEIGHT_POOR else
  if 20 <=? points then WEIGHT_FAIR else
  if 10 <=? points then WEIGHT_DEGRADED else
  if 5 <=? points then WEIGHT_EXCELLENT else WEIGHT_FULL.

Definition evaluate_connection_legacy (packet_loss_ratio performance_ratio : double)
  (s : ConnectionStats) : ConnectionStats :=
  let points := u32 (bandwidth_points false performance_ratio + loss_points packet_loss_ratio) in
  s <| legacy_error_points := points |> <| legacy_weight_percent := legacy_weight points |>.

(** ** Evaluation: the second loop *)

Definition performance_ratio (median min_expected bandwidth : double) : double :=
  let is_poor_connection := dlt bandwidth (dmul median GOOD_CONNECTION_THRESHOLD) in
  let expected := if is_poor_connection then min_expected else median in
  let expected := dmax expected min_expected in
  if dgt expected d0 then ddiv bandwidth expected else d0.

Definition in_grace_period (current_time : Z) (conn : Connection) : bool :=
  current_time - connection_start conn <? CONNECTION_GRACE_PERIOD.

Definition evaluate_stats (current_time current_ms : Z) (median min_expected : double)
  (metrics : QualityMetrics) (s : ConnectionStats) : ConnectionStats :=
  let ratio := performance_ratio median min_expected (bandwidth_kbits_per_sec metrics) in
  let s := s <| error_points :=
    u32 (bandwidth_points (supports_extended_keepalives s) ratio
         + loss_points (packet_loss_ratio metrics)) |> in
  let s :=
    if has_valid_sender_telemetry s current_time then
      let rtt := calculate_rtt_error_points s current_time in
      let '(nak, s) := calculate_nak_error_points s (packets_diff metrics) in
      let win := calculate_window_error_points s in
      s <| error_points := u32 (error_points s + (rtt + nak + win)) |>
    else s in
  let s := reset_period current_ms s in
  let s := s <| nack_count := 0 |> in
  evaluate_connection_legacy (packet_loss_ratio metrics) ratio s.

Definition evaluate_conn (current_time current_ms : Z) (median min_expected : double)
  (conn : Connection) (metrics : QualityMetrics) : Connection :=
  if in_grace_period current_time conn then conn
  else conn <| stats ::= evaluate_stats current_time current_ms median min_expected metrics |>.

(** The whole evaluation of a group at a known time. *)
Definition evaluate_group_at (current_time current_ms : Z) (g : ConnectionGroup)
  : ConnectionGroup :=
  let measured := map (fun c => measure current_ms (stats c)) (connections g) in
  let infos := map fst measured in
  let total := fold_left (fun acc b => u64 (acc + b)) (map snd measured) 0 in
  let median := median_kbits infos in
  let min_expected := min_expected_kbits (length infos) in
  g <| total_target_bandwidth := total |>
    <| connections := zip_with (evaluate_conn current_time current_ms median min_expected)
                        (connections g) infos |>
    <| last_quality_eval := current_time |>.

Definition evaluate_group `{OS} (gp : nat) (current_time : Z) : M unit :=
  g ← deref_group gp;
  if bool_decide (connections g = []) || negb (load_balancing_enabled g) then skip else
  if current_time <? last_quality_eval g + CONN_QUALITY_EVAL_PERIOD then skip else
  modify_group gp (fun g => g <| total_target_bandwidth := 0 |>);;
  ms ← get_ms;
  match ms with
  | None => skip
  | Some current_ms => modify_group gp (evaluate_group_at current_time current_ms)
  end.

(** ** Load balancing *)

Definition weight_of_points (points : Z) : Z :=
  if 40 <=? points then WEIGHT_CRITICAL else
  if 25 <=? points then WEIGHT_POOR else
  if 15 <=? points then WEIGHT_FAIR else
  if 10 <=? points then WEIGHT_DEGRADED else
  if 5 <=? points then WEIGHT_EXCELLENT else WEIGHT_FULL.

Definition reweigh (conn : Connection) : Connection :=
  conn <| stats ::= fun s => s <| weight_percent := weight_of_points (error_points s) |> |>.

Definition balance_due (g : ConnectionGroup) (current_time : Z) : bool :=
  if load_balancing_enabled g
  then negb (last_quality_eval g <=? last_load_balance_eval g)
  else negb (negb (last_load_balance_eval g =? 0)
             && (current_time <? last_load_balance_eval g + CONN_QUALITY_EVAL_PERIOD)).

Definition adjust_weights_at (current_time : Z) (g : ConnectionGroup) : ConnectionGroup :=
  if bool_decide (connections g = []) || negb (balance_due g current_time) then g
  else g <| last_load_balance_eval := current_time |> <| connections ::= map reweigh |>.

Definition adjust_weights (gp : nat) (current_time : Z) : M unit :=
  modify_group gp (adjust_weights_at current_time).
