(* ===== verification/Exporter.v ===== *)
(** * The metrics exporter (src/metrics/prometheus.cpp)

    The Prometheus text of the counters and gauges, and the HTTP responses
    that carry it.  Text is the bytes that are sent. *)

From Stdlib Require Import Strings.Ascii Strings.String Strings.Byte.
From stdpp Require Import list gmap.
From S2P Require Import Prelude Config Wire NetUtils AuthRateLimiter Connection World Registry.

#[local] Open Scope string_scope.
#[local] Open Scope list_scope.
#[local] Open Scope Z_scope.

(** ** Text *)

Definition text : Type := list byte.
Definition str (s : string) : text := list_byte_of_string s.
Definition nl : text := [Byte.x0a].
(** The double quote. *)
Definition quote : string := String "034"%char EmptyString.

Definition digit (d : Z) : byte := byte_of (48 + d).
Fixpoint digits (fuel : nat) (n : Z) : text :=
  match fuel with
  | O => []
  | S fuel' => if n <? 10 then [digit n] else digits fuel' (n / 10) ++ [digit (n mod 10)]
  end.
(** [std::to_string] of a 64-bit integer, which has at most 20 digits. *)
Definition to_string (z : Z) : text :=
  if z <? 0 then str "-" ++ digits 20 (- z) else digits 20 z.

(** Conversion to [long long]. *)
Definition i64 (z : Z) : Z := let v := u64 z in if v <? 2 ^ 63 then v else v - 2 ^ 64.

(** The HELP and TYPE lines of a metric, and a sample. *)
Definition header (name help type : string) : text :=
  str "# HELP " ++ str name ++ str " " ++ str help ++ nl ++
  str "# TYPE " ++ str name ++ str " " ++ str type ++ nl.
Definition sample_line (series : text) (value : Z) : text :=
  series ++ str " " ++ to_string value ++ nl.

(** ** The counters *)

Record Def := mkDef { d_id : Counter; d_name : string; d_labels : string; d_help : string }.

(** One label with its value. *)
Definition label (key value : string) : string :=
  ("{" ++ key ++ "=" ++ quote ++ value ++ quote ++ "}")%string.

Definition kDefs : list Def := [
  mkDef AUTH_FAILURES "srtla_auth_failures_total" "" "SRT authentication failures relayed back from the SRT server";
  mkDef BYTES_RECEIVED "srtla_bytes_received_total" "" "Bytes received from SRTLA clients";
  mkDef CONN_REGISTRATIONS "srtla_conn_registrations_total" "" "Accepted connection registrations (REG2)";
  mkDef CONN_REG_NO_GROUP "srtla_conn_registrations_rejected_total" (label "reason" "no_group") "Rejected connection registrations";
  mkDef CONN_REG_GROUP_MISMATCH "srtla_conn_registrations_rejected_total" (label "reason" "group_mismatch") "";
  mkDef CONN_REG_MAX_CONNS "srtla_conn_registrations_rejected_total" (label "reason" "max_conns") "";
  mkDef CONN_REG_SEND_ERROR "srtla_conn_registrations_rejected_total" (label "reason" "send_error") "";
  mkDef CONNECTIONS_REMOVED "srtla_connections_removed_total" "" "Connections dropped after CONN_TIMEOUT without traffic";
  mkDef FORWARD_DROPPED "srtla_forward_dropped_total" "" "Client packets dropped because the SRT socket send buffer was full; SRT recovers them when a later packet exposes the gap";
  mkDef FORWARD_ERRORS "srtla_forward_errors_total" "" "Failures forwarding a client packet to the SRT server that ended the group";
  mkDef FORWARDED_BYTES "srtla_forwarded_bytes_total" "" "Bytes forwarded to the SRT server";
  mkDef FORWARDED_PACKETS "srtla_forwarded_packets_total" "" "Packets forwarded to the SRT server";
  mkDef GROUP_REGISTRATIONS "srtla_group_registrations_total" "" "Accepted group registrations (REG1)";
  mkDef GROUP_REG_THROTTLED "srtla_group_registrations_rejected_total" (label "reason" "throttled") "Rejected group registrations";
  mkDef GROUP_REG_TABLE_FULL "srtla_group_registrations_rejected_total" (label "reason" "table_full") "";
  mkDef GROUP_REG_DUP_ADDR "srtla_group_registrations_rejected_total" (label "reason" "duplicate_address") "";
  mkDef GROUP_REG_SEND_ERROR "srtla_group_registrations_rejected_total" (label "reason" "send_error") "";
  mkDef GROUPS_REMOVED_IDLE "srtla_groups_removed_total" (label "reason" "idle_timeout") "Groups torn down, by cause";
  mkDef GROUPS_REMOVED_AUTH "srtla_groups_removed_total" (label "reason" "auth_failed") "";
  mkDef GROUPS_REMOVED_SRT_ERROR "srtla_groups_removed_total" (label "reason" "srt_error") "";
  mkDef GROUPS_REMOVED_EVICTED "srtla_groups_removed_total" (label "reason" "evicted") "";
  mkDef NAKS_RECEIVED "srtla_naks_received_total" "" "SRT NAK packets accepted from clients";
  mkDef NAKS_SUPPRESSED "srtla_naks_suppressed_total" "" "SRT NAK packets dropped as duplicates";
  mkDef PACKETS_RECEIVED "srtla_packets_received_total" "" "Packets received from SRTLA clients";
  mkDef RECOVERY_STARTED "srtla_recoveries_total" (label "result" "started") "Connection recovery attempts";
  mkDef RECOVERY_COMPLETED "srtla_recoveries_total" (label "result" "completed") "";
  mkDef RECOVERY_FAILED "srtla_recoveries_total" (label "result" "failed") "";
  mkDef RECV_BATCHES "srtla_recv_batches_total" "" "recvmmsg() calls that returned at least one packet; packets/batches is the receive-loop fill ratio";
  mkDef SEND_ERR_ACK "srtla_send_errors_total" (label "path" "ack") "Failed sends towards clients, by path";
  mkDef SEND_ERR_KEEPALIVE "srtla_send_errors_total" (label "path" "keepalive") "";
  mkDef SEND_ERR_DOWNSTREAM "srtla_send_errors_total" (label "path" "downstream") "";
  mkDef SRT_BYTES_RECEIVED "srtla_srt_bytes_received_total" "" "Bytes received from the SRT server";
  mkDef SRT_PACKETS_RECEIVED "srtla_srt_packets_received_total" "" "Packets received from the SRT server"
].

(** The loop over [kDefs]; [prev_name] is the metric of the last header. *)
Fixpoint render_defs (prev_name : string) (values : Counter -> Z) (defs : list Def) : text :=
  match defs with
  | [] => []
  | def :: defs' =>
      (if String.eqb prev_name (d_name def) then []
       else header (d_name def) (d_help def) "counter") ++
      sample_line (str (d_name def) ++ str (d_labels def)) (values (d_id def)) ++
      render_defs (if String.eqb prev_name (d_name def) then prev_name else d_name def) values defs'
  end.

(** ** Gauges *)

Definition append_gauge (name help : string) (value : Z) : text :=
  header name help "gauge" ++ sample_line (str name) value.

(** ** Series per connection *)

Record ConnDef := mkConnDef {
  cd_name : string;
  cd_type : string;
  cd_help : string;
  cd_value : Connection -> Z -> Z
}.

Definition kConnDefs : list ConnDef := [
  mkConnDef "srtla_conn_bytes_received_total" "counter" "Bytes received on this connection"
    (fun c _ => i64 (bytes_received (stats c)));
  mkConnDef "srtla_conn_packets_received_total" "counter" "Packets received on this connection"
    (fun c _ => i64 (packets_received (stats c)));
  mkConnDef "srtla_conn_packets_lost_total" "counter" "Packets reported lost (NAKs) on this connection"
    (fun c _ => i64 (packets_lost (stats c)));
  mkConnDef "srtla_conn_weight_percent" "gauge" "Load-balancing weight assigned to this connection"
    (fun c _ => i64 (weight_percent (stats c)));
  mkConnDef "srtla_conn_error_points" "gauge" "Quality error points accumulated in the last evaluation"
    (fun c _ => i64 (error_points (stats c)));
  mkConnDef "srtla_conn_rtt_ms" "gauge" "Round-trip time reported by the sender (extended keepalives only)"
    (fun c _ => i64 (rtt_ms (stats c)));
  mkConnDef "srtla_conn_window" "gauge" "Sender-side congestion window (extended keepalives only)"
    (fun c _ => i64 (window (stats c)));
  mkConnDef "srtla_conn_in_flight" "gauge" "Sender-side in-flight packets (extended keepalives only)"
    (fun c _ => i64 (in_flight (stats c)));
  mkConnDef "srtla_conn_sender_bitrate_bytes_per_second" "gauge" "Send rate reported by the sender (extended keepalives only)"
    (fun c _ => i64 (sender_bitrate_bps (stats c)));
  mkConnDef "srtla_conn_idle_seconds" "gauge" "Seconds since the last packet on this connection"
    (fun c now => i64 (now - last_received c));
  mkConnDef "srtla_conn_extended_keepalives" "gauge" "1 if the sender sends extended keepalives with telemetry"
    (fun c _ => if supports_extended_keepalives (stats c) then 1 else 0)
].

(** What the exporter is started with, the version the program is built
    with, and the C library's text of an address. *)
Class ExporterConfig := {
  detailed_ : bool;
  start_time_ : Z;
  VERSION : string;
  inet_ntop : Z -> list byte -> text
}.

Section Exporter.
Context `{OS} `{ExporterConfig}.

(** [IN6_IS_ADDR_V4MAPPED]. *)
Definition is_v4mapped (a : list byte) : bool :=
  bool_decide (take 12 a = replicate 10 Byte.x00 ++ [Byte.xff; Byte.xff]).

(** [print_addr] and [port_no] of src/common.c. *)
Definition print_addr (addr : sockaddr_storage) : text :=
  if ss_family addr =? AF_INET6 then
    if is_v4mapped (sin6_addr addr) then inet_ntop AF_INET (drop 12 (sin6_addr addr))
    else inet_ntop AF_INET6 (sin6_addr addr)
  else inet_ntop AF_INET (sin_addr addr).
Definition port_no (addr : sockaddr_storage) : Z := sin_port addr.

Definition addr_label (addr : sockaddr_storage) : text :=
  print_addr addr ++ str ":" ++ to_string (port_no addr).

Definition conn_series (name : string) (group_port : Z) (conn : Connection) : text :=
  str name ++ str ("{group=" ++ quote)%string ++ to_string group_port ++
  str (quote ++ ",remote=" ++ quote)%string ++ addr_label (address conn) ++ str (quote ++ "}")%string.

Fixpoint mconcat {A B} (f : A -> M (list B)) (l : list A) : M (list B) :=
  match l with
  | [] => mret []
  | x :: l' => out ← f x; rest ← mconcat f l'; mret (out ++ rest)
  end.

(** The port a group is labelled with. *)
Definition group_port (g : ConnectionGroup) : M Z :=
  if 0 <=? srt_socket g then get_local_port (srt_socket g) else mret 0.

Definition render_group (def : ConnDef) (now : Z) (g : ConnectionGroup) : M text :=
  port ← group_port g;
  mret (concat (map (fun conn => sample_line (conn_series (cd_name def) port conn) (cd_value def conn now))
                  (connections g))).

Definition render_conns (now : Z) (gs : list ConnectionGroup) : M text :=
  mconcat (fun def =>
    lines ← mconcat (render_group def now) gs;
    mret (header (cd_name def) (cd_help def) (cd_type def) ++ lines)) kConnDefs.

(** The gauges read from the registry and the throttle. *)
Definition render_gauges (now : Z) (w : world) : text :=
  let established := Z.of_nat (length (List.filter established (groups w))) in
  let connections := Zlength (concat (map connections (groups w))) in
  header "srtla_build_info" "Build information" "gauge" ++
  sample_line (str ("srtla_build_info{version=" ++ quote ++ VERSION ++ quote ++ "}")%string) 1 ++
  append_gauge "srtla_start_time_seconds" "Unix time the receiver started" start_time_ ++
  append_gauge "srtla_groups" "Registered connection groups" (Zlength (groups w)) ++
  append_gauge "srtla_groups_established" "Groups whose SRT session was accepted by the SRT server" established ++
  append_gauge "srtla_connections" "Registered connections across all groups" connections ++
  append_gauge "srtla_auth_sources_blocked" "Source IPs currently blocked for repeated SRT auth failures"
    (Z.of_nat (blocked_count now (limiter w))).

Definition render (now : Z) : M text :=
  w ← get;
  let out := render_defs "" (counters w) kDefs ++ render_gauges now w in
  if negb detailed_ then mret out else
  conns ← render_conns now (groups w);
  mret (out ++ conns).

(** ** Scrapes *)

Definition crlf : text := [Byte.x0d; Byte.x0a].
Definition http_response (body : text) : text :=
  str "HTTP/1.1 200 OK" ++ crlf ++ str "Content-Type: text/plain; version=0.0.4" ++ crlf ++
  str "Content-Length: " ++ to_string (Zlength body) ++ crlf ++
  str "Connection: close" ++ crlf ++ crlf ++ body.

(** The send loop on the bytes not sent yet; [fuel] bounds the calls, of
    which those interrupted by a signal make no progress. *)
Fixpoint send_response (fuel : nat) (client : Z) (rest : text) : M unit :=
  match fuel with
  | O => skip
  | S fuel' =>
      if bool_decide (rest = []) then skip else
      '(ret, err) ← respond client rest;
      if ret <=? 0 then
        if err =? EINTR then send_response fuel' client rest else skip
      else send_response fuel' client (drop (Z.to_nat ret) rest)
  end.

Definition serve (body : text) (scrape : Z * nat) : M unit :=
  let '(client, fuel) := scrape in
  recv client;;
  send_response fuel client (http_response body);;
  close client.

(** [handle_event]: [scrapes] are the clients [accept4] returns before it
    fails, each with the number of [send] calls made for it at most. *)
Definition exporter_handle_event (scrapes : list (Z * nat)) : M unit :=
  if bool_decide (scrapes = []) then skip else
  now ← get_seconds;
  body ← render (default 0 now);
  mfor scrapes (serve body).

End Exporter.
