(* ===== verification/SrtHandler.v ===== *)
(** * The SRT side (src/protocol/srt_handler.cpp, src/protocol/forward_policy.h)

    Packets from the SRT server to the clients, and from a group to the SRT
    server. *)

From stdpp Require Import list gmap.
From S2P Require Import Prelude Config Wire NetUtils AuthRateLimiter Connection World Registry.

(** [EWOULDBLOCK] is [EAGAIN] on Linux, so its case is compiled out. *)
Definition is_transient_forward_error (err : Z) : bool :=
  (err =? EAGAIN) || (err =? ENOBUFS) || (err =? EINTR).

(** What the handler is constructed with: the resolved address of the SRT
    server and the descriptor of the receiver's epoll. *)
Class HandlerConfig := {
  srt_addr_ : sockaddr_storage;
  epoll_fd_ : Z
}.

Section SRTHandler.
Context `{OS} `{HandlerConfig}.

Definition kForwardDropLogIntervalMs : Z := 1000.

(** The rate limit of the drop warning: [true] when a line is logged. *)
Definition log_forward_drop : M bool :=
  modify (fun w => w <| dropped_since_log ::= fun n => u64 (n + 1) |>);;
  now ← get_ms;
  match now with
  | None => mret false
  | Some now_ms =>
      last ← gets last_log_ms;
      if negb (last =? 0) && (u64 (now_ms - last) <? kForwardDropLogIntervalMs)
      then mret false
      else
        modify (fun w => w <| dropped_since_log := 0 |> <| last_log_ms := now_ms |>);;
        mret true
  end.

Definition srt_remove_group (gp : nat) (reason : Counter) : M unit :=
  inc reason;; remove_group gp.

(** A step of [ensure_group_socket] that can fail: the socket is closed and
    the group removed. *)
Definition abandon_socket (gp : nat) (sock : Z) : M bool :=
  close sock;; srt_remove_group gp GROUPS_REMOVED_SRT_ERROR;; mret false.

Definition connect_srt (sock : Z) : M Z :=
  if ss_family srt_addr_ =? AF_INET then connect sock
  else if ss_family srt_addr_ =? AF_INET6 then connect sock
  else mret (-1).

Definition ensure_group_socket (gp : nat) : M bool :=
  g ← deref_group gp;
  if 0 <=? srt_socket g then mret true else
  sock ← socket;
  if sock <? 0 then srt_remove_group gp GROUPS_REMOVED_SRT_ERROR;; mret false else
  rcvbuf ← setsockopt sock;
  if negb (rcvbuf =? 0) then abandon_socket gp sock else
  sndbuf ← setsockopt sock;
  if negb (sndbuf =? 0) then abandon_socket gp sock else
  flags ← fcntl_getfl sock;
  if flags =? -1 then abandon_socket gp sock else
  setfl ← fcntl_setfl sock;
  if setfl =? -1 then abandon_socket gp sock else
  ret ← connect_srt sock;
  if negb (ret =? 0) then abandon_socket gp sock else
  _ ← get_local_port sock;
  added ← epoll_add sock gp;
  if negb (added =? 0) then abandon_socket gp sock else
  modify_group gp (fun g => g <| srt_socket := sock |> <| epoll_fd := epoll_fd_ |>);;
  g ← deref_group gp;
  write_socket_info_file g;;
  mret true.

Definition forward_to_srt_server (gp : nat) (buffer : list byte) : M bool :=
  ok ← ensure_group_socket gp;
  if negb ok then mret false else
  g ← deref_group gp;
  '(ret, err) ← send (srt_socket g) buffer;
  if ret =? Zlength buffer then
    inc FORWARDED_PACKETS;; inc_by FORWARDED_BYTES (Zlength buffer);; mret true
  else if (ret <? 0) && is_transient_forward_error err then
    inc FORWARD_DROPPED;; log_forward_drop;; mret true
  else
    inc FORWARD_ERRORS;; srt_remove_group gp GROUPS_REMOVED_SRT_ERROR;; mret false.

(** The relay of one server packet to the clients of the group. *)
Definition relay_to_clients (g : ConnectionGroup) (buf : list byte) (n : Z) : M unit :=
  let dsts := take (Z.to_nat MAX_CONNS_PER_GROUP) (map address (connections g)) in
  let msg_count := Zlength dsts in
  sent ← sendmmsg dsts buf;
  if sent <? 0 then inc_by SEND_ERR_DOWNSTREAM msg_count
  else if sent <? msg_count then inc_by SEND_ERR_DOWNSTREAM (msg_count - sent)
  else skip.

Definition relay_to_last (g : ConnectionGroup) (buf : list byte) (n : Z) : M unit :=
  ret ← pad_sendto buf (last_address g);
  when (negb (ret =? n)) (inc SEND_ERR_DOWNSTREAM).

Definition auth_failed (g : ConnectionGroup) (buf : list byte) (n : Z) : bool :=
  is_srt_handshake_reject buf n || (is_srt_shutdown buf n && negb (established g)).

(** [AuthRateLimiter::record_failure] with the counter it bumps. *)
Definition record_auth_failure (addr : sockaddr_storage) (now : Z) : M unit :=
  inc AUTH_FAILURES;;
  modify (fun w => w <| limiter ::= record_failure addr now |>).

(** A packet of acceptable length from the server. *)
Definition handle_srt_packet (gp : nat) (buf : list byte) (n : Z) : M unit :=
  when (is_srt_ack buf n) (modify_group gp (fun g => g <| established := true |>));;
  g ← deref_group gp;
  let failed_auth := auth_failed g buf n in
  when failed_auth
    (now ← get_seconds; record_auth_failure (last_address g) (default 0 now));;
  if (is_srt_ack buf n || is_srt_nak buf n) && bool_decide (connections g = []) then skip else
  (if is_srt_ack buf n || is_srt_nak buf n then relay_to_clients g buf n
   else relay_to_last g buf n);;
  when failed_auth (srt_remove_group gp GROUPS_REMOVED_AUTH).

Definition handle_srt_data (gp : nat) : M unit :=
  g ← deref_group gp;
  received ← recv (srt_socket g);
  let n := match received with Some buf => Zlength buf | None => -1 end in
  let buf := default [] received in
  when (SRT_MIN_LEN <=? n) (inc SRT_PACKETS_RECEIVED;; inc_by SRT_BYTES_RECEIVED n);;
  if n <? SRT_MIN_LEN then srt_remove_group gp GROUPS_REMOVED_SRT_ERROR
  else handle_srt_packet gp buf n.

End SRTHandler.
