(* ===== verification/SrtlaHandler.v ===== *)
(** * The SRTLA side (src/protocol/srtla_handler.cpp)

    Registration of groups and connections, keepalives, SRTLA ACKs and the
    demultiplexing of client packets. *)

From stdpp Require Import list gmap.
From S2P Require Import Prelude Config Wire NetUtils NakDedup AuthRateLimiter Connection World.
From S2P Require Import Registry Quality SrtHandler.

Section SRTLAHandler.
Context `{OS} `{HandlerConfig}.

(** A two-byte reply; its result is not looked at. *)
Definition reply (type : Z) (addr : sockaddr_storage) : M unit :=
  pad_sendto (header_packet type) addr;; skip.

Definition send_keepalive (conn : Connection) : M unit :=
  ret ← pad_sendto (header_packet SRTLA_TYPE_KEEPALIVE) (address conn);
  when (negb (ret =? 2)) (inc SEND_ERR_KEEPALIVE).

(** ** REG1 *)

(** The three checks before a group is created; [Some c] rejects the
    registration, counting it under [c]. *)
Definition reg1_refusal (addr : sockaddr_storage) (ts : Z) : M (option Counter) :=
  lim ← gets limiter;
  if is_blocked addr ts lim then mret (Some GROUP_REG_THROTTLED) else
  gs ← gets groups;
  full ← (if MAX_GROUPS <=? Zlength gs
          then evicted ← evict_oldest_pending_group; mret (negb evicted)
          else mret false);
  if full : bool then mret (Some GROUP_REG_TABLE_FULL) else
  gs ← gets groups;
  match find_by_address addr gs with
  | Some _ => mret (Some GROUP_REG_DUP_ADDR)
  | None => mret None
  end.

(** [std::make_shared<ConnectionGroup>(client_id, ts)]. *)
Definition make_group (client_id : list byte) (ts : Z) : M ConnectionGroup :=
  random_bytes ← get_random_bytes (SRTLA_ID_LEN / 2);
  p ← fresh_ptr;
  mret (new_group p client_id random_bytes ts).

Definition register_group (addr : sockaddr_storage) (buffer : list byte) (ts : Z) : M Z :=
  refusal ← reg1_refusal addr ts;
  match refusal with
  | Some reason => reply SRTLA_TYPE_REG_ERR addr;; inc reason;; mret (-1)
  | None =>
      group ← make_group (drop 2 buffer) ts;
      let group := group <| last_address := addr |> in
      let out_buf := reg2_packet (g_id group) in
      ret ← pad_sendto out_buf addr;
      if negb (ret =? SRTLA_TYPE_REG2_LEN) then
        inc GROUP_REG_SEND_ERROR;; mret (-1)
      else
        add_group group;; inc GROUP_REGISTRATIONS;; mret 0
  end.

(** ** REG2 *)

Definition reject_connection (type : Z) (reason : Counter) (addr : sockaddr_storage) : M Z :=
  reply type addr;; inc reason;; mret (-1).

Definition register_connection (addr : sockaddr_storage) (buffer : list byte) (ts : Z) : M Z :=
  gs ← gets groups;
  match find_group_by_id (drop 2 buffer) gs with
  | None => reject_connection SRTLA_TYPE_REG_NGP CONN_REG_NO_GROUP addr
  | Some group =>
      let found := find_by_address addr gs in
      let mismatch :=
        match found with
        | Some (tmp_group, _) => negb (bool_decide (g_ptr tmp_group = g_ptr group))
        | None => false
        end in
      if mismatch then reject_connection SRTLA_TYPE_REG_ERR CONN_REG_GROUP_MISMATCH addr else
      let conn := match found with Some (_, c) => c | None => None end in
      if bool_decide (conn = None) && (MAX_CONNS_PER_GROUP <=? Zlength (connections group))
      then reject_connection SRTLA_TYPE_REG_ERR CONN_REG_MAX_CONNS addr else
      new ← (match conn with
             | Some _ => mret None
             | None => p ← fresh_ptr; mret (Some (new_connection p addr ts))
             end);
      ret ← pad_sendto (header_packet SRTLA_TYPE_REG3) addr;
      if negb (ret =? 2) then inc CONN_REG_SEND_ERROR;; mret (-1) else
      (match new with
       | Some c => modify_group (g_ptr group) (add_connection c)
       | None => skip
       end);;
      g ← deref_group (g_ptr group);
      write_socket_info_file g;;
      modify_group (g_ptr group) (fun g => g <| last_address := addr |>);;
      inc CONN_REGISTRATIONS;;
      mret 0
  end.

(** ** SRTLA ACKs *)

Definition next_recv_index (idx : Z) : Z :=
  let next_idx := idx + 1 in
  if (next_idx <=? 0) || (RECV_ACK_INT <? next_idx) then 1 else next_idx.

(** The log entry and index after a packet with sequence number [sn]. *)
Definition log_packet (sn : Z) (conn : Connection) : Connection :=
  let next_idx := next_recv_index (recv_index conn) in
  conn <| recv_index := next_idx |>
       <| recv_log ::= fun l => <[Z.to_nat (next_idx - 1) := htobe32 sn]> l |>.

Definition register_packet (gp cp : nat) (sn : Z) : M unit :=
  modify_conn gp cp (log_packet sn);;
  conn ← deref_conn gp cp;
  if recv_index conn =? RECV_ACK_INT then
    let ack := ack_packet (recv_log conn) in
    ret ← pad_sendto ack (address conn);
    when (negb (ret =? Zlength ack)) (inc SEND_ERR_ACK);;
    modify_conn gp cp (fun c => c <| recv_index := 0 |>)
  else skip.

(** ** Keepalives *)

Definition handle_keepalive (gp cp : nat) (addr : sockaddr_storage) (buffer : list byte)
  (length : Z) : M unit :=
  now ← get_seconds;
  let current_time := default 0 now in
  (match parse_keepalive_conn_info buffer length with
   | Some info =>
       modify_conn gp cp (fun c =>
         c <| stats ::= update_connection_telemetry info current_time |>)
   | None => skip
   end);;
  ret ← pad_sendto buffer addr;
  when (negb (ret =? length)) (inc SEND_ERR_KEEPALIVE).

(** ** One packet *)

Definition is_srt_nak_packet (pkt : list byte) (length : Z) : bool :=
  if length <? SIZEOF_SRT_HEADER then false
  else get_srt_type pkt length =? SRT_TYPE_NAK.

Definition is_duplicate_nak (gp : nat) (buffer : list byte) (length : Z) : M bool :=
  let hash := hash_nak_payload buffer length 128 in
  now ← get_ms;
  g ← deref_group gp;
  let '(accept, cache) := should_accept_nak (nak_cache g) hash (default 0 now) in
  modify_group gp (fun g => g <| nak_cache := cache |>);;
  mret (negb accept).

(** NAK bookkeeping; [false] when the packet is suppressed. *)
Definition account_nak (gp cp : nat) (buf : list byte) (n ts : Z) : M bool :=
  if is_srt_nak_packet buf n then
    dup ← is_duplicate_nak gp buf n;
    if dup : bool then inc NAKS_SUPPRESSED;; mret false else
    inc NAKS_RECEIVED;;
    modify_conn gp cp (fun c => c <| stats ::= on_nak_detected 1 |>);;
    conn ← deref_conn gp cp;
    group ← deref_group gp;
    when ((5 <? nack_count (stats conn)) && (last_quality_eval group + 1 <? ts))
      (evaluate_group gp ts);;
    mret true
  else mret true.

(** A packet of a registered connection that is not a keepalive. *)
Definition handle_data (gp cp : nat) (buf : list byte) (n : Z)
  (srtla_addr : sockaddr_storage) (ts : Z) : M unit :=
  modify_group gp (fun g => g <| data_seen := true |> <| last_address := srtla_addr |>);;
  modify_conn gp cp (fun c => c <| stats ::= on_packet_received n |>);;
  go_on ← account_nak gp cp buf n ts;
  if negb go_on then skip else
  let sn := get_srt_sn buf n in
  when (0 <=? sn) (register_packet gp cp sn);;
  forward_to_srt_server gp buf;;
  skip.

Definition process_single_packet (buf : list byte) (n : Z) (srtla_addr : sockaddr_storage)
  (ts : Z) : M unit :=
  if is_srtla_reg1 buf n then register_group srtla_addr buf ts;; skip else
  if is_srtla_reg2 buf n then register_connection srtla_addr buf ts;; skip else
  gs ← gets groups;
  match find_by_address srtla_addr gs with
  | Some (group, Some conn) =>
      let gp := g_ptr group in
      let cp := c_ptr conn in
      let was_timed_out := last_received conn + CONN_TIMEOUT <? ts in
      modify_conn gp cp (fun c => c <| last_received := ts |>);;
      when ((recovery_start conn =? 0) && was_timed_out)
        (modify_conn gp cp (fun c => c <| recovery_start := ts |>);; inc RECOVERY_STARTED);;
      if is_srtla_keepalive buf n then handle_keepalive gp cp srtla_addr buf n else
      if n <? SRT_MIN_LEN then skip else
      handle_data gp cp buf n srtla_addr ts
  | _ => skip
  end.

(** ** A batch *)

(** What one [recvmmsg] returns: datagrams cut to [MTU] bytes, at most
    [RECV_BATCH_SIZE] of them, or [None] when it fails. *)
Definition batch : Type := option (list (sockaddr_storage * list byte)).

Definition process_datagram (ts : Z) (msg : sockaddr_storage * list byte) : M unit :=
  let buf := take (Z.to_nat MTU) msg.2 in
  let len := Zlength buf in
  when (0 <? len)
    (inc PACKETS_RECEIVED;; inc_by BYTES_RECEIVED len;;
     process_single_packet buf len msg.1 ts).

Definition process_packets (received : batch) (ts : Z) : M Z :=
  match received with
  | None => mret 0
  | Some msgs =>
      let msgs := take RECV_BATCH_SIZE msgs in
      inc RECV_BATCHES;;
      mfor msgs (process_datagram ts);;
      mret (Zlength msgs)
  end.

End SRTLAHandler.
