(* ===== verification/MainLoop.v ===== *)
(** * The event loop (src/receiver_main.cpp)

    One iteration of [main]'s loop: the events of an [epoll_wait] in order,
    then cleanup, the throttle's cleanup and the quality pass. *)

From stdpp Require Import list gmap.
From S2P Require Import Prelude Config Wire NetUtils AuthRateLimiter Connection World Registry.
From S2P Require Import Quality SrtHandler SrtlaHandler Exporter.

(** What [events[i].data.ptr] designates: null for the SRTLA socket (with the
    batch its [recvmmsg] returns), the metrics exporter (with the scrapes
    that wait), or a group. *)
Inductive event :=
  | EvSrtla (received : batch)
  | EvMetrics (scrapes : list (Z * nat))
  | EvGroup (raw_group : nat).

Section MainLoop.
Context `{OS} `{HandlerConfig} `{ExporterConfig}.

Definition handle_event (ts : Z) (ev : event) : M unit :=
  match ev with
  | EvSrtla received => process_packets received ts;; skip
  | EvMetrics scrapes => exporter_handle_event scrapes
  | EvGroup raw_group =>
      g ← deref_group raw_group;
      gs ← gets groups;
      match find_group_by_id (g_id g) gs with
      | Some shared_group => handle_srt_data (g_ptr shared_group)
      | None => skip
      end
  end.

Fixpoint handle_events (ts : Z) (events : list event) : M unit :=
  match events with
  | [] => skip
  | ev :: events' =>
      group_cnt ← gets (fun w => length (groups w));
      handle_event ts ev;;
      now_cnt ← gets (fun w => length (groups w));
      if (now_cnt <? group_cnt)%nat then skip else handle_events ts events'
  end.

Definition quality_pass (ts : Z) : M unit :=
  ps ← gets (fun w => map g_ptr (groups w));
  mfor ps (fun p => evaluate_group p ts;; adjust_weights p ts).

Definition loop_iteration (events : list event) : M unit :=
  now ← get_seconds;
  match now with
  | None => skip
  | Some ts =>
      handle_events ts (take MAX_EPOLL_EVENTS events);;
      cleanup_inactive ts send_keepalive;;
      modify (fun w => w <| limiter ::= cleanup ts |>);;
      quality_pass ts
  end.

End MainLoop.
