(* ===== verification/Hoare.v ===== *)
(** * Reasoning about the monad

    Weakest preconditions with a normal and an exceptional postcondition,
    and [Quiet] computations: those that return and leave alone the state
    the registry invariant speaks about. *)

From stdpp Require Import list gmap.
From S2P Require Import Prelude Config Wire NetUtils AuthRateLimiter Connection World Registry.

Definition wp {A} (m : M A) (Q : A -> world -> Prop) (E : exn -> world -> Prop) (w : world) : Prop :=
  match m w with Done a w' => Q a w' | Raised e w' => E e w' end.

Section wp_rules.
Context {A B : Type}.
Implicit Types (E : exn -> world -> Prop).

Lemma wp_ret (a : A) (Q : A -> world -> Prop) E w : Q a w -> wp (mret a) Q E w.
Proof. done. Qed.

Lemma wp_bind (m : M A) (k : A -> M B) Q E w :
  wp m (fun a w' => wp (k a) Q E w') E w -> wp (m ≫= k) Q E w.
Proof. unfold wp, mbind, M_bind. by destruct (m w). Qed.

Lemma wp_mono (m : M A) (Q Q' : A -> world -> Prop) E w :
  wp m Q E w -> (forall a w', Q a w' -> Q' a w') -> wp m Q' E w.
Proof. unfold wp. destruct (m w); auto. Qed.

Lemma wp_gets (f : world -> A) (Q : A -> world -> Prop) E w : Q (f w) w -> wp (gets f) Q E w.
Proof. done. Qed.

Lemma wp_modify f (Q : unit -> world -> Prop) E w : Q tt (f w) -> wp (modify f) Q E w.
Proof. done. Qed.

Lemma wp_deref_group p g Q E w :
  lookup_group p (groups w) = Some g -> Q g w -> wp (deref_group p) Q E w.
Proof. unfold wp, deref_group. by intros ->. Qed.

Lemma wp_deref_conn gp cp g c (Q : Connection -> world -> Prop) E w :
  lookup_group gp (groups w) = Some g -> lookup_conn cp (connections g) = Some c ->
  Q c w -> wp (deref_conn gp cp) Q E w.
Proof. unfold wp, deref_conn, deref_group, mbind, M_bind. intros -> ->. done. Qed.

Lemma wp_when (b : bool) m (Q : unit -> world -> Prop) E w :
  (b = true -> wp m Q E w) -> (b = false -> Q tt w) -> wp (when b m) Q E w.
Proof. intros H1 H2. destruct b; [by apply H1|by apply H2]. Qed.

End wp_rules.

(** What a specification says of a run that returned. *)
Lemma wp_done {A} (m : M A) Q E w a w' : wp m Q E w -> m w = Done a w' -> Q a w'.
Proof. unfold wp. intros H E'. by rewrite E' in H. Qed.

(** A specification that allows no exception is one of total correctness. *)
Lemma wp_total {A} (m : M A) Q w :
  wp m Q (fun _ _ => False) w -> exists a w', m w = Done a w' /\ Q a w'.
Proof. unfold wp. destruct (m w) as [a w'|]; [|done]. intros H. by exists a, w'. Qed.

(** Running a bind whose head is known. *)
Lemma bind_done {A B} (m : M A) (k : A -> M B) w a w' :
  m w = Done a w' -> (m ≫= k) w = k a w'.
Proof. unfold mbind, M_bind. by intros ->. Qed.
Lemma bind_raised {A B} (m : M A) (k : A -> M B) w e w' :
  m w = Raised e w' -> (m ≫= k) w = Raised e w'.
Proof. unfold mbind, M_bind. by intros ->. Qed.

Lemma wp_mfor {A} (I : world -> Prop) (l : list A) body E w :
  I w -> (forall x w, x ∈ l -> I w -> wp (body x) (fun _ => I) E w) ->
  wp (mfor l body) (fun _ => I) E w.
Proof.
  revert w. induction l as [|x l IH]; intros w Hw Hb; cbn; [done|].
  apply wp_bind. eapply wp_mono; [apply Hb; [left|done]|].
  intros [] w' Hw'. apply IH; [done|]. intros y w'' Hy. apply Hb. by right.
Qed.

(** ** Quiet computations *)

(** Same groups, allocator and epoll set. *)
Definition same_state (w w' : world) : Prop :=
  groups w' = groups w /\ next_ptr w' = next_ptr w /\ epoll_set w' = epoll_set w.

#[export] Instance same_state_equivalence : Equivalence same_state.
Proof.
  split.
  - intros w. done.
  - by intros w w' (? & ? & ?).
  - intros a b c (H1 & H2 & H3) (K1 & K2 & K3). unfold same_state. by rewrite K1, K2, K3.
Qed.

Class Quiet {A} (m : M A) : Prop :=
  quiet : forall w, exists a w', m w = Done a w' /\ same_state w w'.

Lemma wp_quiet {A} (m : M A) `{!Quiet m} Q E w :
  (forall a w', same_state w w' -> Q a w') -> wp m Q E w.
Proof. intros HQ. unfold wp. destruct (quiet w) as (a & w' & -> & Hs). auto. Qed.

#[export] Instance quiet_ret {A} (a : A) : Quiet (mret a).
Proof. intros w. by exists a, w. Qed.
#[export] Instance quiet_skip : Quiet skip.
Proof. apply quiet_ret. Qed.
#[export] Instance quiet_bind {A B} (m : M A) (k : A -> M B) :
  Quiet m -> (forall a, Quiet (k a)) -> Quiet (m ≫= k).
Proof.
  intros Hm Hk w. destruct (Hm w) as (a & w1 & E1 & H1).
  destruct (Hk a w1) as (b & w2 & E2 & H2).
  exists b, w2. split; [|by transitivity w1]. unfold mbind, M_bind. by rewrite E1.
Qed.
#[export] Instance quiet_when b m : Quiet m -> Quiet (when b m).
Proof. destruct b; [done|]. intros _. apply quiet_skip. Qed.
#[export] Instance quiet_if {A} (b : bool) (m1 m2 : M A) :
  Quiet m1 -> Quiet m2 -> Quiet (if b then m1 else m2).
Proof. by destruct b. Qed.
#[export] Instance quiet_option {A B} (o : option A) (m1 : A -> M B) (m2 : M B) :
  (forall a, Quiet (m1 a)) -> Quiet m2 ->
  Quiet (match o with Some a => m1 a | None => m2 end).
Proof. by destruct o. Qed.
#[export] Instance quiet_pair {A B C} (o : A * B) (m : A -> B -> M C) :
  (forall a b, Quiet (m a b)) -> Quiet (let '(a, b) := o in m a b).
Proof. by destruct o. Qed.
#[export] Instance quiet_gets {A} (f : world -> A) : Quiet (gets f).
Proof. intros w. by exists (f w), w. Qed.
#[export] Instance quiet_inc_by c n : Quiet (inc_by c n).
Proof. intros w. by eexists tt, _. Qed.
#[export] Instance quiet_inc c : Quiet (inc c).
Proof. apply quiet_inc_by. Qed.
#[export] Instance quiet_next_call : Quiet next_call.
Proof. intros w. by eexists (calls w), _. Qed.
#[export] Instance quiet_emit e : Quiet (emit e).
Proof. intros w. by eexists tt, _. Qed.


Section quiet_syscalls.
Context `{OS}.
#[export] Instance quiet_sendto d b : Quiet (sendto d b).
Proof. unfold sendto. apply _. Qed.
#[export] Instance quiet_sendmmsg d b : Quiet (sendmmsg d b).
Proof. unfold sendmmsg. apply _. Qed.
#[export] Instance quiet_send fd b : Quiet (send fd b).
Proof. unfold send. apply _. Qed.
#[export] Instance quiet_respond fd b : Quiet (respond fd b).
Proof. unfold respond. apply _. Qed.
#[export] Instance quiet_recv fd : Quiet (recv fd).
Proof. unfold recv. apply _. Qed.
#[export] Instance quiet_socket : Quiet socket.
Proof. unfold socket. apply _. Qed.
#[export] Instance quiet_setsockopt fd : Quiet (setsockopt fd).
Proof. unfold setsockopt. apply _. Qed.
#[export] Instance quiet_fcntl_getfl fd : Quiet (fcntl_getfl fd).
Proof. unfold fcntl_getfl. apply _. Qed.
#[export] Instance quiet_fcntl_setfl fd : Quiet (fcntl_setfl fd).
Proof. unfold fcntl_setfl. apply _. Qed.
#[export] Instance quiet_connect fd : Quiet (connect fd).
Proof. unfold connect. apply _. Qed.
#[export] Instance quiet_get_local_port fd : Quiet (get_local_port fd).
Proof. unfold get_local_port. apply _. Qed.
#[export] Instance quiet_get_seconds : Quiet get_seconds.
Proof. unfold get_seconds. apply _. Qed.
#[export] Instance quiet_get_ms : Quiet get_ms.
Proof. unfold get_ms. apply _. Qed.
#[export] Instance quiet_open_file : Quiet open_file.
Proof. unfold open_file. apply _. Qed.
#[export] Instance quiet_pad_sendto b d : Quiet (pad_sendto b d).
Proof. unfold pad_sendto. apply _. Qed.
#[export] Instance quiet_write_socket_info_file g : Quiet (write_socket_info_file g).
Proof. unfold write_socket_info_file. apply _. Qed.
#[export] Instance quiet_remove_socket_info_file g : Quiet (remove_socket_info_file g).
Proof. unfold remove_socket_info_file. apply _. Qed.
End quiet_syscalls.

(** ** Stepping *)

(** One step of a bind whose head is quiet: the state changes only outside
    what the invariant reads. *)
Ltac wp_quiet_step x Hs :=
  apply wp_bind, wp_quiet; [apply _|]; let w' := fresh "w" in intros x w' Hs.
