(* ===== verification/Invariant.v ===== *)
(** * The registry invariant

    What is true of the receiver's tables between any two steps, and how the
    elementary updates keep it: bounds on groups and connections, unique
    identities, well-formed connections, and exclusive ownership of client
    addresses (no address belongs to two groups, none twice to one). *)

From stdpp Require Import list gmap.
From S2P Require Import Prelude Config Wire NetUtils NakDedup AuthRateLimiter Connection World.
From S2P Require Import Registry Hoare.

(** ** Definitions *)

Definition WEIGHTS : list Z :=
  [WEIGHT_FULL; WEIGHT_EXCELLENT; WEIGHT_DEGRADED; WEIGHT_FAIR; WEIGHT_POOR; WEIGHT_CRITICAL].

(** The largest sum of penalties: bandwidth, loss, RTT with jitter, NAK rate
    and window. *)
Definition MAX_POINTS : Z := 40 + 40 + 30 + 40 + 15.

Record stats_ok (s : ConnectionStats) : Prop := {
  so_bytes : 0 <= bytes_received s < 2 ^ 64;
  so_packets : 0 <= packets_received s < 2 ^ 64;
  so_lost : 0 <= packets_lost s < 2 ^ 32;
  so_nack : 0 <= nack_count s < 2 ^ 16;
  so_points : 0 <= error_points s <= MAX_POINTS;
  so_legacy_points : 0 <= legacy_error_points s <= 80;
  so_weight : weight_percent s ∈ WEIGHTS;
  so_legacy_weight : legacy_weight_percent s ∈ WEIGHTS;
  so_history : length (rtt_history s) = RTT_HISTORY_SIZE;
  so_history_idx : 0 <= rtt_history_idx s < Z.of_nat RTT_HISTORY_SIZE
}.

Record conn_ok (c : Connection) : Prop := {
  co_index : 0 <= recv_index c < RECV_ACK_INT;
  co_log : length (recv_log c) = Z.to_nat RECV_ACK_INT;
  co_stats : stats_ok (stats c)
}.

(** What an address is compared by; the addresses a group answers to. *)
Definition addr_id : Type := Z * list byte * Z.
Definition conn_addrs (g : ConnectionGroup) : list addr_id :=
  map (fun c => addr_key (address c)) (connections g).
Definition owned (g : ConnectionGroup) : list addr_id :=
  addr_key (last_address g) :: conn_addrs g.

Record group_ok (g : ConnectionGroup) : Prop := {
  go_id : length (g_id g) = Z.to_nat SRTLA_ID_LEN;
  go_conns : Zlength (connections g) <= MAX_CONNS_PER_GROUP;
  go_addrs : NoDup (conn_addrs g);
  go_ptrs : NoDup (map c_ptr (connections g));
  go_conn_ok : Forall conn_ok (connections g);
  go_pending : data_seen g = false -> srt_socket g = -1
}.

(** Every identity of the group was handed out before [n]. *)
Definition ptrs_below (n : nat) (g : ConnectionGroup) : Prop :=
  (g_ptr g < n)%nat /\ Forall (fun c => (c_ptr c < n)%nat) (connections g).

(** No two groups answer to the same address. *)
Definition exclusive (gs : list ConnectionGroup) : Prop :=
  forall g1 g2 k, g1 ∈ gs -> g2 ∈ gs -> k ∈ owned g1 -> k ∈ owned g2 -> g_ptr g1 = g_ptr g2.

Record registry_ok (gs : list ConnectionGroup) (n : nat) : Prop := {
  ro_size : Zlength gs <= MAX_GROUPS;
  ro_ptrs : NoDup (map g_ptr gs);
  ro_groups : Forall group_ok gs;
  ro_below : Forall (ptrs_below n) gs;
  ro_exclusive : exclusive gs
}.

(** Every epoll registration is of a socket of a live group. *)
Definition epoll_ok (ep : list (Z * nat)) (gs : list ConnectionGroup) : Prop :=
  forall fd p, (fd, p) ∈ ep -> 0 < fd /\ exists g, g ∈ gs /\ g_ptr g = p /\ srt_socket g = fd.

Definition inv (w : world) : Prop :=
  registry_ok (groups w) (next_ptr w) /\ epoll_ok (epoll_set w) (groups w).

Lemma inv_same w w' : same_state w w' -> inv w -> inv w'.
Proof. intros (H1 & H2 & H3). unfold inv. by rewrite H1, H2, H3. Qed.

Lemma initial_inv : inv initial_world.
Proof.
  split; [split|]; cbn; try by constructor.
  - unfold Zlength, MAX_GROUPS. cbn. lia.
  - intros g1 g2 k H1. by apply elem_of_nil in H1.
  - intros fd p Hin. by apply elem_of_nil in Hin.
Qed.

(** ** Lookups *)

Lemma lookup_group_elem p gs g : lookup_group p gs = Some g -> g ∈ gs /\ g_ptr g = p.
Proof.
  intros H. apply find_first_Some in H as [H1 H2]. split; [done|]. by apply bool_decide_eq_true in H2.
Qed.

Lemma lookup_group_intro gs g :
  NoDup (map g_ptr gs) -> g ∈ gs -> lookup_group (g_ptr g) gs = Some g.
Proof.
  intros Hnd Hg.
  destruct (find_first_complete (fun g' => bool_decide (g_ptr g' = g_ptr g)) gs g) as (g' & E);
    [done|by apply bool_decide_eq_true|].
  unfold lookup_group. rewrite E. f_equal. apply find_first_Some in E as [H1 H2].
  apply bool_decide_eq_true in H2. by eapply NoDup_map_inj.
Qed.

Lemma lookup_conn_intro cs c :
  NoDup (map c_ptr cs) -> c ∈ cs -> lookup_conn (c_ptr c) cs = Some c.
Proof.
  intros Hnd Hc.
  destruct (find_first_complete (fun c' => bool_decide (c_ptr c' = c_ptr c)) cs c) as (c' & E);
    [done|by apply bool_decide_eq_true|].
  unfold lookup_conn. rewrite E. f_equal. apply find_first_Some in E as [H1 H2].
  apply bool_decide_eq_true in H2. by eapply NoDup_map_inj.
Qed.

(** ** Updates through pointers *)

Lemma elem_of_on_group p f gs g' :
  g' ∈ on_group p f gs <->
  exists g, g ∈ gs /\ g' = if decide (g_ptr g = p) then f g else g.
Proof. unfold on_group. rewrite list_elem_of_fmap. split; intros (g & ? & ?); by exists g. Qed.

Lemma elem_of_on_conn p f cs c' :
  c' ∈ on_conn p f cs <->
  exists c, c ∈ cs /\ c' = if decide (c_ptr c = p) then f c else c.
Proof. unfold on_conn. rewrite list_elem_of_fmap. split; intros (c & ? & ?); by exists c. Qed.

Lemma on_group_ptrs p f gs :
  (forall g, g ∈ gs -> g_ptr g = p -> g_ptr (f g) = p) ->
  map g_ptr (on_group p f gs) = map g_ptr gs.
Proof.
  intros Hf. unfold on_group. rewrite map_map. apply map_ext_in.
  intros g Hg. apply list_elem_of_In in Hg. case_decide as E; [|done]. by rewrite Hf.
Qed.

Lemma on_conn_field {B} (h : Connection -> B) p f cs :
  (forall c, c ∈ cs -> h (f c) = h c) -> map h (on_conn p f cs) = map h cs.
Proof.
  intros Hf. unfold on_conn. rewrite map_map. apply map_ext_in.
  intros c Hc. apply list_elem_of_In in Hc. case_decide; [by apply Hf|done].
Qed.

Lemma lookup_on_group p f gs g :
  (forall g, g_ptr (f g) = g_ptr g) ->
  lookup_group p gs = Some g -> lookup_group p (on_group p f gs) = Some (f g).
Proof.
  intros Hf. unfold lookup_group, on_group. induction gs as [|x gs IH]; cbn; [done|].
  destruct (decide (g_ptr x = p)) as [E|E].
  - rewrite bool_decide_eq_true_2 by done. intros [= ->].
    rewrite bool_decide_eq_true_2; [done|]. by rewrite Hf.
  - rewrite !bool_decide_eq_false_2 by done. apply IH.
Qed.

Lemma lookup_on_conn p f cs c :
  (forall c, c_ptr (f c) = c_ptr c) ->
  lookup_conn p cs = Some c -> lookup_conn p (on_conn p f cs) = Some (f c).
Proof.
  intros Hf. unfold lookup_conn, on_conn. induction cs as [|x cs IH]; cbn; [done|].
  destruct (decide (c_ptr x = p)) as [E|E].
  - rewrite bool_decide_eq_true_2 by done. intros [= ->].
    rewrite bool_decide_eq_true_2; [done|]. by rewrite Hf.
  - rewrite !bool_decide_eq_false_2 by done. apply IH.
Qed.

(** An update of one group keeps the registry well-formed when it keeps the
    group well-formed and claims no address of another group. *)
Lemma registry_on_group p f gs n n' :
  registry_ok gs n -> (n <= n')%nat ->
  (forall g, g ∈ gs -> g_ptr g = p -> group_ok g -> ptrs_below n g ->
     g_ptr (f g) = p /\ group_ok (f g) /\ ptrs_below n' (f g) /\
     forall k, k ∈ owned (f g) ->
       k ∈ owned g \/ forall g', g' ∈ gs -> k ∈ owned g' -> g_ptr g' = p) ->
  registry_ok (on_group p f gs) n'.
Proof.
  intros [Hsz Hnd Hok Hbel Hex] Hn Hf.
  rewrite Forall_forall in Hok, Hbel.
  assert (forall g, g ∈ gs -> g_ptr g = p -> g_ptr (f g) = p) as Hp.
  { intros g Hg E. by destruct (Hf g Hg E (Hok g Hg) (Hbel g Hg)). }
  split.
  - unfold on_group, Zlength. by rewrite length_map.
  - by rewrite on_group_ptrs.
  - apply Forall_forall. intros g' Hg'. apply elem_of_on_group in Hg' as (g & Hg & ->).
    case_decide as E; [|by apply Hok]. by destruct (Hf g Hg E (Hok g Hg) (Hbel g Hg)) as (_ & ? & _).
  - apply Forall_forall. intros g' Hg'. apply elem_of_on_group in Hg' as (g & Hg & ->).
    case_decide as E.
    + by destruct (Hf g Hg E (Hok g Hg) (Hbel g Hg)) as (_ & _ & ? & _).
    + destruct (Hbel g Hg) as [H1 H2]. split; [lia|].
      eapply Forall_impl; [exact H2|]. cbn. lia.
  - intros g1' g2' k H1 H2 K1 K2.
    apply elem_of_on_group in H1 as (g1 & H1 & ->). apply elem_of_on_group in H2 as (g2 & H2 & ->).
    destruct (decide (g_ptr g1 = p)) as [E1|E1], (decide (g_ptr g2 = p)) as [E2|E2].
    + by rewrite !Hp.
    + destruct (Hf g1 H1 E1 (Hok g1 H1) (Hbel g1 H1)) as (Hp1 & _ & _ & Ho).
      rewrite Hp1. destruct (Ho k K1) as [Hk|Hk]; [|symmetry; by apply Hk].
      rewrite <- E1. by apply (Hex g1 g2 k).
    + destruct (Hf g2 H2 E2 (Hok g2 H2) (Hbel g2 H2)) as (Hp2 & _ & _ & Ho).
      rewrite Hp2. destruct (Ho k K2) as [Hk|Hk]; [|by apply Hk].
      rewrite <- E2. by apply (Hex g1 g2 k).
    + by apply (Hex g1 g2 k).
Qed.

(** Groups that lose connections or other owned addresses. *)
Definition shrunk (g g' : ConnectionGroup) : Prop :=
  g_ptr g' = g_ptr g /\ owned g' ⊆ owned g /\ (group_ok g -> group_ok g') /\
  forall n, ptrs_below n g -> ptrs_below n g'.

Lemma shrunk_refl g : shrunk g g.
Proof. split; [done|]. split; [done|]. split; auto. Qed.

(** Removing groups and shrinking others keeps the registry well-formed. *)
Lemma registry_shrunk gs gs0 gs' n :
  registry_ok gs n -> gs0 `sublist_of` gs -> Forall2 shrunk gs0 gs' -> registry_ok gs' n.
Proof.
  intros [Hsz Hnd Hok Hbel Hex] Hsub Hsh.
  assert (map g_ptr gs' = map g_ptr gs0) as Hps.
  { clear -Hsh. induction Hsh as [|g g' l l' (H & _) _ IH]; cbn; congruence. }
  assert (forall g', g' ∈ gs' -> exists g, g ∈ gs /\ shrunk g g') as Hback.
  { intros g' Hg'. destruct (list_elem_of_lookup_1 _ _ Hg') as [i Hi].
    destruct (Forall2_lookup_r _ _ _ _ _ Hsh Hi) as (g & Hg & Hs). exists g. split; [|done].
    eapply elem_of_sublist; [|exact Hsub]. by eapply list_elem_of_lookup_2. }
  rewrite Forall_forall in Hok, Hbel. split.
  - apply sublist_length in Hsub. apply Forall2_length in Hsh. unfold Zlength in *. lia.
  - rewrite Hps. eapply sublist_NoDup; [exact Hnd|]. by apply (fmap_sublist g_ptr).
  - apply Forall_forall. intros g' Hg'. destruct (Hback g' Hg') as (g & Hg & _ & _ & Hgo & _).
    by apply Hgo, Hok.
  - apply Forall_forall. intros g' Hg'. destruct (Hback g' Hg') as (g & Hg & _ & _ & _ & Hb).
    by apply Hb, Hbel.
  - intros g1' g2' k H1 H2 K1 K2.
    destruct (Hback g1' H1) as (g1 & Hg1 & E1 & S1 & _).
    destruct (Hback g2' H2) as (g2 & Hg2 & E2 & S2 & _).
    rewrite E1, E2. apply (Hex g1 g2 k); auto.
Qed.

Lemma registry_sublist gs gs' n :
  registry_ok gs n -> gs' `sublist_of` gs -> registry_ok gs' n.
Proof.
  intros H Hsub. eapply registry_shrunk; [done|exact Hsub|].
  clear. induction gs' as [|g gs' IH]; constructor; [apply shrunk_refl|done].
Qed.

(** Adding a group with a new identity and an address nobody owns. *)
Lemma registry_add gs n n' g :
  registry_ok gs n -> Zlength gs < MAX_GROUPS -> (n <= n')%nat ->
  (n <= g_ptr g)%nat -> ptrs_below n' g -> group_ok g ->
  (forall g' k, g' ∈ gs -> k ∈ owned g -> k ∉ owned g') ->
  registry_ok (gs ++ [g]) n'.
Proof.
  intros [Hsz Hnd Hok Hbel Hex] Hlt Hn Hp Hb Hg Hfree.
  rewrite Forall_forall in Hbel.
  split.
  - unfold Zlength in *. rewrite length_app. cbn. lia.
  - rewrite map_app. apply NoDup_app. split; [done|]. split; [|apply NoDup_singleton].
    intros q Hq Hq'. apply list_elem_of_fmap in Hq as (g' & -> & Hg').
    apply list_elem_of_singleton in Hq'. destruct (Hbel g' Hg') as [? _]. lia.
  - by apply Forall_app_2; [|apply Forall_singleton].
  - apply Forall_app_2; [|by apply Forall_singleton].
    apply Forall_forall. intros g' Hg'. destruct (Hbel g' Hg') as [H1 H2].
    split; [lia|]. eapply Forall_impl; [exact H2|]. cbn. lia.
  - intros g1 g2 k H1 H2 K1 K2.
    apply elem_of_app in H1 as [H1|H1%list_elem_of_singleton];
      apply elem_of_app in H2 as [H2|H2%list_elem_of_singleton]; subst; try done.
    + by apply (Hex g1 g2 k).
    + by destruct (Hfree g1 k).
    + by destruct (Hfree g2 k).
Qed.

(** ** Updates of connections *)

(** A connection that keeps its identity, its address and its well-formedness. *)
Definition conn_upd (c c' : Connection) : Prop :=
  c_ptr c' = c_ptr c /\ address c' = address c /\ (conn_ok c -> conn_ok c').

Lemma conn_upd_refl c : conn_upd c c.
Proof. split; [done|]. split; auto. Qed.

Lemma conn_upd_all_refl cs : Forall2 conn_upd cs cs.
Proof. induction cs; constructor; auto using conn_upd_refl. Qed.

Lemma conn_upd_on_conn cp f cs :
  (forall c, conn_upd c (f c)) -> Forall2 conn_upd cs (on_conn cp f cs).
Proof.
  intros Hf. unfold on_conn. induction cs as [|c cs IH]; cbn; constructor; [|done].
  case_decide; [apply Hf|apply conn_upd_refl].
Qed.

(** Some connections dropped, the others updated in place. *)
Lemma shrunk_connections g cs0 cs' :
  cs0 `sublist_of` connections g -> Forall2 conn_upd cs0 cs' ->
  shrunk g (g <| connections := cs' |>).
Proof.
  intros Hsub Hup.
  assert (map c_ptr cs' = map c_ptr cs0) as Hp.
  { clear -Hup. induction Hup as [|c c' l l' (H & _) _ IH]; cbn; congruence. }
  assert (map (fun c => addr_key (address c)) cs' = map (fun c => addr_key (address c)) cs0) as Ha.
  { clear -Hup. induction Hup as [|c c' l l' (_ & H & _) _ IH]; cbn; congruence. }
  split; [done|]. split; [|split].
  - unfold owned, conn_addrs. cbn [connections last_address upd]. rewrite Ha.
    intros k Hk. apply elem_of_cons in Hk as [->|Hk]; [by left|]. right.
    eapply elem_of_sublist; [exact Hk|]. by apply (fmap_sublist (fun c => addr_key (address c))).
  - intros [Hid Hn Haddr Hptr Hok Hpend]. split; cbn; try done.
    + apply sublist_length in Hsub. apply Forall2_length in Hup. unfold Zlength in *. lia.
    + unfold conn_addrs. cbn. rewrite Ha. eapply sublist_NoDup; [exact Haddr|].
      by apply (fmap_sublist (fun c => addr_key (address c))).
    + rewrite Hp. eapply sublist_NoDup; [exact Hptr|]. by apply (fmap_sublist c_ptr).
    + eapply Forall_sublist_of in Hok; [|exact Hsub].
      clear -Hok Hup. induction Hup as [|c c' l l' (_ & _ & H) _ IH]; [done|].
      apply Forall_cons in Hok as [Hc Hok]. constructor; auto.
  - intros n [H1 H2]. split; [done|]. cbn. eapply Forall_sublist_of in H2; [|exact Hsub].
    clear -H2 Hup. induction Hup as [|c c' l l' (H & _) _ IH]; [done|].
    apply Forall_cons in H2 as [Hc H2]. constructor; [by rewrite H|auto].
Qed.

Lemma shrunk_on_conn cp f g :
  (forall c, conn_upd c (f c)) -> shrunk g (g <| connections ::= on_conn cp f |>).
Proof.
  intros Hf. apply (shrunk_connections g (connections g)); [done|]. by apply conn_upd_on_conn.
Qed.

(** ** The invariant under updates of one group *)

Lemma epoll_on_group p f gs ep :
  epoll_ok ep gs -> (forall g, g_ptr (f g) = g_ptr g) ->
  (forall g, g ∈ gs -> g_ptr g = p -> srt_socket g <> -1 -> srt_socket (f g) = srt_socket g) ->
  epoll_ok ep (on_group p f gs).
Proof.
  intros He Hp Hs fd q Hin. destruct (He fd q Hin) as (Hfd & g & Hg & Eq & Es).
  split; [done|]. exists (if decide (g_ptr g = p) then f g else g). split.
  - apply elem_of_on_group. by exists g.
  - case_decide as E; [|done]. split; [by rewrite Hp|]. rewrite Hs; [done..|lia].
Qed.

(** An update that keeps what the group owns. *)
Lemma inv_shrunk_update p f w :
  inv w -> (forall g, shrunk g (f g)) ->
  (forall g, srt_socket (f g) = srt_socket g) ->
  inv (w <| groups ::= on_group p f |>).
Proof.
  intros [Hr He] Hsh Hs. split; cbn.
  - eapply registry_shrunk; [exact Hr|reflexivity|].
    unfold on_group. clear -Hsh. induction (groups w) as [|g gs IH]; cbn; constructor; [|done].
    case_decide; [apply Hsh|apply shrunk_refl].
  - apply epoll_on_group; [done| |by intros]. intros g. by destruct (Hsh g).
Qed.

(** ** Facts about one group, by pointer *)

Definition holds (p : nat) (Φ : ConnectionGroup -> Prop) (w : world) : Prop :=
  exists g, lookup_group p (groups w) = Some g /\ Φ g.

Lemma holds_same p Φ w w' : same_state w w' -> holds p Φ w -> holds p Φ w'.
Proof. intros (H & _). unfold holds. by rewrite H. Qed.

Lemma holds_on_group p f (Φ Ψ : ConnectionGroup -> Prop) w :
  (forall g, g_ptr (f g) = g_ptr g) -> (forall g, Φ g -> Ψ (f g)) ->
  holds p Φ w -> holds p Ψ (w <| groups ::= on_group p f |>).
Proof.
  intros Hp Hf (g & Hg & HΦ). exists (f g). split; [|by apply Hf].
  cbn. by apply lookup_on_group.
Qed.

(** The group has the connection [cp], whose address is [addr]. *)
Definition has_conn (cp : nat) (addr : sockaddr_storage) (g : ConnectionGroup) : Prop :=
  exists c, lookup_conn cp (connections g) = Some c /\ addr_key (address c) = addr_key addr.

Lemma has_conn_on_conn cp addr f g :
  (forall c, conn_upd c (f c)) ->
  has_conn cp addr g -> has_conn cp addr (g <| connections ::= on_conn cp f |>).
Proof.
  intros Hf (c & Hc & Ha). exists (f c). destruct (Hf c) as (Hp & Haddr & _). split.
  - cbn. apply lookup_on_conn; [|done]. intros c'. by destruct (Hf c').
  - by rewrite Haddr.
Qed.

Lemma has_conn_owned cp addr g : has_conn cp addr g -> addr_key addr ∈ owned g.
Proof.
  intros (c & Hc & Ha). right. rewrite <- Ha. apply find_first_Some in Hc as [Hc _].
  unfold conn_addrs. apply (list_elem_of_fmap_2 (fun c => addr_key (address c))) in Hc. done.
Qed.

(** ** Groups that stay *)

(** A live group between two states: same identity, id and address book; a
    socket, once open, and the data-seen flag, once set, are not lost. *)
Record kept (g g' : ConnectionGroup) : Prop := {
  k_ptr : g_ptr g' = g_ptr g;
  k_id : g_id g' = g_id g;
  k_created : created_at g' = created_at g;
  k_socket : 0 <= srt_socket g -> srt_socket g' = srt_socket g;
  k_data : data_seen g = true -> data_seen g' = true;
  k_conns : map (fun c => (c_ptr c, address c)) (connections g') =
            map (fun c => (c_ptr c, address c)) (connections g)
}.

#[export] Instance kept_preorder : PreOrder kept.
Proof.
  split.
  - intros g. by split.
  - intros a b c [] []. split; try congruence.
    + intros Hn. rewrite k_socket1; rewrite ?k_socket0; done.
    + auto.
Qed.

Definition kept_groups (w w' : world) : Prop := Forall2 kept (groups w) (groups w').

#[export] Instance kept_groups_preorder : PreOrder kept_groups.
Proof.
  split.
  - intros w. unfold kept_groups. induction (groups w); constructor; [reflexivity|done].
  - intros w1 w2 w3. unfold kept_groups. apply (transitivity (R := Forall2 kept)).
Qed.

Lemma kept_same w w' : same_state w w' -> kept_groups w w'.
Proof. intros (H & _). unfold kept_groups. by rewrite H. Qed.

Lemma kept_on_group p f w :
  (forall g, kept g (f g)) -> kept_groups w (w <| groups ::= on_group p f |>).
Proof.
  intros Hf. unfold kept_groups, on_group. cbn. induction (groups w); cbn; constructor; [|done].
  case_decide; [apply Hf|reflexivity].
Qed.

Lemma kept_connections g cs' :
  Forall2 conn_upd (connections g) cs' -> kept g (g <| connections := cs' |>).
Proof.
  intros H. split; try done. cbn.
  induction H as [|c c' l l' (Hp & Ha & _) _ IH]; cbn; congruence.
Qed.

Lemma kept_on_conn cp f g :
  (forall c, conn_upd c (f c)) -> kept g (g <| connections ::= on_conn cp f |>).
Proof. intros Hf. apply kept_connections. by apply conn_upd_on_conn. Qed.

Lemma kept_length w w' : kept_groups w w' -> length (groups w') = length (groups w).
Proof. intros H. symmetry. by eapply Forall2_length. Qed.

Lemma kept_holds p (Φ : ConnectionGroup -> Prop) w w' :
  (forall g g', kept g g' -> Φ g -> Φ g') -> kept_groups w w' -> holds p Φ w -> holds p Φ w'.
Proof.
  intros HΦ. unfold kept_groups, holds, lookup_group.
  induction 1 as [|g g' gs gs' Hk _ IH]; cbn; [done|].
  intros (x & Hx & Hp). rewrite (k_ptr _ _ Hk). destruct (bool_decide (g_ptr g = p)); [|eauto].
  injection Hx as <-. eauto.
Qed.

Lemma kept_has_conn cp addr g g' : kept g g' -> has_conn cp addr g -> has_conn cp addr g'.
Proof.
  intros [_ _ _ _ _ Hc] (c & Hl & Ha). unfold has_conn, lookup_conn in *.
  revert Hc Hl. generalize (connections g) as cs. induction (connections g') as [|x' l' IH];
    intros [|x l] E; try discriminate E; [done|]. cbn in E |- *.
  injection E as Ep Ex E. rewrite Ep. destruct (bool_decide (c_ptr x = cp)).
  - intros [= ->]. exists x'. split; [done|]. by rewrite Ex.
  - by apply IH.
Qed.

(** [inv] and [kept_groups] together: what a packet does to the tables when
    it neither registers nor removes anything. *)
Definition stable (w w' : world) : Prop := inv w' /\ kept_groups w w'.

Lemma stable_refl w : inv w -> stable w w.
Proof. intros H. split; [done|reflexivity]. Qed.
Lemma stable_trans w1 w2 w3 : stable w1 w2 -> stable w2 w3 -> stable w1 w3.
Proof. intros [_ K1] [I2 K2]. split; [done|by transitivity w2]. Qed.
Lemma stable_same w w' : inv w -> same_state w w' -> stable w w'.
Proof. intros Hi Hs. split; [by eapply inv_same|by apply kept_same]. Qed.

Lemma stable_on_group p f w :
  inv w -> (forall g, shrunk g (f g)) -> (forall g, srt_socket (f g) = srt_socket g) ->
  (forall g, kept g (f g)) -> stable w (w <| groups ::= on_group p f |>).
Proof. intros. split; [by apply inv_shrunk_update|by apply kept_on_group]. Qed.

Lemma stable_on_conn gp cp f w :
  inv w -> (forall c, conn_upd c (f c)) ->
  stable w (w <| groups ::= on_group gp (fun g => g <| connections ::= on_conn cp f |>) |>).
Proof.
  intros. apply stable_on_group; [done| |done|]; intros g; [by apply shrunk_on_conn|by apply kept_on_conn].
Qed.

Lemma stable_has_conn p cp addr w w' :
  stable w w' -> holds p (has_conn cp addr) w -> holds p (has_conn cp addr) w'.
Proof. intros [_ K]. eapply kept_holds; [|done]. intros g g'. apply kept_has_conn. Qed.

Lemma stable_live p w w' :
  stable w w' -> holds p (fun _ => True) w -> holds p (fun _ => True) w'.
Proof. intros [_ K]. by eapply kept_holds. Qed.

Lemma holds_impl p (Φ Ψ : ConnectionGroup -> Prop) w :
  (forall g, Φ g -> Ψ g) -> holds p Φ w -> holds p Ψ w.
Proof. intros H (g & ? & ?). exists g. auto. Qed.
