(* ===== verification/RegistryProofs.v ===== *)
(** * The registry's operations

    Specifications of destruction, removal, eviction, lookup and the periodic
    cleanup, each with what it does to the tables and to the invariant. *)

From stdpp Require Import list gmap.
From S2P Require Import Prelude Config Wire NetUtils NakDedup AuthRateLimiter Connection World.
From S2P Require Import Registry Hoare Invariant.

(** ** Epoll registrations that go away *)

(** Tables unchanged; the registrations left were there before, and none is
    for a descriptor in [fds]. *)
Definition pruned (fds : list Z) (w w' : world) : Prop :=
  groups w' = groups w /\ next_ptr w' = next_ptr w /\
  forall e, e ∈ epoll_set w' -> e ∈ epoll_set w /\ e.1 ∉ fds.

Lemma pruned_same w w' : same_state w w' -> pruned [] w w'.
Proof. intros (H1 & H2 & H3). split; [done|]. split; [done|]. rewrite H3. intros e He. split; [done|]. apply not_elem_of_nil. Qed.

Lemma pruned_trans fds1 fds2 w1 w2 w3 :
  pruned fds1 w1 w2 -> pruned fds2 w2 w3 -> pruned (fds1 ++ fds2) w1 w3.
Proof.
  intros (A1 & A2 & A3) (B1 & B2 & B3). split; [congruence|]. split; [congruence|].
  intros e He. destruct (B3 e He) as [He2 N2]. destruct (A3 e He2) as [He1 N1].
  split; [done|]. rewrite elem_of_app. intros [?|?]; auto.
Qed.

Lemma pruned_mono fds fds' w w' : fds' ⊆ fds -> pruned fds w w' -> pruned fds' w w'.
Proof.
  intros Hs (A1 & A2 & A3). split; [done|]. split; [done|]. intros e He.
  destruct (A3 e He) as [? N]. split; [done|]. intros Hin. by apply N, Hs.
Qed.

Lemma pruned_filter fd w :
  pruned [fd] w (w <| epoll_set ::= filter (fun e => e.1 <> fd) |>).
Proof.
  split; [done|]. split; [done|]. cbn. intros e He. apply list_elem_of_filter in He as [N He].
  split; [done|]. by rewrite list_elem_of_singleton.
Qed.

(** The descriptor the destructor of [g] closes. *)
Definition closed_fds (g : ConnectionGroup) : list Z :=
  if 0 <? srt_socket g then [srt_socket g] else [].

Section Destroy.
Context `{OS}.

Lemma wp_close fd Q E w :
  (forall w', pruned [fd] w w' -> Q tt w') -> wp (close fd) Q E w.
Proof.
  intros HQ. unfold close. wp_quiet_step t H1. wp_quiet_step u H2. apply wp_modify, HQ.
  assert (same_state w w1) as Hs by (by transitivity w0).
  apply (pruned_trans [] [fd] w w1); [by apply pruned_same|apply pruned_filter].
Qed.

Lemma wp_epoll_remove fd Q E w :
  (forall w', pruned [fd] w w' -> Q tt w') -> wp (epoll_remove fd) Q E w.
Proof.
  intros HQ. unfold epoll_remove. wp_quiet_step t H1. wp_quiet_step u H2. apply wp_modify, HQ.
  assert (same_state w w1) as Hs by (by transitivity w0).
  apply (pruned_trans [] [fd] w w1); [by apply pruned_same|apply pruned_filter].
Qed.

(** [~ConnectionGroup] always returns, and leaves no registration of the
    group's socket behind. *)
Lemma wp_destroy_group g Q E w :
  (forall w', pruned (closed_fds g) w w' -> Q tt w') -> wp (destroy_group g) Q E w.
Proof.
  intros HQ. unfold destroy_group, closed_fds in *. destruct (0 <? srt_socket g).
  - wp_quiet_step u H1. apply wp_bind. eapply (wp_mono _ (fun _ => pruned [] w)).
    + apply wp_when; intros _; [|by apply pruned_same]. apply wp_epoll_remove.
      intros w' Hw'. apply (pruned_mono ([] ++ [srt_socket g])); [set_solver|].
      eapply pruned_trans; [by apply pruned_same|done].
    + intros [] w1 Hw1. apply wp_close. intros w2 Hw2. apply HQ.
      apply (pruned_trans [] [srt_socket g] w w1 w2); done.
  - apply wp_ret, HQ. by apply pruned_same.
Qed.

(** ** Removal *)

Lemma epoll_ok_remove ep ep' (gs gs' : list ConnectionGroup) (fds : list Z) :
  epoll_ok ep gs -> (forall e, e ∈ ep' -> e ∈ ep /\ e.1 ∉ fds) ->
  (forall g, g ∈ gs -> (exists g', g' ∈ gs' /\ g_ptr g' = g_ptr g /\ srt_socket g' = srt_socket g)
     \/ srt_socket g ∈ fds \/ srt_socket g <= 0) ->
  epoll_ok ep' gs'.
Proof.
  intros He Hp Hg fd p Hin. destruct (Hp _ Hin) as [Hin' Nfd].
  destruct (He fd p Hin') as (Hfd & g & Hgin & Hpg & Hs). split; [done|].
  destruct (Hg g Hgin) as [(g' & ? & ? & ?)|[Hc|Hc]].
  - exists g'. split; [done|]. split; congruence.
  - exfalso. apply Nfd. cbn. by rewrite <- Hs.
  - lia.
Qed.

Lemma closed_or_none g : srt_socket g ∈ closed_fds g \/ srt_socket g <= 0.
Proof. unfold closed_fds. destruct (Z.ltb_spec 0 (srt_socket g)); [left; by left|by right]. Qed.

Definition without (p : nat) (gs : list ConnectionGroup) : list ConnectionGroup :=
  filter (fun g => g_ptr g <> p) gs.

Lemma inv_without p w w' fds :
  inv w -> groups w' = without p (groups w) -> next_ptr w' = next_ptr w ->
  (forall e, e ∈ epoll_set w' -> e ∈ epoll_set w /\ e.1 ∉ fds) ->
  (forall g, lookup_group p (groups w) = Some g -> fds = closed_fds g) -> inv w'.
Proof.
  intros [Hr He] Hg Hn Hep Hl. split.
  - rewrite Hg, Hn. eapply registry_sublist; [exact Hr|]. apply sublist_filter.
  - rewrite Hg. apply (epoll_ok_remove _ _ _ _ fds He Hep). intros g Hgin.
    destruct (decide (g_ptr g = p)) as [E|E].
    + right. rewrite (Hl g); [apply closed_or_none|].
      rewrite <- E. apply lookup_group_intro; [apply Hr|done].
    + left. exists g. split; [|done]. by apply list_elem_of_filter.
Qed.

Lemma wp_remove_group p Q E w :
  inv w ->
  (forall w', inv w' -> groups w' = without p (groups w) -> Q tt w') ->
  wp (remove_group p) Q E w.
Proof.
  intros Hi HQ. unfold remove_group. apply wp_bind, wp_gets, wp_bind, wp_modify.
  destruct (lookup_group p (groups w)) as [g|] eqn:El.
  - apply wp_destroy_group. intros w' (H1 & H2 & H3). cbn in H1, H2, H3.
    apply HQ; [|done]. eapply (inv_without p w w'); [done..|]. intros g' Hg'; congruence.
  - apply wp_ret, HQ; [|done]. eapply (inv_without p w _ []); [done..| |intros g' Hg'; congruence].
    cbn. intros e He. split; [done|]. apply not_elem_of_nil.
Qed.

End Destroy.

(** ** Eviction *)

Lemma older_cases o0 g :
  (is_pending g = false /\ older o0 g = o0) \/
  (is_pending g = true /\ exists o, older o0 g = Some o /\ (o = g \/ o0 = Some o) /\
     created_at o <= created_at g /\ forall o', o0 = Some o' -> created_at o <= created_at o').
Proof.
  unfold older. destruct (is_pending g); [right|by left]. split; [done|]. cbn.
  destruct o0 as [o|]; [|exists g; split; [done|]; split; [by left|]; split; [lia|done]].
  destruct (Z.ltb_spec (created_at g) (created_at o)).
  - exists g. split; [done|]. split; [by left|]. split; [lia|]. intros o' [= <-]. lia.
  - exists o. split; [done|]. split; [by right|]. split; [lia|]. intros o' [= <-]. lia.
Qed.

Lemma oldest_pending_step gs o0 :
  (forall o, o0 = Some o -> is_pending o = true) ->
  match fold_left older gs o0 with
  | None => o0 = None /\ forall g, g ∈ gs -> is_pending g = false
  | Some o =>
      (o ∈ gs \/ o0 = Some o) /\ is_pending o = true /\
      (forall g, g ∈ gs -> is_pending g = true -> created_at o <= created_at g) /\
      (forall g, o0 = Some g -> created_at o <= created_at g)
  end.
Proof.
  revert o0. induction gs as [|g gs IH]; intros o0 H0; cbn [fold_left].
  - destruct o0 as [o|]; [|split; [done|]; intros g Hg; by apply elem_of_nil in Hg].
    split; [by right|]. split; [by apply H0|]. split; [intros g Hg; by apply elem_of_nil in Hg|].
    intros g [= ->]. lia.
  - destruct (older_cases o0 g) as [(Eg & ->)|(Eg & o1 & -> & Ho1 & Hle1 & Hmin1)].
    + specialize (IH _ H0). destruct (fold_left older gs o0) as [o|].
      * destruct IH as (Hin & Hp & Hmin & Hle). split; [|split; [done|split; [|done]]].
        { destruct Hin; [left; by right|by right]. }
        intros g' [->|Hg']%elem_of_cons Hp'; [congruence|by apply Hmin].
      * destruct IH as (Hn & Hnp). split; [done|]. intros g' [->|Hg']%elem_of_cons; auto.
    + assert (forall o, Some o1 = Some o -> is_pending o = true) as H1.
      { intros o [= <-]. destruct Ho1 as [->|Ho1]; auto. }
      specialize (IH _ H1). destruct (fold_left older gs (Some o1)) as [o|]; [|by destruct IH].
      destruct IH as (Hin & Hp & Hmin & Hle). assert (Hoo := Hle o1 eq_refl).
      split; [|split; [done|split]].
      * destruct Hin as [Hin|[= ->]]; [left; by right|].
        destruct Ho1 as [->|Ho1]; [left; by left|by right].
      * intros g' [->|Hg']%elem_of_cons Hp'; [lia|by apply Hmin].
      * intros g' E. specialize (Hmin1 g' E). lia.
Qed.

Lemma oldest_pending_some gs o :
  oldest_pending gs = Some o ->
  o ∈ gs /\ is_pending o = true /\
  forall g, g ∈ gs -> is_pending g = true -> created_at o <= created_at g.
Proof.
  intros Ho. assert (Hs := oldest_pending_step gs None). unfold oldest_pending in Ho.
  rewrite Ho in Hs. destruct Hs as (Hin & Hp & Hmin & _); [done|].
  split; [by destruct Hin|done].
Qed.

Lemma oldest_pending_none gs :
  oldest_pending gs = None -> forall g, g ∈ gs -> is_pending g = false.
Proof.
  intros Ho. assert (Hs := oldest_pending_step gs None). unfold oldest_pending in Ho.
  rewrite Ho in Hs. by apply Hs.
Qed.

Lemma wp_evict `{OS} Q E w :
  inv w ->
  (forall w' o, inv w' -> oldest_pending (groups w) = Some o ->
     groups w' = without (g_ptr o) (groups w) -> Q true w') ->
  (oldest_pending (groups w) = None -> Q false w) ->
  wp evict_oldest_pending_group Q E w.
Proof.
  intros Hi Hs Hn. unfold evict_oldest_pending_group. apply wp_bind, wp_gets.
  destruct (oldest_pending (groups w)) as [o|] eqn:Eo; [|by apply wp_ret, Hn].
  wp_quiet_step u H1. apply wp_bind, wp_remove_group; [by eapply inv_same|].
  intros w1 Hi1 Hg1. apply wp_ret. eapply Hs; [done..|]. by rewrite Hg1, (proj1 H1).
Qed.

Lemma length_without p gs g :
  NoDup (map g_ptr gs) -> g ∈ gs -> g_ptr g = p -> Zlength (without p gs) = Zlength gs - 1.
Proof.
  intros Hnd Hg Ep. revert Hnd Hg. unfold Zlength. induction gs as [|x gs IH]; intros Hnd Hg.
  { by apply elem_of_nil in Hg. }
  cbn [map] in Hnd. apply NoDup_cons in Hnd as [Hx Hnd]. unfold without. rewrite filter_cons.
  apply elem_of_cons in Hg as [->|Hg].
  - rewrite decide_False by (rewrite Ep; tauto). cbn [length].
    replace (filter (fun g => g_ptr g <> p) gs) with gs; [lia|].
    rewrite <- Ep in *. clear -Hx. induction gs as [|y gs IH]; [done|]. rewrite filter_cons.
    cbn [map] in Hx. apply not_elem_of_cons in Hx as [H1 H2]. rewrite decide_True by done.
    by rewrite <- IH.
  - rewrite decide_True.
    + cbn [length]. specialize (IH Hnd Hg). unfold without in IH. lia.
    + intros E. apply Hx. rewrite E, <- Ep. by apply list_elem_of_fmap_2.
Qed.

(** ** Lookup by address *)

Lemma find_by_address_some addr gs g oc :
  find_by_address addr gs = Some (g, oc) ->
  g ∈ gs /\ addr_key addr ∈ owned g /\
  match oc with
  | Some c => c ∈ connections g /\ addr_key (address c) = addr_key addr
  | None => addr_key (last_address g) = addr_key addr /\ addr_key addr ∉ conn_addrs g
  end.
Proof.
  induction gs as [|x gs IH]; [done|]. cbn [find_by_address].
  destruct (find_first _ (connections x)) as [c|] eqn:Ec.
  - intros [= <- <-]. apply find_first_Some in Ec as [Hc Ha]. apply addresses_equal_true in Ha.
    split; [by left|]. split; [|done]. right. rewrite <- Ha. unfold conn_addrs.
    by apply (list_elem_of_fmap_2 (fun c => addr_key (address c))).
  - destruct (addresses_equal (last_address x) addr) eqn:Ea.
    + intros [= <- <-]. apply addresses_equal_true in Ea. split; [by left|].
      split; [unfold owned; rewrite Ea; by left|]. split; [done|].
      intros Hin. apply list_elem_of_fmap in Hin as (c & Hk & Hc).
      assert (Hf := proj1 (find_first_None _ _) Ec _ Hc). cbn in Hf.
      apply addresses_equal_false in Hf. congruence.
    + intros Hf. destruct (IH Hf) as (? & ? & ?). split; [by right|done].
Qed.

Lemma find_by_address_none addr gs :
  find_by_address addr gs = None -> forall g, g ∈ gs -> addr_key addr ∉ owned g.
Proof.
  induction gs as [|x gs IH]; intros Hf g Hg; [by apply elem_of_nil in Hg|].
  cbn [find_by_address] in Hf.
  destruct (find_first _ (connections x)) as [c|] eqn:Ec; [done|].
  destruct (addresses_equal (last_address x) addr) eqn:Ea; [done|].
  apply elem_of_cons in Hg as [->|Hg]; [|by apply IH].
  apply addresses_equal_false in Ea. intros [E|Hin]%elem_of_cons; [congruence|].
  apply list_elem_of_fmap in Hin as (c & Hk & Hc).
  assert (Hn := proj1 (find_first_None _ _) Ec _ Hc). cbn in Hn.
  apply addresses_equal_false in Hn. congruence.
Qed.

(** ** Cleanup *)

(** What a run at time [t] does to a connection, to a group, to the table. *)
Definition recovered (t : Z) (c : Connection) : Connection :=
  if (0 <? recovery_start c) && (RECOVERY_CHANCE_PERIOD <? t - recovery_start c)
  then c <| recovery_start := 0 |> else c.
Definition survivors (t : Z) (cs : list Connection) : list Connection :=
  map (recovered t) (List.filter (fun c => negb (conn_timed_out c t)) cs).
Definition swept (t : Z) (g : ConnectionGroup) : ConnectionGroup :=
  g <| connections := survivors t (connections g) |>.
Definition expired (t : Z) (g : ConnectionGroup) : bool :=
  bool_decide (survivors t (connections g) = []) && (created_at g + empty_timeout g <? t).
Definition swept_groups (t : Z) (gs : list ConnectionGroup) : list ConnectionGroup :=
  map (swept t) (List.filter (fun g => negb (expired t g)) gs).

Lemma survivors_nil t cs :
  survivors t cs = [] <-> forall c, c ∈ cs -> last_received c + CONN_TIMEOUT < t.
Proof.
  unfold survivors. induction cs as [|c cs IH]; cbn [List.filter].
  - split; [intros _ c Hc; by apply elem_of_nil in Hc|done].
  - unfold conn_timed_out at 1. destruct (Z.ltb_spec (last_received c + CONN_TIMEOUT) t); cbn.
    + rewrite IH. split; [intros H' x [->|Hx]%elem_of_cons; auto|].
      intros H' x Hx. apply H'. by right.
    + split; [done|]. intros H'. specialize (H' c ltac:(by left)). lia.
Qed.

(** A group stays when someone in it is alive or when it is young. *)
Lemma expired_false t g :
  expired t g = false <->
  (exists c, c ∈ connections g /\ t <= last_received c + CONN_TIMEOUT) \/
  t <= created_at g + empty_timeout g.
Proof.
  unfold expired. rewrite andb_false_iff, bool_decide_eq_false, Z.ltb_ge. split; intros [H|H]; auto.
  - left. destruct (decide (Exists (fun c => t <= last_received c + CONN_TIMEOUT) (connections g))) as [Ex|Ex].
    + by apply Exists_exists in Ex.
    + exfalso. apply H, survivors_nil. intros c Hc.
      destruct (Z.lt_ge_cases (last_received c + CONN_TIMEOUT) t); [done|].
      exfalso. apply Ex, Exists_exists. by exists c.
  - left. rewrite survivors_nil. destruct H as (c & Hc & Ht). intros H. specialize (H c Hc). lia.
Qed.

Section Cleanup.
Context `{OS} (t : Z) (keepalive_cb : Connection -> M unit).
Context `{Hcb : !forall c, Quiet (keepalive_cb c)}.

Lemma wp_cleanup_recovery c E w :
  wp (cleanup_recovery t c) (fun r w' => r = recovered t c /\ same_state w w') E w.
Proof.
  unfold cleanup_recovery, recovered.
  destruct (Z.ltb_spec 0 (recovery_start c)); cbn [andb]; [|done].
  destruct (Z.ltb_spec (recovery_start c) (last_received c)),
    (Z.ltb_spec RECOVERY_CHANCE_PERIOD (t - recovery_start c)),
    (Z.ltb_spec (recovery_start c + RECOVERY_CHANCE_PERIOD) t); try lia; done.
Qed.

Lemma recovered_times c :
  last_received (recovered t c) = last_received c /\ c_ptr (recovered t c) = c_ptr c.
Proof. unfold recovered. by case_match. Qed.

Lemma wp_cleanup_conns cs E w :
  wp (cleanup_conns t keepalive_cb cs)
    (fun r w' => r = survivors t cs /\ same_state w w') E w.
Proof.
  revert w. induction cs as [|c cs IH]; intros w; cbn [cleanup_conns]; [done|].
  apply wp_bind. unfold cleanup_conn. apply wp_bind.
  eapply wp_mono; [apply wp_cleanup_recovery|]. cbn beta. intros r w1 (-> & H1).
  unfold survivors. cbn [List.filter]. destruct (recovered_times c) as [Hl _].
  unfold conn_timed_out. rewrite Hl.
  destruct (last_received c + CONN_TIMEOUT <? t); cbn [negb].
  - wp_quiet_step u H2. apply wp_ret, wp_bind. eapply wp_mono; [apply IH|].
    cbn beta. intros rest w3 (-> & H3). split; [done|].
    transitivity w1; [done|]. by transitivity w0.
  - wp_quiet_step u H2. apply wp_ret, wp_bind. eapply wp_mono; [apply IH|].
    cbn beta. intros rest w3 (-> & H3). split; [done|].
    transitivity w1; [done|]. by transitivity w0.
Qed.

Lemma wp_cleanup_group g E w :
  wp (cleanup_group t keepalive_cb g)
    (fun r w' => r = (if expired t g then None else Some (swept t g)) /\
       pruned (if expired t g then closed_fds g else []) w w') E w.
Proof.
  unfold cleanup_group. apply wp_bind. eapply wp_mono; [apply wp_cleanup_conns|].
  cbn beta. intros cs w1 (-> & H1). fold (swept t g).
  change (bool_decide _ && _) with (expired t g). destruct (expired t g).
  - wp_quiet_step u H2. apply wp_bind, wp_destroy_group. intros w3 H3. apply wp_ret.
    split; [done|]. apply (pruned_trans [] (closed_fds g) w w0 w3); [|exact H3].
    apply pruned_same. by transitivity w1.
  - wp_quiet_step u H2. apply wp_ret. split; [done|]. apply pruned_same. by transitivity w1.
Qed.

Lemma wp_cleanup_groups gs E w :
  wp (cleanup_groups t keepalive_cb gs)
    (fun r w' => r = swept_groups t gs /\
       pruned (concat (map closed_fds (List.filter (expired t) gs))) w w') E w.
Proof.
  revert w. induction gs as [|g gs IH]; intros w; cbn [cleanup_groups].
  { apply wp_ret. split; [done|]. by apply pruned_same. }
  apply wp_bind. eapply wp_mono; [apply wp_cleanup_group|]. cbn beta. intros r w1 (-> & H1).
  apply wp_bind. eapply wp_mono; [apply IH|]. cbn beta. intros rest w2 (-> & H2). apply wp_ret.
  unfold swept_groups. cbn [List.filter]. assert (H3 := pruned_trans _ _ _ _ _ H1 H2).
  by destruct (expired t g).
Qed.

(** The groups after a call, at any time. *)
Definition after_cleanup (w : world) : list ConnectionGroup :=
  if t <? last_run w + CLEANUP_PERIOD then groups w else swept_groups t (groups w).

Lemma recovered_upd c : conn_upd c (recovered t c).
Proof.
  unfold recovered. destruct (_ && _); [|apply conn_upd_refl].
  split; [done|]. split; [done|]. by intros [? ? ?].
Qed.

Lemma filter_sublist_of {A} (p : A -> bool) l : List.filter p l `sublist_of` l.
Proof. induction l as [|x l IH]; cbn; [done|]. destruct (p x); by constructor. Qed.

Lemma swept_shrunk g : shrunk g (swept t g).
Proof.
  apply (shrunk_connections g
    (List.filter (fun c => negb (conn_timed_out c t)) (connections g))); [apply filter_sublist_of|].
  unfold survivors. induction (List.filter _ _) as [|c cs IH]; cbn; constructor; [|done].
  apply recovered_upd.
Qed.

Lemma swept_registry gs n : registry_ok gs n -> registry_ok (swept_groups t gs) n.
Proof.
  intros Hr. apply (registry_shrunk gs (List.filter (fun g => negb (expired t g)) gs));
    [exact Hr|apply filter_sublist_of|].
  unfold swept_groups. induction (List.filter _ _) as [|g gs' IH]; cbn; constructor; [|done].
  apply swept_shrunk.
Qed.

Lemma wp_cleanup_inactive E w :
  inv w ->
  wp (cleanup_inactive t keepalive_cb)
    (fun _ w' => inv w' /\ groups w' = after_cleanup w) E w.
Proof.
  intros Hi. unfold cleanup_inactive, after_cleanup. apply wp_bind, wp_gets.
  destruct (t <? last_run w + CLEANUP_PERIOD); [done|].
  apply wp_bind, wp_modify, wp_bind, wp_gets. cbn [groups upd].
  case_bool_decide as Eg; [apply wp_ret; split; [done|]; cbn; by rewrite Eg|].
  apply wp_bind. eapply wp_mono; [apply wp_cleanup_groups|]. cbn beta.
  intros r w1 (-> & H1 & H2 & H3). apply wp_modify. cbn in H1, H2, H3 |- *. split; [|done].
  destruct Hi as [Hr He]. split; cbn.
  - rewrite H2. by apply swept_registry.
  - apply (epoll_ok_remove _ _ _ _ _ He H3). intros g Hg.
    destruct (expired t g) eqn:Ex.
    + right. destruct (closed_or_none g) as [Hc|Hc]; [left|by right].
      apply list_elem_of_In, in_concat. exists (closed_fds g). split; [|by apply list_elem_of_In].
      apply in_map, filter_In. split; [by apply list_elem_of_In|done].
    + left. exists (swept t g). split; [|done]. apply list_elem_of_In, in_map, filter_In.
      split; [by apply list_elem_of_In|by rewrite Ex].
Qed.

End Cleanup.
