(* ===== verification/QualityProofs.v ===== *)
(** * Quality evaluation and load balancing: bounds and invariant *)

From stdpp Require Import list gmap.
From S2P Require Import Prelude Config NetUtils Connection World Double Quality Hoare.
From S2P Require Import Invariant.

(** ** Bounds of the penalties *)

Ltac tests := repeat case_match; try lia.

Lemma bandwidth_points_range ext r : 0 <= bandwidth_points ext r <= 40.
Proof. unfold bandwidth_points. tests. Qed.
Lemma loss_points_range r : 0 <= loss_points r <= 40.
Proof. unfold loss_points. tests. Qed.
Lemma rtt_points_range s t : 0 <= calculate_rtt_error_points s t <= 30.
Proof. unfold calculate_rtt_error_points. tests. Qed.
Lemma nak_points_range s d : 0 <= (calculate_nak_error_points s d).1 <= 40.
Proof. unfold calculate_nak_error_points. tests; cbn; tests. Qed.
Lemma window_points_range s : 0 <= calculate_window_error_points s <= 15.
Proof. unfold calculate_window_error_points. tests. Qed.

Lemma weight_of_points_WEIGHTS p : weight_of_points p ∈ WEIGHTS.
Proof. unfold weight_of_points, WEIGHTS. repeat case_match; set_solver. Qed.
Lemma legacy_weight_WEIGHTS p : legacy_weight p ∈ WEIGHTS.
Proof. unfold legacy_weight, WEIGHTS. repeat case_match; set_solver. Qed.

(** [calculate_nak_error_points] only moves [last_sender_nak_count]. *)
Lemma nak_points_stats s d :
  (calculate_nak_error_points s d).2 = s \/
  (calculate_nak_error_points s d).2 = s <| last_sender_nak_count := sender_nak_count s |>.
Proof. unfold calculate_nak_error_points. case_match; cbn; auto. Qed.

Lemma nak_points_keep {B} (h : ConnectionStats -> B) s d :
  (forall n, h (s <| last_sender_nak_count := n |>) = h s) ->
  h (calculate_nak_error_points s d).2 = h s.
Proof. intros Hh. destruct (nak_points_stats s d) as [-> | ->]; [done|apply Hh]. Qed.

(** ** Evaluation *)

(** The sum a connection is charged with, none of it lost to the 32-bit
    arithmetic. *)
Definition total_points (current_time : Z) (ratio : double) (m : QualityMetrics)
  (s : ConnectionStats) : Z :=
  bandwidth_points (supports_extended_keepalives s) ratio + loss_points (packet_loss_ratio m) +
  (if has_valid_sender_telemetry s current_time
   then calculate_rtt_error_points s current_time
        + (calculate_nak_error_points s (packets_diff m)).1 + calculate_window_error_points s
   else 0).

Lemma total_points_range t r m s : 0 <= total_points t r m s <= MAX_POINTS.
Proof.
  unfold total_points, MAX_POINTS.
  pose proof (bandwidth_points_range (supports_extended_keepalives s) r).
  pose proof (loss_points_range (packet_loss_ratio m)).
  pose proof (rtt_points_range s t). pose proof (nak_points_range s (packets_diff m)).
  pose proof (window_points_range s). case_match; lia.
Qed.

Lemma window_points_ext s s' :
  window s' = window s -> in_flight s' = in_flight s ->
  calculate_window_error_points s' = calculate_window_error_points s.
Proof. unfold calculate_window_error_points. by intros -> ->. Qed.

Lemma evaluate_stats_points t ms med mn m s :
  error_points (evaluate_stats t ms med mn m s) =
  total_points t (performance_ratio med mn (bandwidth_kbits_per_sec m)) m s.
Proof.
  set (r := performance_ratio _ _ _). pose proof (total_points_range t r m s) as Hr.
  unfold evaluate_stats, total_points in *. fold r. cbv zeta.
  pose proof (bandwidth_points_range (supports_extended_keepalives s) r).
  pose proof (loss_points_range (packet_loss_ratio m)).
  set (s1 := s <| error_points := _ |>).
  change (has_valid_sender_telemetry s1 t) with (has_valid_sender_telemetry s t).
  assert (error_points s1 = bandwidth_points (supports_extended_keepalives s) r
    + loss_points (packet_loss_ratio m)) as E1.
  { unfold s1. cbn. apply u32_small. lia. }
  destruct (has_valid_sender_telemetry s t); cbn.
  - change (calculate_rtt_error_points s1 t) with (calculate_rtt_error_points s t).
    assert ((calculate_nak_error_points s1 (packets_diff m)).1 =
            (calculate_nak_error_points s (packets_diff m)).1) as En.
    { unfold calculate_nak_error_points. cbn. by case_match. }
    pose proof (nak_points_keep error_points s1 (packets_diff m) (fun _ => eq_refl)) as Ep.
    rewrite E1 in Ep.
    pose proof (window_points_ext s1 (calculate_nak_error_points s1 (packets_diff m)).2
      (nak_points_keep window s1 _ (fun _ => eq_refl))
      (nak_points_keep in_flight s1 _ (fun _ => eq_refl))) as Ew.
    destruct (calculate_nak_error_points s1 (packets_diff m)) as [k s2]. cbn [fst snd] in *. cbn.
    rewrite Ep, Ew, En. change (calculate_window_error_points s1) with (calculate_window_error_points s).
    unfold MAX_POINTS in Hr. rewrite u32_small; lia.
  - rewrite u32_small; lia.
Qed.

Lemma legacy_points_range loss r :
  0 <= u32 (bandwidth_points false r + loss_points loss) <= 80.
Proof.
  pose proof (bandwidth_points_range false r). pose proof (loss_points_range loss).
  rewrite u32_small; lia.
Qed.

Lemma evaluate_stats_fields t ms med mn m s :
  let s' := evaluate_stats t ms med mn m s in
  bytes_received s' = bytes_received s /\ packets_received s' = packets_received s /\
  packets_lost s' = packets_lost s /\ weight_percent s' = weight_percent s /\
  rtt_history s' = rtt_history s /\ rtt_history_idx s' = rtt_history_idx s.
Proof.
  cbv zeta. unfold evaluate_stats, evaluate_connection_legacy, reset_period. cbv zeta.
  destruct (has_valid_sender_telemetry _ _); [|done].
  set (s1 := s <| error_points := _ |>).
  pose proof (nak_points_stats s1 (packets_diff m)) as Hk.
  destruct (calculate_nak_error_points s1 (packets_diff m)) as [k s2]. cbn [snd] in Hk.
  by destruct Hk as [-> | ->].
Qed.

Lemma evaluate_stats_ok t ms med mn m s :
  stats_ok s -> stats_ok (evaluate_stats t ms med mn m s).
Proof.
  intros [Hb Hp Hl Hn Hpt Hlp Hw Hlw Hh Hi].
  destruct (evaluate_stats_fields t ms med mn m s) as (E1 & E2 & E3 & E4 & E5 & E6).
  split; [by rewrite E1|by rewrite E2|by rewrite E3|done| | |by rewrite E4| |by rewrite E5|by rewrite E6].
  - rewrite evaluate_stats_points. apply total_points_range.
  - apply legacy_points_range.
  - apply legacy_weight_WEIGHTS.
Qed.

Lemma evaluate_conn_upd t ms med mn c m : conn_upd c (evaluate_conn t ms med mn c m).
Proof.
  unfold evaluate_conn. destruct (in_grace_period _ _); [apply conn_upd_refl|].
  split; [done|]. split; [done|]. intros [Hi Hl Hs]. split; [done..|].
  by apply evaluate_stats_ok.
Qed.

Lemma conn_upd_zip {B} (f : Connection -> B -> Connection) cs ms :
  (forall c b, conn_upd c (f c b)) -> length ms = length cs ->
  Forall2 conn_upd cs (zip_with f cs ms).
Proof.
  intros Hf. revert ms. induction cs as [|c cs IH]; intros [|b ms] Hl; cbn; try done.
  constructor; [apply Hf|]. apply IH. cbn in Hl. lia.
Qed.

Lemma evaluate_group_at_shrunk t ms g : shrunk g (evaluate_group_at t ms g).
Proof.
  unfold evaluate_group_at. cbv zeta.
  set (g1 := g <| total_target_bandwidth := _ |>).
  assert (shrunk g1 (g1 <| connections := zip_with (evaluate_conn t ms
     (median_kbits (map fst (map (fun c => measure ms (stats c)) (connections g))))
     (min_expected_kbits (length (map fst (map (fun c => measure ms (stats c)) (connections g))))))
     (connections g) (map fst (map (fun c => measure ms (stats c)) (connections g))) |>)) as H.
  { apply (shrunk_connections g1 (connections g)); [done|]. apply conn_upd_zip; [|by rewrite !length_map].
    intros. apply evaluate_conn_upd. }
  destruct H as (H1 & H2 & H3 & H4). split; [done|]. split; [exact H2|]. split.
  - intros Hg. destruct H3 as [? ? ? ? ? ?]; [by destruct Hg|]. by split.
  - exact H4.
Qed.

Lemma reweigh_upd c : conn_upd c (reweigh c).
Proof.
  split; [done|]. split; [done|]. intros [? ? [? ? ? ? ? ? ? ? ? ?]]. split; [done..|].
  split; cbn; try done. apply weight_of_points_WEIGHTS.
Qed.

Lemma adjust_weights_shrunk t g : shrunk g (adjust_weights_at t g).
Proof.
  unfold adjust_weights_at. destruct (_ || _); [apply shrunk_refl|].
  set (g1 := g <| last_load_balance_eval := t |>).
  destruct (shrunk_connections g1 (connections g) (map reweigh (connections g))) as (H1 & H2 & H3 & H4).
  { done. }
  { induction (connections g) as [|c cs IH]; constructor; [apply reweigh_upd|done]. }
  split; [done|]. split; [exact H2|]. split; [|exact H4]. intros Hg. apply H3. by destruct Hg.
Qed.

(** ** The monadic operations *)

Lemma evaluate_group_at_kept t ms g : kept g (evaluate_group_at t ms g).
Proof.
  split; try done. cbn. set (infos := map fst _).
  assert (length infos = length (connections g)) as Hl by (unfold infos; by rewrite !length_map).
  pose proof (conn_upd_zip (evaluate_conn t ms (median_kbits infos) (min_expected_kbits (length infos)))
    (connections g) infos (fun c b => evaluate_conn_upd _ _ _ _ c b) Hl) as H.
  revert H. generalize (zip_with (evaluate_conn t ms (median_kbits infos)
    (min_expected_kbits (length infos))) (connections g) infos).
  intros cs' H. by destruct (kept_connections g cs' H).
Qed.

Lemma adjust_weights_kept t g : kept g (adjust_weights_at t g).
Proof.
  unfold adjust_weights_at. destruct (_ || _); [reflexivity|]. split; try done. cbn.
  by rewrite map_map.
Qed.

Section Monadic.
Context `{OS}.

(** Evaluating or reweighing a live group neither adds nor loses anything. *)
Lemma wp_evaluate_group p t E w :
  inv w -> holds p (fun _ => True) w -> wp (evaluate_group p t) (fun _ => stable w) E w.
Proof.
  intros Hi (g & Hg & _). unfold evaluate_group. apply wp_bind. eapply wp_deref_group; [exact Hg|].
  destruct (_ || _); [by apply wp_ret, stable_refl|].
  destruct (_ <? _); [by apply wp_ret, stable_refl|].
  apply wp_bind, wp_modify. set (w1 := w <| groups ::= _ |>).
  assert (stable w w1) as H1.
  { apply stable_on_group; [done| |done|]; intros g'; [|by split].
    split; [done|]. split; [done|]. split; [by intros []|done]. }
  wp_quiet_step ms H2. assert (stable w w0) as H3.
  { eapply stable_trans; [exact H1|]. apply stable_same; [apply H1|done]. }
  destruct ms as [ms|]; [|by apply wp_ret].
  apply wp_modify. eapply stable_trans; [exact H3|].
  apply stable_on_group; [apply H3| |done|]; intros g'.
  - apply evaluate_group_at_shrunk.
  - apply evaluate_group_at_kept.
Qed.

Lemma wp_adjust_weights p t E w :
  inv w -> wp (adjust_weights p t) (fun _ => stable w) E w.
Proof.
  intros Hi. apply wp_modify, stable_on_group; [done| | |]; intros g.
  - apply adjust_weights_shrunk.
  - unfold adjust_weights_at. by destruct (_ || _).
  - apply adjust_weights_kept.
Qed.

End Monadic.
