(* ===== verification/HandlerProofs.v ===== *)
(** * The handlers keep the registry invariant

    Every handler of src/protocol/, on every branch and for every behaviour
    of the kernel, from a state where [inv] holds to one where it holds. *)

From stdpp Require Import list gmap.
From S2P Require Import Prelude Config Wire NetUtils NakDedup AuthRateLimiter Connection World.
From S2P Require Import Registry Quality SrtHandler SrtlaHandler Hoare Invariant.
From S2P Require Import RegistryProofs QualityProofs.

(** Descriptor 0 is the process's standard input: [socket] never returns it. *)
Class StdinOpen `{OS} : Prop := socket_not_stdin : forall n, os_socket n <> 0.

(** A step on live tables, in proofs: [H] extends the chain of stable states. *)
Ltac stable_step H :=
  eapply stable_trans; [exact H|apply stable_same; [apply H|]]; try done.

#[local] Arguments on_group : simpl never.
#[local] Arguments on_conn : simpl never.

(** ** Connections under the handlers' updates *)

Lemma conn_upd_simple c c' :
  c_ptr c' = c_ptr c -> address c' = address c -> recv_index c' = recv_index c ->
  recv_log c' = recv_log c -> (stats_ok (stats c) -> stats_ok (stats c')) -> conn_upd c c'.
Proof.
  intros Hp Ha Hi Hl Hs. split; [done|]. split; [done|]. intros [H1 H2 H3].
  split; [by rewrite Hi|by rewrite Hl|auto].
Qed.

Lemma on_packet_received_ok n s : stats_ok s -> stats_ok (on_packet_received n s).
Proof. intros []. split; cbn; try done; apply u64_range. Qed.

Lemma on_nak_detected_ok n s : stats_ok s -> stats_ok (on_nak_detected n s).
Proof. intros []. split; cbn; try done; [apply u32_range|apply u16_range]. Qed.

Lemma telemetry_ok info t s : stats_ok s -> stats_ok (update_connection_telemetry info t s).
Proof.
  intros []. split; cbn; try done.
  - by rewrite length_insert.
  - unfold RTT_HISTORY_SIZE in *. assert (0 <= (rtt_history_idx s + 1) mod Z.of_nat 5 < 5)
      by (apply Z.mod_pos_bound; lia).
    rewrite u8_small; lia.
Qed.

(** ** ACKs, keepalives, NAKs *)

Section Handlers.
Context {os : OS} {hc : HandlerConfig}.

Lemma wp_modify_conn gp cp f (Q : unit -> world -> Prop) E w :
  inv w -> (forall c, conn_upd c (f c)) ->
  (forall w', stable w w' -> Q tt w') -> wp (modify_conn gp cp f) Q E w.
Proof. intros Hi Hf HQ. apply wp_modify, HQ. by apply stable_on_conn. Qed.

Lemma wp_deref_held gp Φ (Q : ConnectionGroup -> world -> Prop) E w :
  holds gp Φ w -> (forall g, lookup_group gp (groups w) = Some g -> Φ g -> Q g w) ->
  wp (deref_group gp) Q E w.
Proof. intros (g & Hg & HΦ) HQ. eapply wp_deref_group; eauto. Qed.

Lemma wp_deref_has_conn gp cp addr (Q : Connection -> world -> Prop) E w :
  holds gp (has_conn cp addr) w ->
  (forall c, addr_key (address c) = addr_key addr -> Q c w) -> wp (deref_conn gp cp) Q E w.
Proof. intros (g & Hg & c & Hc & Ha) HQ. eapply wp_deref_conn; eauto. Qed.

(** The logged packet, with the index reset when it completes an ACK. *)
Definition log_and_reset (sn : Z) (c : Connection) : Connection :=
  let c' := log_packet sn c in
  if recv_index c' =? RECV_ACK_INT then c' <| recv_index := 0 |> else c'.

Lemma next_recv_index_range idx : 1 <= next_recv_index idx <= RECV_ACK_INT.
Proof.
  unfold next_recv_index, RECV_ACK_INT. destruct (Z.leb_spec (idx + 1) 0), (Z.ltb_spec 10 (idx + 1)); cbn; lia.
Qed.

Lemma log_and_reset_upd sn c : conn_upd c (log_and_reset sn c).
Proof.
  pose proof (next_recv_index_range (recv_index c)). unfold log_and_reset.
  destruct (Z.eqb_spec (recv_index (log_packet sn c)) RECV_ACK_INT) as [E|E].
  - split; [done|]. split; [done|]. intros [H1 H2 H3]. split; cbn; [by unfold RECV_ACK_INT| |done].
    by rewrite length_insert.
  - split; [done|]. split; [done|]. intros [H1 H2 H3]. cbn in E. split; cbn; [lia| |done].
    by rewrite length_insert.
Qed.

Lemma on_group_twice p f1 f2 gs :
  (forall g, g_ptr (f1 g) = g_ptr g) ->
  on_group p f2 (on_group p f1 gs) = on_group p (fun g => f2 (f1 g)) gs.
Proof.
  intros Hp. unfold on_group. rewrite map_map. apply map_ext. intros g.
  destruct (decide (g_ptr g = p)) as [E|E]; [|by rewrite decide_False].
  rewrite decide_True; [done|]. by rewrite Hp.
Qed.

Lemma on_conn_twice p f1 f2 cs :
  (forall c, c_ptr (f1 c) = c_ptr c) ->
  on_conn p f2 (on_conn p f1 cs) = on_conn p (fun c => f2 (f1 c)) cs.
Proof.
  intros Hp. unfold on_conn. rewrite map_map. apply map_ext. intros c.
  destruct (decide (c_ptr c = p)) as [E|E]; [|by rewrite decide_False].
  rewrite decide_True; [done|]. by rewrite Hp.
Qed.

(** Through a pointer, only the object it points to matters. *)
Lemma on_group_ext p f f' gs g :
  NoDup (map g_ptr gs) -> lookup_group p gs = Some g -> f g = f' g ->
  on_group p f gs = on_group p f' gs.
Proof.
  intros Hnd Hl Hf. apply map_ext_in. intros x Hx%list_elem_of_In.
  case_decide as E; [|done]. apply lookup_group_elem in Hl as [Hg Hp].
  replace x with g; [done|]. eapply NoDup_map_inj; [exact Hnd|done..|congruence].
Qed.

Lemma on_conn_ext p f f' cs c :
  NoDup (map c_ptr cs) -> lookup_conn p cs = Some c -> f c = f' c ->
  on_conn p f cs = on_conn p f' cs.
Proof.
  intros Hnd Hl Hf. apply map_ext_in. intros x Hx%list_elem_of_In.
  case_decide as E; [|done]. apply find_first_Some in Hl as [Hg Hp]. apply bool_decide_eq_true in Hp.
  replace x with c; [done|]. eapply NoDup_map_inj; [exact Hnd|done..|congruence].
Qed.

Lemma stable_groups_eq gp cp f w w' :
  inv w -> (forall c, conn_upd c (f c)) ->
  groups w' = on_group gp (fun g => g <| connections ::= on_conn cp f |>) (groups w) ->
  next_ptr w' = next_ptr w -> epoll_set w' = epoll_set w -> stable w w'.
Proof.
  intros Hi Hf E1 E2 E3. eapply stable_trans; [by apply (stable_on_conn gp cp f)|].
  apply stable_same; [by apply stable_on_conn|]. by split.
Qed.

(** The ACK a packet with sequence number [sn] completes, if it does. *)
Definition due_ack (sn : Z) (c : Connection) : option (list byte) :=
  if recv_index (log_packet sn c) =? RECV_ACK_INT
  then Some (ack_packet (recv_log (log_packet sn c))) else None.

Lemma wp_register_packet gp cp sn g c (Q : unit -> world -> Prop) E w :
  inv w -> lookup_group gp (groups w) = Some g -> lookup_conn cp (connections g) = Some c ->
  (forall w', stable w w' ->
     groups w' = on_group gp (fun g => g <| connections ::= on_conn cp (log_and_reset sn) |>) (groups w) ->
     (forall ack, due_ack sn c = Some ack ->
        exists ret, trace w' = IoSendto (address c) (pad_payload ack) ret :: trace w) ->
     (due_ack sn c = None -> trace w' = trace w) -> Q tt w') ->
  wp (register_packet gp cp sn) Q E w.
Proof.
  intros Hi Hg Hc HQ. unfold register_packet. apply wp_bind, wp_modify.
  set (w1 := w <| groups ::= _ |>).
  set (g1 := g <| connections ::= on_conn cp (log_packet sn) |>).
  assert (lookup_group gp (groups w1) = Some g1) as Hg1 by (by apply lookup_on_group).
  assert (lookup_conn cp (connections g1) = Some (log_packet sn c)) as Hc1 by (by apply lookup_on_conn).
  pose proof (stable_groups_eq gp cp (log_and_reset sn) w) as Hst.
  assert (NoDup (map g_ptr (groups w))) as Hnd by apply Hi.
  assert (NoDup (map c_ptr (connections g))) as Hndc.
  { apply lookup_group_elem in Hg as [Hg _]. destruct Hi as [[_ _ Hok _ _] _].
    rewrite Forall_forall in Hok. by apply Hok. }
  apply wp_bind. eapply wp_deref_conn; [exact Hg1|exact Hc1|].
  unfold due_ack in HQ. destruct (recv_index (log_packet sn c) =? RECV_ACK_INT) eqn:Ei.
  - assert (groups (w1 <| groups ::= on_group gp (fun g => g <| connections ::= on_conn cp
        (fun c => c <| recv_index := 0 |>) |>) |>) =
      on_group gp (fun g => g <| connections ::= on_conn cp (log_and_reset sn) |>) (groups w)) as EG.
    { cbn. rewrite on_group_twice by done. eapply on_group_ext; [done|exact Hg|].
      unfold upd. cbn. rewrite on_conn_twice by done.
      erewrite (on_conn_ext cp _ (log_and_reset sn)); [reflexivity|done|exact Hc|].
      unfold log_and_reset. by rewrite Ei. }
    unfold wp, pad_sendto, sendto, next_call, emit, modify, when, inc, inc_by, modify_conn,
      modify_group, mbind, M_bind, mret, M_ret, skip.
    destruct (negb _); cbn -[w1 on_group ack_packet]; apply HQ; try done.
    all: try (apply Hst; [done|apply log_and_reset_upd|done..]). all: intros ack [= <-]; eexists; reflexivity.
  - assert (groups w1 = on_group gp (fun g => g <| connections ::= on_conn cp (log_and_reset sn) |>) (groups w)) as EG.
    { cbn. eapply on_group_ext; [done|exact Hg|]. unfold upd. cbn.
      erewrite (on_conn_ext cp _ (log_and_reset sn)); [reflexivity|done|exact Hc|]. unfold log_and_reset. by rewrite Ei. }
    apply wp_ret, HQ; [apply Hst; [done|apply log_and_reset_upd|done..]|done|done|done].
Qed.

Lemma wp_handle_keepalive gp cp addr buf n E w :
  inv w -> wp (handle_keepalive gp cp addr buf n) (fun _ => stable w) E w.
Proof.
  intros Hi. unfold handle_keepalive. wp_quiet_step now H1.
  assert (stable w w0) as S1 by (by apply stable_same). apply wp_bind.
  apply (wp_mono _ (fun _ => stable w)).
  - destruct (parse_keepalive_conn_info buf n) as [info|]; [|by apply wp_ret].
    apply wp_modify_conn; [apply S1| |].
    + intros c. apply conn_upd_simple; try done. apply telemetry_ok.
    + intros w' S2. by eapply stable_trans.
  - intros [] w2 S2. apply wp_quiet; [apply _|]. intros [] w3 H3.
    eapply stable_trans; [exact S2|]. apply stable_same; [apply S2|done].
Qed.

Lemma wp_account_nak gp cp addr buf n ts E w :
  inv w -> holds gp (has_conn cp addr) w ->
  wp (account_nak gp cp buf n ts) (fun _ => stable w) E w.
Proof.
  intros Hi Hh. unfold account_nak. destruct (is_srt_nak_packet buf n); [|by apply wp_ret, stable_refl].
  apply wp_bind. unfold is_duplicate_nak. wp_quiet_step now H1.
  assert (stable w w0) as S1 by (by apply stable_same).
  apply wp_bind. eapply wp_deref_held; [by eapply holds_same|]. intros g Hg _.
  destruct (should_accept_nak _ _ _) as [accept cache]. apply wp_bind, wp_modify, wp_ret.
  set (w1 := w0 <| groups ::= _ |>).
  assert (stable w w1) as S2.
  { eapply stable_trans; [exact S1|]. apply stable_on_group; [apply S1| |done|]; intros g'; [|by split].
    split; [done|]. split; [done|]. split; [by intros []|done]. }
  clearbody w1. destruct (negb accept).
  { apply wp_quiet; [apply _|]. intros a w2 H2. eapply stable_trans; [exact S2|].
    apply stable_same; [apply S2|done]. }
  wp_quiet_step u H2. assert (stable w w2) as S3 by (eapply stable_trans; [exact S2|apply stable_same; [apply S2|done]]).
  apply wp_bind, wp_modify_conn; [apply S3| |].
  { intros c. apply conn_upd_simple; try done. apply on_nak_detected_ok. }
  intros w3 S4. assert (stable w w3) as S5 by (by eapply stable_trans).
  pose proof (stable_has_conn _ _ _ _ _ S5 Hh) as Hh3.
  apply wp_bind. eapply wp_deref_has_conn; [exact Hh3|]. intros c _.
  apply wp_bind. eapply wp_deref_held; [exact Hh3|]. intros g3 Hg3 _.
  apply wp_bind. apply (wp_mono _ (fun _ => stable w)).
  - apply wp_when; intros _; [|done]. eapply wp_mono.
    + apply wp_evaluate_group; [apply S5|]. eapply holds_impl; [|exact Hh3]. done.
    + intros [] w4 S6. by eapply stable_trans.
  - intros [] w4 S6. by apply wp_ret.
Qed.

(** ** The group's socket *)

(** What forwarding leaves: everything in place, or the group gone. *)
Definition forwarded (gp : nat) (w : world) (ok : bool) (w' : world) : Prop :=
  if ok then stable w w' else inv w' /\ groups w' = without gp (groups w).

Lemma wp_srt_remove_group gp reason w0 E w :
  inv w -> groups w = groups w0 ->
  wp (srt_remove_group gp reason) (fun _ w' => inv w' /\ groups w' = without gp (groups w0)) E w.
Proof.
  intros Hi Hg. unfold srt_remove_group. wp_quiet_step u H1.
  apply wp_remove_group; [by eapply inv_same|]. intros w' Hi' Hg'.
  split; [done|]. by rewrite Hg', (proj1 H1), Hg.
Qed.

Lemma inv_pruned fds w w' : inv w -> pruned fds w w' -> inv w'.
Proof.
  intros [Hr He] (H1 & H2 & H3). unfold inv. rewrite H1, H2. split; [done|].
  apply (epoll_ok_remove _ _ _ _ _ He H3). intros g Hg. left. by exists g.
Qed.

Lemma wp_abandon_socket gp sock w0 E w :
  inv w -> groups w = groups w0 -> wp (abandon_socket gp sock) (forwarded gp w0) E w.
Proof.
  intros Hi Hg. unfold abandon_socket. apply wp_bind, wp_close. intros w1 H1.
  apply wp_bind. eapply wp_mono.
  - apply (wp_srt_remove_group gp _ w0); [by eapply inv_pruned|]. by rewrite (proj1 H1).
  - intros [] w2 H2. by apply wp_ret.
Qed.

#[export] Instance quiet_connect_srt sock : Quiet (connect_srt sock).
Proof. unfold connect_srt. apply _. Qed.

#[export] Instance quiet_log_forward_drop : Quiet log_forward_drop.
Proof.
  unfold log_forward_drop. apply quiet_bind; [intros w; by eexists tt, _|]. intros _.
  apply quiet_bind; [apply _|]. intros [now|]; [|apply _]. apply quiet_bind; [apply _|]. intros last.
  destruct (_ && _); [apply _|]. apply quiet_bind; [intros w; by eexists tt, _|]. apply _.
Qed.

Lemma wp_epoll_add fd p (Q : Z -> world -> Prop) E w :
  (forall w', groups w' = groups w -> next_ptr w' = next_ptr w ->
     epoll_set w' = (fd, p) :: epoll_set w -> Q 0 w') ->
  (forall r w', r <> 0 -> same_state w w' -> Q r w') -> wp (epoll_add fd p) Q E w.
Proof.
  intros H0 H1. unfold wp, epoll_add, next_call, emit, modify, when, mbind, M_bind, mret, M_ret, skip.
  destruct (Z.eqb_spec (os_epoll_ctl (calls w) fd) 0) as [E0|E0]; cbn.
  - rewrite E0. by apply H0.
  - by apply H1.
Qed.

(** Opening the socket of a group that carries data: the group now answers
    to a registration of its own. *)
Lemma stable_open_socket gp g sock efd w w' :
  inv w -> lookup_group gp (groups w) = Some g -> data_seen g = true ->
  srt_socket g < 0 -> 0 < sock ->
  groups w' = on_group gp (fun g => g <| srt_socket := sock |> <| epoll_fd := efd |>) (groups w) ->
  next_ptr w' = next_ptr w -> epoll_set w' = (sock, gp) :: epoll_set w -> stable w w'.
Proof.
  intros [Hr He] Hg Hd Hneg Hpos EG EN EE. set (f := fun g : ConnectionGroup => _) in EG.
  assert (forall x, x ∈ groups w -> g_ptr x = gp -> x = g) as Huniq.
  { intros x Hx Hp. destruct (lookup_group_elem _ _ _ Hg) as [Hgin Hgp].
    eapply NoDup_map_inj; [apply Hr|done..|congruence]. }
  split; [split|].
  - rewrite EG, EN. eapply registry_on_group; [exact Hr|done|].
    intros x Hx Hp Hok Hb. split; [done|]. split; [|split; [done|auto]].
    destruct Hok. split; try done. cbn. intros Hf. rewrite (Huniq x Hx Hp) in Hf. congruence.
  - rewrite EG, EE. intros fd p Hin. apply elem_of_cons in Hin as [[= -> ->]|Hin].
    + split; [done|]. destruct (lookup_group_elem _ _ _ Hg) as [Hgin Hgp]. exists (f g).
      split; [|done]. apply elem_of_on_group. exists g. split; [done|]. by rewrite decide_True.
    + destruct (He fd p Hin) as (Hfd & x & Hx & Hp & Hs). split; [done|]. exists x.
      split; [|done]. apply elem_of_on_group. exists x. split; [done|].
      rewrite decide_False; [done|]. intros E. rewrite (Huniq x Hx E) in Hs. lia.
  - unfold kept_groups. rewrite EG. clear -Huniq Hneg.
    assert (forall x, x ∈ groups w -> kept x (if decide (g_ptr x = gp) then f x else x)) as Hk.
    { intros x Hx. case_decide as E; [|reflexivity]. split; try done. rewrite (Huniq x Hx E). lia. }
    unfold on_group. induction (groups w) as [|x gs IH]; cbn; constructor.
    + apply Hk. by left.
    + apply IH; intros y Hy; [intros; apply Huniq; [by right|done]|apply Hk; by right].
Qed.

(** One fallible step of [ensure_group_socket]. *)
Ltac sock_step Hs :=
  let x := fresh "r" in let H' := fresh "Hs'" in
  wp_quiet_step x H';
  match type of H' with same_state ?a ?b =>
    match type of Hs with same_state ?w a =>
      let K := fresh "K" in
      assert (same_state w b) as K by (by transitivity a);
      clear H' Hs; rename K into Hs
    end
  end;
  match goal with
  | |- context [if ?b then abandon_socket _ _ else _] =>
      destruct b; [apply wp_abandon_socket; [by eapply inv_same|by apply Hs]|]
  | _ => idtac
  end.

Lemma wp_socket `{!StdinOpen} (Q : Z -> world -> Prop) E w :
  (forall sock w', sock <> 0 -> same_state w w' -> Q sock w') -> wp socket Q E w.
Proof. intros HQ. apply HQ; [apply socket_not_stdin|done]. Qed.

Lemma wp_ensure_group_socket `{!StdinOpen} gp E w :
  inv w -> holds gp (fun g => data_seen g = true) w ->
  wp (ensure_group_socket gp) (forwarded gp w) E w.
Proof.
  intros Hi Hh. unfold ensure_group_socket. apply wp_bind.
  eapply wp_deref_held; [exact Hh|]. intros g Hg Hd.
  destruct (Z.leb_spec 0 (srt_socket g)) as [Hp|Hneg]; [by apply wp_ret, stable_refl|].
  apply wp_bind, wp_socket. intros sock w1 Hsock Hs.
  destruct (Z.ltb_spec sock 0) as [Hsn|Hsp].
  { apply wp_bind. eapply wp_mono; [apply (wp_srt_remove_group gp _ w); [by eapply inv_same|by apply Hs]|].
    intros [] w2 H2. by apply wp_ret. }
  do 6 sock_step Hs.
  apply wp_bind, wp_epoll_add; last first.
  { intros r' w' Hr' Hs'. rewrite (proj2 (Z.eqb_neq _ _) Hr'). cbn [negb].
    assert (same_state w w') as Hs2 by (etransitivity; [exact Hs|exact Hs']).
    apply wp_abandon_socket; [by eapply inv_same|by apply Hs2]. }
  intros we EG EN EE. cbn [negb Z.eqb]. apply wp_bind, wp_modify.
  destruct Hs as (Hs1 & Hs2 & Hs3). rewrite Hs1 in EG. rewrite Hs2 in EN. rewrite Hs3 in EE.
  set (wf := we <| groups ::= _ |>).
  assert (stable w wf) as S3.
  { eapply stable_open_socket; [done|exact Hg|done|done| |cbn; rewrite EG; reflexivity|done|done]. lia. }
  clearbody wf. apply wp_bind. eapply wp_deref_held.
  { eapply kept_holds; [|apply S3|exact Hh]. intros a b [] ?. auto. }
  intros g3 Hg3 _. wp_quiet_step u H4. apply wp_ret.
  eapply stable_trans; [exact S3|]. apply stable_same; [apply S3|done].
Qed.

Lemma without_kept gp gs gs' :
  Forall2 kept gs gs' -> Forall2 kept (without gp gs) (without gp gs').
Proof.
  unfold without. induction 1 as [|g g' l l' H _ IH]; [constructor|].
  rewrite !filter_cons. rewrite (k_ptr _ _ H). case_decide; [by constructor|done].
Qed.

(** What a data packet leaves: every group in place, or its group gone and
    the others in place. *)
Definition settled (gp : nat) (w : world) (ok : bool) (w' : world) : Prop :=
  inv w' /\ Forall2 kept (if ok then groups w else without gp (groups w)) (groups w').

Lemma settled_forwarded gp w w1 ok w' : stable w w1 -> forwarded gp w1 ok w' -> settled gp w ok w'.
Proof.
  intros [_ K1]. destruct ok; cbn; intros [Hi K2].
  - split; [done|]. change (kept_groups w w'). by transitivity w1.
  - split; [done|]. rewrite K2. by apply without_kept.
Qed.

Lemma settled_trans gp w w1 ok w' : stable w w1 -> settled gp w1 ok w' -> settled gp w ok w'.
Proof.
  intros [_ K1]. destruct ok; cbn; intros [Hi K2]; (split; [done|]).
  - change (kept_groups w w'). by transitivity w1.
  - etransitivity; [|exact K2]. by apply without_kept.
Qed.

Lemma wp_forward `{!StdinOpen} gp buf E w :
  inv w -> holds gp (fun g => data_seen g = true) w ->
  wp (forward_to_srt_server gp buf) (settled gp w) E w.
Proof.
  intros Hi Hh. unfold forward_to_srt_server. apply wp_bind.
  eapply wp_mono; [by apply wp_ensure_group_socket|]. intros ok w1 Hf.
  destruct ok; cbn [negb]; last first.
  { apply wp_ret. eapply settled_forwarded; [by apply stable_refl|done]. }
  apply wp_bind. eapply wp_deref_held.
  { eapply kept_holds; [|apply Hf|exact Hh]. intros a b [] ?. auto. }
  intros g Hg _. wp_quiet_step r Hs. destruct r as [ret err].
  assert (stable w w0) as S1 by (eapply stable_trans; [exact Hf|apply stable_same; [apply Hf|done]]).
  destruct (ret =? Zlength buf); [|destruct (_ && _)].
  - wp_quiet_step u1 H1. wp_quiet_step u2 H2. apply wp_ret.
    apply (settled_trans _ _ w0); [done|]. apply stable_same; [apply S1|by transitivity w2].
  - wp_quiet_step u1 H1. wp_quiet_step u2 H2. apply wp_ret.
    apply (settled_trans _ _ w0); [done|]. apply stable_same; [apply S1|by transitivity w2].
  - wp_quiet_step u1 H1. apply wp_bind.
    eapply wp_mono; [apply (wp_srt_remove_group gp _ w0)|].
    + eapply inv_same; [exact H1|apply S1].
    + apply H1.
    + intros [] w3 H3. apply wp_ret. by apply (settled_forwarded gp w w0 false).
Qed.

(** ** Data packets *)

(** Taking an address the group already owns as its last address. *)
Lemma stable_set_last gp addr f w :
  inv w -> holds gp (fun g => addr_key addr ∈ owned g) w ->
  (forall g, f g = g <| data_seen := true |> <| last_address := addr |>) \/
  (forall g, f g = g <| last_address := addr |>) ->
  stable w (w <| groups ::= on_group gp f |>).
Proof.
  intros Hi (g & Hg & Hin) Hf.
  set (f' := fun x => if bool_decide (addr_key addr ∈ owned x) then f x else x).
  assert (on_group gp f (groups w) = on_group gp f' (groups w)) as E.
  { eapply on_group_ext; [apply Hi|exact Hg|]. unfold f'. by rewrite bool_decide_eq_true_2. }
  assert (stable w (w <| groups ::= on_group gp f' |>)) as S.
  { apply stable_on_group; [done|..]; intros x; unfold f'; case_bool_decide as Ha; try done.
    - split; [by destruct Hf as [-> | ->]|]. split; [|split].
      + intros k Hk. assert (owned (f x) = addr_key addr :: conn_addrs x) as Eo
          by (by destruct Hf as [-> | ->]). rewrite Eo in Hk.
        apply elem_of_cons in Hk as [->|Hk]; [done|by right].
      + intros []. by destruct Hf as [-> | ->]; split.
      + intros n. by destruct Hf as [-> | ->].
    - by destruct Hf as [-> | ->].
    - by destruct Hf as [-> | ->]; split. }
  eapply stable_trans; [exact S|]. apply stable_same; [apply S|]. split; [|done]. cbn. by rewrite E.
Qed.

Lemma wp_handle_data `{!StdinOpen} gp cp buf n addr ts E w :
  inv w -> holds gp (has_conn cp addr) w ->
  wp (handle_data gp cp buf n addr ts) (fun _ w' => exists ok, settled gp w ok w') E w.
Proof.
  intros Hi Hh. unfold handle_data. apply wp_bind, wp_modify. set (w1 := w <| groups ::= _ |>).
  assert (stable w w1) as S1.
  { apply (stable_set_last _ addr); [done| |by left].
    eapply holds_impl; [|exact Hh]. intros g. apply has_conn_owned. }
  assert (holds gp (fun g => data_seen g = true) w1) as Hd1.
  { eapply (holds_on_group gp _ (fun _ => True)); [done|done|]. by eapply holds_impl. }
  clearbody w1. apply wp_bind, wp_modify_conn; [apply S1| |].
  { intros c. apply conn_upd_simple; try done. apply on_packet_received_ok. }
  intros w2 S2'. assert (stable w w2) as S2 by (by eapply stable_trans).
  apply wp_bind. eapply wp_mono.
  { apply (wp_account_nak gp cp addr); [apply S2|]. by eapply stable_has_conn. }
  intros go_on w3 S3'. assert (stable w w3) as S3 by (by eapply stable_trans).
  assert (stable w1 w3) as S13 by (by eapply stable_trans).
  destruct go_on; cbn [negb]; [|apply wp_ret; exists true; by split; [apply S3|apply S3]].
  apply wp_bind. apply (wp_mono _ (fun _ => stable w3)).
  - apply wp_when; intros _; [|by apply stable_refl; apply S3].
    destruct (stable_has_conn _ _ _ _ _ S3 Hh) as (g & Hg & c & Hc & _).
    eapply wp_register_packet; [apply S3|exact Hg|exact Hc|]. done.
  - intros [] w4 S4. apply wp_bind. eapply wp_mono.
    + apply wp_forward; [apply S4|].
      eapply kept_holds; [|apply (stable_trans _ _ _ S13 S4)|exact Hd1]. intros a b [] ?. auto.
    + intros ok w5 H5. apply wp_ret. exists ok. eapply settled_trans; [|exact H5].
      by eapply stable_trans.
Qed.

(** ** The live identities *)

Definition ptrs (w : world) : list nat := map g_ptr (groups w).
(** No group is new. *)
Definition shrinks (w w' : world) : Prop := ptrs w' `sublist_of` ptrs w.

#[export] Instance shrinks_preorder : PreOrder shrinks.
Proof. unfold shrinks. split; [by intros w|]. intros a b c H1 H2. by transitivity (ptrs b). Qed.

Lemma kept_ptrs gs gs' : Forall2 kept gs gs' -> map g_ptr gs' = map g_ptr gs.
Proof. induction 1 as [|g g' l l' H _ IH]; cbn; [done|]. by rewrite (k_ptr _ _ H), IH. Qed.

Lemma stable_ptrs w w' : stable w w' -> ptrs w' = ptrs w.
Proof. intros [_ K]. by apply kept_ptrs. Qed.

Lemma stable_shrinks w w' : stable w w' -> shrinks w w'.
Proof. intros S. unfold shrinks. by rewrite (stable_ptrs _ _ S). Qed.

Lemma without_ptrs gp gs : map g_ptr (without gp gs) `sublist_of` map g_ptr gs.
Proof. apply (fmap_sublist g_ptr), sublist_filter. Qed.

Lemma settled_shrinks gp w ok w' : settled gp w ok w' -> inv w' /\ shrinks w w'.
Proof.
  intros [Hi K]. split; [done|]. unfold shrinks, ptrs. rewrite (kept_ptrs _ _ K).
  destruct ok; [done|apply without_ptrs].
Qed.

(** ** The SRT server's packets *)

#[export] Instance quiet_record_auth_failure addr now : Quiet (record_auth_failure addr now).
Proof. unfold record_auth_failure. apply quiet_bind; [apply _|]. intros _ w. by eexists tt, _. Qed.
#[export] Instance quiet_relay_to_clients g buf n : Quiet (relay_to_clients g buf n).
Proof. unfold relay_to_clients. apply _. Qed.
#[export] Instance quiet_relay_to_last g buf n : Quiet (relay_to_last g buf n).
Proof. unfold relay_to_last. apply _. Qed.

Lemma stable_established gp w : inv w ->
  stable w (w <| groups ::= on_group gp (fun g => g <| established := true |>) |>).
Proof.
  intros Hi. apply stable_on_group; [done| |done|]; intros g; [|by split].
  split; [done|]. split; [done|]. split; [by intros []|done].
Qed.

Lemma wp_handle_srt_data gp E w :
  inv w -> holds gp (fun _ => True) w ->
  wp (handle_srt_data gp) (fun _ w' => exists ok, settled gp w ok w') E w.
Proof.
  intros Hi Hh. unfold handle_srt_data. apply wp_bind. eapply wp_deref_held; [exact Hh|]. intros g Hg _.
  wp_quiet_step received H1. set (n := match received with Some _ => _ | None => _ end).
  set (buf := default [] received). wp_quiet_step u H2.
  assert (stable w w1) as S1 by (apply stable_same; [done|by transitivity w0]).
  destruct (n <? SRT_MIN_LEN).
  { eapply wp_mono; [apply (wp_srt_remove_group gp _ w1); [apply S1|done]|].
    intros [] w' Hw'. exists false. by eapply (settled_forwarded gp w w1). }
  unfold handle_srt_packet. apply wp_bind. apply (wp_mono _ (fun _ => stable w)).
  { apply wp_when; intros _; [|done]. apply wp_modify. eapply stable_trans; [exact S1|].
    apply stable_established, S1. }
  intros [] w2 S2. apply wp_bind. eapply wp_deref_held; [by eapply stable_live|]. intros g2 Hg2 _.
  wp_quiet_step u3 H3.
  assert (stable w w3) as S3 by (eapply stable_trans; [exact S2|apply stable_same; [apply S2|done]]).
  destruct (_ && _); [apply wp_ret; exists true; by split; apply S3|].
  wp_quiet_step u4 H4.
  assert (stable w w4) as S4 by (eapply stable_trans; [exact S3|apply stable_same; [apply S3|done]]).
  apply wp_when; intros _; [|exists true; by split; apply S4].
  eapply wp_mono; [apply (wp_srt_remove_group gp _ w4); [apply S4|done]|].
  intros [] w' Hw'. exists false. by eapply (settled_forwarded gp w w4).
Qed.

(** ** Random bytes *)

Lemma wp_read_random fuel acc size (E : exn -> world -> Prop) w :
  Zlength acc <= size -> size - Zlength acc <= Z.of_nat fuel ->
  (forall w', same_state w w' -> E RuntimeError w') ->
  wp (read_random fuel acc size) (fun r w' => Zlength r = size /\ same_state w w') E w.
Proof.
  revert acc w. induction fuel as [|fuel IH]; intros acc w Hle Hf HE; cbn [read_random].
  - destruct (Z.ltb_spec (Zlength acc) size); [lia|]. apply wp_ret. split; [lia|done].
  - destruct (Z.ltb_spec (Zlength acc) size); [|apply wp_ret; split; [lia|done]].
    wp_quiet_step t H1. set (chunk := take _ _).
    assert (Zlength chunk <= size - Zlength acc) as Hc
      by (unfold chunk, Zlength; rewrite length_take; unfold Zlength in *; lia).
    destruct (Z.leb_spec (Zlength chunk) 0).
    { by apply HE. }
    assert (Zlength (acc ++ chunk) = Zlength acc + Zlength chunk) as Ha
      by (unfold Zlength; rewrite length_app; lia).
    eapply wp_mono; [apply IH; [lia|lia|]|].
    + intros w' H2. apply HE. by transitivity w0.
    + cbn beta. intros r w' (Hr & H2). split; [done|]. by transitivity w0.
Qed.

Lemma wp_get_random_bytes size (E : exn -> world -> Prop) w :
  0 <= size -> (forall w', same_state w w' -> E RuntimeError w') ->
  wp (get_random_bytes size) (fun r w' => Zlength r = size /\ same_state w w') E w.
Proof.
  intros Hs HE. unfold get_random_bytes. wp_quiet_step t H1.
  destruct (negb _); [by apply HE|].
  eapply wp_mono; [apply wp_read_random; [unfold Zlength; cbn; lia|unfold Zlength; cbn; lia|]|].
  - intros w' H2. apply HE. by transitivity w0.
  - cbn beta. intros r w' (Hr & H2). split; [done|]. by transitivity w0.
Qed.

(** ** REG1 *)

#[export] Instance quiet_reply type addr : Quiet (reply type addr).
Proof. unfold reply. apply _. Qed.
#[export] Instance quiet_send_keepalive c : Quiet (send_keepalive c).
Proof. unfold send_keepalive. apply _. Qed.

(** What the checks of REG1 leave: the table as it was or less its oldest
    pending group; on admission, room and an address nobody owns. *)
Definition checked (addr : sockaddr_storage) (w : world) (r : option Counter) (w' : world) : Prop :=
  inv w' /\
  (groups w' = groups w \/
   exists o, oldest_pending (groups w) = Some o /\ groups w' = without (g_ptr o) (groups w)) /\
  (r = None -> Zlength (groups w') < MAX_GROUPS /\ find_by_address addr (groups w') = None).

Lemma wp_reg1_refusal addr ts E w :
  inv w -> wp (reg1_refusal addr ts) (checked addr w) E w.
Proof.
  intros Hi. unfold reg1_refusal. apply wp_bind, wp_gets.
  destruct (is_blocked addr ts (limiter w)); [apply wp_ret; split; [done|]; split; [by left|done]|].
  apply wp_bind, wp_gets, wp_bind.
  apply (wp_mono _ (fun full w' => inv w' /\ (groups w' = groups w \/
   exists o, oldest_pending (groups w) = Some o /\ groups w' = without (g_ptr o) (groups w)) /\
   (full = false -> Zlength (groups w') < MAX_GROUPS))).
  - destruct (Z.leb_spec MAX_GROUPS (Zlength (groups w))) as [Hf|Hf].
    + apply wp_bind, wp_evict; [done| |].
      * intros w' o Hi' Ho Hg. apply wp_ret. split; [done|]. split; [right; by exists o|].
        intros _. apply oldest_pending_some in Ho as (Hin & _). rewrite Hg.
        erewrite length_without; [|apply Hi|exact Hin|done]. destruct Hi as [[Hsz _ _ _ _] _]. lia.
      * intros Hn. apply wp_ret. split; [done|]. split; [by left|done].
    + apply wp_ret. split; [done|]. split; [by left|lia].
  - intros full w' (Hi' & Hg' & Hf). destruct full; [apply wp_ret; by split|].
    apply wp_bind, wp_gets. destruct (find_by_address addr (groups w')) eqn:Ef;
      apply wp_ret; split; try done. split; [done|]. intros _. auto.
Qed.

(** The new group is well-formed, and owns the registering address only. *)
Lemma new_group_ok p cid rnd ts addr :
  Zlength rnd = SRTLA_ID_LEN / 2 -> SRTLA_ID_LEN / 2 <= Zlength cid ->
  group_ok (new_group p cid rnd ts <| last_address := addr |>).
Proof.
  unfold Zlength. intros Hr Hc. split; cbn; try done; try constructor.
  rewrite length_app, length_take. unfold SRTLA_ID_LEN in *.
  change (256 / 2) with 128 in *. lia.
Qed.

(** What REG1 leaves: the table after the checks, with the new group at its
    end when the registration succeeded. *)
Definition reg1_result (addr : sockaddr_storage) (buffer : list byte) (ts : Z)
  (w : world) (r : Z) (w' : world) : Prop :=
  inv w' /\
  exists gs, (gs = groups w \/
     exists o, oldest_pending (groups w) = Some o /\ gs = without (g_ptr o) (groups w)) /\
  (r <> 0 /\ groups w' = gs \/
   r = 0 /\ exists p rnd, Zlength rnd = SRTLA_ID_LEN / 2 /\
     groups w' = gs ++ [new_group p (drop 2 buffer) rnd ts <| last_address := addr |>]).

Lemma evicted_sublist gs gs' :
  gs' = gs \/ (exists o, oldest_pending gs = Some o /\ gs' = without (g_ptr o) gs) ->
  gs' `sublist_of` gs.
Proof. intros [->|(o & _ & ->)]; [done|apply sublist_filter]. Qed.

Lemma inv_alloc w w' :
  inv w -> groups w' = groups w -> (next_ptr w <= next_ptr w')%nat -> epoll_set w' = epoll_set w -> inv w'.
Proof.
  intros [[R1 R2 R3 R4 R5] He] Eg En Ee. split; [|by rewrite Ee, Eg]. rewrite Eg.
  split; try done. eapply Forall_impl; [exact R4|]. intros x [B1 B2].
  split; [lia|]. eapply Forall_impl; [exact B2|]. cbn. lia.
Qed.

Lemma inv_add_group g w w' :
  inv w -> Zlength (groups w) < MAX_GROUPS -> find_by_address (last_address g) (groups w) = None ->
  groups w' = groups w ++ [g] -> next_ptr w' = S (next_ptr w) -> epoll_set w' = epoll_set w ->
  group_ok g -> g_ptr g = next_ptr w -> connections g = [] -> inv w'.
Proof.
  intros [Hr He] Hroom Hfree Eg En Ee Hg Hp Hc. split.
  - rewrite Eg, En. eapply registry_add; [exact Hr|done|lia|lia| |done|].
    + split; [lia|]. rewrite Hc. constructor.
    + intros g' k Hg'. unfold owned, conn_addrs. rewrite Hc. cbn.
      intros ->%list_elem_of_singleton. by apply (find_by_address_none _ _ Hfree).
  - rewrite Eg, Ee. intros fd p Hin. destruct (He fd p Hin) as (Hfd & x & Hx & ?).
    split; [done|]. exists x. split; [|done]. apply elem_of_app. by left.
Qed.

Lemma wp_register_group addr buffer ts (E : exn -> world -> Prop) w :
  inv w -> (forall w', inv w' -> E RuntimeError w') -> 2 + SRTLA_ID_LEN / 2 <= Zlength buffer ->
  wp (register_group addr buffer ts) (reg1_result addr buffer ts w) E w.
Proof.
  intros Hi HE Hlen. unfold register_group. apply wp_bind.
  eapply wp_mono; [by apply wp_reg1_refusal|]. intros refusal w1 (Hi1 & Hgs & Hadm).
  destruct refusal as [reason|].
  { wp_quiet_step u1 H1. wp_quiet_step u2 H2. apply wp_ret.
    assert (same_state w1 w2) as Hs by (by transitivity w0).
    split; [by eapply inv_same|]. exists (groups w1). split; [done|]. left. split; [done|apply Hs]. }
  destruct Hadm as [Hroom Hfree]; [done|].
  apply wp_bind. unfold make_group. apply wp_bind. eapply wp_mono.
  { apply wp_get_random_bytes; [done|]. intros w' Hs. apply HE. by eapply inv_same. }
  cbn beta. intros rnd w2 (Hrnd & Eg & En & Ee). apply wp_bind. unfold fresh_ptr, wp at 1.
  apply wp_ret. rewrite En.
  set (g := new_group (next_ptr w1) (drop 2 buffer) rnd ts <| last_address := addr |>).
  assert (group_ok g) as Hg.
  { apply new_group_ok; [done|]. unfold Zlength in *. rewrite length_drop.
    unfold SRTLA_ID_LEN in *. change (256 / 2) with 128 in *. lia. }
  cbv zeta. fold g. wp_quiet_step ret H3. destruct H3 as (Eg3 & En3 & Ee3). cbn in Eg3, En3, Ee3.
  rewrite Eg in Eg3. rewrite En in En3. rewrite Ee in Ee3.
  destruct (negb _).
  - wp_quiet_step u H4. apply wp_ret. destruct H4 as (Eg4 & En4 & Ee4). split.
    + eapply inv_alloc; [exact Hi1|congruence|rewrite En4, En3; lia|congruence].
    + exists (groups w1). split; [done|]. left. split; [done|congruence].
  - apply wp_bind, wp_modify. wp_quiet_step u H4. apply wp_ret. destruct H4 as (Eg4 & En4 & Ee4).
    cbn in Eg4, En4, Ee4. rewrite Eg3 in Eg4. split.
    + eapply (inv_add_group g w1); [done..|congruence|congruence|done|done|done].
    + exists (groups w1). split; [done|]. right. split; [done|]. by exists (next_ptr w1), rnd.
Qed.

(** ** REG2 *)

Lemma new_connection_ok p addr ts : conn_ok (new_connection p addr ts).
Proof. split; [done..|]. split; try done. all: unfold WEIGHTS; set_solver. Qed.

Lemma add_connection_ok n addr ts g :
  group_ok g -> ptrs_below n g -> Zlength (connections g) < MAX_CONNS_PER_GROUP ->
  addr_key addr ∉ conn_addrs g ->
  group_ok (add_connection (new_connection n addr ts) g) /\
  ptrs_below (S n) (add_connection (new_connection n addr ts) g).
Proof.
  intros [Hid Hn Ha Hp Hok Hpend] [B1 B2] Hroom Hnew. split; [split|split]; cbn; try done.
  - unfold Zlength in *. rewrite length_app. cbn. lia.
  - unfold conn_addrs. cbn. rewrite map_app. apply NoDup_app. split; [done|].
    split; [|apply NoDup_singleton]. intros k Hk ->%list_elem_of_singleton. by apply Hnew.
  - rewrite map_app. apply NoDup_app. split; [done|]. split; [|apply NoDup_singleton].
    intros q Hq ->%list_elem_of_singleton. apply list_elem_of_fmap in Hq as (c & Hc & Hin).
    rewrite Forall_forall in B2. specialize (B2 c Hin). cbn in *. lia.
  - apply Forall_app_2; [done|]. apply Forall_singleton, new_connection_ok.
  - lia.
  - apply Forall_app_2; [|apply Forall_singleton; cbn; lia].
    eapply Forall_impl; [exact B2|]. cbn. lia.
Qed.

Lemma inv_add_conn gp g addr ts w w' :
  inv w -> lookup_group gp (groups w) = Some g ->
  Zlength (connections g) < MAX_CONNS_PER_GROUP -> addr_key addr ∉ conn_addrs g ->
  (forall g', g' ∈ groups w -> addr_key addr ∈ owned g' -> g_ptr g' = gp) ->
  groups w' = on_group gp (add_connection (new_connection (next_ptr w) addr ts)) (groups w) ->
  next_ptr w' = S (next_ptr w) -> epoll_set w' = epoll_set w -> inv w'.
Proof.
  intros [Hr He] Hg Hroom Hnew Hexcl Eg En Ee. destruct (lookup_group_elem _ _ _ Hg) as [Hgin Hgp].
  split; rewrite Eg.
  - rewrite En. eapply registry_on_group; [exact Hr|lia|]. intros x Hx Hp Hok Hb.
    assert (x = g) as -> by (eapply NoDup_map_inj; [apply Hr|done..|congruence]).
    destruct (add_connection_ok (next_ptr w) addr ts g Hok Hb Hroom Hnew) as [H1 H2].
    split; [done|]. split; [done|]. split; [done|]. intros k Hk.
    unfold owned, conn_addrs in Hk. cbn in Hk. rewrite map_app in Hk.
    apply elem_of_cons in Hk as [->|[Hk|Hk]%elem_of_app]; [left; by left|left; by right|right].
    apply list_elem_of_singleton in Hk as ->. exact Hexcl.
  - rewrite Ee. by apply epoll_on_group.
Qed.

(** What REG2 leaves: the same groups; on success, the group it names has a
    connection for the address, which is now its last address. *)
Definition reg2_result (addr : sockaddr_storage) (w : world) (r : Z) (w' : world) : Prop :=
  inv w' /\ ptrs w' = ptrs w /\
  (r <> 0 -> groups w' = groups w) /\
  (r = 0 -> exists g, g ∈ groups w' /\ addr_key addr ∈ conn_addrs g /\ last_address g = addr).

Lemma wp_reject_connection type reason addr w E w0 :
  inv w0 -> same_state w w0 ->
  wp (reject_connection type reason addr) (reg2_result addr w) E w0.
Proof.
  intros Hi Hs. unfold reject_connection. wp_quiet_step u1 H1. wp_quiet_step u2 H2. apply wp_ret.
  assert (same_state w w2) as K by (transitivity w0; [done|]; by transitivity w1).
  assert (inv w2) by (eapply inv_same; [|exact Hi]; by transitivity w1).
  split; [done|]. destruct K as (K & _). unfold ptrs. rewrite K. by split.
Qed.

(** The tail of a successful REG2, from the table with the connection in it. *)
Lemma wp_reg2_finish gp addr (Q : Z -> world -> Prop) E w0 w :
  inv w -> holds gp (fun g => addr_key addr ∈ conn_addrs g) w -> ptrs w = ptrs w0 ->
  (forall w', reg2_result addr w0 0 w' -> Q 0 w') ->
  wp (g ← deref_group gp; write_socket_info_file g;;
      modify_group gp (fun g => g <| last_address := addr |>);;
      inc CONN_REGISTRATIONS;; mret 0) Q E w.
Proof.
  intros Hi Hh Hp HQ. apply wp_bind. eapply wp_deref_held; [exact Hh|]. intros g Hg Ha.
  wp_quiet_step u H1. apply wp_bind, wp_modify. wp_quiet_step u2 H2. apply wp_ret, HQ.
  set (wm := w1 <| groups ::= _ |>) in H2. destruct H1 as (G1 & N1 & P1).
  assert (stable w1 wm) as S2.
  { apply (stable_set_last _ addr); [by eapply (inv_same w)| |by right].
    exists g. split; [by rewrite G1|by right]. }
  assert (inv w2) as Hi3 by (eapply inv_same; [exact H2|apply S2]).
  assert (ptrs w2 = ptrs w0) as Hp3.
  { unfold ptrs. rewrite (proj1 H2). fold (ptrs wm). rewrite (stable_ptrs _ _ S2).
    unfold ptrs. by rewrite G1. }
  split; [done|]. split; [done|]. split; [done|]. intros _.
  exists (g <| last_address := addr |>). split; [|done]. rewrite (proj1 H2). cbn. rewrite G1.
  apply elem_of_on_group. exists g. apply lookup_group_elem in Hg as [Hg1 Hg2].
  split; [done|]. by rewrite decide_True.
Qed.

Lemma find_group_by_id_elem id gs g :
  find_group_by_id id gs = Some g -> g ∈ gs /\ constant_time_compare (g_id g) id SRTLA_ID_LEN = 0.
Proof. intros H. apply find_first_Some in H as [H1 H2]. split; [done|]. by apply Z.eqb_eq. Qed.

(** The address belongs to the group REG2 names or to nobody. *)
Lemma reg2_exclusive addr w g :
  inv w -> g ∈ groups w ->
  match find_by_address addr (groups w) with
  | Some (tmp, _) => negb (bool_decide (g_ptr tmp = g_ptr g))
  | None => false
  end = false ->
  (forall g', g' ∈ groups w -> addr_key addr ∈ owned g' -> g_ptr g' = g_ptr g) /\
  match find_by_address addr (groups w) with
  | Some (tmp, Some c) => addr_key addr ∈ conn_addrs g
  | _ => addr_key addr ∉ conn_addrs g
  end.
Proof.
  intros [Hr _] Hg. destruct (find_by_address addr (groups w)) as [[tmp oc]|] eqn:Ef.
  - intros Hm%negb_false_iff%bool_decide_eq_true.
    destruct (find_by_address_some _ _ _ _ Ef) as (Htmp & Hown & Hoc).
    assert (tmp = g) as -> by (eapply NoDup_map_inj; [apply Hr|done..]).
    split; [intros g' Hg' Ho; by eapply (ro_exclusive _ _ Hr)|].
    destruct oc as [c|]; [|by apply Hoc]. destruct Hoc as [Hc Hk]. rewrite <- Hk.
    by apply (list_elem_of_fmap_2 (fun c => addr_key (address c))).
  - intros _. assert (Hn := find_by_address_none _ _ Ef). split.
    + intros g' Hg' Ho. by destruct (Hn g' Hg').
    + intros Hin. apply (Hn g Hg). by right.
Qed.

Lemma wp_register_connection addr buffer ts E w :
  inv w -> wp (register_connection addr buffer ts) (reg2_result addr w) E w.
Proof.
  intros Hi. unfold register_connection. apply wp_bind, wp_gets.
  destruct (find_group_by_id _ _) as [g|] eqn:Eg; [|by apply wp_reject_connection].
  apply find_group_by_id_elem in Eg as [Hg _]. cbv zeta.
  destruct (match find_by_address addr (groups w) with Some _ => _ | None => _ end) eqn:Em;
    [by apply wp_reject_connection|].
  destruct (reg2_exclusive _ _ _ Hi Hg Em) as [Hex Hca].
  assert (lookup_group (g_ptr g) (groups w) = Some g) as Hl by (apply lookup_group_intro; [apply Hi|done]).
  set (conn := match find_by_address addr (groups w) with Some (_, c) => c | None => None end).
  destruct (bool_decide (conn = None) && (MAX_CONNS_PER_GROUP <=? Zlength (connections g))) eqn:Efull;
    [by apply wp_reject_connection|].
  destruct conn as [c|] eqn:Ec; subst conn.
  - apply wp_bind, wp_ret. wp_quiet_step ret H1.
    assert (inv w0) as Hi0 by (by eapply inv_same).
    destruct (negb _).
    + wp_quiet_step u H2. apply wp_ret. assert (same_state w w1) as K by (by transitivity w0).
      split; [by eapply inv_same|]. unfold ptrs. rewrite (proj1 K). by split.
    + apply wp_bind, wp_ret. apply (wp_reg2_finish _ _ _ _ w); [done| | |done].
      * exists g. rewrite (proj1 H1). split; [done|].
        destruct (find_by_address addr (groups w)) as [[? [?|]]|]; done.
      * unfold ptrs. by rewrite (proj1 H1).
  - apply wp_bind. unfold fresh_ptr, wp at 1. apply wp_ret. wp_quiet_step ret H1.
    destruct H1 as (G1 & N1 & P1). cbn in G1, N1, P1.
    assert (inv w0) as Hi0 by (eapply (inv_alloc w); [done|congruence|lia|congruence]).
    destruct (negb _).
    + wp_quiet_step u H2. apply wp_ret. destruct H2 as (G2 & N2 & P2).
      split; [by eapply (inv_same w0)|]. unfold ptrs. rewrite G2, G1. by split.
    + apply wp_bind, wp_modify. apply (wp_reg2_finish _ _ _ _ w); [| | |done].
      * eapply (inv_add_conn (g_ptr g) g addr ts w); [done|done| | |done| |done|done].
        -- cbn in Efull. apply Z.leb_gt in Efull. done.
        -- destruct (find_by_address addr (groups w)) as [[? [?|]]|]; done.
        -- cbn. by rewrite G1.
      * exists (add_connection (new_connection (next_ptr w) addr ts) g). split.
        -- cbn. rewrite G1. by apply lookup_on_group.
        -- unfold conn_addrs. cbn. rewrite map_app. apply elem_of_app. right. by left.
      * unfold ptrs. cbn. rewrite G1. by apply on_group_ptrs.
Qed.

(** ** One packet, one batch *)

(** The tables after a packet: well-formed and, unless it is a REG1, with no
    new group. *)
Definition packet_result (reg1 : bool) (w w' : world) : Prop :=
  inv w' /\ (reg1 = false -> shrinks w w').

Lemma find_by_address_conn addr w g c :
  inv w -> find_by_address addr (groups w) = Some (g, Some c) ->
  lookup_group (g_ptr g) (groups w) = Some g /\ lookup_conn (c_ptr c) (connections g) = Some c /\
  addr_key (address c) = addr_key addr.
Proof.
  intros [Hr _] Hf. destruct (find_by_address_some _ _ _ _ Hf) as (Hg & _ & Hc & Ha).
  split; [apply lookup_group_intro; [apply Hr|done]|]. split; [|done].
  apply lookup_conn_intro; [|done]. destruct Hr as [_ _ Hok _ _]. rewrite Forall_forall in Hok.
  by apply Hok.
Qed.

Lemma reg1_length buf n : is_srtla_reg1 buf n = true -> n = SRTLA_TYPE_REG1_LEN.
Proof. unfold is_srtla_reg1. destruct (Z.eqb_spec n SRTLA_TYPE_REG1_LEN); done. Qed.

Lemma wp_process_single_packet `{!StdinOpen} buf addr ts (E : exn -> world -> Prop) w :
  inv w ->
  (is_srtla_reg1 buf (Zlength buf) = true -> forall w', inv w' -> E RuntimeError w') ->
  wp (process_single_packet buf (Zlength buf) addr ts)
    (fun _ => packet_result (is_srtla_reg1 buf (Zlength buf)) w) E w.
Proof.
  intros Hi HE. unfold process_single_packet.
  destruct (is_srtla_reg1 buf (Zlength buf)) eqn:E1.
  { apply wp_bind. eapply wp_mono.
    - apply wp_register_group; [done|by apply HE|]. apply reg1_length in E1. rewrite E1. done.
    - intros r w' [Hi' _]. by apply wp_ret. }
  destruct (is_srtla_reg2 buf (Zlength buf)).
  { apply wp_bind. eapply wp_mono; [by apply wp_register_connection|].
    intros r w' (Hi' & Hp & _). apply wp_ret. split; [done|]. intros _. unfold shrinks. by rewrite Hp. }
  apply wp_bind, wp_gets.
  destruct (find_by_address addr (groups w)) as [[g [c|]]|] eqn:Ef;
    [|apply wp_ret; by split|apply wp_ret; by split].
  destruct (find_by_address_conn _ _ _ _ Hi Ef) as (Hg & Hc & Ha).
  assert (holds (g_ptr g) (has_conn (c_ptr c) addr) w) as Hh by (exists g; split; [done|]; by exists c).
  cbv zeta. apply wp_bind, wp_modify_conn; [done| |].
  { intros c'. by apply conn_upd_simple. }
  intros w1 S1. apply wp_bind. apply (wp_mono _ (fun _ => stable w)).
  { apply wp_when; intros _; [|done]. apply wp_bind, wp_modify_conn; [apply S1| |].
    - intros c'. by apply conn_upd_simple.
    - intros w2 S2. apply wp_quiet; [apply _|]. intros [] w3 H3.
      assert (stable w w2) as S3 by (by eapply stable_trans).
      eapply stable_trans; [exact S3|apply stable_same; [apply S3|done]]. }
  intros [] w2 S2. destruct (is_srtla_keepalive _ _); [|destruct (_ <? _)].
  - eapply wp_mono; [apply wp_handle_keepalive, S2|]. intros [] w3 S3.
    assert (stable w w3) as S4 by (by eapply stable_trans). split; [apply S4|]. intros _. by apply stable_shrinks.
  - apply wp_ret. split; [apply S2|]. intros _. by apply stable_shrinks.
  - eapply wp_mono; [apply (wp_handle_data _ _ _ _ addr); [apply S2|by eapply stable_has_conn]|].
    intros [] w3 (ok & H3). apply (settled_trans _ w) in H3; [|done].
    apply settled_shrinks in H3 as [? ?]. by split.
Qed.
End Handlers.
