(* ===== verification/Scenario.v ===== *)
(** * A concrete kernel and a concrete session

    Instances of the system interface and states built by running the
    handlers on them; the theorems are applied to these states. *)

From Stdlib Require Strings.String.
From stdpp Require Import list gmap.
From S2P Require Import Prelude Config Wire NetUtils AuthRateLimiter Connection World Registry.
From S2P Require Import SrtHandler SrtlaHandler Exporter MainLoop HandlerProofs.

(** A kernel on which every send to a client succeeds; the clock stands at
    [now], a [send] on a group's socket gives [sent] and a [recv] gives
    [received]. *)
Definition sample_os (now : Z) (sent : nat -> list byte -> Z * Z) (received : option (list byte)) : OS := {|
  os_sendto _ _ b := Zlength b;
  os_sendmmsg _ d _ := Zlength d;
  os_send n _ b := sent n b;
  os_recv _ _ := received;
  os_socket _ := 7;
  os_setsockopt _ _ := 0;
  os_fcntl_getfl _ _ := 0;
  os_fcntl_setfl _ _ := 0;
  os_connect _ _ := 0;
  os_epoll_ctl _ _ := 0;
  os_getsockname _ _ := None;
  os_clock_gettime _ := Some (now, 0);
  os_open_file _ := true;
  os_urandom_open _ := true;
  os_urandom_read n size := replicate (Z.to_nat size) (byte_of (Z.of_nat n))
|}.

Definition send_all (n : nat) (b : list byte) : Z * Z := (Zlength b, 0).
Definition send_refused (n : nat) (b : list byte) : Z * Z := (-1, ECONNREFUSED).
Definition send_busy (n : nat) (b : list byte) : Z * Z := (-1, EAGAIN).
(** The SRT server goes away: sends fail from call [k] on. *)
Definition send_until (k n : nat) (b : list byte) : Z * Z :=
  if (n <? k)%nat then (Zlength b, 0) else (-1, ECONNREFUSED).

Lemma sample_stdin now sent received : @StdinOpen (sample_os now sent received).
Proof. intros n. cbn. done. Qed.

Definition sample_cfg : HandlerConfig := {| srt_addr_ := loopback 4001; epoll_fd_ := 3 |}.

(** An exporter with series per connection; addresses are printed as the
    numbers of their bytes. *)
Definition sample_exporter : ExporterConfig := {|
  detailed_ := true; start_time_ := 1700000000; VERSION := Strings.String.EmptyString;
  inet_ntop _ a := concat (map (fun b => to_string (bval b) ++ [byte_of 46]) a)
|}.

(** The kernel of the session below, at second 1000, with nothing to read
    from the server, which stops accepting after the first three iterations. *)
Definition os0 : OS := sample_os 1000 (send_until 20) None.

Definition client1 : sockaddr_storage := loopback 1001.
Definition client2 : sockaddr_storage := loopback 1002.

Definition reg1_packet : list byte :=
  be16_bytes SRTLA_TYPE_REG1 ++ replicate 256 (byte_of 17).
(** An SRT data packet with sequence number [n]. *)
Definition data_packet (n : Z) : list byte := be32_bytes n ++ replicate 30 (byte_of 1).

(** The id in the most recent REG2 reply. *)
Definition last_reg2_id (w : world) : list byte :=
  match trace w with IoSendto _ b _ :: _ => drop 2 b | _ => [] end.
Definition reg2_request (id : list byte) : list byte := be16_bytes SRTLA_TYPE_REG2 ++ id.

(** The exception a computation ended with, if it did. *)
Definition exn_of {A} (o : outcome A) : option exn :=
  match o with Done _ _ => None | Raised e _ => Some e end.

Lemma exn_of_done (m : M unit) w : exn_of (m w) = None -> m w = Done tt (run m w).
Proof. unfold run. by destruct (m w) as [[] w'|]. Qed.

Lemma exn_of_raised (m : M unit) w e : exn_of (m w) = Some e -> exists w', m w = Raised e w'.
Proof. destruct (m w) as [[] w'|e' w']; [done|]. intros [= ->]. by exists w'. Qed.

Definition result_of {A} (o : outcome A) : option A :=
  match o with Done a _ => Some a | Raised _ _ => None end.

Lemma result_of_done {A} (m : M A) w a : result_of (m w) = Some a -> m w = Done a (run m w).
Proof. unfold run. destruct (m w); [|done]. by intros [= ->]. Qed.

(** One iteration that reads one datagram of the client. *)
Definition says (client : sockaddr_storage) (packet : list byte) : list event :=
  [EvSrtla (Some [(client, packet)])].
Definition iterate (events : list event) (w : world) : world :=
  run (@loop_iteration os0 sample_cfg sample_exporter events) w.

(** After REG1, after REG2, after a data packet. *)
Definition w_pending : world := iterate (says client1 reg1_packet) initial_world.
Definition w_connected : world :=
  iterate (says client1 (reg2_request (last_reg2_id w_pending))) w_pending.
Definition w_joined : world := iterate (says client1 (data_packet 5)) w_connected.

(** The next events: the SRTLA socket has a data packet of the client and a
    REG1 of another, and the client's group has something to read. *)
Definition late_events : list event :=
  [EvSrtla (Some [(client1, data_packet 6); (client2, reg1_packet)]); EvGroup 0].

(** The first group of a state, and its first connection. *)
Definition first_group (w : world) : ConnectionGroup :=
  default (new_group 0 [] [] 0) (head (groups w)).
Definition first_conn (w : world) : Connection :=
  default (new_connection 0 zero_addr 0) (head (connections (first_group w))).
