(* ===== verification/LoopProofs.v ===== *)
(** * The event loop: reachable states and pointer safety

    The registry invariant holds in every state the loop reaches, and an
    iteration never reads a destroyed group when no batch registers a group. *)

From stdpp Require Import list gmap.
From S2P Require Import Prelude Config Wire NetUtils NakDedup AuthRateLimiter Connection World.
From S2P Require Import Registry Quality SrtHandler SrtlaHandler Exporter MainLoop Hoare Invariant.
From S2P Require Import RegistryProofs QualityProofs HandlerProofs Scenario.

(** ** Events *)

(** A datagram, as [process_packets] cuts it, that is a REG1. *)
Definition is_reg1_msg (msg : sockaddr_storage * list byte) : bool :=
  let buf := take (Z.to_nat MTU) msg.2 in is_srtla_reg1 buf (Zlength buf).

Definition registers (ev : event) : bool :=
  match ev with
  | EvSrtla (Some msgs) => existsb is_reg1_msg (take RECV_BATCH_SIZE msgs)
  | _ => false
  end.

(** The group pointers among the events of one [epoll_wait]. *)
Fixpoint event_ptrs (events : list event) : list nat :=
  match events with
  | [] => []
  | EvGroup p :: l => p :: event_ptrs l
  | _ :: l => event_ptrs l
  end.

(** States the process goes through, one iteration at a time, for every
    sequence of events. *)
Inductive reachable `{OS} `{HandlerConfig} `{ExporterConfig} : world -> Prop :=
  | reachable_start : reachable initial_world
  | reachable_iteration w events w' :
      reachable w -> loop_iteration events w = Done tt w' -> reachable w'.

Lemma sublist_same_length {A} (l1 l2 : list A) :
  l1 `sublist_of` l2 -> (length l2 <= length l1)%nat -> l1 = l2.
Proof.
  induction 1 as [|x l1 l2 _ IH|x l1 l2 Hs IH]; cbn; intros Hl; [done| |].
  - f_equal. apply IH. lia.
  - apply sublist_length in Hs. lia.
Qed.

Section Loop.
Context {os : OS} {hc : HandlerConfig} {ec : ExporterConfig} {so : StdinOpen}.

Lemma wp_process_datagram ts msg (E : exn -> world -> Prop) w :
  inv w -> (is_reg1_msg msg = true -> forall w', inv w' -> E RuntimeError w') ->
  wp (process_datagram ts msg) (fun _ => packet_result (is_reg1_msg msg) w) E w.
Proof.
  intros Hi HE. unfold process_datagram, is_reg1_msg. set (buf := take _ _).
  apply wp_when; intros _; [|by split].
  wp_quiet_step u1 H1. wp_quiet_step u2 H2.
  assert (stable w w1) as S1 by (apply stable_same; [done|by transitivity w0]).
  eapply wp_mono; [apply wp_process_single_packet; [apply S1|done]|].
  intros [] w2 [Hi2 Hs]. split; [done|]. intros Hr. transitivity w1; [by apply stable_shrinks|auto].
Qed.

Lemma wp_process_packets received ts (E : exn -> world -> Prop) w :
  inv w -> (registers (EvSrtla received) = true -> forall w', inv w' -> E RuntimeError w') ->
  wp (process_packets received ts) (fun _ => packet_result (registers (EvSrtla received)) w) E w.
Proof.
  intros Hi HE. unfold process_packets. destruct received as [msgs|]; [|by apply wp_ret].
  wp_quiet_step u H1. apply wp_bind. cbn [registers].
  set (l := take RECV_BATCH_SIZE msgs).
  assert (packet_result (existsb is_reg1_msg l) w w0) as P0.
  { split; [by eapply inv_same|]. intros _. by apply stable_shrinks, stable_same. }
  apply (wp_mono _ (fun _ => packet_result (existsb is_reg1_msg l) w)); [|intros [] w' Hw'; by apply wp_ret].
  apply wp_mfor; [done|]. intros msg w1 Hmsg [Hi1 Hs1].
  assert (is_reg1_msg msg = true -> existsb is_reg1_msg l = true) as Hreg.
  { intros Em. apply existsb_exists. exists msg. split; [by apply list_elem_of_In|done]. }
  eapply wp_mono; [apply wp_process_datagram; [done|by auto]|].
  intros [] w2 [Hi2 Hs2]. split; [done|].
  intros Hno. transitivity w1; [auto|]. apply Hs2.
  destruct (is_reg1_msg msg); [|done]. rewrite Hreg in Hno; done.
Qed.

Lemma ptrs_live p w : p ∈ ptrs w -> inv w -> holds p (fun _ => True) w.
Proof.
  intros Hp [Hr _]. apply list_elem_of_fmap in Hp as (g & -> & Hg). exists g.
  split; [|done]. apply lookup_group_intro; [apply Hr|done].
Qed.

(** ** Scrapes *)

#[export] Instance quiet_get : Quiet get.
Proof. intros w. by exists w, w. Qed.
#[export] Instance quiet_mconcat {A B} (f : A -> M (list B)) l : (forall x, Quiet (f x)) -> Quiet (mconcat f l).
Proof. intros Hf. induction l; cbn [mconcat]; apply _. Qed.
#[export] Instance quiet_group_port g : Quiet (group_port g).
Proof. unfold group_port. apply _. Qed.
#[export] Instance quiet_render_group def now g : Quiet (render_group def now g).
Proof. unfold render_group. apply _. Qed.
#[export] Instance quiet_render now : Quiet (render now).
Proof. unfold render, render_conns. apply _. Qed.
#[export] Instance quiet_send_response fuel client : forall rest, Quiet (send_response fuel client rest).
Proof. induction fuel; intros rest; cbn [send_response]; apply _. Qed.

(** Serving scrapes leaves the registry as it is. *)
Lemma wp_exporter scrapes E w :
  inv w -> wp (exporter_handle_event scrapes) (fun _ => packet_result false w) E w.
Proof.
  intros Hi. assert (Hq : forall w', inv w' -> groups w' = groups w -> packet_result false w w').
  { intros w' Hi' Hg. split; [done|]. intros _. unfold shrinks, ptrs. by rewrite Hg. }
  unfold exporter_handle_event. destruct (bool_decide _); [by apply wp_ret, Hq|].
  wp_quiet_step now H1. wp_quiet_step body H2.
  eapply (wp_mono _ (fun _ w' => inv w' /\ groups w' = groups w)); [|intros [] w' [? ?]; by apply Hq].
  apply (wp_mfor (fun w' => inv w' /\ groups w' = groups w)).
  { split; [eapply (inv_same w0); [done|by eapply inv_same]|]. etransitivity; [apply H2|apply H1]. }
  intros [client fuel] w2 _ [Hi2 Hg2]. unfold serve. wp_quiet_step r H3. wp_quiet_step u H4.
  apply wp_close. intros w5 H5.
  assert (inv w4) by (eapply (inv_same w3); [done|by eapply inv_same]).
  split; [by eapply inv_pruned|]. rewrite <- Hg2, <- (proj1 H3), <- (proj1 H4). apply H5.
Qed.

(** One event; [E] accepts a use after free unless the pointer is live. *)
Lemma wp_handle_event ts ev (E : exn -> world -> Prop) w :
  inv w -> (registers ev = true -> forall w', inv w' -> E RuntimeError w') ->
  (forall p, ev = EvGroup p -> p ∉ ptrs w -> E (UseAfterFree p) w) ->
  wp (handle_event ts ev) (fun _ => packet_result (registers ev) w) E w.
Proof.
  intros Hi HE HU. destruct ev as [received|scrapes|p]; cbn [handle_event].
  - apply wp_bind. eapply wp_mono; [by apply wp_process_packets|]. intros r w' H. by apply wp_ret.
  - by apply wp_exporter.
  - destruct (decide (p ∈ ptrs w)) as [Hp|Hp].
    + apply wp_bind. eapply wp_deref_held; [by apply ptrs_live|]. intros g Hg _.
      apply wp_bind, wp_gets. destruct (find_group_by_id _ _) as [sg|] eqn:Ef; [|by apply wp_ret].
      apply find_group_by_id_elem in Ef as [Hsg _].
      eapply wp_mono; [apply wp_handle_srt_data; [done|]|].
      * apply ptrs_live; [|done]. by apply list_elem_of_fmap_2.
      * intros [] w' (ok & H). apply settled_shrinks in H as [? ?]. by split.
    + unfold wp, mbind, M_bind, deref_group.
      destruct (lookup_group p (groups w)) as [g|] eqn:El; [|by apply HU].
      exfalso. apply Hp. apply lookup_group_elem in El as [Hg <-]. by apply list_elem_of_fmap_2.
Qed.

Lemma wp_handle_events ts events (E : exn -> world -> Prop) w :
  inv w -> (forall w', inv w' -> E RuntimeError w') -> (forall p w, E (UseAfterFree p) w) ->
  wp (handle_events ts events) (fun _ => inv) E w.
Proof.
  intros Hi HE HU. revert w Hi. induction events as [|ev events IH]; intros w Hi; [done|].
  cbn [handle_events]. apply wp_bind, wp_gets, wp_bind.
  eapply wp_mono; [apply wp_handle_event; auto|]. intros [] w' [Hi' _].
  apply wp_bind, wp_gets. destruct (_ <? _)%nat; [by apply wp_ret|auto].
Qed.

(** When no event registers a group, the count check of the loop catches
    every destruction: no later pointer is read. *)
Lemma wp_handle_events_safe ts events w :
  inv w -> existsb registers events = false -> event_ptrs events ⊆ ptrs w ->
  wp (handle_events ts events) (fun _ => inv) (fun _ _ => False) w.
Proof.
  revert w. induction events as [|ev events IH]; intros w Hi Hno Hlive; [done|].
  cbn [existsb] in Hno. apply orb_false_iff in Hno as [Hev Hno].
  cbn [handle_events]. apply wp_bind, wp_gets, wp_bind. eapply wp_mono.
  - apply wp_handle_event; [done|by rewrite Hev|]. intros p -> Hp. apply Hp, Hlive. by left.
  - rewrite Hev. intros [] w' [Hi' Hs]. specialize (Hs eq_refl).
    apply wp_bind, wp_gets. destruct (Nat.ltb_spec (length (groups w')) (length (groups w))) as [|Hge];
      [by apply wp_ret|].
    assert (ptrs w' = ptrs w) as Ep.
    { apply sublist_same_length; [exact Hs|]. unfold ptrs. by rewrite !length_map. }
    apply IH; [done|done|]. rewrite Ep. intros p Hp. apply Hlive.
    destruct ev; cbn; [done|done|by right].
Qed.

(** ** The rest of an iteration *)

Lemma wp_quality_pass ts E w : inv w -> wp (quality_pass ts) (fun _ => stable w) E w.
Proof.
  intros Hi. unfold quality_pass. apply wp_bind, wp_gets.
  apply wp_mfor; [by apply stable_refl|]. intros p w1 Hp S1.
  apply wp_bind. eapply wp_mono.
  - apply wp_evaluate_group; [apply S1|]. apply ptrs_live; [|apply S1].
    rewrite (stable_ptrs _ _ S1). exact Hp.
  - intros [] w2 S2. assert (stable w w2) as S3 by (by eapply stable_trans).
    eapply wp_mono; [apply wp_adjust_weights, S3|]. intros [] w3 S4. by eapply stable_trans.
Qed.

(** Cleanup and the quality pass, after the events. *)
Lemma wp_housekeeping ts E w :
  inv w ->
  wp (cleanup_inactive ts send_keepalive;;
      modify (fun w => w <| limiter ::= cleanup ts |>);; quality_pass ts) (fun _ => inv) E w.
Proof.
  intros Hi. apply wp_bind. eapply wp_mono; [apply wp_cleanup_inactive; [apply _|done]|].
  intros [] w1 [Hi1 _]. apply wp_bind, wp_modify. set (w2 := w1 <| limiter ::= _ |>).
  assert (inv w2) as Hi2 by (by eapply (inv_same w1)). clearbody w2.
  eapply wp_mono; [by apply wp_quality_pass|]. intros [] w3 S3. apply S3.
Qed.

Lemma wp_loop_iteration events (E : exn -> world -> Prop) w :
  inv w -> (forall w', inv w' -> E RuntimeError w') -> (forall p w, E (UseAfterFree p) w) ->
  wp (loop_iteration events) (fun _ => inv) E w.
Proof.
  intros Hi HE HU. unfold loop_iteration. wp_quiet_step now H1.
  assert (inv w0) as Hi0 by (by eapply inv_same). destruct now as [ts|]; [|by apply wp_ret].
  apply wp_bind. eapply wp_mono; [by apply wp_handle_events|]. intros [] w2 Hi2.
  by apply wp_housekeeping.
Qed.

Lemma reachable_inv w : reachable w -> inv w.
Proof.
  induction 1 as [|w events w' _ IH Hstep]; [apply initial_inv|].
  pose proof (wp_loop_iteration events (fun _ _ => True) w IH) as Hw.
  unfold wp in Hw. rewrite Hstep in Hw. by apply Hw.
Qed.

Lemma wp_loop_iteration_safe events w :
  inv w -> existsb registers (take MAX_EPOLL_EVENTS events) = false ->
  event_ptrs (take MAX_EPOLL_EVENTS events) ⊆ ptrs w ->
  wp (loop_iteration events) (fun _ => inv) (fun _ _ => False) w.
Proof.
  intros Hi Hno Hlive. unfold loop_iteration. wp_quiet_step now H1.
  assert (inv w0) as Hi0 by (by eapply inv_same). destruct now as [ts|]; [|by apply wp_ret].
  apply wp_bind. eapply wp_mono; [apply wp_handle_events_safe; [done|done|]|].
  - unfold ptrs. rewrite (proj1 H1). exact Hlive.
  - intros [] w2 Hi2. by apply wp_housekeeping.
Qed.

(** The pointers [epoll_wait] hands back are those registered. *)
Lemma registered_live w fd p : inv w -> (fd, p) ∈ epoll_set w -> p ∈ ptrs w.
Proof.
  intros [_ He] Hin. destruct (He fd p Hin) as (_ & g & Hg & <- & _). by apply list_elem_of_fmap_2.
Qed.

(** ** Properties *)

Lemma iteration_safe w events :
  reachable w -> existsb registers (take MAX_EPOLL_EVENTS events) = false ->
  (forall p, p ∈ event_ptrs (take MAX_EPOLL_EVENTS events) -> exists fd, (fd, p) ∈ epoll_set w) ->
  exists w', loop_iteration events w = Done tt w' /\ reachable w'.
Proof.
  intros Hr Hno Hev. assert (inv w) as Hi by (by apply reachable_inv).
  pose proof (wp_loop_iteration_safe events w Hi Hno) as Hw. unfold wp in Hw.
  destruct (loop_iteration events w) as [[] w'|e w'] eqn:E.
  - exists w'. split; [done|]. by eapply reachable_iteration.
  - destruct Hw. intros p Hp. destruct (Hev p Hp) as (fd & Hfd). by eapply registered_live.
Qed.
End Loop.

(** C1: the registry invariant holds in every state the event loop reaches,
    whatever packets arrive, whatever the SRT server sends and whatever the
    kernel answers, provided that [socket] never returns 0, that is, that the
    process was started with its standard input open: at most 200 groups of at
    most 16 connections, unique identities, 256-byte ids, well-formed ACK logs
    and statistics, no client address owned by two groups or twice by one, no
    socket on a group that has not carried data, and every epoll registration
    that of a live group's socket.  Without the proviso the last clause fails
    ([Packets.descriptor_zero_leaks]). *)
Theorem receiver_invariant {os : OS} {hc : HandlerConfig} {ec : ExporterConfig} w :
  (forall n, os_socket n <> 0) -> reachable w -> inv w.
Proof. intros Hstdin. by apply (reachable_inv (so := Hstdin)). Qed.

(** C20: with standard input open ([socket] never returns 0), an iteration in
    which no batch carries a REG1, and whose group events are registrations in
    the epoll set, runs to completion: no exception, no read through a pointer
    to a destroyed group. *)
Theorem iteration_completes {os : OS} {hc : HandlerConfig} {ec : ExporterConfig} w events :
  (forall n, os_socket n <> 0) -> reachable w -> existsb registers (take MAX_EPOLL_EVENTS events) = false ->
  (forall p, p ∈ event_ptrs (take MAX_EPOLL_EVENTS events) -> exists fd, (fd, p) ∈ epoll_set w) ->
  exists w', loop_iteration events w = Done tt w' /\ reachable w'.
Proof. intros Hstdin. by apply (iteration_safe (so := Hstdin)). Qed.

(** ** The session's states are reachable *)

Lemma iterate_reachable events w :
  @reachable os0 sample_cfg sample_exporter w ->
  exn_of (@loop_iteration os0 sample_cfg sample_exporter events w) = None ->
  @reachable os0 sample_cfg sample_exporter (iterate events w).
Proof. intros Hr He. eapply reachable_iteration; [exact Hr|]. by apply exn_of_done. Qed.

Lemma pending_reachable : @reachable os0 sample_cfg sample_exporter w_pending.
Proof. apply iterate_reachable; [constructor|]. vm_compute. reflexivity. Qed.
Lemma connected_reachable : @reachable os0 sample_cfg sample_exporter w_connected.
Proof. apply iterate_reachable; [apply pending_reachable|]. vm_compute. reflexivity. Qed.
Lemma joined_reachable : @reachable os0 sample_cfg sample_exporter w_joined.
Proof. apply iterate_reachable; [apply connected_reachable|]. vm_compute. reflexivity. Qed.

Lemma connected_inv : inv w_connected.
Proof. exact (reachable_inv (so := sample_stdin _ _ _) _ connected_reachable). Qed.
Lemma joined_inv : inv w_joined.
Proof. exact (reachable_inv (so := sample_stdin _ _ _) _ joined_reachable). Qed.

Lemma receiver_invariant_witness : inv w_joined.
Proof.
  apply (@receiver_invariant os0 sample_cfg sample_exporter w_joined).
  - exact (sample_stdin _ _ _).
  - exact joined_reachable.
Defined.

Lemma iteration_completes_witness :
  exists w', @loop_iteration os0 sample_cfg sample_exporter [EvGroup 0] w_joined = Done tt w' /\
    @reachable os0 sample_cfg sample_exporter w'.
Proof.
  apply (@iteration_completes os0 sample_cfg sample_exporter w_joined [EvGroup 0]).
  - exact (sample_stdin _ _ _).
  - exact joined_reachable.
  - reflexivity.
  - intros p Hp. apply list_elem_of_singleton in Hp as ->. exists 7. vm_compute. left.
Defined.

(** C36: the count check does not protect an iteration whose batch both
    removes a group and registers another.  From a reachable state, with both
    events registered, the failed forward of a data packet destroys the
    group, the REG1 behind it brings the number of groups back, and the next
    event is read through a pointer to the destroyed group. *)
Theorem group_event_use_after_free :
  @reachable os0 sample_cfg sample_exporter w_joined /\
  (forall p, p ∈ event_ptrs late_events -> exists fd, (fd, p) ∈ epoll_set w_joined) /\
  exists w', @loop_iteration os0 sample_cfg sample_exporter late_events w_joined = Raised (UseAfterFree 0) w'.
Proof.
  split; [exact joined_reachable|]. split.
  - intros p Hp. apply list_elem_of_singleton in Hp as ->. exists 7. vm_compute. left.
  - apply exn_of_raised. vm_compute. reflexivity.
Qed.
