(* ===== verification/Accounts.v ===== *)
(** * The accounts of the receiver

    The counters the exporter publishes (src/metrics/prometheus.cpp) balance:
    groups registered are the groups removed, by cause, and those that are
    there.  Most of the code is [Steady]: it adds and removes no group and
    leaves the accounts of groups alone. *)

From stdpp Require Import list gmap.
From S2P Require Import Prelude Config Wire NetUtils NakDedup AuthRateLimiter Connection World.
From S2P Require Import Registry Quality SrtHandler SrtlaHandler Exporter MainLoop Hoare Invariant.
From S2P Require Import RegistryProofs QualityProofs HandlerProofs Scenario LoopProofs.

(** ** The accounts *)

Definition removals : list Counter :=
  [GROUPS_REMOVED_IDLE; GROUPS_REMOVED_AUTH; GROUPS_REMOVED_SRT_ERROR; GROUPS_REMOVED_EVICTED].
Definition ledger : list Counter := GROUP_REGISTRATIONS :: removals.
Definition sum_of (w : world) (cs : list Counter) : Z := fold_right (fun c n => counters w c + n) 0 cs.

Definition counters_ok (w : world) : Prop := forall c, 0 <= counters w c < 2 ^ 64.

Record accounted (w : world) : Prop := {
  acc_nodup : NoDup (ptrs w);
  acc_below p : p ∈ ptrs w -> (p < next_ptr w)%nat;
  acc_counters : counters_ok w;
  acc_balance : counters w GROUP_REGISTRATIONS = u64 (sum_of w removals + Zlength (ptrs w))
}.

(** ** Steady code *)

Definition steady (w w' : world) : Prop :=
  ptrs w' = ptrs w /\ (next_ptr w <= next_ptr w')%nat /\
  (forall c, c ∈ ledger -> counters w' c = counters w c) /\ (counters_ok w -> counters_ok w').

#[export] Instance steady_preorder : PreOrder steady.
Proof.
  split; [by intros w|]. intros w1 w2 w3 (P1 & N1 & L1 & C1) (P2 & N2 & L2 & C2).
  split_and!; [congruence|lia| |auto]. intros c Hc. by rewrite L2, L1.
Qed.

Lemma sum_of_steady w w' cs : (forall c, c ∈ cs -> counters w' c = counters w c) -> sum_of w' cs = sum_of w cs.
Proof.
  induction cs as [|c cs IH]; intros Hc; [done|]. cbn. f_equal; [apply Hc; left|].
  apply IH. intros d Hd. apply Hc. by right.
Qed.

Lemma steady_accounted w w' : steady w w' -> accounted w -> accounted w'.
Proof.
  intros (P & N & L & C) [H1 H2 H3 H4]. split; [by rewrite P| |auto|].
  - intros p. rewrite P. intros Hp. apply H2 in Hp. lia.
  - rewrite P, L by left. rewrite H4. do 2 f_equal. symmetry. apply sum_of_steady.
    intros c Hc. apply L. by right.
Qed.

Class Steady {A} (m : M A) : Prop :=
  steady_run : forall w, match m w with Done _ w' => steady w w' | Raised _ _ => True end.

(** Outcomes with an exception end the process and are not looked at. *)
Definition anyway (e : exn) (w : world) : Prop := True.

Lemma wp_steady {A} (m : M A) `{!Steady m} (Q : A -> world -> Prop) w :
  (forall a w', steady w w' -> Q a w') -> wp m Q anyway w.
Proof. intros HQ. unfold wp. pose proof (steady_run w) as H. destruct (m w); auto. Qed.

#[export] Instance steady_ret {A} (a : A) : Steady (mret a).
Proof. by intros w. Qed.
#[export] Instance steady_skip : Steady skip.
Proof. apply steady_ret. Qed.
#[export] Instance steady_raise {A} e : Steady (raise (A:=A) e).
Proof. by intros w. Qed.
#[export] Instance steady_bind {A B} (m : M A) (k : A -> M B) :
  Steady m -> (forall a, Steady (k a)) -> Steady (m ≫= k).
Proof.
  intros Hm Hk w. unfold mbind, M_bind. pose proof (Hm w) as H1. destruct (m w) as [a w1|]; [|done].
  pose proof (Hk a w1) as H2. destruct (k a w1); [|done]. by transitivity w1.
Qed.
#[export] Instance steady_when b m : Steady m -> Steady (when b m).
Proof. destruct b; [done|]. intros _. apply steady_skip. Qed.
#[export] Instance steady_if {A} (b : bool) (m1 m2 : M A) : Steady m1 -> Steady m2 -> Steady (if b then m1 else m2).
Proof. by destruct b. Qed.
#[export] Instance steady_option {A B} (o : option A) (m1 : A -> M B) (m2 : M B) :
  (forall a, Steady (m1 a)) -> Steady m2 -> Steady (match o with Some a => m1 a | None => m2 end).
Proof. by destruct o. Qed.
#[export] Instance steady_pair {A B C} (o : A * B) (m : A -> B -> M C) :
  (forall a b, Steady (m a b)) -> Steady (let '(a, b) := o in m a b).
Proof. by destruct o. Qed.
#[export] Instance steady_mfor {A} (l : list A) body : (forall x, Steady (body x)) -> Steady (mfor l body).
Proof. intros Hb. induction l; cbn [mfor]; apply _. Qed.
#[export] Instance steady_mconcat {A B} (f : A -> M (list B)) l : (forall x, Steady (f x)) -> Steady (mconcat f l).
Proof. intros Hf. induction l; cbn [mconcat]; apply _. Qed.
#[export] Instance steady_get : Steady get.
Proof. by intros w. Qed.
#[export] Instance steady_gets {A} (f : world -> A) : Steady (gets f).
Proof. by intros w. Qed.
#[export] Instance steady_next_call : Steady next_call.
Proof. by intros w. Qed.
#[export] Instance steady_emit e : Steady (emit e).
Proof. by intros w. Qed.
#[export] Instance steady_fresh_ptr : Steady fresh_ptr.
Proof. intros w. split_and!; [done|cbn; lia|done|done]. Qed.
#[export] Instance steady_deref_group p : Steady (deref_group p).
Proof. intros w. unfold deref_group. by destruct (lookup_group p (groups w)). Qed.
#[export] Instance steady_deref_conn gp cp : Steady (deref_conn gp cp).
Proof. unfold deref_conn. apply _. Qed.

(** A counter outside the accounts of groups. *)
Class Unrelated (c : Counter) : Prop := unrelated : c ∉ ledger.
#[export] Hint Extern 0 (Unrelated _) =>
  (unfold Unrelated; apply (bool_decide_unpack _); vm_compute; exact I) : typeclass_instances.

Lemma counters_ok_inc c n w : counters_ok w -> counters_ok (run (inc_by c n) w).
Proof. intros Hw d. cbn. destruct (decide (d = c)); [apply u64_range|apply Hw]. Qed.

#[export] Instance steady_inc_by c n : Unrelated c -> Steady (inc_by c n).
Proof.
  intros Hc w. split_and!; [done|cbn; lia| |].
  - intros d Hd. cbn. destruct (decide (d = c)) as [->|]; [done|done].
  - apply (counters_ok_inc c n w).
Qed.
#[export] Instance steady_inc c : Unrelated c -> Steady (inc c).
Proof. apply steady_inc_by. Qed.

(** Updates that keep the identity of a group. *)
Class KeepsPtr (f : ConnectionGroup -> ConnectionGroup) : Prop := keeps_ptr : forall g, g_ptr (f g) = g_ptr g.
#[export] Hint Extern 0 (KeepsPtr _) => (intros ?; reflexivity) : typeclass_instances.

#[export] Instance steady_modify_group p f : KeepsPtr f -> Steady (modify_group p f).
Proof.
  intros Hf w. split_and!; [|cbn; lia|done|done]. apply on_group_ptrs. intros g _ <-. apply Hf.
Qed.
#[export] Instance steady_modify_conn gp cp f : Steady (modify_conn gp cp f).
Proof. unfold modify_conn. apply _. Qed.

(** *** System calls and the handlers that add and remove nothing *)

(** Resolution goes by the name of an operation. *)
#[export] Typeclasses Opaque mbind M_bind mret M_ret when skip mfor mconcat inc inc_by modify_group modify_conn
  deref_group deref_conn fresh_ptr next_call emit get gets raise
  sendto sendmmsg send respond recv socket setsockopt fcntl_getfl fcntl_setfl connect connect_srt close epoll_add
  epoll_remove get_local_port get_seconds get_ms open_file pad_sendto read_random get_random_bytes
  write_socket_info_file remove_socket_info_file destroy_group evaluate_group adjust_weights quality_pass
  log_forward_drop relay_to_clients relay_to_last record_auth_failure reply send_keepalive
  reject_connection register_connection register_packet handle_keepalive is_duplicate_nak account_nak
  cleanup_conn cleanup_recovery cleanup_conns render send_response exporter_handle_event.

Section SteadyCalls.
Context {os : OS} {hc : HandlerConfig} {ec : ExporterConfig}.

#[export] Instance steady_sendto d b : Steady (sendto d b).
Proof. unfold sendto. apply _. Qed.
#[export] Instance steady_sendmmsg d b : Steady (sendmmsg d b).
Proof. unfold sendmmsg. apply _. Qed.
#[export] Instance steady_send fd b : Steady (send fd b).
Proof. unfold send. apply _. Qed.
#[export] Instance steady_respond fd b : Steady (respond fd b).
Proof. unfold respond. apply _. Qed.
#[export] Instance steady_recv fd : Steady (recv fd).
Proof. unfold recv. apply _. Qed.
#[export] Instance steady_socket : Steady socket.
Proof. unfold socket. apply _. Qed.
#[export] Instance steady_setsockopt fd : Steady (setsockopt fd).
Proof. unfold setsockopt. apply _. Qed.
#[export] Instance steady_fcntl_getfl fd : Steady (fcntl_getfl fd).
Proof. unfold fcntl_getfl. apply _. Qed.
#[export] Instance steady_fcntl_setfl fd : Steady (fcntl_setfl fd).
Proof. unfold fcntl_setfl. apply _. Qed.
#[export] Instance steady_connect_srt fd : Steady (connect_srt fd).
Proof. unfold connect_srt, connect. apply _. Qed.
#[export] Instance steady_close fd : Steady (close fd).
Proof. unfold close. do 2 (apply steady_bind; [apply _|intros ?]). by intros w. Qed.
#[export] Instance steady_epoll_add fd p : Steady (epoll_add fd p).
Proof.
  unfold epoll_add. apply steady_bind; [apply _|]. intros t. apply steady_bind; [apply _|]. intros _.
  apply steady_bind; [|apply _]. apply steady_when. by intros w.
Qed.
#[export] Instance steady_epoll_remove fd : Steady (epoll_remove fd).
Proof. unfold epoll_remove. do 2 (apply steady_bind; [apply _|intros ?]). by intros w. Qed.
#[export] Instance steady_get_local_port fd : Steady (get_local_port fd).
Proof. unfold get_local_port. apply _. Qed.
#[export] Instance steady_get_seconds : Steady get_seconds.
Proof. unfold get_seconds. apply _. Qed.
#[export] Instance steady_get_ms : Steady get_ms.
Proof. unfold get_ms. apply _. Qed.
#[export] Instance steady_open_file : Steady open_file.
Proof. unfold open_file. apply _. Qed.
#[export] Instance steady_pad_sendto b d : Steady (pad_sendto b d).
Proof. unfold pad_sendto. apply _. Qed.
#[export] Instance steady_read_random fuel : forall b n, Steady (read_random fuel b n).
Proof. induction fuel; intros b n; cbn [read_random]; apply _. Qed.
#[export] Instance steady_get_random_bytes n : Steady (get_random_bytes n).
Proof. unfold get_random_bytes. apply _. Qed.
#[export] Instance steady_write_info g : Steady (write_socket_info_file g).
Proof. unfold write_socket_info_file. apply _. Qed.
#[export] Instance steady_destroy_group g : Steady (destroy_group g).
Proof. unfold destroy_group, remove_socket_info_file. apply _. Qed.

#[export] Instance keeps_evaluate t ms : KeepsPtr (evaluate_group_at t ms).
Proof. by intros g. Qed.
#[export] Instance keeps_adjust t : KeepsPtr (adjust_weights_at t).
Proof. intros g. unfold adjust_weights_at. by repeat case_match. Qed.
#[export] Instance steady_evaluate_group p t : Steady (evaluate_group p t).
Proof. unfold evaluate_group. apply _. Qed.
#[export] Instance steady_adjust_weights p t : Steady (adjust_weights p t).
Proof. unfold adjust_weights. apply _. Qed.
#[export] Instance steady_quality_pass ts : Steady (quality_pass ts).
Proof. unfold quality_pass. apply _. Qed.

#[export] Instance steady_log_forward_drop : Steady log_forward_drop.
Proof.
  unfold log_forward_drop. apply steady_bind; [by intros w|]. intros _.
  apply steady_bind; [apply _|]. intros [now|]; [|apply _].
  apply steady_bind; [apply _|]. intros last. apply steady_if; [apply _|].
  apply steady_bind; [by intros w|]. apply _.
Qed.
#[export] Instance steady_relay_to_clients g b n : Steady (relay_to_clients g b n).
Proof. unfold relay_to_clients. apply _. Qed.
#[export] Instance steady_relay_to_last g b n : Steady (relay_to_last g b n).
Proof. unfold relay_to_last. apply _. Qed.
#[export] Instance steady_record_auth_failure a t : Steady (record_auth_failure a t).
Proof. unfold record_auth_failure. apply steady_bind; [apply _|]. intros _. by intros w. Qed.

#[export] Instance steady_reply t a : Steady (reply t a).
Proof. unfold reply. apply _. Qed.
#[export] Instance steady_send_keepalive c : Steady (send_keepalive c).
Proof. unfold send_keepalive. apply _. Qed.
#[export] Instance steady_reject_connection t c a : Unrelated c -> Steady (reject_connection t c a).
Proof. intros Hc. unfold reject_connection. apply _. Qed.
#[export] Instance steady_register_connection a b t : Steady (register_connection a b t).
Proof. unfold register_connection. apply _. Qed.
#[export] Instance steady_register_packet gp cp sn : Steady (register_packet gp cp sn).
Proof. unfold register_packet. apply _. Qed.
#[export] Instance steady_handle_keepalive gp cp a b n : Steady (handle_keepalive gp cp a b n).
Proof. unfold handle_keepalive. apply _. Qed.
#[export] Instance steady_is_duplicate_nak gp b n : Steady (is_duplicate_nak gp b n).
Proof. unfold is_duplicate_nak. apply _. Qed.
#[export] Instance steady_account_nak gp cp b n t : Steady (account_nak gp cp b n t).
Proof. unfold account_nak. apply _. Qed.

#[export] Instance steady_cleanup_conn t cb c : (forall c, Steady (cb c)) -> Steady (cleanup_conn t cb c).
Proof. intros Hcb. unfold cleanup_conn, cleanup_recovery. apply _. Qed.
#[export] Instance steady_cleanup_conns t cb cs : (forall c, Steady (cb c)) -> Steady (cleanup_conns t cb cs).
Proof. intros Hcb. induction cs; cbn [cleanup_conns]; apply _. Qed.

#[export] Instance steady_render now : Steady (render now).
Proof. unfold render, render_conns, render_group, group_port. apply _. Qed.
#[export] Instance steady_send_response fuel client : forall rest, Steady (send_response fuel client rest).
Proof. induction fuel; intros rest; cbn [send_response]; apply _. Qed.
#[export] Instance steady_exporter scrapes : Steady (exporter_handle_event scrapes).
Proof. unfold exporter_handle_event, serve. apply _. Qed.
End SteadyCalls.

(** ** Code that adds and removes groups *)

Ltac steady_step x w1 Hs := apply wp_bind, wp_steady; [apply _|]; intros x w1 Hs.

Lemma in_ptrs_steady p w w' : steady w w' -> p ∈ ptrs w -> p ∈ ptrs w'.
Proof. by intros (-> & _). Qed.

(** Facts that steady steps carry from an earlier state. *)
Ltac by_steady :=
  match goal with
  | |- accounted ?w' => assumption
  | |- _ ∈ ptrs ?w' => assumption
  | H : steady ?w ?w' |- accounted ?w' => apply (steady_accounted w w' H); by_steady
  | H : steady ?w ?w' |- ?p ∈ ptrs ?w' => apply (in_ptrs_steady p w w' H); by_steady
  | H : steady ?w1 ?w' |- steady ?w ?w' => assumption
  | H : steady ?w1 ?w' |- steady ?w ?w' => transitivity w1; [by_steady|exact H]
  end.

Lemma sum_of_change w w' c v cs :
  (forall d, d ∈ cs -> counters w' d = if decide (d = c) then v else counters w d) -> NoDup cs -> c ∈ cs ->
  sum_of w' cs = sum_of w cs + (v - counters w c).
Proof.
  induction cs as [|d cs IH]; intros Hd Hn Hc; [by apply elem_of_nil in Hc|].
  apply NoDup_cons in Hn as [Hdc Hn]. cbn [sum_of fold_right]. fold (sum_of w' cs) (sum_of w cs).
  rewrite (Hd d) by left. destruct (decide (d = c)) as [->|Hne].
  - rewrite (sum_of_steady w w' cs); [lia|]. intros e He. rewrite Hd by (by right).
    destruct (decide (e = c)); congruence.
  - apply elem_of_cons in Hc as [->|Hc]; [done|]. rewrite IH; [lia| |done|done].
    intros e He. apply Hd. by right.
Qed.

Lemma u64_shift a b c : u64 (a + (u64 b - c)) = u64 (a + (b - c)).
Proof.
  unfold u64. rewrite Z.add_sub_assoc, Zminus_mod, Zplus_mod, Zmod_mod, <- Zplus_mod, <- Zminus_mod.
  f_equal. lia.
Qed.

(** Groups that go, [k] of them charged to the cause [c]. *)
Lemma accounted_removal w w' c k :
  accounted w -> c ∈ removals -> NoDup (ptrs w') -> ptrs w' ⊆ ptrs w -> (next_ptr w <= next_ptr w')%nat ->
  Zlength (ptrs w') + k = Zlength (ptrs w) -> counters_ok w' ->
  (forall d, d ∈ ledger -> counters w' d = if decide (d = c) then u64 (counters w c + k) else counters w d) ->
  accounted w'.
Proof.
  intros [H1 H2 H3 H4] Hc Hn Hsub Hp Hk Hok Hcnt. split; [done| |done|].
  - intros p Hpp. apply Hsub, H2 in Hpp. lia.
  - rewrite Hcnt by left. destruct (decide (GROUP_REGISTRATIONS = c)) as [<-|_].
    { exfalso. revert Hc. apply (bool_decide_unpack _). vm_compute. exact I. }
    assert (Es : sum_of w' removals = sum_of w removals + (u64 (counters w c + k) - counters w c)).
    { apply sum_of_change; [intros d Hd; apply Hcnt; by right|apply (bool_decide_unpack _); vm_compute; exact I|done]. }
    rewrite Es, H4. rewrite <- Z.add_assoc, (Z.add_comm (_ - _)), Z.add_assoc, u64_shift. f_equal. lia.
Qed.

Lemma filter_ptrs p (gs : list ConnectionGroup) :
  map g_ptr (filter (fun g => g_ptr g <> p) gs) = filter (fun q => q <> p) (map g_ptr gs).
Proof.
  induction gs as [|g gs IH]; [done|]. cbn [map]. rewrite !filter_cons.
  repeat case_decide; try done. cbn. by rewrite IH.
Qed.

Lemma length_filter_out (p : nat) l :
  NoDup l -> p ∈ l -> (length (filter (fun q => q <> p) l) + 1 = length l)%nat.
Proof.
  induction 1 as [|q l Hq Hn IH]; intros Hp; [by apply elem_of_nil in Hp|].
  rewrite filter_cons. destruct (decide (q <> p)) as [Hne|Heq]; cbn.
  - apply elem_of_cons in Hp as [->|Hp]; [done|]. rewrite IH by done. done.
  - apply dec_stable in Heq as ->. rewrite filter_all; [lia|]. intros r Hr ->. done.
Qed.

Section Removal.
Context {os : OS} {hc : HandlerConfig} {ec : ExporterConfig}.

(** A removal, counted under its cause. *)
Lemma acc_remove p c w :
  accounted w -> p ∈ ptrs w -> c ∈ removals ->
  wp (inc c;; remove_group p) (fun _ => accounted) anyway w.
Proof.
  intros Hw Hp Hc. unfold wp, remove_group, mbind at 1, M_bind at 1. unfold inc, inc_by, modify.
  unfold mbind, M_bind, gets, set_groups, modify. cbv beta iota.
  set (w1 := (w <| counters ::= _ |>) <| groups := _ |>).
  assert (Hw1 : accounted w1).
  { apply (accounted_removal w w1 c 1); [done|done|..].
    - unfold ptrs, w1. cbn. rewrite filter_ptrs. apply NoDup_filter, Hw.
    - unfold ptrs, w1. cbn. rewrite filter_ptrs. intros q Hq. by apply list_elem_of_filter in Hq as [_ Hq].
    - cbn. lia.
    - unfold ptrs, w1, Zlength. cbn. rewrite filter_ptrs.
      pose proof (length_filter_out p (map g_ptr (groups w)) (acc_nodup _ Hw) Hp). unfold ptrs in *. lia.
    - apply (counters_ok_inc c 1 w), Hw.
    - intros d _. cbn. by destruct (decide _). }
  destruct (lookup_group _ _) as [g|]; [|exact Hw1].
  pose proof (steady_destroy_group g w1) as Hs. destruct (destroy_group g w1); [|exact I].
  by_steady.
Qed.

Lemma wp_deref_in p (Q : ConnectionGroup -> world -> Prop) w :
  (forall g, p ∈ ptrs w -> Q g w) -> wp (deref_group p) Q anyway w.
Proof.
  intros HQ. unfold wp, deref_group. destruct (lookup_group p (groups w)) as [g|] eqn:E; [|done].
  apply HQ. apply lookup_group_elem in E as [Hg <-]. by apply list_elem_of_fmap_2.
Qed.

(** The socket is there and nothing has changed, or the group is gone. *)
Lemma acc_ensure p w :
  accounted w ->
  wp (ensure_group_socket p) (fun ok w' => accounted w' /\ (ok = true -> steady w w')) anyway w.
Proof.
  intros Hw. unfold ensure_group_socket. apply wp_bind, wp_deref_in. intros g Hp.
  destruct (0 <=? srt_socket g); [by apply wp_ret|].
  assert (Hfail : forall sock w', steady w w' ->
    wp (abandon_socket p sock) (fun ok w' => accounted w' /\ (ok = true -> steady w w')) anyway w').
  { intros sock w' Hs. unfold abandon_socket. steady_step u w2 H2. unfold srt_remove_group. apply wp_bind.
    eapply wp_mono; [apply acc_remove; [by_steady|by_steady|by right; right; left]|].
    intros [] w3 H3. by apply wp_ret. }
  steady_step sock w1 H1. destruct (sock <? 0).
  { unfold srt_remove_group. apply wp_bind.
    eapply wp_mono; [apply acc_remove; [by_steady|by_steady|by right; right; left]|].
    intros [] w3 H3. by apply wp_ret. }
  steady_step r1 w2 H2. destruct (negb (r1 =? 0)); [apply Hfail; by_steady|].
  steady_step r2 w3 H3. destruct (negb (r2 =? 0)); [apply Hfail; by_steady|].
  steady_step r3 w4 H4. destruct (r3 =? -1); [apply Hfail; by_steady|].
  steady_step r4 w5 H5. destruct (r4 =? -1); [apply Hfail; by_steady|].
  steady_step r5 w6 H6. destruct (negb (r5 =? 0)); [apply Hfail; by_steady|].
  steady_step r6 w7 H7.
  steady_step r7 w8 H8. destruct (negb (r7 =? 0)); [apply Hfail; by_steady|].
  apply wp_steady; [apply _|]. intros ok w9 H9.
  split; [by_steady|intros _; by_steady].
Qed.

Lemma acc_forward p buf w :
  accounted w -> wp (forward_to_srt_server p buf) (fun _ => accounted) anyway w.
Proof.
  intros Hw. unfold forward_to_srt_server. apply wp_bind. eapply wp_mono; [by apply acc_ensure|].
  intros ok w1 [Hw1 _]. destruct ok; cbn [negb]; [|by apply wp_ret].
  apply wp_bind, wp_deref_in. intros g Hp. steady_step r w2 H2. destruct r as [ret err].
  destruct (ret =? Zlength buf); [apply wp_steady; [apply _|]; intros a w3 H3; by_steady|].
  destruct (_ && _); [apply wp_steady; [apply _|]; intros a w3 H3; by_steady|].
  steady_step u w3 H3. apply wp_bind. unfold srt_remove_group.
  eapply wp_mono; [apply acc_remove; [by_steady|by_steady|by right; right; left]|].
  intros [] w4 H4. by apply wp_ret.
Qed.

Lemma acc_handle_data gp cp buf n a ts w :
  accounted w -> wp (handle_data gp cp buf n a ts) (fun _ => accounted) anyway w.
Proof.
  intros Hw. unfold handle_data. steady_step u1 w1 H1. steady_step u2 w2 H2. steady_step go w3 H3.
  destruct (negb go); [apply wp_ret; by_steady|]. steady_step u4 w4 H4.
  apply wp_bind. eapply wp_mono; [apply acc_forward; by_steady|].
  intros b w5 H5. by apply wp_ret.
Qed.

Lemma acc_handle_srt_packet p buf n w :
  accounted w -> wp (handle_srt_packet p buf n) (fun _ => accounted) anyway w.
Proof.
  intros Hw. unfold handle_srt_packet. steady_step u1 w1 H1. apply wp_bind, wp_deref_in. intros g Hp.
  cbv zeta. steady_step u2 w2 H2.
  destruct (_ && _); [apply wp_ret; by_steady|].
  steady_step u3 w3 H3.
  destruct (auth_failed g buf n); [|apply wp_ret; by_steady].
  unfold srt_remove_group.
  apply acc_remove; [by_steady|by_steady|by right; left].
Qed.

Lemma acc_handle_srt_data p w : accounted w -> wp (handle_srt_data p) (fun _ => accounted) anyway w.
Proof.
  intros Hw. unfold handle_srt_data. apply wp_bind, wp_deref_in. intros g Hp. steady_step r w1 H1.
  cbv zeta. steady_step u w2 H2.
  destruct (_ <? SRT_MIN_LEN); [|apply acc_handle_srt_packet; by_steady].
  unfold srt_remove_group. apply acc_remove; [by_steady|by_steady|by right; right; left].
Qed.
End Removal.

(** ** Registration, cleanup and the loop *)

Section Loop.
Context {os : OS} {hc : HandlerConfig} {ec : ExporterConfig}.

Lemma acc_evict w : accounted w -> wp evict_oldest_pending_group (fun _ => accounted) anyway w.
Proof.
  intros Hw. unfold evict_oldest_pending_group. apply wp_bind, wp_gets.
  destruct (oldest_pending (groups w)) as [g|] eqn:E; [|by apply wp_ret].
  assert (Hp : g_ptr g ∈ ptrs w) by (apply list_elem_of_fmap_2; by apply oldest_pending_some in E as [? _]).
  pose proof (acc_remove (g_ptr g) GROUPS_REMOVED_EVICTED w Hw Hp ltac:(do 3 right; left)) as H.
  unfold wp, mbind, M_bind in *. destruct (inc _ w) as [[] w1|]; [|done].
  by destruct (remove_group _ w1) as [[] w2|].
Qed.

Lemma acc_refusal addr ts w :
  accounted w ->
  wp (reg1_refusal addr ts) (fun r w' => accounted w' /\ forall c, r = Some c -> c ∉ ledger) anyway w.
Proof.
  intros Hw. unfold reg1_refusal. apply wp_bind, wp_gets.
  destruct (is_blocked _ _ _).
  { apply wp_ret. split; [done|]. intros c [= <-]. apply (bool_decide_unpack _). vm_compute. exact I. }
  apply wp_bind, wp_gets, wp_bind.
  apply (wp_mono _ (fun _ => accounted)).
  { destruct (_ <=? _); [|by apply wp_ret]. apply wp_bind. eapply wp_mono; [by apply acc_evict|].
    intros b w1 H1. by apply wp_ret. }
  intros [] w1 H1.
  { apply wp_ret. split; [done|]. intros c [= <-]. apply (bool_decide_unpack _). vm_compute. exact I. }
  apply wp_bind, wp_gets. destruct (find_by_address _ _); apply wp_ret; split; try done.
  intros c [= <-]. apply (bool_decide_unpack _). vm_compute. exact I.
Qed.

(** A new group is counted as registered. *)
Lemma acc_add w g :
  accounted w -> g_ptr g ∉ ptrs w -> (g_ptr g < next_ptr w)%nat ->
  wp (add_group g;; inc GROUP_REGISTRATIONS) (fun _ => accounted) anyway w.
Proof.
  intros [H1 H2 H3 H4] Hn Hp. unfold wp, add_group, inc, inc_by, mbind, M_bind, modify.
  set (w1 := (w <| groups ::= _ |>) <| counters ::= _ |>).
  assert (Ep : ptrs w1 = ptrs w ++ [g_ptr g]) by (unfold ptrs, w1; cbn; by rewrite map_app).
  assert (Ec : forall d, counters w1 d = if decide (d = GROUP_REGISTRATIONS)
                                         then u64 (counters w GROUP_REGISTRATIONS + 1) else counters w d).
  { intros d. unfold w1. cbn. by destruct (decide _). }
  assert (En : next_ptr w1 = next_ptr w) by done. clearbody w1. split.
  - rewrite Ep. apply NoDup_app. split_and!; [done| |apply NoDup_singleton].
    intros p Hpp. rewrite list_elem_of_singleton. by intros ->.
  - intros p. rewrite Ep, En, elem_of_app, list_elem_of_singleton. intros [Hpp| ->]; auto.
  - intros d. rewrite Ec. destruct (decide _); [apply u64_range|apply H3].
  - rewrite Ec, decide_True by done. rewrite (sum_of_steady w w1 removals).
    + rewrite H4, Ep. unfold Zlength. rewrite length_app. cbn [length]. unfold u64.
      rewrite Zplus_mod_idemp_l. f_equal. lia.
    + intros c Hc. rewrite Ec. destruct (decide _) as [->|]; [|done].
      exfalso. revert Hc. apply (bool_decide_unpack _). vm_compute. exact I.
Qed.

Lemma acc_register_group addr buf ts w :
  accounted w -> wp (register_group addr buf ts) (fun _ => accounted) anyway w.
Proof.
  intros Hw. unfold register_group. apply wp_bind. eapply wp_mono; [by apply acc_refusal|].
  intros [c|] w1 [Hw1 Hc].
  - assert (Unrelated c) by (by apply Hc). apply wp_steady; [apply _|]. intros r w2 H2. by_steady.
  - unfold make_group. apply wp_bind, wp_bind, wp_steady; [apply _|]. intros rnd w2 H2.
    apply wp_bind. unfold wp at 1, fresh_ptr. set (w3 := w2 <| next_ptr ::= S |>).
    assert (Hw3 : accounted w3) by (apply (steady_accounted w2); [apply (steady_fresh_ptr w2)|by_steady]).
    assert (Hlt : (next_ptr w2 < next_ptr w3)%nat) by (cbn; lia).
    assert (Hnew : next_ptr w2 ∉ ptrs w3).
    { intros Hp. assert (H2' : accounted w2) by by_steady. apply (acc_below _ H2') in Hp. lia. }
    clearbody w3. apply wp_ret. cbv zeta. steady_step ret w4 H4.
    destruct (negb _); [apply wp_steady; [apply _|]; intros r w5 H5; by_steady|].
    set (g := new_group _ _ _ _ <| last_address := addr |>).
    assert (H : wp (add_group g;; inc GROUP_REGISTRATIONS) (fun _ => accounted) anyway w4).
    { apply acc_add; [by_steady|..]; change (g_ptr g) with (next_ptr w2).
      - destruct H4 as (-> & _). done.
      - destruct H4 as (_ & Hle & _). lia. }
    unfold wp, mbind, M_bind in *. destruct (add_group g w4) as [[] w5|]; [|done].
    by destruct (inc GROUP_REGISTRATIONS w5) as [[] w6|].
Qed.

Lemma acc_process_single_packet buf n a ts w :
  accounted w -> wp (process_single_packet buf n a ts) (fun _ => accounted) anyway w.
Proof.
  intros Hw. unfold process_single_packet.
  destruct (is_srtla_reg1 buf n).
  { apply wp_bind. eapply wp_mono; [by apply acc_register_group|]. intros r w1 H1. by apply wp_ret. }
  destruct (is_srtla_reg2 buf n); [apply wp_steady; [apply _|]; intros r w1 H1; by_steady|].
  apply wp_bind, wp_gets. destruct (find_by_address a (groups w)) as [[g [c|]]|]; try by apply wp_ret.
  cbv zeta. steady_step u1 w1 H1. steady_step u2 w2 H2.
  destruct (is_srtla_keepalive buf n); [apply wp_steady; [apply _|]; intros r w3 H3; by_steady|].
  destruct (n <? SRT_MIN_LEN); [apply wp_ret; by_steady|]. apply acc_handle_data. by_steady.
Qed.

(** [k] removals charged to [c], the table not yet updated. *)
Definition charged (c : Counter) (k : Z) (w w' : world) : Prop :=
  ptrs w' = ptrs w /\ (next_ptr w <= next_ptr w')%nat /\ counters_ok w' /\
  forall d, d ∈ ledger -> counters w' d = if decide (d = c) then u64 (counters w c + k) else counters w d.

Lemma steady_charged c w w' : counters_ok w -> steady w w' -> charged c 0 w w'.
Proof.
  intros Hw (P & N & L & C). split_and!; auto. intros d Hd. rewrite L by done.
  destruct (decide (d = c)) as [->|]; [|done]. rewrite Z.add_0_r, u64_small; [done|]. apply Hw.
Qed.
Lemma charged_trans c k1 k2 w1 w2 w3 : charged c k1 w1 w2 -> charged c k2 w2 w3 -> charged c (k1 + k2) w1 w3.
Proof.
  intros (P1 & N1 & C1 & L1) (P2 & N2 & C2 & L2). split_and!; [congruence|lia|done|].
  intros d Hd. rewrite L2 by done. destruct (decide (d = c)) as [->|Hne].
  - rewrite L1, decide_True by done. unfold u64. rewrite Zplus_mod_idemp_l. f_equal. lia.
  - rewrite L1 by done. by rewrite decide_False.
Qed.
Lemma charged_inc c w : c ∈ ledger -> counters_ok w -> charged c 1 w (run (inc c) w).
Proof.
  intros Hc Hw. split_and!; [done|cbn; lia|by apply (counters_ok_inc c 1)|].
  intros d _. cbn. by destruct (decide _).
Qed.

(** A cleanup charges the groups it drops to idleness. *)
Lemma acc_cleanup_group t g w :
  counters_ok w ->
  wp (cleanup_group t send_keepalive g)
    (fun g' w' => charged GROUPS_REMOVED_IDLE (if g' is Some _ then 0 else 1) w w' /\
       forall h, g' = Some h -> g_ptr h = g_ptr g) anyway w.
Proof.
  intros Hw. unfold cleanup_group. cbv zeta. steady_step cs w1 H1.
  pose proof (steady_charged GROUPS_REMOVED_IDLE w w1 Hw H1) as C1.
  assert (Hw1 : counters_ok w1) by apply C1.
  destruct (_ && _).
  - apply wp_bind.
    unfold wp at 1. unfold inc, inc_by, modify. fold (run (inc GROUPS_REMOVED_IDLE) w1).
    set (w2 := _ w1). assert (C2 : charged GROUPS_REMOVED_IDLE 1 w1 w2) by (apply charged_inc; [right; left|done]).
    clearbody w2. steady_step u w3 H3. apply wp_ret. split; [|done].
    eapply (charged_trans _ 0 1 w w1); [done|]. eapply (charged_trans _ 1 0 w1 w2); [done|].
    apply steady_charged; [apply C2|done].
  - steady_step u w2 H2. apply wp_ret. split; [|by intros h [= <-]].
    eapply (charged_trans _ 0 0 w w1); [done|]. by apply steady_charged.
Qed.

Lemma acc_cleanup_groups t gs : forall w,
  counters_ok w ->
  wp (cleanup_groups t send_keepalive gs)
    (fun gs' w' => charged GROUPS_REMOVED_IDLE (Zlength gs - Zlength gs') w w' /\
       map g_ptr gs' `sublist_of` map g_ptr gs) anyway w.
Proof.
  induction gs as [|g gs IH]; intros w Hw; cbn [cleanup_groups].
  - apply wp_ret. split; [|done]. apply (steady_charged _ w w Hw). reflexivity.
  - apply wp_bind. eapply wp_mono; [by apply acc_cleanup_group|]. intros kept w1 [C1 Hk].
    apply wp_bind. eapply wp_mono; [apply IH, C1|]. intros rest w2 [C2 Hs]. apply wp_ret.
    pose proof (charged_trans _ _ _ _ _ _ C1 C2) as C. unfold Zlength in *.
    destruct kept as [h|]; cbn [map length].
    + rewrite (Hk h eq_refl). split; [|by apply sublist_skip].
      revert C. by replace (0 + (Z.of_nat (length gs) - Z.of_nat (length rest)))
        with (Z.of_nat (S (length gs)) - Z.of_nat (S (length rest))) by lia.
    + split; [|by apply sublist_cons].
      revert C. by replace (1 + (Z.of_nat (length gs) - Z.of_nat (length rest)))
        with (Z.of_nat (S (length gs)) - Z.of_nat (length rest)) by lia.
Qed.

Lemma acc_cleanup_inactive t w :
  accounted w -> wp (cleanup_inactive t send_keepalive) (fun _ => accounted) anyway w.
Proof.
  intros Hw. unfold cleanup_inactive. apply wp_bind, wp_gets. destruct (_ <? _); [by apply wp_ret|].
  apply wp_bind, wp_modify. set (w1 := w <| last_run := t |>).
  assert (Hw1 : accounted w1) by (destruct Hw; by split). clearbody w1.
  apply wp_bind, wp_gets. destruct (bool_decide _); [by apply wp_ret|]. apply wp_bind.
  eapply wp_mono; [apply acc_cleanup_groups, Hw1|]. intros gs' w2 [(P & N & C & L) Hs].
  apply wp_modify. set (w3 := w2 <| groups := gs' |>).
  assert (Ep : ptrs w3 = map g_ptr gs') by done.
  apply (accounted_removal w1 w3 GROUPS_REMOVED_IDLE (Zlength (groups w1) - Zlength gs')); [done|left|..].
  - rewrite Ep. eapply sublist_NoDup; [|exact Hs]. apply Hw1.
  - rewrite Ep. by apply sublist_subseteq.
  - exact N.
  - rewrite Ep. unfold ptrs, Zlength. rewrite !length_map. lia.
  - exact C.
  - exact L.
Qed.

Lemma acc_handle_event ts ev w : accounted w -> wp (handle_event ts ev) (fun _ => accounted) anyway w.
Proof.
  intros Hw. destruct ev as [received|scrapes|p]; cbn [handle_event].
  - unfold process_packets. apply wp_bind. destruct received as [msgs|]; [|by apply wp_ret, wp_ret].
    steady_step u w1 H1. apply wp_bind.
    apply (wp_mono _ (fun _ => accounted)); [|intros [] w2 H2; by apply wp_ret, wp_ret].
    apply wp_mfor; [by_steady|]. intros msg w2 _ Hw2. unfold process_datagram. apply wp_when; [|done].
    intros _. steady_step u2 w3 H3. steady_step u3 w4 H4. apply acc_process_single_packet. by_steady.
  - apply wp_steady; [apply _|]. intros u w1 H1. by_steady.
  - apply wp_bind, wp_deref_in. intros g Hp. apply wp_bind, wp_gets.
    destruct (find_group_by_id _ _); [by apply acc_handle_srt_data|by apply wp_ret].
Qed.

Lemma acc_handle_events ts events : forall w,
  accounted w -> wp (handle_events ts events) (fun _ => accounted) anyway w.
Proof.
  induction events as [|ev events IH]; intros w Hw; [done|]. cbn [handle_events].
  apply wp_bind, wp_gets, wp_bind. eapply wp_mono; [by apply acc_handle_event|]. intros [] w1 H1.
  apply wp_bind, wp_gets. destruct (_ <? _)%nat; [by apply wp_ret|by apply IH].
Qed.

Lemma acc_loop_iteration events w : accounted w -> wp (loop_iteration events) (fun _ => accounted) anyway w.
Proof.
  intros Hw. unfold loop_iteration. steady_step now w1 H1. destruct now as [ts|]; [|apply wp_ret; by_steady].
  apply wp_bind. eapply wp_mono; [apply acc_handle_events; by_steady|]. intros [] w2 H2.
  apply wp_bind. eapply wp_mono; [by apply acc_cleanup_inactive|]. intros [] w3 H3.
  apply wp_bind, wp_modify. set (w4 := w3 <| limiter ::= _ |>).
  assert (Hw4 : accounted w4) by (destruct H3; by split). clearbody w4.
  apply wp_steady; [apply _|]. intros [] w5 H5. by_steady.
Qed.

Lemma reachable_accounted w : reachable w -> accounted w.
Proof.
  induction 1 as [|w events w' _ IH E].
  - split; [constructor| |by intros c|done]. intros p Hp. by apply elem_of_nil in Hp.
  - eapply (wp_done _ (fun _ => accounted)); [by apply acc_loop_iteration|exact E].
Qed.
End Loop.
