(* ===== verification/Exposition.v ===== *)
(** * What a scraper reads

    A reader of the text format, and the proof that it reads back from the
    exporter's response exactly the counters and gauges of the state
    ([Exporter]), with one header per metric and no series twice. *)

From Stdlib Require Import Strings.Ascii Strings.String Strings.Byte.
From stdpp Require Import list gmap.
From S2P Require Import Prelude Config Wire NetUtils AuthRateLimiter Connection World Registry.
From S2P Require Import Exporter.

#[local] Open Scope string_scope.
#[local] Open Scope list_scope.
#[local] Open Scope Z_scope.

(** ** The reader *)

(** Lines end with a newline; what follows the last one is a line too. *)
Fixpoint lines (t : text) : list text :=
  match t with
  | [] => [[]]
  | b :: t' =>
      if Byte.eqb b Byte.x0a then [] :: lines t'
      else match lines t' with l :: ls => (b :: l) :: ls | [] => [[b]] end
  end.

(** A text split at its last space. *)
Fixpoint split_last (t : text) : option (text * text) :=
  match t with
  | [] => None
  | b :: t' =>
      match split_last t' with
      | Some (l, r) => Some (b :: l, r)
      | None => if Byte.eqb b Byte.x20 then Some ([], t') else None
      end
  end.

Definition read_digits (t : text) : Z := fold_left (fun n b => 10 * n + (bval b - 48)) t 0.
Definition read_value (t : text) : Z :=
  match t with
  | b :: t' => if Byte.eqb b Byte.x2d then - read_digits t' else read_digits t
  | [] => 0
  end.

Definition is_comment (l : text) : bool :=
  match l with b :: _ => Byte.eqb b Byte.x23 | [] => false end.

(** The series and the value of a line. *)
Definition read_line (l : text) : option (text * Z) :=
  if is_comment l then None else
  '(series, value) ← split_last l; Some (series, read_value value).

Definition scrape (t : text) : list (text * Z) := omap read_line (lines t).

(** The metrics that have a TYPE line: the line without its type. *)
Definition read_type (l : text) : option text :=
  if bool_decide (take 7 l = str "# TYPE ") then fst <$> split_last l else None.
Definition typed (t : text) : list text := omap read_type (lines t).

(** ** Numbers *)

Lemma bval_digit d : 0 <= d < 10 -> bval (digit d) = 48 + d.
Proof. intros H. unfold digit. rewrite bval_byte_of, u8_small by lia. done. Qed.

Lemma read_digits_app l b : read_digits (l ++ [b]) = 10 * read_digits l + (bval b - 48).
Proof. unfold read_digits. by rewrite fold_left_app. Qed.

Lemma read_digits_digits fuel : forall n, 0 <= n < 10 ^ Z.of_nat fuel -> read_digits (digits fuel n) = n.
Proof.
  induction fuel as [|fuel IH]; intros n Hn; [cbn in *; lia|].
  rewrite Nat2Z.inj_succ, Z.pow_succ_r in Hn by lia. cbn [digits].
  destruct (Z.ltb_spec n 10).
  - change [digit n] with ([] ++ [digit n]). rewrite read_digits_app, bval_digit by lia. cbn. lia.
  - rewrite read_digits_app, bval_digit by (apply Z.mod_pos_bound; lia).
    rewrite IH by (split; [apply Z.div_pos; lia|apply Z.div_lt_upper_bound; lia]).
    pose proof (Z.div_mod n 10). lia.
Qed.

(** Digits are neither spaces nor newlines nor a sign. *)
Definition is_digit (b : byte) : Prop := 48 <= bval b < 58.
Lemma digits_digits fuel : forall n, 0 <= n -> Forall is_digit (digits fuel n).
Proof.
  induction fuel as [|fuel IH]; intros n Hn; cbn [digits]; [constructor|]. unfold is_digit in *.
  destruct (Z.ltb_spec n 10).
  - constructor; [|constructor]. rewrite bval_digit; lia.
  - apply Forall_app. split; [apply IH, Z.div_pos; lia|]. constructor; [|constructor].
    pose proof (Z.mod_pos_bound n 10). rewrite bval_digit; lia.
Qed.

Definition printable (v : Z) : Prop := - 10 ^ 20 < v < 10 ^ 20.

Lemma read_value_to_string v : printable v -> read_value (to_string v) = v.
Proof.
  unfold printable, to_string. intros Hv. destruct (Z.ltb_spec v 0).
  - change (- read_digits (digits 20 (- v)) = v). rewrite read_digits_digits; lia.
  - pose proof (digits_digits 20 v ltac:(lia)) as Hd.
    pose proof (read_digits_digits 20 v ltac:(lia)) as Hr.
    revert Hd Hr. unfold read_value. destruct (digits 20 v) as [|b t]; [done|]. intros Hd Hr.
    apply Forall_cons in Hd as [Hb _]. destruct (Byte.eqb b Byte.x2d) eqn:Eb; [|done].
    apply Byte.byte_dec_bl in Eb as ->. unfold is_digit in Hb.
    change (bval Byte.x2d) with 45 in Hb. lia.
Qed.

Lemma to_string_chars v b : b ∈ to_string v -> b = Byte.x2d \/ is_digit b.
Proof.
  unfold to_string. destruct (Z.ltb_spec v 0); intros Hb.
  - apply elem_of_app in Hb as [Hb|Hb]; [left; by apply list_elem_of_singleton in Hb|].
    right. by eapply Forall_forall in Hb; [|apply digits_digits; lia].
  - right. by eapply Forall_forall in Hb; [|apply digits_digits; lia].
Qed.

Lemma to_string_plain v b : ~ is_digit b -> b <> Byte.x2d -> b ∉ to_string v.
Proof. intros Hd Hm Hb. by apply to_string_chars in Hb as [?|?]. Qed.

(** ** Lines *)

Lemma byte_eqb_neq b c : b <> c -> Byte.eqb b c = false.
Proof. intros H. apply not_true_iff_false. intros E. by apply H, Byte.byte_dec_bl. Qed.

(** A text that can stand in a line. *)
Definition inline (t : text) : Prop := Byte.x0a ∉ t.
#[global] Instance inline_dec t : Decision (inline t) := _.

Lemma lines_app l rest : inline l -> lines (l ++ Byte.x0a :: rest) = l :: lines rest.
Proof.
  induction l as [|b l IH]; intros Hl; [done|]. cbn [app lines].
  apply not_elem_of_cons in Hl as [Hb Hl]. by rewrite byte_eqb_neq, IH by done.
Qed.

Lemma split_last_none t : Byte.x20 ∉ t -> split_last t = None.
Proof.
  induction t as [|b t IH]; intros Ht; [done|]. apply not_elem_of_cons in Ht as [Hb Ht].
  cbn. by rewrite IH, byte_eqb_neq by done.
Qed.
Lemma split_last_app l r : Byte.x20 ∉ r -> split_last (l ++ Byte.x20 :: r) = Some (l, r).
Proof.
  intros Hr. induction l as [|b l IH]; cbn; [by rewrite split_last_none|]. by rewrite IH.
Qed.

(** A text without variables is checked by evaluation. *)
Ltac inline_const := apply (bool_decide_unpack _); vm_compute; exact I.

Lemma inline_app t u : inline (t ++ u) <-> inline t /\ inline u.
Proof. unfold inline. rewrite not_elem_of_app. done. Qed.

Lemma inline_to_string v : inline (to_string v).
Proof. apply to_string_plain; [|done]. unfold is_digit. change (bval Byte.x0a) with 10. lia. Qed.

Definition help_line (name help : string) : text := str "# HELP " ++ str name ++ str " " ++ str help.
Definition type_line (name type : string) : text := str "# TYPE " ++ str name ++ str " " ++ str type.
Definition sample_text (s : text * Z) : text := s.1 ++ str " " ++ to_string s.2.

Lemma lines_header name help type rest :
  inline (str name) -> inline (str help) -> inline (str type) ->
  lines (header name help type ++ rest) = help_line name help :: type_line name type :: lines rest.
Proof.
  intros Hn Hh Ht. unfold header, nl. rewrite <- !app_assoc. cbn [app].
  assert (E : forall a b c d e : text, a ++ b ++ c ++ d ++ Byte.x0a :: e = (a ++ b ++ c ++ d) ++ Byte.x0a :: e).
  { intros. by rewrite <- !app_assoc. }
  rewrite E, lines_app, E, lines_app; [done|..]; rewrite !inline_app; split_and!; done || inline_const.
Qed.

Lemma lines_sample series v rest :
  inline series -> lines (sample_line series v ++ rest) = sample_text (series, v) :: lines rest.
Proof.
  intros Hs. unfold sample_line, nl. rewrite <- !app_assoc. cbn [app].
  assert (E : forall a b c d : text, a ++ b ++ c ++ Byte.x0a :: d = (a ++ b ++ c) ++ Byte.x0a :: d).
  { intros. by rewrite <- !app_assoc. }
  rewrite E, lines_app; [done|]. rewrite !inline_app. split_and!; [done|inline_const|apply inline_to_string].
Qed.

Lemma read_sample s : is_comment s.1 = false -> printable s.2 -> read_line (sample_text s) = Some s.
Proof.
  destruct s as [series v]. cbn [fst snd]. intros Hc Hv. unfold read_line, sample_text. cbn [fst snd].
  assert (Hc' : is_comment (series ++ str " " ++ to_string v) = false) by (by destruct series).
  rewrite Hc'. change (str " " ++ to_string v) with (Byte.x20 :: to_string v).
  rewrite split_last_app.
  - cbn [mbind option_bind]. by rewrite read_value_to_string.
  - apply to_string_plain; [|done]. unfold is_digit. change (bval Byte.x20) with 32. lia.
Qed.

(** ** Reading a block and what follows it *)

Lemma scrape_header name help type rest :
  inline (str name) -> inline (str help) -> inline (str type) ->
  scrape (header name help type ++ rest) = scrape rest.
Proof. intros Hn Hh Ht. unfold scrape. by rewrite lines_header. Qed.

Lemma scrape_sample series v rest :
  inline series -> is_comment series = false -> printable v ->
  scrape (sample_line series v ++ rest) = (series, v) :: scrape rest.
Proof.
  intros Hs Hc Hv. unfold scrape. rewrite lines_sample by done. cbn [omap list_omap].
  by rewrite (read_sample (series, v)).
Qed.

Lemma scrape_gauge name help v rest :
  inline (str name) -> inline (str help) -> is_comment (str name) = false -> printable v ->
  scrape (append_gauge name help v ++ rest) = (str name, v) :: scrape rest.
Proof.
  intros Hn Hh Hc Hv. unfold append_gauge. rewrite <- app_assoc.
  rewrite scrape_header by (done || inline_const). by apply scrape_sample.
Qed.

Lemma typed_header name help type rest :
  inline (str name) -> inline (str help) -> inline (str type) -> Byte.x20 ∉ str type ->
  typed (header name help type ++ rest) = (str "# TYPE " ++ str name) :: typed rest.
Proof.
  intros Hn Hh Ht Hs. unfold typed. rewrite lines_header by done. cbn [omap list_omap].
  assert (E1 : read_type (help_line name help) = None) by done.
  assert (E2 : read_type (type_line name type) = Some (str "# TYPE " ++ str name)).
  { unfold read_type. rewrite bool_decide_true by done. unfold type_line.
    change (str " " ++ str type) with (Byte.x20 :: str type). rewrite app_assoc.
    by rewrite split_last_app. }
  by rewrite E1, E2.
Qed.

Lemma typed_sample series v rest :
  inline series -> is_comment series = false -> typed (sample_line series v ++ rest) = typed rest.
Proof.
  intros Hs Hc. unfold typed. rewrite lines_sample by done. cbn [omap list_omap].
  assert (E : read_type (sample_text (series, v)) = None); [|by rewrite E].
  unfold read_type. rewrite bool_decide_false; [done|]. unfold sample_text. cbn [fst snd].
  destruct series as [|b series]; [done|]. cbn in Hc. intros [= -> _]. done.
Qed.

(** ** The counters *)

Definition series_of (def : Def) : text := str (d_name def) ++ str (d_labels def).
Definition counter_samples (values : Counter -> Z) (defs : list Def) : list (text * Z) :=
  map (fun def => (series_of def, values (d_id def))) defs.

Definition def_ok (def : Def) : bool :=
  bool_decide (inline (str (d_name def))) && bool_decide (inline (str (d_labels def))) &&
  bool_decide (inline (str (d_help def))) && negb (is_comment (series_of def)).

Lemma kDefs_ok : forallb def_ok kDefs = true.
Proof. vm_compute. reflexivity. Qed.

Lemma scrape_defs values rest : (forall c, printable (values c)) -> forall defs prev,
  forallb def_ok defs = true ->
  scrape (render_defs prev values defs ++ rest) = counter_samples values defs ++ scrape rest.
Proof.
  intros Hv. induction defs as [|def defs IH]; intros prev Hok; [done|].
  cbn [forallb] in Hok. apply andb_prop in Hok as [Hd Hok]. unfold def_ok in Hd.
  rewrite !andb_true_iff, !bool_decide_eq_true, negb_true_iff in Hd. destruct Hd as [[[Hn Hl] Hh] Hc].
  cbn [render_defs counter_samples map app]. rewrite <- !app_assoc.
  assert (E : forall t, scrape ((if String.eqb prev (d_name def) then []
     else header (d_name def) (d_help def) "counter") ++ t) = scrape t).
  { intros t. destruct (String.eqb _ _); [done|]. apply scrape_header; done || inline_const. }
  rewrite E, scrape_sample; [|by apply inline_app|done|done]. f_equal. by apply IH.
Qed.

(** The metrics that get a header. *)
Fixpoint headed (prev : string) (defs : list Def) : list text :=
  match defs with
  | [] => []
  | def :: defs' =>
      if String.eqb prev (d_name def) then headed prev defs'
      else (str "# TYPE " ++ str (d_name def)) :: headed (d_name def) defs'
  end.

Lemma typed_defs values rest defs : forall prev,
  forallb def_ok defs = true ->
  typed (render_defs prev values defs ++ rest) = headed prev defs ++ typed rest.
Proof.
  induction defs as [|def defs IH]; intros prev Hok; [done|].
  cbn [forallb] in Hok. apply andb_prop in Hok as [Hd Hok]. unfold def_ok in Hd.
  rewrite !andb_true_iff, !bool_decide_eq_true, negb_true_iff in Hd. destruct Hd as [[[Hn Hl] Hh] Hc].
  cbn [render_defs headed app]. rewrite <- !app_assoc.
  destruct (String.eqb prev (d_name def)); cbn [app].
  - rewrite typed_sample; [by apply IH|by apply inline_app|done].
  - rewrite typed_header; [|done|done|inline_const|inline_const].
    rewrite typed_sample; [|by apply inline_app|done]. cbn [app]. f_equal. by apply IH.
Qed.

(** ** Gauges and series per connection *)

Lemma i64_printable z : printable (i64 z).
Proof. unfold printable, i64. pose proof (u64_range z). destruct (Z.ltb_spec (u64 z) (2 ^ 63)); lia. Qed.

Lemma conn_value_printable def c now : def ∈ kConnDefs -> printable (cd_value def c now).
Proof.
  intros Hd. unfold kConnDefs in Hd. repeat (apply elem_of_cons in Hd as [->|Hd]; [cbn [cd_value]|]);
    try apply i64_printable; [|by apply elem_of_nil in Hd].
  unfold printable. destruct (supports_extended_keepalives _); lia.
Qed.

Definition conn_def_ok (def : ConnDef) : bool :=
  bool_decide (inline (str (cd_name def))) && bool_decide (inline (str (cd_help def))) &&
  bool_decide (inline (str (cd_type def))) && negb (bool_decide (str (cd_name def) = [])) &&
  negb (is_comment (str (cd_name def))).

Lemma kConnDefs_ok : forallb conn_def_ok kConnDefs = true.
Proof. vm_compute. reflexivity. Qed.

Section Samples.
Context {os : OS} {ec : ExporterConfig}.

Definition build_info : text :=
  str ("srtla_build_info{version=" ++ quote ++ VERSION ++ quote ++ "}")%string.

Definition gauge_samples (now : Z) (w : world) : list (text * Z) :=
  [(build_info, 1);
   (str "srtla_start_time_seconds", start_time_);
   (str "srtla_groups", Zlength (groups w));
   (str "srtla_groups_established", Z.of_nat (length (List.filter established (groups w))));
   (str "srtla_connections", Zlength (concat (map connections (groups w))));
   (str "srtla_auth_sources_blocked", Z.of_nat (blocked_count now (limiter w)))].

Definition group_samples (def : ConnDef) (now : Z) (g : ConnectionGroup) : M (list (text * Z)) :=
  port ← group_port g;
  mret (map (fun conn => (conn_series (cd_name def) port conn, cd_value def conn now)) (connections g)).

(** The reference: the same samples, as values. *)
Definition samples (now : Z) : M (list (text * Z)) :=
  w ← get;
  let out := counter_samples (counters w) kDefs ++ gauge_samples now w in
  if negb detailed_ then mret out else
  conns ← mconcat (fun def => mconcat (group_samples def now) (groups w)) kConnDefs;
  mret (out ++ conns).

(** What the text format needs of the parts the program does not choose. *)
Class Inline := {
  inline_version : inline (str VERSION);
  inline_ntop family a : inline (inet_ntop family a);
  printable_start : printable start_time_
}.
Context {il : Inline}.

Lemma str_app s t : str (s ++ t)%string = str s ++ str t.
Proof.
  unfold str, list_byte_of_string. rewrite <- map_app. f_equal.
  induction s as [|a s IH]; [done|]. change (a :: list_ascii_of_string (s ++ t)%string =
    a :: (list_ascii_of_string s ++ list_ascii_of_string t)). by rewrite IH.
Qed.

Lemma inline_build_info : inline build_info.
Proof.
  unfold build_info. rewrite !str_app, !inline_app. split_and!; (apply inline_version || inline_const).
Qed.

Lemma inline_conn_series name port conn : inline (str name) -> inline (conn_series name port conn).
Proof.
  intros Hn. assert (Ha : inline (print_addr (address conn))).
  { unfold print_addr. destruct (_ =? _); [destruct (is_v4mapped _)|]; apply inline_ntop. }
  unfold conn_series, addr_label. rewrite !inline_app.
  split_and!; (done || apply inline_to_string || inline_const).
Qed.

(** The gauges that stay within 20 digits. *)
Record countable_state (now : Z) (w : world) : Prop := {
  cs_counters c : printable (counters w c);
  cs_groups : printable (Zlength (groups w));
  cs_conns : printable (Zlength (concat (map connections (groups w))));
  cs_blocked : printable (Z.of_nat (blocked_count now (limiter w)))
}.

Lemma established_printable now w :
  countable_state now w -> printable (Z.of_nat (length (List.filter established (groups w)))).
Proof.
  intros []. unfold printable, Zlength in *. pose proof (List.filter_length_le established (groups w)). lia.
Qed.

Lemma scrape_gauges now w rest :
  countable_state now w ->
  scrape (render_gauges now w ++ rest) = gauge_samples now w ++ scrape rest.
Proof.
  intros Hc. pose proof (established_printable _ _ Hc). destruct Hc.
  unfold render_gauges, gauge_samples. cbv zeta. rewrite <- !app_assoc. fold build_info.
  rewrite scrape_header by inline_const.
  rewrite scrape_sample; [|apply inline_build_info|reflexivity|done].
  pose proof printable_start.
  do 5 (rewrite scrape_gauge; [|inline_const|inline_const|reflexivity|assumption]). reflexivity.
Qed.

Lemma typed_gauges now w rest :
  typed (render_gauges now w ++ rest) =
  map (fun n => str "# TYPE " ++ str n)
    ["srtla_build_info"; "srtla_start_time_seconds"; "srtla_groups"; "srtla_groups_established";
     "srtla_connections"; "srtla_auth_sources_blocked"] ++ typed rest.
Proof.
  unfold render_gauges, append_gauge. cbv zeta. rewrite <- !app_assoc. fold build_info.
  rewrite typed_header by inline_const.
  rewrite typed_sample; [|apply inline_build_info|done].
  do 5 (rewrite typed_header; [|inline_const..]; rewrite typed_sample; [|inline_const|reflexivity]).
  reflexivity.
Qed.

(** A block of samples. *)
Lemma scrape_block (l : list (text * Z)) rest :
  Forall (fun s => inline s.1 /\ is_comment s.1 = false /\ printable s.2) l ->
  scrape (concat (map (fun s => sample_line s.1 s.2) l) ++ rest) = l ++ scrape rest.
Proof.
  induction 1 as [|[series v] l (Hi & Hc & Hv) _ IH]; [done|]. cbn [map concat fst snd app].
  rewrite <- app_assoc, scrape_sample by done. by rewrite IH.
Qed.

Lemma typed_block (l : list (text * Z)) rest :
  Forall (fun s => inline s.1 /\ is_comment s.1 = false /\ printable s.2) l ->
  typed (concat (map (fun s => sample_line s.1 s.2) l) ++ rest) = typed rest.
Proof.
  induction 1 as [|[series v] l (Hi & Hc & Hv) _ IH]; [done|]. cbn [map concat fst snd].
  by rewrite <- app_assoc, typed_sample.
Qed.

(** [m] prints, with the headers [hs], the samples that [r] gives, and both
    ask the same of the kernel. *)
Definition prints (hs : list text) (m : M text) (r : M (list (text * Z))) : Prop :=
  forall w, exists t l w', m w = Done t w' /\ r w = Done l w' /\
    forall rest, scrape (t ++ rest) = l ++ scrape rest /\ typed (t ++ rest) = hs ++ typed rest.

Lemma prints_mconcat {A} (hs : A -> list text) f r (l : list A) :
  (forall x, x ∈ l -> prints (hs x) (f x) (r x)) ->
  prints (concat (map hs l)) (mconcat f l) (mconcat r l).
Proof.
  induction l as [|x l IH]; intros Hl w; [by exists [], [], w|].
  destruct (Hl x ltac:(left) w) as (t & s & w1 & E1 & E2 & Hs).
  destruct (IH (fun y Hy => Hl y (list_elem_of_further _ _ _ Hy)) w1) as (t' & s' & w2 & E3 & E4 & Hs').
  exists (t ++ t'), (s ++ s'), w2. cbn [mconcat map concat]. unfold mbind, M_bind.
  rewrite E1, E2, E3, E4. split_and!; [done|done|]. intros rest. rewrite <- !app_assoc.
  split; [by rewrite (proj1 (Hs _)), (proj1 (Hs' _))|by rewrite (proj2 (Hs _)), (proj2 (Hs' _))].
Qed.

Lemma prints_group def now g :
  def ∈ kConnDefs -> prints [] (render_group def now g) (group_samples def now g).
Proof.
  intros Hd w. assert (Hok : conn_def_ok def = true).
  { apply (proj1 (forallb_forall _ _) kConnDefs_ok). by apply list_elem_of_In. }
  unfold conn_def_ok in Hok. rewrite !andb_true_iff, !bool_decide_eq_true, !negb_true_iff in Hok.
  destruct Hok as ((((Hn & _) & _) & He) & Hc). apply bool_decide_eq_false in He.
  assert (Hg : exists port w', group_port g w = Done port w').
  { unfold group_port. destruct (0 <=? _); [|by exists 0, w]. by eexists _, _. }
  destruct Hg as (port & w' & E).
  set (l := map (fun conn => (conn_series (cd_name def) port conn, cd_value def conn now)) (connections g)).
  exists (concat (map (fun s => sample_line s.1 s.2) l)), l, w'.
  unfold render_group, group_samples, mbind, M_bind. rewrite E. unfold mret, M_ret.
  split_and!; [|done|].
  { do 2 f_equal. unfold l. by rewrite map_map. }
  assert (Hl : Forall (fun s => inline s.1 /\ is_comment s.1 = false /\ printable s.2) l).
  { unfold l. apply Forall_fmap. apply Forall_forall. intros conn _. cbn. split_and!.
    - by apply inline_conn_series.
    - unfold conn_series. by destruct (str (cd_name def)).
    - by apply conn_value_printable. }
  intros rest. by rewrite scrape_block, typed_block.
Qed.

Lemma concat_nils {A B} (l : list A) : concat (map (fun _ => []) l) = ([] : list B).
Proof. by induction l. Qed.

Lemma prints_conns now gs :
  prints (concat (map (fun def => [str "# TYPE " ++ str (cd_name def)]) kConnDefs))
    (render_conns now gs) (mconcat (fun def => mconcat (group_samples def now) gs) kConnDefs).
Proof.
  unfold render_conns. apply prints_mconcat. intros def Hd w.
  destruct (prints_mconcat (fun _ => []) (render_group def now) (group_samples def now) gs
    (fun g _ => prints_group def now g Hd) w) as (t & l & w' & E1 & E2 & Hs).
  rewrite concat_nils in Hs. assert (Hok : conn_def_ok def = true).
  { apply (proj1 (forallb_forall _ _) kConnDefs_ok). by apply list_elem_of_In. }
  assert (Htype : Byte.x20 ∉ str (cd_type def)).
  { clear -Hd. unfold kConnDefs in Hd.
    repeat (apply elem_of_cons in Hd as [->|Hd]; [inline_const|]). by apply elem_of_nil in Hd. }
  unfold conn_def_ok in Hok. rewrite !andb_true_iff, !bool_decide_eq_true in Hok. destruct_and!.
  exists (header (cd_name def) (cd_help def) (cd_type def) ++ t), l, w'.
  unfold mbind, M_bind. rewrite E1. split_and!; [done|done|]. intros rest. rewrite <- app_assoc.
  rewrite scrape_header, typed_header by done. destruct (Hs rest) as [-> ->]. done.
Qed.

(** Every metric that gets a header. *)
Definition metrics : list text :=
  headed "" kDefs ++
  map (fun n => str "# TYPE " ++ str n)
    ["srtla_build_info"; "srtla_start_time_seconds"; "srtla_groups"; "srtla_groups_established";
     "srtla_connections"; "srtla_auth_sources_blocked"] ++
  if detailed_ then concat (map (fun def => [str "# TYPE " ++ str (cd_name def)]) kConnDefs) else [].

Lemma render_samples now w :
  countable_state now w ->
  exists body l w', render now w = Done body w' /\ samples now w = Done l w' /\
    scrape body = l /\ typed body = metrics.
Proof.
  intros Hc. unfold render, samples, metrics, get, mbind, M_bind.
  destruct detailed_; cbn [negb]; cbv beta iota zeta.
  - destruct (prints_conns now (groups w) w) as (t & l & w' & -> & -> & Hs).
    eexists _, _, w'. split_and!; [reflexivity|reflexivity|..].
    + rewrite <- !app_assoc, scrape_defs; [|apply Hc|apply kDefs_ok].
      rewrite scrape_gauges by done. do 2 f_equal. rewrite <- (app_nil_r t), (proj1 (Hs [])).
      apply app_nil_r.
    + rewrite <- !app_assoc, typed_defs by apply kDefs_ok. rewrite typed_gauges. do 2 f_equal.
      rewrite <- (app_nil_r t), (proj2 (Hs [])). apply app_nil_r.
  - eexists _, _, w. split_and!; [reflexivity|reflexivity|..].
    + rewrite scrape_defs; [|apply Hc|apply kDefs_ok]. f_equal.
      rewrite <- (app_nil_r (render_gauges now w)), scrape_gauges by done. apply app_nil_r.
    + rewrite typed_defs by apply kDefs_ok. f_equal.
      rewrite <- (app_nil_r (render_gauges now w)), typed_gauges. by rewrite app_nil_r.
Qed.
End Samples.
