(* ===== verification/Metrics.v ===== *)
(** * The published metrics

    The exporter (src/metrics/prometheus.cpp) on the states the receiver
    reaches: the accounts of groups balance, a scraper reads back the counters
    and gauges of the state, and every scrape is answered. *)

From Stdlib Require Import Strings.Ascii Strings.String Strings.Byte.
From stdpp Require Import list gmap.
From S2P Require Import Prelude Config Wire NetUtils NakDedup AuthRateLimiter Connection World.
From S2P Require Import Registry Quality SrtHandler SrtlaHandler Exporter MainLoop Hoare Invariant.
From S2P Require Import RegistryProofs QualityProofs HandlerProofs Scenario LoopProofs Accounts.
From S2P Require Import Exposition.

#[local] Open Scope list_scope.
#[local] Open Scope Z_scope.

(** ** Counts stay small *)

Lemma total_conns gs k : Forall (fun g => Zlength (connections g) <= k) gs ->
  Zlength (concat (map connections gs)) <= k * Zlength gs.
Proof.
  unfold Zlength. induction 1 as [|g gs Hg _ IH]; [cbn; lia|]. cbn [map concat length].
  rewrite length_app. lia.
Qed.

Lemma Done_inj {A} (a b : A) w w' : Done a w = Done b w' -> a = b /\ w = w'.
Proof. by intros [= -> ->]. Qed.

Section Metrics.
Context {os : OS} {hc : HandlerConfig} {ec : ExporterConfig}.

Lemma reachable_countable {so : StdinOpen} now w :
  reachable w -> printable (Z.of_nat (blocked_count now (limiter w))) -> countable_state now w.
Proof.
  intros Hr Hb. pose proof (acc_counters _ (reachable_accounted w Hr)) as Hc.
  destruct (reachable_inv w Hr) as [[Hs _ Hg _ _] _]. unfold MAX_GROUPS in Hs.
  pose proof (total_conns (groups w) MAX_CONNS_PER_GROUP) as Ht. unfold MAX_CONNS_PER_GROUP in Ht.
  assert (Hk : Zlength (concat (map connections (groups w))) <= 16 * Zlength (groups w)).
  { apply Ht. eapply Forall_impl; [exact Hg|]. intros g []. done. }
  pose proof (Zlength_nonneg (groups w)). pose proof (Zlength_nonneg (concat (map connections (groups w)))).
  split; unfold printable in *; [intros c; destruct (Hc c); lia|lia..].
Qed.

(** ** Headers and series *)

Lemma metrics_once : NoDup metrics.
Proof.
  unfold metrics. destruct detailed_; apply (bool_decide_unpack _); vm_compute; exact I.
Qed.

Lemma series_once : NoDup (map series_of kDefs).
Proof. apply (bool_decide_unpack _). vm_compute. exact I. Qed.

Lemma counter_listed c : exists def, def ∈ kDefs /\ d_id def = c.
Proof.
  assert (H : existsb (fun def => bool_decide (d_id def = c)) kDefs = true) by (by destruct c).
  apply existsb_exists in H as (def & Hin & E). exists def.
  split; [by apply list_elem_of_In|by apply bool_decide_eq_true in E].
Qed.

(** ** Scrapes *)

Definition sends_on (client : Z) (e : io) : Prop := if e is IoRespond fd _ _ then fd = client else False.

(** The bytes the kernel took. *)
Definition taken (e : io) : text := if e is IoRespond _ data ret then take (Z.to_nat ret) data else [].
Definition delivered (evs : list io) : text := concat (map taken evs).

(** Sends fail only because of a signal, and none comes from call [n] on. *)
Definition willing (client : Z) (n : nat) : Prop :=
  (forall t b, b <> [] -> (os_send t client b).1 <= 0 -> (os_send t client b).2 = EINTR) /\
  (forall t b, (n <= t)%nat -> b <> [] -> 0 < (os_send t client b).1).

Lemma send_response_run client n fuel : forall rest w,
  exists w' evs, send_response fuel client rest w = Done tt w' /\ trace w' = rev evs ++ trace w /\
    Forall (sends_on client) evs /\ delivered evs `prefix_of` rest /\ (calls w <= calls w')%nat /\
    (willing client n -> (n - calls w + length rest <= fuel)%nat -> delivered evs = rest).
Proof.
  induction fuel as [|fuel IH]; intros rest w.
  - exists w, []. split_and!; try done; [apply prefix_nil|]. intros _ Hf. destruct rest; [done|cbn in Hf; lia].
  - cbn [send_response]. destruct (bool_decide_reflect (rest = [])) as [->|Hne].
    { exists w, []. split_and!; done. }
    unfold respond, next_call, emit, modify, mbind, M_bind, mret, M_ret. cbv beta iota zeta.
    set (w1 := (w <| calls ::= S |>) <| trace ::= _ |>).
    destruct (os_send (calls w) client rest) as [ret err] eqn:E. cbn [fst snd] in w1.
    assert (Hone : delivered [IoRespond client rest ret] = take (Z.to_nat ret) rest) by apply app_nil_r.
    destruct (Z.leb_spec ret 0) as [Hle|Hgt].
    + assert (Hz : take (Z.to_nat ret) rest = []) by (by replace (Z.to_nat ret) with 0%nat by lia).
      destruct (Z.eqb_spec err EINTR) as [Hi|Hi].
      * destruct (IH rest w1) as (w' & evs & -> & Ht & Hs & Hp & Hcl & Hw).
        exists w', (IoRespond client rest ret :: evs). split_and!; [done| |by constructor|..].
        -- rewrite Ht. cbn [rev]. by rewrite <- app_assoc.
        -- change (delivered (_ :: evs)) with (take (Z.to_nat ret) rest ++ delivered evs). by rewrite Hz.
        -- cbn in Hcl. lia.
        -- intros Hwill Hf. change (delivered (_ :: evs)) with (take (Z.to_nat ret) rest ++ delivered evs).
           rewrite Hz. apply Hw; [done|]. cbn.
           destruct (decide (n <= calls w)%nat) as [Hge|]; [|lia].
           pose proof (proj2 Hwill (calls w) rest Hge Hne) as Hpos. rewrite E in Hpos. cbn in Hpos. lia.
      * exists w1, [IoRespond client rest ret]. split_and!; [done|done|by constructor| |cbn; lia|].
        -- rewrite Hone, Hz. apply prefix_nil.
        -- intros [Hwill _]. specialize (Hwill (calls w) rest Hne). rewrite E in Hwill. cbn in Hwill.
           by specialize (Hwill Hle).
    + destruct (IH (drop (Z.to_nat ret) rest) w1) as (w' & evs & -> & Ht & Hs & Hp & Hcl & Hw).
      assert (Hd : delivered (IoRespond client rest ret :: evs) = take (Z.to_nat ret) rest ++ delivered evs) by done.
      exists w', (IoRespond client rest ret :: evs). split_and!; [done| |by constructor|..].
      * rewrite Ht. cbn [rev]. by rewrite <- app_assoc.
      * rewrite Hd. rewrite <- (take_drop (Z.to_nat ret) rest) at 2. by apply prefix_app.
      * cbn in Hcl. lia.
      * intros Hwill Hf. rewrite Hd, Hw; [by apply take_drop|done|]. cbn. rewrite length_drop.
        destruct rest; [done|]. cbn in *. lia.
Qed.

Lemma send_response_state fuel client : forall rest w,
  match send_response fuel client rest w with
  | Done _ w' => groups w' = groups w /\ counters w' = counters w
  | Raised _ _ => True
  end.
Proof.
  induction fuel as [|fuel IH]; intros rest w; cbn [send_response]; [done|].
  destruct (bool_decide _); [done|]. unfold respond, next_call, emit, modify, mbind, M_bind, mret, M_ret.
  cbv beta iota zeta. destruct (os_send _ _ _) as [ret err]. set (w1 := _ <| trace ::= _ |>).
  destruct (ret <=? 0); [destruct (err =? EINTR); [|done]|]; exact (IH _ w1).
Qed.

(** A scrape that was answered: sends on its own socket, which deliver a
    prefix of the response, all of it when the kernel is willing and there
    are calls enough; then the socket is closed. *)
Definition answered (body : text) (n : nat) (scrape : Z * nat) (evs : list io) : Prop :=
  exists sends, evs = sends ++ [IoClose scrape.1] /\ Forall (sends_on scrape.1) sends /\
    delivered sends `prefix_of` http_response body /\
    (willing scrape.1 n -> (n + length (http_response body) <= scrape.2)%nat ->
     delivered sends = http_response body).

(** Code that only asks the kernel: the state and the trace stay. *)
Definition quiet_trace (w w' : world) : Prop :=
  trace w' = trace w /\ groups w' = groups w /\ counters w' = counters w.
Definition asks {A} (m : M A) : Prop := forall w, exists a w', m w = Done a w' /\ quiet_trace w w'.

Lemma asks_bind {A B} (m : M A) (k : A -> M B) : asks m -> (forall a, asks (k a)) -> asks (m ≫= k).
Proof.
  intros Hm Hk w. destruct (Hm w) as (a & w1 & E1 & T1 & G1 & C1). destruct (Hk a w1) as (b & w2 & E2 & T2 & G2 & C2).
  exists b, w2. unfold mbind, M_bind. rewrite E1. split; [done|]. unfold quiet_trace. split_and!; congruence.
Qed.
Lemma asks_ret {A} (a : A) : asks (mret a).
Proof. intros w. by exists a, w. Qed.
Lemma asks_mconcat {A B} (f : A -> M (list B)) l : (forall x, asks (f x)) -> asks (mconcat f l).
Proof.
  intros Hf. induction l as [|x l IH]; cbn [mconcat]; [apply asks_ret|].
  apply asks_bind; [done|]. intros out. apply asks_bind; [done|]. intros rest. apply asks_ret.
Qed.

Lemma asks_render now : asks (render now).
Proof.
  unfold render. apply asks_bind; [intros w; by exists w, w|]. intros w. cbv zeta.
  destruct (negb detailed_); [apply asks_ret|]. apply asks_bind; [|intros out; apply asks_ret].
  unfold render_conns. apply asks_mconcat. intros def. apply asks_bind; [|intros l; apply asks_ret].
  apply asks_mconcat. intros g. unfold render_group. apply asks_bind; [|intros l; apply asks_ret].
  unfold group_port. destruct (0 <=? srt_socket g); [|apply asks_ret]. intros w0. by eexists _, _.
Qed.

Lemma serve_run body n scrape w :
  exists w' evs, serve body scrape w = Done tt w' /\ trace w' = rev evs ++ trace w /\
    groups w' = groups w /\ counters w' = counters w /\ answered body n scrape evs.
Proof.
  destruct scrape as [client fuel]. unfold serve, recv, next_call, mbind, M_bind, mret, M_ret. cbv beta iota.
  set (w1 := w <| calls ::= S |>).
  destruct (send_response_run client n fuel (http_response body) w1) as (w2 & evs & E & Ht & Hs & Hp & _ & Hw).
  assert (Hg : groups w2 = groups w1 /\ counters w2 = counters w1).
  { pose proof (send_response_state fuel client (http_response body) w1) as H. rewrite E in H. exact H. }
  unfold mbind, M_bind in E. rewrite E. unfold close, next_call, emit, modify, mbind, M_bind. cbv beta iota.
  eexists _, (evs ++ [IoClose client]). split; [reflexivity|]. split_and!.
  - cbn. rewrite Ht, rev_app_distr. done.
  - apply Hg.
  - apply Hg.
  - exists evs. split_and!; try done. intros Hwill Hf. apply Hw; [done|]. cbn [snd] in Hf. lia.
Qed.

Lemma serve_all body n scrapes : forall w,
  exists w' segs, mfor scrapes (serve body) w = Done tt w' /\ trace w' = rev (concat segs) ++ trace w /\
    groups w' = groups w /\ counters w' = counters w /\ Forall2 (answered body n) scrapes segs.
Proof.
  induction scrapes as [|sc scrapes IH]; intros w; [by exists w, []|].
  destruct (serve_run body n sc w) as (w1 & evs & E1 & T1 & G1 & C1 & A1).
  destruct (IH w1) as (w2 & segs & E2 & T2 & G2 & C2 & A2). exists w2, (evs :: segs). split_and!.
  - cbn [mfor]. unfold mbind, M_bind. by rewrite E1.
  - rewrite T2, T1. cbn [concat]. by rewrite rev_app_distr, <- app_assoc.
  - congruence.
  - congruence.
  - by constructor.
Qed.

(** ** Properties *)

(** C33: the accounts of groups balance in every state the receiver reaches:
    the registrations counted are the removals counted, over all causes, and
    the groups that are there, modulo the width of the counters. *)
Theorem group_accounts_balance w :
  reachable w -> counters_ok w /\
  counters w GROUP_REGISTRATIONS =
    u64 (counters w GROUPS_REMOVED_IDLE + counters w GROUPS_REMOVED_AUTH +
         counters w GROUPS_REMOVED_SRT_ERROR + counters w GROUPS_REMOVED_EVICTED + Zlength (groups w)).
Proof.
  intros Hr. destruct (reachable_accounted w Hr) as [_ _ Hc Hb]. split; [done|]. rewrite Hb.
  unfold sum_of, removals, ptrs, Zlength. cbn [fold_right]. rewrite length_map. f_equal. lia.
Qed.

(** C34: what a scraper reads is what the receiver counted: with standard input
    open, version and addresses that print on one line ([Inline]) and fewer
    blocked hosts than [printable] allows, from the text the
    exporter renders in a reachable state it gets back every counter and
    gauge, with the value it has, in order, and nothing else; every metric
    has one TYPE line, every counter has a series, and no two counters share
    one. *)
Theorem exposition_exact {so : StdinOpen} {il : Inline} now w :
  reachable w -> printable (Z.of_nat (blocked_count now (limiter w))) ->
  exists body l w', render now w = Done body w' /\ samples now w = Done l w' /\
    scrape body = l /\ typed body = metrics /\ NoDup metrics /\ NoDup (map series_of kDefs) /\
    forall c, exists def, d_id def = c /\ (series_of def, counters w c) ∈ scrape body.
Proof.
  intros Hr Hb. destruct (render_samples now w (reachable_countable now w Hr Hb)) as (body & l & w' & E1 & E2 & Hs & Ht).
  exists body, l, w'. split_and!; [done|done|done|done|apply metrics_once|apply series_once|].
  intros c. destruct (counter_listed c) as (def & Hd & <-). exists def. split; [done|]. rewrite Hs.
  unfold samples, get, mbind, M_bind in E2.
  assert (Hin : (series_of def, counters w (d_id def)) ∈ counter_samples (counters w) kDefs).
  { by apply (list_elem_of_fmap_2 (fun def => (series_of def, counters w (d_id def)))). }
  destruct (negb detailed_); [|destruct (mconcat _ _ w) as [conns w1|]; [|discriminate E2]];
    apply Done_inj in E2 as [<- _]; rewrite !elem_of_app; tauto.
Qed.

(** C35: every scrape is answered and none disturbs the receiver: each client
    that was accepted is sent a prefix of the one response, all of it when
    sends fail only for signals and there are calls enough for them, and its
    socket is then closed; the registry and the counters are as before. *)
Theorem scrapes_answered scrapes n w :
  scrapes <> [] ->
  exists body w1 w' segs,
    render (default 0 (fst <$> os_clock_gettime (calls w))) (w <| calls ::= S |>) = Done body w1 /\
    exporter_handle_event scrapes w = Done tt w' /\
    trace w' = rev (concat segs) ++ trace w /\ Forall2 (answered body n) scrapes segs /\
    groups w' = groups w /\ counters w' = counters w.
Proof.
  intros Hne. set (now := default 0 _). set (w0 := w <| calls ::= S |>).
  destruct (asks_render now w0) as (body & w1 & E & T & G & C).
  destruct (serve_all body n scrapes w1) as (w' & segs & E' & T' & G' & C' & A).
  exists body, w1, w', segs. split_and!; [done| |by rewrite T', T|done|by rewrite G', G|by rewrite C', C].
  unfold exporter_handle_event. rewrite bool_decide_false by done.
  unfold get_seconds, next_call, mbind, M_bind, mret, M_ret. cbv beta iota. fold w0 now.
  unfold mbind, M_bind in *. by rewrite E.
Qed.
End Metrics.

(** ** Witnesses *)

Lemma sample_inline : @Inline sample_exporter.
Proof.
  split; [inline_const| |done]. intros family a. cbn [inet_ntop sample_exporter].
  induction a as [|b a IH]; [inline_const|]. cbn [map concat]. rewrite !inline_app.
  split_and!; [apply inline_to_string|inline_const|done].
Qed.

Lemma group_accounts_balance_witness :
  counters w_joined GROUP_REGISTRATIONS = 1 /\
  counters w_joined GROUP_REGISTRATIONS =
    u64 (counters w_joined GROUPS_REMOVED_IDLE + counters w_joined GROUPS_REMOVED_AUTH +
         counters w_joined GROUPS_REMOVED_SRT_ERROR + counters w_joined GROUPS_REMOVED_EVICTED +
         Zlength (groups w_joined)).
Proof.
  split; [vm_compute; reflexivity|].
  exact (proj2 (@group_accounts_balance os0 sample_cfg sample_exporter w_joined joined_reachable)).
Defined.

Lemma exposition_exact_witness :
  exists body l w', @render os0 sample_exporter 1000 w_joined = Done body w' /\
    @samples os0 sample_exporter 1000 w_joined = Done l w' /\ scrape body = l /\ typed body = @metrics sample_exporter.
Proof.
  destruct (@exposition_exact os0 sample_cfg sample_exporter (sample_stdin _ _ _) sample_inline 1000 w_joined
    joined_reachable) as (body & l & w' & E1 & E2 & E3 & E4 & _).
  - vm_compute. split; reflexivity.
  - exists body, l, w'. exact (conj E1 (conj E2 (conj E3 E4))).
Defined.

(** A kernel that takes every response whole. *)
Definition os_scraped : OS := sample_os 1000 send_all None.
Lemma scraped_willing : @willing os_scraped 9 0.
Proof.
  split; intros t b.
  - intros Hb Hle. exfalso. cbn in Hle. destruct b; [done|]. unfold Zlength in Hle. cbn in Hle. lia.
  - intros _ Hb. cbn. destruct b; [done|]. unfold Zlength. cbn. lia.
Qed.

Definition response_length (o : outcome text) : nat :=
  match o with Done body _ => length (http_response body) | Raised _ _ => 0 end.

Lemma scrapes_answered_witness :
  exists body w' sends,
    @exporter_handle_event os_scraped sample_exporter [(9, Z.to_nat 20000)] initial_world = Done tt w' /\
    trace w' = IoClose 9 :: rev sends /\ delivered sends = http_response body.
Proof.
  destruct (@scrapes_answered os_scraped sample_exporter [(9, Z.to_nat 20000)] 0 initial_world) as
    (body & w1 & w' & segs & Er & E & Ht & Ha & _); [done|].
  apply Forall2_cons_inv_l in Ha as (evs & rest & (sends & Es & _ & _ & Hd) & Hr & ->).
  apply Forall2_nil_inv_l in Hr as ->. exists body, w', sends. split; [exact E|]. split.
  - rewrite Ht. cbn [concat]. rewrite !app_nil_r, Es, rev_app_distr. reflexivity.
  - apply Hd; [exact scraped_willing|]. cbn [snd].
    apply (f_equal response_length) in Er. unfold response_length at 2 in Er. rewrite <- Er.
    apply Nat.leb_le. vm_compute. reflexivity.
Defined.
