(* ===== verification/Helpers.v ===== *)
(** * Two helpers that nothing calls

    [parse_port] of src/common.c, with the part of [strtol] it relies on, and
    [is_srt_handshake] of src/protocol/srt_handler.cpp. *)

From stdpp Require Import list.
From S2P Require Import Prelude Config Wire Exporter Exposition.

(** ** Ports *)

(** The characters [isspace] accepts in the C locale. *)
Definition isspace (b : byte) : bool := (bval b =? 32) || ((9 <=? bval b) && (bval b <=? 13)).
Definition isdigit (b : byte) : bool := (48 <=? bval b) && (bval b <=? 57).

Fixpoint skip_spaces (t : list byte) : list byte :=
  match t with b :: t' => if isspace b then skip_spaces t' else t | [] => [] end.
Fixpoint leading_digits (t : list byte) : list byte :=
  match t with b :: t' => if isdigit b then b :: leading_digits t' else [] | [] => [] end.

(** [strtol(s, NULL, 10)] on a 64-bit [long]: the value saturates. *)
Definition strtol (s : list byte) : Z :=
  let clamp z := Z.max (- 2 ^ 63) (Z.min (2 ^ 63 - 1) z) in
  match skip_spaces s with
  | Byte.x2d :: t => clamp (- read_digits (leading_digits t))
  | Byte.x2b :: t => clamp (read_digits (leading_digits t))
  | t => clamp (read_digits (leading_digits t))
  end.

(** The [long] is narrowed to [int] before the range is checked. *)
Definition parse_port (port_str : list byte) : Z :=
  let port := i32 (strtol port_str) in
  if (port <=? 0) || (65535 <? port) then -2 else port.

Lemma leading_digits_all t rest :
  Forall is_digit t -> leading_digits rest = [] -> leading_digits (t ++ rest) = t.
Proof.
  intros Ht Hr. induction Ht as [|b t Hb _ IH]; [done|]. cbn. unfold is_digit in Hb.
  assert (E : isdigit b = true) by (apply andb_true_iff; rewrite !Z.leb_le; lia). by rewrite E, IH.
Qed.

Lemma strtol_digits t rest :
  t <> [] -> Forall is_digit t -> leading_digits rest = [] -> read_digits t < 2 ^ 63 -> 0 <= read_digits t ->
  strtol (t ++ rest) = read_digits t.
Proof.
  intros Hne Ht Hr Hmax Hmin. pose proof (leading_digits_all t rest Ht Hr) as Hl.
  destruct t as [|b t]; [done|]. apply Forall_cons in Ht as [Hb _]. unfold is_digit in Hb. unfold strtol.
  assert (Hs : skip_spaces ((b :: t) ++ rest) = (b :: t) ++ rest).
  { cbn. assert (E : isspace b = false); [|by rewrite E].
    apply orb_false_iff. split; [apply Z.eqb_neq; lia|]. apply andb_false_iff. rewrite !Z.leb_gt. lia. }
  rewrite Hs. cbn [app]. destruct b; try (cbn in Hb; lia); change ((?x :: t) ++ rest) with (x :: t ++ rest) in Hl;
    rewrite Hl; lia.
Qed.

(** A port in decimal, whatever follows it, is read back when it is one;
    every other number is reduced modulo 2^32 before it is judged. *)
Lemma parse_port_decimal n rest :
  0 <= n < 2 ^ 63 -> leading_digits rest = [] ->
  parse_port (to_string n ++ rest) = if (i32 n <=? 0) || (65535 <? i32 n) then -2 else i32 n.
Proof.
  intros Hn Hr. unfold parse_port, to_string. rewrite (proj2 (Z.ltb_ge n 0)) by lia.
  pose proof (read_digits_digits 20 n ltac:(lia)) as E. rewrite strtol_digits.
  - by rewrite E.
  - cbn [digits]. case_match; [done|]. by intros [_ ?]%app_nil.
  - apply digits_digits. lia.
  - done.
  - rewrite E. lia.
  - rewrite E. lia.
Qed.
Lemma parse_port_valid n rest :
  1 <= n <= 65535 -> leading_digits rest = [] -> parse_port (to_string n ++ rest) = n.
Proof.
  intros Hn Hr. rewrite parse_port_decimal by (done || lia). rewrite i32_small by lia.
  destruct (Z.leb_spec n 0); [lia|]. destruct (Z.ltb_spec 65535 n); [lia|done].
Qed.

(** 4294967376 is taken for port 80. *)
Example parse_port_wraps : parse_port (to_string (2 ^ 32 + 80)) = 80.
Proof. reflexivity. Qed.

(** ** Handshakes *)

Definition is_srt_handshake (pkt : list byte) (n : Z) : bool :=
  if n <? 16 then false else (bval (at_ pkt 0) =? 0x80) && (bval (at_ pkt 1) =? 0x00).

(** It is the test of the packet type, on packets with a whole header; a
    rejected handshake passes it. *)
Lemma is_srt_handshake_type pkt n :
  is_srt_handshake pkt n = (16 <=? n) && (get_srt_type pkt n =? SRT_TYPE_HANDSHAKE).
Proof.
  unfold is_srt_handshake, get_srt_type, SRT_TYPE_HANDSHAKE. destruct (Z.ltb_spec n 16), (Z.leb_spec 16 n); try lia; try done.
  destruct (Z.ltb_spec n 2); [lia|]. rewrite be16_eq. pose proof (bval_range (at_ pkt 0)). pose proof (bval_range (at_ pkt 1)).
  apply eq_true_iff_eq. rewrite !andb_true_iff, !Z.eqb_eq. lia.
Qed.
Lemma reject_is_handshake pkt n : is_srt_handshake_reject pkt n = true -> is_srt_handshake pkt n = true.
Proof.
  rewrite is_srt_handshake_type. unfold is_srt_handshake_reject, SIZEOF_SRT_HANDSHAKE.
  destruct (Z.ltb_spec n 64); [done|]. destruct (get_srt_type pkt n =? SRT_TYPE_HANDSHAKE); [|done].
  intros _. apply andb_true_iff. rewrite Z.leb_le. split; [lia|done].
Qed.
