(* ===== verification/Startup.v ===== *)
(** * Start-up of the receiver

    [NetworkUtils::resolve_srt_address] (src/utils/network_utils.cpp),
    [Exporter::start] (src/metrics/prometheus.cpp) and [main] of
    src/receiver_main.cpp from the parsed arguments to its loop. *)

From stdpp Require Import list gmap.
From S2P Require Import Prelude Config Wire NetUtils AuthRateLimiter Connection World Registry.
From S2P Require Import SrtHandler Hoare Scenario.

(** The calls that only start-up makes. *)
Class StartOS := {
  st_getaddrinfo : nat -> option (list sockaddr_storage);
  st_epoll_create1 : nat -> Z;
  st_bind : nat -> Z -> Z;
  st_listen : nat -> Z -> Z;
  st_time : nat -> Z
}.

(** The handshake packet the probe sends: induction, version 4. *)
Definition hs_packet : list byte :=
  be16_bytes SRT_TYPE_HANDSHAKE ++ replicate 14 Byte.x00 ++ be32_bytes 4 ++ be16_bytes 0 ++ be16_bytes 2 ++
  replicate 12 Byte.x00 ++ be32_bytes 1 ++ replicate 24 Byte.x00.

Section Startup.
Context `{OS} `{StartOS}.

(** ** The address of the SRT server *)

(** Receive buffer, send buffer and receive timeout; each is set only when
    those before were. *)
Definition probe_options (sock : Z) : M bool :=
  rcvbuf ← setsockopt sock;
  if negb (rcvbuf =? 0) then mret false else
  sndbuf ← setsockopt sock;
  if negb (sndbuf =? 0) then mret false else
  timeout ← setsockopt sock;
  mret (timeout =? 0).

(** One turn of the loop: does an SRT server answer at this address?  The
    socket is closed in every case; after an answer the source closes it
    behind the loop, which ends there. *)
Definition probe (addr : sockaddr_storage) : M bool :=
  tmp_sock ← socket;
  if tmp_sock <? 0 then mret false else
  options_ok ← probe_options tmp_sock;
  if negb options_ok then close tmp_sock;; mret false else
  ret ← connect tmp_sock;
  if negb (ret =? 0) then close tmp_sock;; mret false else
  '(sent, _) ← send tmp_sock hs_packet;
  if negb (sent =? SIZEOF_SRT_HANDSHAKE) then close tmp_sock;; mret false else
  received ← recv tmp_sock;
  let ret := match received with Some buf => Zlength buf | None => -1 end in
  close tmp_sock;;
  mret (ret =? SIZEOF_SRT_HANDSHAKE).

(** The first address that answers. *)
Fixpoint probe_all (addrs : list sockaddr_storage) : M (option sockaddr_storage) :=
  match addrs with
  | [] => mret None
  | addr :: addrs' =>
      answered ← probe addr;
      if answered : bool then mret (Some addr) else probe_all addrs'
  end.

(** The copy of an address whose family is known. *)
Definition copy_first (addr : sockaddr_storage) : sockaddr_storage :=
  if ss_family addr =? AF_INET then addr
  else if ss_family addr =? AF_INET6 then addr else zero_addr.

(** 1 and the address that answered; 0 and the first address when none did;
    -1 when there is no address. *)
Definition resolve_srt_address : M (Z * sockaddr_storage) :=
  t ← next_call;
  match st_getaddrinfo t with
  | None => mret (-1, zero_addr)
  | Some srt_addrs =>
      found ← probe_all srt_addrs;
      match found, srt_addrs with
      | Some addr, _ => mret (1, addr)
      | None, addr :: _ => mret (0, copy_first addr)
      | None, [] => mret (-1, zero_addr)
      end
  end.

(** ** The exporter's listener *)

Definition bind (fd : Z) : M Z := t ← next_call; mret (st_bind t fd).
Definition listen (fd : Z) : M Z := t ← next_call; mret (st_listen t fd).

(** [epoll_add] of a descriptor that belongs to no group. *)
Definition epoll_register (fd : Z) : M Z := t ← next_call; mret (os_epoll_ctl t fd).

(** [bind], [listen], [fcntl] and [epoll_add], each only when those before
    succeeded. *)
Definition listening (fd flags : Z) : M bool :=
  ret ← bind fd;
  if negb (ret =? 0) then mret false else
  ret ← listen fd;
  if negb (ret =? 0) then mret false else
  if flags =? -1 then mret false else
  ret ← fcntl_setfl fd;
  if ret =? -1 then mret false else
  ret ← epoll_register fd;
  mret (ret =? 0).

(** The start time, and the listening socket if there is one. *)
Definition exporter_start (port : Z) : M (Z * option Z) :=
  t ← next_call;
  let start_time := st_time t in
  if port =? 0 then mret (start_time, None) else
  t ← next_call;
  match st_getaddrinfo t with
  | Some (res :: _) =>
      fd ← socket;
      if fd <? 0 then mret (start_time, None) else
      setsockopt fd;;
      when (ss_family res =? AF_INET6) (setsockopt fd;; skip);;
      flags ← fcntl_getfl fd;
      ok ← listening fd flags;
      if negb ok then close fd;; mret (start_time, None)
      else mret (start_time, Some fd)
  | _ => mret (start_time, None)
  end.

(** ** [main] *)

(** What the loop runs with. *)
Record started := mkStarted {
  s_srt_addr : sockaddr_storage;
  s_epoll : Z;
  s_srtla_sock : Z;
  s_start_time : Z;
  s_metrics : option Z
}.

(** [set_socket_buffers]: [false] when it throws. *)
Definition set_socket_buffers (fd : Z) : M bool :=
  rcvbuf ← setsockopt fd;
  if negb (rcvbuf =? 0) then mret false else
  sndbuf ← setsockopt fd;
  mret (sndbuf =? 0).

(** [None] is [return EXIT_FAILURE]. *)
Definition receiver_start (metrics_port : Z) : M (option started) :=
  '(resolve_result, srt_addr) ← resolve_srt_address;
  if resolve_result <? 0 then mret None else
  t ← next_call;
  let epoll_fd := st_epoll_create1 t in
  if epoll_fd <? 0 then mret None else
  srtla_sock ← socket;
  if srtla_sock <? 0 then mret None else
  v6only ← setsockopt srtla_sock;
  if v6only <? 0 then mret None else
  buffers ← set_socket_buffers srtla_sock;
  if negb buffers then mret None else
  flags ← fcntl_getfl srtla_sock;
  if flags =? -1 then mret None else
  setfl ← fcntl_setfl srtla_sock;
  if setfl =? -1 then mret None else
  bound ← bind srtla_sock;
  if bound <? 0 then mret None else
  added ← epoll_register srtla_sock;
  if negb (added =? 0) then mret None else
  '(start_time, listen_fd) ← exporter_start metrics_port;
  mret (Some (mkStarted srt_addr epoll_fd srtla_sock start_time listen_fd)).

(** ** What start-up leaves behind *)

(** The descriptors opened and closed, in order. *)
Definition opens (e : io) : option Z :=
  match e with IoSocket fd => if 0 <=? fd then Some fd else None | _ => None end.
Definition closes (e : io) : option Z := match e with IoClose fd => Some fd | _ => None end.

(** A step that leaves the state of the receiver alone and closes what it
    opens. *)
Definition tidy (w w' : world) : Prop :=
  groups w' = groups w /\ limiter w' = limiter w /\ counters w' = counters w /\
  (epoll_set w = [] -> epoll_set w' = []) /\
  exists evs, trace w' = rev evs ++ trace w /\ omap opens evs = omap closes evs.

#[export] Instance tidy_preorder : PreOrder tidy.
Proof.
  split.
  - intros w. split_and!; try done. by exists [].
  - intros w1 w2 w3 (G1 & L1 & C1 & E1 & evs1 & T1 & O1) (G2 & L2 & C2 & E2 & evs2 & T2 & O2).
    split_and!; [congruence|congruence|congruence|auto|]. exists (evs1 ++ evs2).
    rewrite T2, T1, rev_app_distr, app_assoc. split; [done|]. rewrite !omap_app. congruence.
Qed.

(** An SRT server answers the probe whose first call is number [n]: the socket
    opens, takes its options and connects, the handshake is sent whole, and a
    packet of the handshake's size comes back. *)
Definition answers (n : nat) : bool :=
  let fd := os_socket n in
  negb (fd <? 0) && (os_setsockopt (S n) fd =? 0) && (os_setsockopt (S (S n)) fd =? 0) &&
  (os_setsockopt (S (S (S n))) fd =? 0) && (os_connect (S (S (S (S n)))) fd =? 0) &&
  ((os_send (S (S (S (S (S n))))) fd hs_packet).1 =? SIZEOF_SRT_HANDSHAKE) &&
  (default (-1) ((fun buf => Zlength (take (Z.to_nat MTU) buf)) <$> os_recv (S (S (S (S (S (S n)))))) fd)
     =? SIZEOF_SRT_HANDSHAKE).

(** The calls such a probe makes: up to the first that fails, and the close. *)
Definition probe_calls (n : nat) : nat :=
  let fd := os_socket n in
  if fd <? 0 then 1 else
  if negb (os_setsockopt (S n) fd =? 0) then 3 else
  if negb (os_setsockopt (S (S n)) fd =? 0) then 4 else
  if negb (os_setsockopt (S (S (S n))) fd =? 0) then 5 else
  if negb (os_connect (S (S (S (S n)))) fd =? 0) then 6 else
  if negb ((os_send (S (S (S (S (S n))))) fd hs_packet).1 =? SIZEOF_SRT_HANDSHAKE) then 7 else 8.

(** The first address that answers, probing from call [n] on, and the number
    of the next call. *)
Fixpoint first_answer (addrs : list sockaddr_storage) (n : nat) : option sockaddr_storage * nat :=
  match addrs with
  | [] => (None, n)
  | a :: addrs' => if answers n then (Some a, n + probe_calls n)%nat else first_answer addrs' (n + probe_calls n)%nat
  end.

(** What becomes of the name of the server when the resolution starts at call
    [n]: the address found, with 1 when it answers and 0 when it is only the
    first of several that do not, [None] when there is none; and the number
    of the next call. *)
Definition resolved (n : nat) : option (Z * sockaddr_storage) * nat :=
  match st_getaddrinfo n with
  | None => (None, S n)
  | Some addrs =>
      let '(found, n') := first_answer addrs (S n) in
      (match found, addrs with
       | Some a, _ => Some (1, a)
       | None, first :: _ => Some (0, copy_first first)
       | None, [] => None
       end, n')
  end.

Lemma tidy_intro evs w w' :
  groups w' = groups w -> limiter w' = limiter w -> counters w' = counters w ->
  (epoll_set w = [] -> epoll_set w' = []) -> trace w' = rev evs ++ trace w ->
  omap opens evs = omap closes evs -> tidy w w'.
Proof. intros. split_and!; try done. by exists evs. Qed.

(** A comparison of [probe], and a step after which the socket is closed. *)
Ltac test a v :=
  match goal with
  | |- context [negb (?t =? v)] => change (t =? v) with (a =? v); destruct (a =? v)
  end; cbn [negb andb]; cbv beta iota.
Ltac fails Hfail sends :=
  eexists; split; [reflexivity|]; split; [apply (Hfail _ sends); (done || by intros Ee; cbn; rewrite Ee)|cbn; lia].

Lemma probe_run addr w :
  exists w', probe addr w = Done (answers (calls w)) w' /\ tidy w w' /\
    calls w' = (calls w + probe_calls (calls w))%nat.
Proof.
  unfold probe, probe_options, socket, setsockopt, connect, send, recv, close, emit, next_call, modify,
    mbind, M_bind, mret, M_ret, answers, probe_calls. cbv beta iota zeta. set (fd := os_socket (calls w)).
  destruct (Z.ltb_spec fd 0) as [Hfd|Hfd]; cbn [negb andb]; cbv beta iota.
  { eexists. split; [reflexivity|]. split; [|cbn; lia]. apply (tidy_intro [IoSocket fd]); try done.
    cbn. by rewrite (proj2 (Z.leb_gt 0 fd)). }
  assert (Hfail : forall w' sends, groups w' = groups w -> limiter w' = limiter w ->
    counters w' = counters w -> (epoll_set w = [] -> epoll_set w' = []) ->
    trace w' = IoClose fd :: rev sends ++ IoSocket fd :: trace w -> omap opens sends = [] -> omap closes sends = [] ->
    tidy w w').
  { intros w' sends ? ? ? ? Ht E1 E2. apply (tidy_intro (IoSocket fd :: sends ++ [IoClose fd])); try done.
    - rewrite Ht. cbn [rev]. rewrite rev_app_distr. cbn. by rewrite <- app_assoc.
    - cbn [omap list_omap opens closes]. by rewrite (proj2 (Z.leb_le 0 fd) Hfd), !omap_app, E1, E2. }
  test (os_setsockopt (S (calls w)) fd) 0; [|fails Hfail (@nil io)].
  test (os_setsockopt (S (S (calls w))) fd) 0; [|fails Hfail (@nil io)].
  test (os_setsockopt (S (S (S (calls w)))) fd) 0; [|fails Hfail (@nil io)].
  test (os_connect (S (S (S (S (calls w))))) fd) 0; [|fails Hfail (@nil io)].
  match goal with
  | |- context [let '(_, _) := os_send ?n fd hs_packet in _] => change n with (S (S (S (S (S (calls w))))))
  end.
  destruct (os_send (S (S (S (S (S (calls w)))))) fd hs_packet) as [sent err]. cbn [fst].
  test sent SIZEOF_SRT_HANDSHAKE; [|fails Hfail [IoSend fd hs_packet sent]].
  match goal with
  | |- context [os_recv ?n fd] => change (os_recv n fd) with (os_recv (S (S (S (S (S (S (calls w))))))) fd)
  end.
  destruct (os_recv _ fd) as [buf|]; fails Hfail [IoSend fd hs_packet sent].
Qed.

Lemma probe_all_run addrs : forall w,
  exists w', probe_all addrs w = Done (first_answer addrs (calls w)).1 w' /\ tidy w w' /\
    calls w' = (first_answer addrs (calls w)).2.
Proof.
  induction addrs as [|a addrs IH]; intros w; cbn [probe_all first_answer]; [by exists w|].
  destruct (probe_run a w) as (w1 & E & Ht & Hn). unfold mbind, M_bind. rewrite E.
  destruct (answers (calls w)); [by exists w1|].
  destruct (IH w1) as (w2 & -> & Ht2 & Hn2). exists w2. rewrite <- Hn. split_and!; [done|by transitivity w1|done].
Qed.

Lemma resolve_run w :
  exists w', tidy w w' /\ calls w' = (resolved (calls w)).2 /\
    resolve_srt_address w = Done (default (-1, zero_addr) (resolved (calls w)).1) w'.
Proof.
  set (w0 := w <| calls ::= S |>). assert (T0 : tidy w w0) by (by apply (tidy_intro [])).
  unfold resolve_srt_address, resolved, next_call, mbind, M_bind. cbv beta iota. fold w0.
  destruct (st_getaddrinfo (calls w)) as [addrs|]; [|by exists w0].
  destruct (probe_all_run addrs w0) as (w' & E & Ht & Hn). rewrite E.
  change (calls w0) with (S (calls w)) in Hn |- *. destruct (first_answer addrs (S (calls w))) as [found n'].
  exists w'. cbn [fst snd] in *. split; [by transitivity w0|]. split; [done|]. by destruct found, addrs.
Qed.

(** ** Descriptors that stay open *)

(** The state of the receiver is left alone, and of the descriptors opened
    exactly [fds] were not closed. *)
Definition leaves (fds : list Z) (w w' : world) : Prop :=
  groups w' = groups w /\ limiter w' = limiter w /\ counters w' = counters w /\
  (epoll_set w = [] -> epoll_set w' = []) /\
  exists evs, trace w' = rev evs ++ trace w /\ omap opens evs ≡ₚ omap closes evs ++ fds.

Lemma tidy_leaves w w' : tidy w w' -> leaves [] w w'.
Proof.
  intros (G & L & C & E & evs & T & O). split_and!; try done. exists evs. split; [done|]. by rewrite O, app_nil_r.
Qed.

Lemma leaves_trans f1 f2 w1 w2 w3 : leaves f1 w1 w2 -> leaves f2 w2 w3 -> leaves (f1 ++ f2) w1 w3.
Proof.
  intros (G1 & L1 & C1 & E1 & evs1 & T1 & O1) (G2 & L2 & C2 & E2 & evs2 & T2 & O2).
  split_and!; [congruence|congruence|congruence|auto|]. exists (evs1 ++ evs2).
  rewrite T2, T1, rev_app_distr, app_assoc. split; [done|]. rewrite !omap_app, O1, O2. solve_Permutation.
Qed.

(** [m], run with the descriptors [f0] open, returns; [Q] relates its result
    and the descriptors open then. *)
Definition yields (f0 : list Z) {A} (m : M A) (Q : A -> list Z -> Prop) : Prop :=
  forall w0 w, leaves f0 w0 w -> exists a w' fds, m w = Done a w' /\ leaves fds w0 w' /\ Q a fds.

Lemma yields_ret f0 {A} (a : A) (Q : A -> list Z -> Prop) : Q a f0 -> yields f0 (mret a) Q.
Proof. intros HQ w0 w Hl. by exists a, w, f0. Qed.
Lemma yields_bind f0 {A B} (m : M A) (k : A -> M B) Q1 Q :
  yields f0 m Q1 -> (forall a fds, Q1 a fds -> yields fds (k a) Q) -> yields f0 (m ≫= k) Q.
Proof.
  intros Hm Hk w0 w Hl. destruct (Hm w0 w Hl) as (a & w1 & f1 & E1 & L1 & Q1a).
  destruct (Hk a f1 Q1a w0 w1 L1) as (b & w2 & f2 & E2 & L2 & Q2).
  exists b, w2, f2. unfold mbind, M_bind. by rewrite E1.
Qed.
Lemma yields_if f0 {A} (b : bool) (m1 m2 : M A) Q :
  (b = true -> yields f0 m1 Q) -> (b = false -> yields f0 m2 Q) -> yields f0 (if b then m1 else m2) Q.
Proof. destruct b; auto. Qed.

(** Calls that close what they open. *)
Class Plain {A} (m : M A) : Prop := plain : forall w, exists a w', m w = Done a w' /\ leaves [] w w'.

Lemma yields_plain f0 {A B} (m : M A) `{!Plain m} (k : A -> M B) Q :
  (forall a, yields f0 (k a) Q) -> yields f0 (m ≫= k) Q.
Proof.
  intros Hk. apply (yields_bind _ _ _ (fun _ fds => fds = f0)); [|by intros a fds ->].
  intros w0 w Hl. destruct (plain w) as (a & w' & E & L). exists a, w', f0. split_and!; [done| |done].
  rewrite <- (app_nil_r f0). by eapply leaves_trans.
Qed.

#[local] Instance plain_ret {A} (a : A) : Plain (mret a).
Proof. intros w. eexists _, _. split; [done|]. by apply tidy_leaves. Qed.
#[local] Instance plain_bind {A B} (m : M A) (k : A -> M B) : Plain m -> (forall a, Plain (k a)) -> Plain (m ≫= k).
Proof.
  intros Hm Hk w. destruct (Hm w) as (a & w1 & E1 & L1). destruct (Hk a w1) as (b & w2 & E2 & L2).
  exists b, w2. unfold mbind, M_bind. rewrite E1. split; [done|]. by apply (leaves_trans [] [] w w1).
Qed.
#[local] Instance plain_if {A} (b : bool) (m1 m2 : M A) : Plain m1 -> Plain m2 -> Plain (if b then m1 else m2).
Proof. by destruct b. Qed.
#[local] Instance plain_when b m : Plain m -> Plain (when b m).
Proof. destruct b; [done|]. intros _. apply plain_ret. Qed.
#[local] Instance plain_next_call : Plain next_call.
Proof. intros w. eexists _, _. split; [done|]. by apply tidy_leaves, (tidy_intro []). Qed.
#[local] Instance plain_resolve : Plain resolve_srt_address.
Proof.
  intros w. destruct (resolve_run w) as (w' & T & _ & ->). eexists _, w'. split; [done|]. by apply tidy_leaves.
Qed.

Lemma yields_socket f0 {A} (k : Z -> M A) Q :
  (forall fd, yields (f0 ++ if 0 <=? fd then [fd] else []) (k fd) Q) -> yields f0 (socket ≫= k) Q.
Proof.
  intros Hk. apply (yields_bind _ _ _ (fun fd fds => fds = f0 ++ if 0 <=? fd then [fd] else [])); [|by intros a fds ->].
  intros w0 w Hl. unfold socket, next_call, emit, modify, mbind, M_bind, mret, M_ret. cbv beta iota zeta.
  set (fd := os_socket (calls w)). eexists fd, _, _. split_and!; [reflexivity| |reflexivity].
  eapply leaves_trans; [exact Hl|]. split_and!; try done. exists [IoSocket fd]. split; [done|].
  cbn [omap list_omap opens closes]. by destruct (0 <=? fd).
Qed.
Lemma yields_close f0 fd {A} (m : M A) Q : yields f0 m Q -> yields (f0 ++ [fd]) (close fd;; m) Q.
Proof.
  intros Hm. apply (yields_bind _ _ _ (fun _ fds => fds = f0)); [|by intros [] fds ->].
  intros w0 w (G & L & C & E & evs & T & O). eexists tt, _, f0. split_and!; [reflexivity| |done].
  split_and!; try done.
  - intros Ee. cbn. by rewrite (E Ee).
  - exists (evs ++ [IoClose fd]). cbn. rewrite T, rev_app_distr. split; [done|].
    rewrite !omap_app, O. cbn. rewrite app_nil_r. solve_Permutation.
Qed.

#[local] Instance plain_setsockopt fd : Plain (setsockopt fd).
Proof. unfold setsockopt. apply _. Qed.
#[local] Instance plain_fcntl_getfl fd : Plain (fcntl_getfl fd).
Proof. unfold fcntl_getfl. apply _. Qed.
#[local] Instance plain_fcntl_setfl fd : Plain (fcntl_setfl fd).
Proof. unfold fcntl_setfl. apply _. Qed.
#[local] Instance plain_bind_call fd : Plain (bind fd).
Proof. unfold bind. apply _. Qed.
#[local] Instance plain_epoll_register fd : Plain (epoll_register fd).
Proof. unfold epoll_register. apply _. Qed.
#[local] Instance plain_listening fd flags : Plain (listening fd flags).
Proof. unfold listening, listen. apply _. Qed.
#[local] Instance plain_set_socket_buffers fd : Plain (set_socket_buffers fd).
Proof. unfold set_socket_buffers. apply _. Qed.

(** The descriptors of a result. *)
Definition fd_list (o : option Z) : list Z := if o is Some fd then [fd] else [].

Lemma yields_exporter_start f0 port :
  yields f0 (exporter_start port) (fun r fds => fds = f0 ++ fd_list r.2 /\ (port = 0 -> r.2 = None)).
Proof.
  unfold exporter_start. apply yields_plain; [apply _|]. intros t. cbv zeta.
  apply yields_if; intros Hp; [apply yields_ret; cbn [snd fd_list]; by rewrite app_nil_r|]. apply Z.eqb_neq in Hp.
  apply yields_plain; [apply _|]. intros t'.
  destruct (st_getaddrinfo t') as [[|res addrs]|]; [apply yields_ret; cbn [snd fd_list]; by rewrite app_nil_r| |apply yields_ret; cbn [snd fd_list]; by rewrite app_nil_r].
  apply yields_socket. intros fd. rewrite Z.leb_antisym.
  destruct (fd <? 0); cbn [negb]; [apply yields_ret; cbn [snd fd_list]; by rewrite app_nil_r|].
  do 3 (apply yields_plain; [apply _|]; intros ?). apply yields_plain; [apply _|]. intros ok.
  destruct ok; cbn [negb]; [by apply yields_ret|]. apply yields_close, yields_ret. cbn [snd fd_list]. by rewrite app_nil_r.
Qed.

Lemma yields_receiver_start port :
  yields [] (receiver_start port) (fun o fds =>
    if o is Some st then fds = s_srtla_sock st :: fd_list (s_metrics st) /\ 0 <= s_srtla_sock st /\
                         0 <= s_epoll st /\ (port = 0 -> s_metrics st = None) else True).
Proof.
  unfold receiver_start. apply yields_plain; [apply _|]. intros [r srt_addr].
  apply yields_if; intros _; [by apply yields_ret|]. apply yields_plain; [apply _|]. intros t. cbv zeta.
  apply yields_if; intros Hep; [by apply yields_ret|]. apply Z.ltb_ge in Hep.
  apply yields_socket. intros sock. apply yields_if; intros Hs; [by apply yields_ret|].
  rewrite Z.leb_antisym, Hs. cbn [negb app]. apply Z.ltb_ge in Hs.
  do 6 (apply yields_plain; [apply _|]; intros ?; apply yields_if; intros _; [by apply yields_ret|]).
  eapply yields_bind; [apply yields_exporter_start|]. intros [start_time m] fds [-> Hm].
  apply yields_ret. by split_and!.
Qed.

(** ** Properties *)

(** From call [n] on, the kernel gives the epoll and an SRTLA socket that takes
    its options and its buffers, becomes non-blocking, is bound to the port and
    is registered. *)
Definition ready (n : nat) : bool :=
  let fd := os_socket (S n) in
  negb (st_epoll_create1 n <? 0) && negb (fd <? 0) && negb (os_setsockopt (S (S n)) fd <? 0) &&
  (os_setsockopt (S (S (S n))) fd =? 0) && (os_setsockopt (S (S (S (S n)))) fd =? 0) &&
  negb (os_fcntl_getfl (S (S (S (S (S n))))) fd =? -1) && negb (os_fcntl_setfl (S (S (S (S (S (S n)))))) fd =? -1) &&
  negb (st_bind (S (S (S (S (S (S (S n))))))) fd <? 0) &&
  (os_epoll_ctl (S (S (S (S (S (S (S (S n)))))))) fd =? 0).

(** A test of [receiver_start] on what a later call answers. *)
Ltac gate t b :=
  match goal with |- context [(if ?c then _ else _) _] => change c with t end;
  destruct b; cbn [negb andb]; cbv beta iota; try by eexists _, _.

Lemma receiver_start_run port w :
  exists o w', receiver_start port w = Done o w' /\
    match (resolved (calls w)).1 with
    | Some (_, a) =>
        let n := (resolved (calls w)).2 in
        if ready n then exists t m, o = Some (mkStarted a (st_epoll_create1 n) (os_socket (S n)) t m) else o = None
    | None => o = None
    end.
Proof.
  unfold receiver_start. destruct (resolve_run w) as (w1 & _ & Hn & E). rewrite (bind_done _ _ _ _ _ E).
  assert (Hr : match (resolved (calls w)).1 with Some (r, _) => 0 <= r | None => True end).
  { unfold resolved. destruct (st_getaddrinfo _) as [addrs|]; [|done].
    destruct (first_answer addrs _) as [[a|] n']; [done|]. by destruct addrs. }
  destruct (resolved (calls w)) as [[[r a]|] n]; cbn [fst snd from_option id] in *; [|by eexists _, _].
  cbv beta iota. rewrite (proj2 (Z.ltb_ge r 0) Hr). cbv zeta. subst n.
  unfold ready, set_socket_buffers, bind, epoll_register, socket, setsockopt, fcntl_getfl, fcntl_setfl, emit, next_call,
    modify, mbind, M_bind, mret, M_ret. cbv beta iota zeta. set (k := calls w1).
  set (ep := st_epoll_create1 k). destruct (ep <? 0); cbn [negb andb]; cbv beta iota; [by eexists _, _|].
  change (os_socket (calls (w1 <| calls ::= S |>))) with (os_socket (S k)). set (fd := os_socket (S k)).
  destruct (fd <? 0); cbn [negb andb]; cbv beta iota; [by eexists _, _|].
  gate (os_setsockopt (S (S k)) fd <? 0) (os_setsockopt (S (S k)) fd <? 0).
  gate (negb (os_setsockopt (S (S (S k))) fd =? 0)) (os_setsockopt (S (S (S k))) fd =? 0).
  gate (negb (os_setsockopt (S (S (S (S k)))) fd =? 0)) (os_setsockopt (S (S (S (S k)))) fd =? 0).
  gate (os_fcntl_getfl (S (S (S (S (S k))))) fd =? -1) (os_fcntl_getfl (S (S (S (S (S k))))) fd =? -1).
  gate (os_fcntl_setfl (S (S (S (S (S (S k)))))) fd =? -1) (os_fcntl_setfl (S (S (S (S (S (S k)))))) fd =? -1).
  gate (st_bind (S (S (S (S (S (S (S k))))))) fd <? 0) (st_bind (S (S (S (S (S (S (S k))))))) fd <? 0).
  gate (negb (os_epoll_ctl (S (S (S (S (S (S (S (S k)))))))) fd =? 0)) (os_epoll_ctl (S (S (S (S (S (S (S (S k)))))))) fd =? 0).
  match goal with |- context [exporter_start port ?v] =>
    destruct (yields_exporter_start [] port v v) as ([t m] & w2 & fds & -> & _); [by apply tidy_leaves|] end.
  eexists _, _. split; [reflexivity|]. by exists t, m.
Qed.


(** Start-up returns. *)
Lemma startup_returns port w : exists o w', receiver_start port w = Done o w'.
Proof.
  destruct (yields_receiver_start port w w) as (o & w' & fds & E & _); [by apply tidy_leaves|]. by exists o, w'.
Qed.
End Startup.

(** ** Witness: the second of two addresses answers *)

Definition os_start : OS := {|
  os_sendto _ _ b := Zlength b; os_sendmmsg _ d _ := Zlength d;
  os_send n _ b := if (n <? 8)%nat then (-1, ECONNREFUSED) else (Zlength b, 0);
  os_recv _ _ := Some (replicate 64 Byte.x00);
  os_socket _ := 7; os_setsockopt _ _ := 0; os_fcntl_getfl _ _ := 0; os_fcntl_setfl _ _ := 0;
  os_connect _ _ := 0; os_epoll_ctl _ _ := 0; os_getsockname _ _ := None; os_clock_gettime _ := Some (1000, 0);
  os_open_file _ := true; os_urandom_open _ := true; os_urandom_read _ size := replicate (Z.to_nat size) Byte.x00
|}.
Definition start_sample : StartOS := {|
  st_getaddrinfo _ := Some [loopback 4001; loopback 4002];
  st_epoll_create1 _ := 3; st_bind _ _ := 0; st_listen _ _ := 0; st_time _ := 1700000000
|}.

(** The first address fails at its send, the second answers. *)
Example sample_resolved : @resolved os_start start_sample 0 = (Some (1, loopback 4002), 16%nat).
Proof. vm_compute. reflexivity. Qed.

(** The receiver starts on this kernel. *)
Lemma sample_starts : result_of (@receiver_start os_start start_sample 9997 initial_world) =
  Some (Some (mkStarted (loopback 4002) 3 7 1700000000 (Some 7))).
Proof. vm_compute. reflexivity. Qed.
