(* ===== verification/Registration.v ===== *)
(** * Registration of groups and connections

    REG1 and REG2 (src/protocol/srtla_handler.cpp) against a specification of
    their verdicts: which counter a refusal is charged to, what is sent, what
    the table becomes; and the handshake they form together. *)

From stdpp Require Import list gmap.
From S2P Require Import Prelude Config Wire NetUtils NakDedup AuthRateLimiter Connection World.
From S2P Require Import Registry Quality SrtHandler SrtlaHandler Exporter MainLoop Hoare Invariant.
From S2P Require Import RegistryProofs QualityProofs HandlerProofs Scenario LoopProofs.

#[local] Arguments on_group : simpl never.

(** ** The verdict on a REG1 *)

(** Why a REG1 is refused, if it is, and the table after the checks. *)
Definition reg1_verdict (addr : sockaddr_storage) (ts : Z) (w : world)
  : option Counter * list ConnectionGroup :=
  if is_blocked addr ts (limiter w) then (Some GROUP_REG_THROTTLED, groups w) else
  let room :=
    if MAX_GROUPS <=? Zlength (groups w)
    then (fun o => without (g_ptr o) (groups w)) <$> oldest_pending (groups w)
    else Some (groups w) in
  match room with
  | None => (Some GROUP_REG_TABLE_FULL, groups w)
  | Some gs =>
      match find_by_address addr gs with
      | Some _ => (Some GROUP_REG_DUP_ADDR, gs)
      | None => (None, gs)
      end
  end.

(** A pending group has no socket, so its removal does no I/O. *)
Lemma remove_pending_run `{OS} o w :
  inv w -> oldest_pending (groups w) = Some o ->
  remove_group (g_ptr o) w = Done tt (w <| groups := without (g_ptr o) (groups w) |>).
Proof.
  intros [Hr _] Ho. apply oldest_pending_some in Ho as (Hin & Hp & _).
  unfold remove_group, mbind, M_bind, gets, set_groups, modify.
  rewrite lookup_group_intro; [|apply Hr|done].
  assert (srt_socket o = -1) as Hs.
  { destruct Hr as [_ _ Hok _ _]. rewrite Forall_forall in Hok. apply (go_pending o (Hok o Hin)).
    unfold is_pending in Hp. destruct (data_seen o); [|done]. by rewrite orb_true_r in Hp. }
  unfold destroy_group. rewrite Hs. done.
Qed.

(** Everything but the eviction counter and the table is as it was. *)
Definition checks_frame (w w1 : world) : Prop :=
  trace w1 = trace w /\ limiter w1 = limiter w /\ next_ptr w1 = next_ptr w /\
  calls w1 = calls w /\
  forall c, c <> GROUPS_REMOVED_EVICTED -> counters w1 c = counters w c.

Lemma reg1_refusal_run `{OS} addr ts w :
  inv w ->
  exists w1, reg1_refusal addr ts w = Done (reg1_verdict addr ts w).1 w1 /\
    groups w1 = (reg1_verdict addr ts w).2 /\ checks_frame w w1.
Proof.
  intros Hi. unfold reg1_refusal, reg1_verdict. unfold mbind at 1, M_bind, gets.
  destruct (is_blocked addr ts (limiter w)).
  { exists w. split; [done|]. split; [done|]. by split. }
  unfold mbind at 1 2, M_bind. destruct (MAX_GROUPS <=? Zlength (groups w)).
  - unfold evict_oldest_pending_group, mbind at 1 2, M_bind, gets.
    destruct (oldest_pending (groups w)) as [o|] eqn:Eo; cbn [fmap option_fmap option_map].
    + assert (remove_group (g_ptr o) (w <| counters ::= fun v c' =>
          if decide (c' = GROUPS_REMOVED_EVICTED) then u64 (v GROUPS_REMOVED_EVICTED + 1) else v c' |>) =
        Done tt (w <| counters ::= fun v c' =>
          if decide (c' = GROUPS_REMOVED_EVICTED) then u64 (v GROUPS_REMOVED_EVICTED + 1) else v c' |>
          <| groups := without (g_ptr o) (groups w) |>)) as Hrm.
      { rewrite remove_pending_run; [done| |done]. by eapply (inv_same w). }
      unfold inc, inc_by, mbind, M_bind, modify. rewrite Hrm. cbn.
      destruct (find_by_address addr (without (g_ptr o) (groups w))); (eexists; split; [reflexivity|]);
        (split; [done|]); repeat split; intros c Hc; cbn; by rewrite decide_False.
    + exists w. split; [done|]. split; [done|]. by split.
  - unfold mbind, M_bind. cbn. destruct (find_by_address addr (groups w)); exists w; (split; [done|]); (split; [done|]); by split.
Qed.

(** ** Random bytes consume calls only *)

Lemma read_random_run `{OS} fuel acc size w :
  Zlength acc <= size -> size - Zlength acc <= Z.of_nat fuel ->
  exists n, read_random fuel acc size w = Raised RuntimeError (w <| calls := n |>) \/
    exists r, Zlength r = size /\ read_random fuel acc size w = Done r (w <| calls := n |>).
Proof.
  revert acc w. induction fuel as [|fuel IH]; intros acc w Hle Hf; cbn [read_random].
  - destruct (Z.ltb_spec (Zlength acc) size); [lia|]. exists (calls w). right. exists acc.
    split; [lia|]. by destruct w.
  - destruct (Z.ltb_spec (Zlength acc) size); [|exists (calls w); right; exists acc; split; [lia|by destruct w]].
    unfold mbind, M_bind, next_call. set (chunk := take _ _).
    assert (Zlength chunk <= size - Zlength acc) as Hc
      by (unfold chunk, Zlength; rewrite length_take; unfold Zlength in *; lia).
    destruct (Z.leb_spec (Zlength chunk) 0); [by exists (S (calls w)); left|].
    destruct (IH (acc ++ chunk) (w <| calls ::= S |>)) as (n & [E|(r & Hr & E)]).
    + unfold Zlength in *. rewrite length_app. lia.
    + unfold Zlength in *. rewrite length_app. lia.
    + exists n. left. by rewrite E.
    + exists n. right. exists r. by rewrite E.
Qed.

Lemma get_random_bytes_run `{OS} size w :
  0 <= size ->
  exists n, get_random_bytes size w = Raised RuntimeError (w <| calls := n |>) \/
    exists r, Zlength r = size /\ get_random_bytes size w = Done r (w <| calls := n |>).
Proof.
  intros Hs. unfold get_random_bytes, mbind, M_bind, next_call.
  destruct (negb _); [by exists (S (calls w)); left|].
  destruct (read_random_run (Z.to_nat size) [] size (w <| calls ::= S |>)) as (n & [E|(r & Hr & E)]);
    [unfold Zlength; cbn; lia|unfold Zlength; cbn; lia|..].
  - exists n. left. by rewrite E.
  - exists n. right. exists r. by rewrite E.
Qed.

(** ** REG1 *)

Section Reg1.
Context {os : OS} {hc : HandlerConfig}.

(** What is counted, sent and stored for each verdict. *)
Definition reg1_refused (reason : Counter) (addr : sockaddr_storage) (gs : list ConnectionGroup)
  (w : world) (r : Z) (w' : world) : Prop :=
  r = -1 /\ groups w' = gs /\ limiter w' = limiter w /\
  counters w' reason = u64 (counters w reason + 1) /\
  exists ret, trace w' =
    IoSendto addr (pad_payload (header_packet SRTLA_TYPE_REG_ERR)) ret :: trace w.

Definition reg1_admitted (addr : sockaddr_storage) (buffer : list byte) (ts : Z)
  (gs : list ConnectionGroup) (w : world) (r : Z) (w' : world) : Prop :=
  exists rnd ret, Zlength rnd = SRTLA_ID_LEN / 2 /\
  let g := new_group (next_ptr w) (drop 2 buffer) rnd ts <| last_address := addr |> in
  trace w' = IoSendto addr (reg2_packet (g_id g)) ret :: trace w /\
  if ret =? SRTLA_TYPE_REG2_LEN
  then r = 0 /\ groups w' = gs ++ [g] /\
       counters w' GROUP_REGISTRATIONS = u64 (counters w GROUP_REGISTRATIONS + 1)
  else r = -1 /\ groups w' = gs /\
       counters w' GROUP_REG_SEND_ERROR = u64 (counters w GROUP_REG_SEND_ERROR + 1).

Lemma reg1_verdict_reason addr ts w reason gs :
  reg1_verdict addr ts w = (Some reason, gs) -> reason <> GROUPS_REMOVED_EVICTED.
Proof. unfold reg1_verdict. intros H. repeat case_match; by simplify_eq. Qed.

Lemma register_group_refused addr ts w w1 reason gs :
  reg1_verdict addr ts w = (Some reason, gs) -> checks_frame w w1 -> groups w1 = gs ->
  exists w', (reply SRTLA_TYPE_REG_ERR addr;; inc reason;; mret (-1)) w1 = Done (-1) w' /\
    reg1_refused reason addr gs w (-1) w'.
Proof.
  intros Hv (Ht & Hl & _ & _ & Hc) Hg. eexists. split; [reflexivity|].
  split; [done|]. split; [done|]. split; [done|]. split.
  - cbn. rewrite decide_True by done. rewrite Hc; [done|]. by eapply reg1_verdict_reason.
  - cbn. rewrite Ht. by eexists.
Qed.

Lemma pad_payload_long b : PAD_LEN <= Zlength b -> pad_payload b = b.
Proof. intros H. unfold pad_payload. by rewrite (proj2 (Z.leb_le _ _) H). Qed.
Lemma pad_result_long b r : PAD_LEN <= Zlength b -> pad_result b r = r.
Proof. intros H. unfold pad_result. by rewrite (proj2 (Z.leb_le _ _) H). Qed.

Lemma length_reg2_packet id : Zlength (reg2_packet id) = 2 + Zlength id.
Proof. unfold reg2_packet, Zlength. rewrite length_app. cbn [length be16_bytes]. lia. Qed.

(** The end of an admitted registration, from the state after the checks. *)
Lemma register_group_admitted addr buffer ts w w1 n rnd gs :
  checks_frame w w1 -> groups w1 = gs -> Zlength rnd = SRTLA_ID_LEN / 2 ->
  SRTLA_ID_LEN / 2 <= Zlength (drop 2 buffer) ->
  exists r w',
    (let group := new_group (next_ptr w1) (drop 2 buffer) rnd ts <| last_address := addr |> in
     ret ← pad_sendto (reg2_packet (g_id group)) addr;
     if negb (ret =? SRTLA_TYPE_REG2_LEN) then inc GROUP_REG_SEND_ERROR;; mret (-1)
     else add_group group;; inc GROUP_REGISTRATIONS;; mret 0)
      (w1 <| calls := n |> <| next_ptr ::= S |>) = Done r w' /\
    reg1_admitted addr buffer ts gs w r w'.
Proof.
  intros (Ht & _ & Hn & _ & Hc) Hg Hr Hb. cbv zeta. rewrite Hn.
  set (g := new_group (next_ptr w) (drop 2 buffer) rnd ts <| last_address := addr |>).
  assert (Zlength (g_id g) = SRTLA_ID_LEN) as Hid.
  { unfold g, Zlength in *. cbn. rewrite length_app, length_take. unfold SRTLA_ID_LEN in *.
    change (256 / 2) with 128 in *. lia. }
  assert (PAD_LEN <= Zlength (reg2_packet (g_id g))) as Hlong
    by (rewrite length_reg2_packet, Hid; done).
  unfold pad_sendto, sendto, mbind, M_bind, next_call, emit, modify, mret, M_ret.
  rewrite pad_payload_long, pad_result_long by done.
  set (ret := os_sendto _ _ _). destruct (Z.eqb_spec ret SRTLA_TYPE_REG2_LEN) as [E|E]; cbn [negb].
  - eexists _, _. split; [reflexivity|]. exists rnd, ret. split; [done|].
    fold g. split; [cbn; by rewrite Ht|]. rewrite (proj2 (Z.eqb_eq _ _) E). split; [done|].
    split; [cbn; by rewrite Hg|]. cbn. by rewrite Hc.
  - eexists _, _. split; [reflexivity|]. exists rnd, ret. split; [done|].
    fold g. split; [cbn; by rewrite Ht|]. rewrite (proj2 (Z.eqb_neq _ _) E). split; [done|].
    split; [done|]. cbn. by rewrite Hc.
Qed.

Lemma register_group_run addr buffer ts w :
  inv w -> Zlength buffer = SRTLA_TYPE_REG1_LEN ->
  let '(verdict, gs) := reg1_verdict addr ts w in
  match register_group addr buffer ts w with
  | Done r w' =>
      match verdict with
      | Some reason => reg1_refused reason addr gs w r w'
      | None => reg1_admitted addr buffer ts gs w r w'
      end
  | Raised e w' => verdict = None /\ e = RuntimeError /\ groups w' = gs /\ trace w' = trace w
  end.
Proof.
  intros Hi Hlen. destruct (reg1_refusal_run addr ts w Hi) as (w1 & Hrun & Hg & Hfr).
  destruct (reg1_verdict addr ts w) as [verdict gs] eqn:Ev. cbn [fst snd] in Hrun, Hg.
  unfold register_group. rewrite (bind_done _ _ _ _ _ Hrun). destruct verdict as [reason|].
  - destruct (register_group_refused addr ts w w1 reason gs Ev Hfr Hg) as (w' & E & H).
    rewrite E. exact H.
  - unfold make_group.
    destruct (get_random_bytes_run (SRTLA_ID_LEN / 2) w1) as (n & [E|(rnd & Hr & E)]); [done|..].
    + erewrite bind_raised; [|by apply bind_raised]. split; [done|]. split; [done|]. split; [done|]. apply Hfr.
    + erewrite bind_done; [|by erewrite bind_done; [|exact E]].
      destruct (register_group_admitted addr buffer ts w w1 n rnd gs Hfr Hg Hr) as (r & w' & E' & H).
      { unfold Zlength in *. rewrite length_drop. unfold SRTLA_TYPE_REG1_LEN, SRTLA_ID_LEN in *.
        change (256 / 2) with 128 in *. lia. }
      match goal with |- match ?o with _ => _ end =>
        replace o with (Done r w') by (symmetry; exact E') end. exact H.
Qed.

Lemma reg1_verdict_table addr ts w verdict gs :
  reg1_verdict addr ts w = (verdict, gs) ->
  gs = groups w \/
  (MAX_GROUPS <= Zlength (groups w) /\
   exists o, oldest_pending (groups w) = Some o /\ gs = without (g_ptr o) (groups w)).
Proof.
  unfold reg1_verdict. destruct (is_blocked _ _ _); [intros [= _ <-]; by left|].
  destruct (Z.leb_spec MAX_GROUPS (Zlength (groups w))).
  - destruct (oldest_pending (groups w)) as [o|]; cbn; [|intros [= _ <-]; by left].
    destruct (find_by_address _ _); intros [= _ <-]; right; by eauto.
  - destruct (find_by_address _ _); intros [= _ <-]; by left.
Qed.

(** C14: REG1 does what its verdict says, on every branch.  A throttled, table
    full or duplicate-address registration is answered with REG_ERR, counted
    under its reason and stores nothing; an admitted one sends REG2 with a
    fresh id whose first half is the client's, and stores the group exactly
    when the whole reply was sent; the only exception is that of the random
    device, before anything is sent or stored. *)
Theorem register_group_spec addr buffer ts w :
  inv w -> Zlength buffer = SRTLA_TYPE_REG1_LEN ->
  let '(verdict, gs) := reg1_verdict addr ts w in
  match register_group addr buffer ts w with
  | Done r w' =>
      match verdict with
      | Some reason => reg1_refused reason addr gs w r w'
      | None => reg1_admitted addr buffer ts gs w r w'
      end
  | Raised e w' => verdict = None /\ e = RuntimeError /\ groups w' = gs /\ trace w' = trace w
  end.
Proof. apply register_group_run. Qed.

(** C24: a REG1 never costs an active client its group: a group that has a
    connection or has carried data is still there, unchanged, whatever the
    outcome, and a group that is evicted was the oldest pending one of a full
    table. *)
Theorem reg1_spares_active addr buffer ts w :
  inv w -> Zlength buffer = SRTLA_TYPE_REG1_LEN ->
  let w' := run (register_group addr buffer ts) w in
  forall g, g ∈ groups w ->
    g ∈ groups w' \/
    (connections g = [] /\ data_seen g = false /\ Zlength (groups w) = MAX_GROUPS /\
     forall g', g' ∈ groups w -> is_pending g' = true -> created_at g <= created_at g').
Proof.
  intros Hi Hlen w' g Hg.
  pose proof (register_group_run addr buffer ts w Hi Hlen) as Hrun. unfold w', run.
  destruct (reg1_verdict addr ts w) as [verdict gs] eqn:Ev.
  assert (g ∈ gs -> g ∈ groups (state_of (register_group addr buffer ts w))) as Hin.
  { intros Hin. destruct (register_group addr buffer ts w) as [r w1|e w1]; cbn [state_of].
    - destruct verdict as [reason|]; [destruct Hrun as (_ & -> & _); done|].
      destruct Hrun as (rnd & ret & _ & _ & Hrun).
      destruct (ret =? _); destruct Hrun as (_ & -> & _); [apply elem_of_app; by left|done].
    - by destruct Hrun as (_ & _ & -> & _). }
  destruct (reg1_verdict_table _ _ _ _ _ Ev) as [->|(Hfull & o & Ho & ->)]; [left; by apply Hin|].
  destruct (decide (g_ptr g = g_ptr o)) as [Ep|Ep].
  - right. apply oldest_pending_some in Ho as (Hoin & Hp & Hmin).
    assert (g = o) as -> by (eapply NoDup_map_inj; [apply Hi|done..]).
    unfold is_pending in Hp. apply negb_true_iff, orb_false_iff in Hp as [Hc Hd].
    apply negb_false_iff, bool_decide_eq_true in Hc. split; [done|]. split; [done|]. split; [|done].
    destruct Hi as [[Hsz _ _ _ _] _]. lia.
  - left. apply Hin. by apply list_elem_of_filter.
Qed.
End Reg1.

Lemma register_group_spec_witness :
  let '(verdict, gs) := reg1_verdict client2 1000 w_joined in
  match @register_group os0 client2 reg1_packet 1000 w_joined with
  | Done r w' =>
      match verdict with
      | Some reason => reg1_refused reason client2 gs w_joined r w'
      | None => reg1_admitted client2 reg1_packet 1000 gs w_joined r w'
      end
  | Raised e w' => verdict = None /\ e = RuntimeError /\ groups w' = gs /\ trace w' = trace w_joined
  end.
Proof.
  apply (@register_group_spec os0 client2 reg1_packet 1000 w_joined).
  - exact joined_inv.
  - reflexivity.
Defined.

Lemma reg1_spares_active_witness :
  first_group w_joined ∈ groups w_joined /\
  first_group w_joined ∈ groups (run (@register_group os0 client2 reg1_packet 1000) w_joined).
Proof.
  assert (Hin : first_group w_joined ∈ groups w_joined).
  { assert (Hl : length (groups w_joined) = 1%nat) by (vm_compute; reflexivity).
    unfold first_group. destruct (groups w_joined) as [|g gs]; [discriminate Hl|left]. }
  split; [exact Hin|].
  destruct (@reg1_spares_active os0 client2 reg1_packet 1000 w_joined joined_inv eq_refl
              (first_group w_joined) Hin) as [H|(H & _)]; [exact H|].
  apply (f_equal length) in H. vm_compute in H. discriminate.
Defined.

(** ** REG2 *)

(** Some other group owns the address. *)
Definition owned_elsewhere (addr : sockaddr_storage) (g : ConnectionGroup)
  (gs : list ConnectionGroup) : bool :=
  existsb (fun g' => negb (bool_decide (g_ptr g' = g_ptr g)) &&
                     bool_decide (addr_key addr ∈ owned g')) gs.

Lemma owned_elsewhere_spec addr w g :
  inv w -> g ∈ groups w ->
  match find_by_address addr (groups w) with
  | Some (tmp, _) => negb (bool_decide (g_ptr tmp = g_ptr g))
  | None => false
  end = owned_elsewhere addr g (groups w).
Proof.
  intros Hi Hg. destruct (owned_elsewhere addr g (groups w)) eqn:Eo.
  - apply existsb_exists in Eo as (g' & Hg'%list_elem_of_In & Hb).
    apply andb_true_iff in Hb as [Hp Hk%bool_decide_eq_true].
    destruct (find_by_address addr (groups w)) as [[tmp oc]|] eqn:Ef.
    + destruct (find_by_address_some _ _ _ _ Ef) as (Ht & Ho & _).
      destruct Hi as [Hr _]. by rewrite (ro_exclusive _ _ Hr tmp g' _ Ht Hg' Ho Hk).
    + by destruct (find_by_address_none _ _ Ef g' Hg').
  - destruct (find_by_address addr (groups w)) as [[tmp oc]|] eqn:Ef; [|done].
    destruct (find_by_address_some _ _ _ _ Ef) as (Ht & Ho & _).
    case_bool_decide as Ep; [done|]. exfalso. rewrite <- not_true_iff_false in Eo. apply Eo.
    apply existsb_exists. exists tmp. split; [by apply list_elem_of_In|].
    rewrite bool_decide_eq_false_2 by done. cbn. by apply bool_decide_eq_true.
Qed.

(** Writing the info file only adds to the log. *)
Lemma write_info_run `{OS} g w :
  exists n pre, write_socket_info_file g w =
    Done tt (w <| calls := n |> <| trace := pre ++ trace w |>).
Proof.
  unfold write_socket_info_file. destruct (srt_socket g =? -1).
  - exists (calls w), []. by destruct w.
  - unfold get_local_port, open_file, mbind, M_bind, next_call, mret, M_ret, when, emit, modify, skip.
    cbn. destruct (os_open_file _).
    + by eexists _, [_].
    + by exists (S (S (calls w))), [].
Qed.

Section Reg2.
Context {os : OS} {hc : HandlerConfig}.

Definition reg2_refused (type : Z) (reason : Counter) (addr : sockaddr_storage)
  (w : world) (r : Z) (w' : world) : Prop :=
  r = -1 /\ groups w' = groups w /\
  counters w' reason = u64 (counters w reason + 1) /\
  exists ret, trace w' = IoSendto addr (pad_payload (header_packet type)) ret :: trace w.

(** REG3 was sent; [update] is done to the group when the send succeeded. *)
Definition reg2_accepted (update : ConnectionGroup -> ConnectionGroup) (gp : nat)
  (addr : sockaddr_storage) (w : world) (r : Z) (w' : world) : Prop :=
  exists n pre, let ret := os_sendto n addr (pad_payload (header_packet SRTLA_TYPE_REG3)) in
  trace w' = pre ++ IoSendto addr (pad_payload (header_packet SRTLA_TYPE_REG3)) ret :: trace w /\
  if pad_result (header_packet SRTLA_TYPE_REG3) ret =? 2
  then r = 0 /\ groups w' = on_group gp update (groups w) /\
       counters w' CONN_REGISTRATIONS = u64 (counters w CONN_REGISTRATIONS + 1)
  else r = -1 /\ groups w' = groups w.

Lemma reject_run type reason addr w :
  exists w', reject_connection type reason addr w = Done (-1) w' /\
    reg2_refused type reason addr w (-1) w'.
Proof.
  eexists. split; [reflexivity|]. split; [done|]. split; [done|]. cbn.
  rewrite decide_True by done. split; [done|]. by eexists.
Qed.

(** The end of an accepted REG2, from the state in which REG3 was sent. *)
Lemma reg2_finish_run gp addr f g w w1 :
  lookup_group gp (groups w1) = Some g ->
  groups w1 = on_group gp f (groups w) -> counters w1 = counters w ->
  (forall g, g_ptr (f g) = g_ptr g) ->
  exists w', (g ← deref_group gp; write_socket_info_file g;;
      modify_group gp (fun g => g <| last_address := addr |>);;
      inc CONN_REGISTRATIONS;; mret 0) w1 = Done 0 w' /\
    groups w' = on_group gp (fun g => f g <| last_address := addr |>) (groups w) /\
    counters w' CONN_REGISTRATIONS = u64 (counters w CONN_REGISTRATIONS + 1) /\
    exists pre, trace w' = pre ++ trace w1.
Proof.
  intros Hl Hg Hc Hf. destruct (write_info_run g w1) as (n & pre & E).
  rewrite (bind_done _ _ _ g w1) by (unfold deref_group; by rewrite Hl).
  rewrite (bind_done _ _ _ _ _ E). eexists. split; [reflexivity|]. cbn. rewrite Hg, Hc.
  rewrite decide_True by done. rewrite on_group_twice by done.
  split; [done|]. split; [done|]. by exists pre.
Qed.

Definition reg2_spec (addr : sockaddr_storage) (buffer : list byte) (ts : Z)
  (w : world) (r : Z) (w' : world) : Prop :=
  match find_group_by_id (drop 2 buffer) (groups w) with
  | None => reg2_refused SRTLA_TYPE_REG_NGP CONN_REG_NO_GROUP addr w r w'
  | Some g =>
      if owned_elsewhere addr g (groups w)
      then reg2_refused SRTLA_TYPE_REG_ERR CONN_REG_GROUP_MISMATCH addr w r w'
      else if bool_decide (addr_key addr ∈ conn_addrs g)
      then reg2_accepted (fun g => g <| last_address := addr |>) (g_ptr g) addr w r w'
      else if MAX_CONNS_PER_GROUP <=? Zlength (connections g)
      then reg2_refused SRTLA_TYPE_REG_ERR CONN_REG_MAX_CONNS addr w r w'
      else reg2_accepted (fun g => add_connection (new_connection (next_ptr w) addr ts) g
                                     <| last_address := addr |>) (g_ptr g) addr w r w'
  end.

Definition maybe_add (new : option Connection) (g : ConnectionGroup) : ConnectionGroup :=
  match new with Some c => add_connection c g | None => g end.

Lemma on_group_id p gs : on_group p (fun g => g) gs = gs.
Proof. unfold on_group. rewrite <- (map_id gs) at 2. apply map_ext. intros g. by case_decide. Qed.

(** From the REG3 reply on. *)
Lemma reg2_reply_run gp g new addr w w0 :
  lookup_group gp (groups w) = Some g -> groups w0 = groups w ->
  counters w0 = counters w -> trace w0 = trace w ->
  exists r w',
    (ret ← pad_sendto (header_packet SRTLA_TYPE_REG3) addr;
     if negb (ret =? 2) then inc CONN_REG_SEND_ERROR;; mret (-1) else
     (match new with Some c => modify_group gp (add_connection c) | None => skip end);;
     g ← deref_group gp; write_socket_info_file g;;
     modify_group gp (fun g => g <| last_address := addr |>);;
     inc CONN_REGISTRATIONS;; mret 0) w0 = Done r w' /\
    reg2_accepted (fun g => maybe_add new g <| last_address := addr |>) gp addr w r w'.
Proof.
  intros Hl Hg Hc Ht. set (hdr := header_packet SRTLA_TYPE_REG3).
  set (ret := os_sendto (calls w0) addr (pad_payload hdr)).
  set (w1 := w0 <| calls ::= S |> <| trace ::= cons (IoSendto addr (pad_payload hdr) ret) |>).
  rewrite (bind_done _ _ w0 (pad_result hdr ret) w1) by done.
  destruct (pad_result hdr ret =? 2) eqn:Er; cbn [negb].
  - set (w2 := w1 <| groups ::= on_group gp (maybe_add new) |>).
    assert ((match new with Some c => modify_group gp (add_connection c) | None => skip end) w1
            = Done tt w2) as E2.
    { destruct new as [c|]; [done|]. unfold w2, upd. cbn. rewrite on_group_id. by destruct w0. }
    rewrite (bind_done _ _ _ _ _ E2).
    destruct (reg2_finish_run gp addr (maybe_add new) (maybe_add new g) w w2) as (w' & E & H1 & H2 & pre & H3).
    + unfold w2, w1. cbn. rewrite Hg. apply lookup_on_group; [by destruct new|done].
    + unfold w2, w1. cbn. by rewrite Hg.
    + done.
    + by destruct new.
    + exists 0, w'. split; [exact E|]. exists (calls w0), pre. cbv zeta. fold hdr ret. rewrite Er.
      split; [|done]. rewrite H3. unfold w2, w1. cbn. by rewrite Ht.
  - eexists _, _. split; [reflexivity|]. exists (calls w0), []. cbv zeta. fold hdr ret. rewrite Er. unfold w1. cbn.
    by rewrite Ht.
Qed.

Lemma register_connection_run addr buffer ts w :
  inv w -> exists r w', register_connection addr buffer ts w = Done r w' /\
    reg2_spec addr buffer ts w r w'.
Proof.
  intros Hi. unfold register_connection, reg2_spec. rewrite (bind_done _ _ _ (groups w) w) by done.
  destruct (find_group_by_id _ _) as [g|] eqn:Eg;
    [|destruct (reject_run SRTLA_TYPE_REG_NGP CONN_REG_NO_GROUP addr w) as (w' & E & H); by exists (-1), w'].
  apply find_group_by_id_elem in Eg as [Hg _]. cbv zeta.
  assert (lookup_group (g_ptr g) (groups w) = Some g) as Hl by (apply lookup_group_intro; [apply Hi|done]).
  pose proof (reg2_exclusive addr w g Hi Hg) as Hexc. rewrite owned_elsewhere_spec in * by done.
  destruct (owned_elsewhere addr g (groups w)).
  { destruct (reject_run SRTLA_TYPE_REG_ERR CONN_REG_GROUP_MISMATCH addr w) as (w' & E & H). by exists (-1), w'. }
  destruct (Hexc eq_refl) as [_ Hca]. clear Hexc.
  set (conn := match find_by_address addr (groups w) with Some (_, c) => c | None => None end).
  assert (bool_decide (addr_key addr ∈ conn_addrs g) = negb (bool_decide (conn = None))) as Hnew.
  { unfold conn. destruct (find_by_address addr (groups w)) as [[? [?|]]|];
      [rewrite (bool_decide_eq_true_2 _ Hca)|rewrite (bool_decide_eq_false_2 _ Hca)..]; done. }
  rewrite Hnew. destruct conn as [c|].
  - cbn [bool_decide negb andb]. destruct (reg2_reply_run (g_ptr g) g None addr w w) as (r & w' & E & H);
      [done..|]. by exists r, w'.
  - rewrite (bool_decide_eq_true_2 (None = None)) by done. cbn [negb andb].
    destruct (MAX_CONNS_PER_GROUP <=? Zlength (connections g)).
    { destruct (reject_run SRTLA_TYPE_REG_ERR CONN_REG_MAX_CONNS addr w) as (w' & E & H). by exists (-1), w'. }
    destruct (reg2_reply_run (g_ptr g) g (Some (new_connection (next_ptr w) addr ts)) addr w
      (w <| next_ptr ::= S |>)) as (r & w' & E & H); [done..|]. by exists r, w'.
Qed.

(** C15: REG2 does what the ownership of its address and the id it carries
    say, on every branch, and never fails: an unknown id gets REG_NGP; an
    address of another group, or a seventeenth connection, gets REG_ERR; a
    known connection is confirmed and not duplicated; a new one is added to
    exactly the named group.  The table changes only when REG3 was sent. *)
Theorem register_connection_spec addr buffer ts w :
  inv w -> exists r w', register_connection addr buffer ts w = Done r w' /\
    reg2_spec addr buffer ts w r w'.
Proof. apply register_connection_run. Qed.
End Reg2.

Lemma register_connection_spec_witness :
  exists r w', @register_connection os0 client2 (reg2_request (last_reg2_id w_pending)) 1000 w_joined
    = Done r w' /\ @reg2_spec os0 client2 (reg2_request (last_reg2_id w_pending)) 1000 w_joined r w'.
Proof.
  apply (@register_connection_spec os0).
  exact joined_inv.
Defined.

(** ** Demultiplexing and the handshake *)

Lemma find_by_address_complete addr w g c :
  inv w -> g ∈ groups w -> c ∈ connections g -> addr_key (address c) = addr_key addr ->
  find_by_address addr (groups w) = Some (g, Some c).
Proof.
  intros [Hr _] Hg Hc Ha.
  assert (addr_key addr ∈ conn_addrs g) as Hin.
  { rewrite <- Ha. by apply (list_elem_of_fmap_2 (fun c => addr_key (address c))). }
  destruct (find_by_address addr (groups w)) as [[g' oc]|] eqn:Ef.
  - destruct (find_by_address_some _ _ _ _ Ef) as (Hg' & Ho & Hoc).
    assert (g' = g) as ->.
    { eapply NoDup_map_inj; [apply Hr|done..|]. eapply (ro_exclusive _ _ Hr); [done..|]. by right. }
    destruct oc as [c'|]; [|by destruct Hoc]. destruct Hoc as [Hc' Ha'].
    assert (c' = c) as ->; [|done]. destruct Hr as [_ _ Hok _ _]. rewrite Forall_forall in Hok.
    eapply (NoDup_map_inj (fun c => addr_key (address c))); [apply (Hok g Hg)|done..|congruence].
  - exfalso. apply (find_by_address_none _ _ Ef g Hg). by right.
Qed.

Lemma find_group_by_id_last id gs g :
  (forall g', g' ∈ gs -> length (g_id g') = Z.to_nat SRTLA_ID_LEN /\ g_id g' <> id) ->
  length id = Z.to_nat SRTLA_ID_LEN -> g_id g = id ->
  find_group_by_id id (gs ++ [g]) = Some g.
Proof.
  intros Hgs Hl Hg. unfold find_group_by_id. induction gs as [|x gs IH]; cbn.
  - rewrite Hg, constant_time_compare_spec by done. by rewrite bool_decide_eq_true_2.
  - destruct (Hgs x) as [Hx Hne]; [by left|].
    rewrite constant_time_compare_spec, bool_decide_eq_false_2 by done.
    apply IH. intros g' Hg'. apply Hgs. by right.
Qed.

(** Every connection of a reachable receiver is found at its own address:
    a packet from the address of a connection is given to that connection
    and to the group that holds it, and to no other. *)
Theorem demux_exact {os : OS} {hc : HandlerConfig} {ec : ExporterConfig} {so : StdinOpen} w g c addr :
  reachable w -> g ∈ groups w -> c ∈ connections g ->
  (find_by_address addr (groups w) = Some (g, Some c) <-> addr_key (address c) = addr_key addr).
Proof.
  intros Hr Hg Hc. apply reachable_inv in Hr. split.
  - intros Hf. by destruct (find_by_address_some _ _ _ _ Hf) as (_ & _ & _ & ?).
  - by apply find_by_address_complete.
Qed.

Lemma demux_exact_witness :
  match groups w_joined with
  | g :: _ => match connections g with
              | c :: _ => find_by_address client1 (groups w_joined) = Some (g, Some c) <->
                          addr_key (address c) = addr_key client1
              | [] => False
              end
  | [] => False
  end.
Proof.
  destruct (groups w_joined) as [|g gs] eqn:Eg; [by vm_compute in Eg|].
  destruct (connections g) as [|c cs] eqn:Ec.
  - assert (map (fun g => length (connections g)) (groups w_joined) = [1%nat]) as H by (by vm_compute).
    rewrite Eg in H. cbn in H. by rewrite Ec in H.
  - rewrite <- Eg. apply (@demux_exact os0 sample_cfg sample_exporter (sample_stdin _ _ _) w_joined g c client1).
    + exact joined_reachable.
    + rewrite Eg. left.
    + rewrite Ec. left.
Defined.

Lemma reg1_room addr ts w gs :
  reg1_verdict addr ts w = (None, gs) ->
  gs `sublist_of` groups w /\ find_by_address addr gs = None.
Proof.
  intros Hv. split.
  - destruct (reg1_verdict_table _ _ _ _ _ Hv) as [->|(_ & o & _ & ->)]; [done|apply sublist_filter].
  - unfold reg1_verdict in Hv. repeat case_match; by simplify_eq.
Qed.

(** After a successful REG1, its group is the one its id names, has no
    connection, and no other group owns the address. *)
Lemma reg1_done addr buffer ts w w1 id ret {os : OS} :
  inv w -> Zlength buffer = SRTLA_TYPE_REG1_LEN ->
  register_group addr buffer ts w = Done 0 w1 ->
  trace w1 = IoSendto addr (reg2_packet id) ret :: trace w ->
  (forall g, g ∈ groups w -> g_id g <> id) ->
  exists g, inv w1 /\ find_group_by_id id (groups w1) = Some g /\ g_id g = id /\ connections g = [] /\
    owned_elsewhere addr g (groups w1) = false.
Proof.
  intros Hi Hlen Hrun Htr Hid.
  pose proof (register_group_run addr buffer ts w Hi Hlen) as Hspec. rewrite Hrun in Hspec.
  pose proof (wp_done _ _ _ _ _ _ (wp_register_group addr buffer ts (fun _ _ => True) w Hi
    (fun _ _ => I) ltac:(rewrite Hlen; done)) Hrun) as [Hi1 _].
  destruct (reg1_verdict addr ts w) as [[reason|] gs] eqn:Ev; [by destruct Hspec|].
  destruct Hspec as (rnd & ret' & Hr & Htr' & Hcase).
  set (g := new_group (next_ptr w) (drop 2 buffer) rnd ts <| last_address := addr |>) in *.
  assert (id = g_id g) as Hid'.
  { assert (reg2_packet id = reg2_packet (g_id g)) as E by congruence.
    apply (f_equal (drop 2)) in E. exact E. }
  destruct (ret' =? SRTLA_TYPE_REG2_LEN); [|by destruct Hcase]. destruct Hcase as (_ & Hg1 & _).
  destruct (reg1_room _ _ _ _ Ev) as [Hsub Hfree].
  assert (forall x, x ∈ groups w1 -> length (g_id x) = Z.to_nat SRTLA_ID_LEN) as Hlen1.
  { destruct Hi1 as [[_ _ Hok _ _] _]. rewrite Forall_forall in Hok. intros x Hx. by apply Hok. }
  exists g. split; [done|]. split; [|split; [done|split; [done|]]].
  - rewrite Hg1. apply find_group_by_id_last; [| |done].
    + intros x Hx. split; [apply Hlen1; rewrite Hg1; apply elem_of_app; by left|].
      apply Hid. by eapply elem_of_sublist.
    + rewrite Hid'. apply Hlen1. rewrite Hg1. apply elem_of_app. right. by left.
  - apply not_true_iff_false. intros (x & Hx%list_elem_of_In & Hb)%existsb_exists.
    apply andb_true_iff in Hb as [Hp%negb_true_iff%bool_decide_eq_false Ho%bool_decide_eq_true].
    rewrite Hg1 in Hx. apply elem_of_app in Hx as [Hx|Hx]; [|by apply list_elem_of_singleton in Hx as ->].
    by apply (find_by_address_none _ _ Hfree x Hx).
Qed.

(** The registration handshake.  On a kernel that sends datagrams whole,
    when a REG1 has succeeded and its id is not that of another group, the
    REG2 that echoes the id of the reply succeeds too; after it the client's
    address leads to a connection of its own in the group with that id. *)
Theorem handshake {os : OS} addr buffer ts ts' w w1 id ret :
  (forall n a b, os_sendto n a b = Zlength b) ->
  inv w -> Zlength buffer = SRTLA_TYPE_REG1_LEN ->
  register_group addr buffer ts w = Done 0 w1 ->
  trace w1 = IoSendto addr (reg2_packet id) ret :: trace w ->
  (forall g, g ∈ groups w -> g_id g <> id) ->
  exists w2 g c, register_connection addr (reg2_packet id) ts' w1 = Done 0 w2 /\
    find_by_address addr (groups w2) = Some (g, Some c) /\ g_id g = id /\
    connections g = [c] /\ address c = addr /\ last_received c = ts'.
Proof.
  intros Hsend Hi Hlen Hrun Htr Hid.
  destruct (reg1_done addr buffer ts w w1 id ret Hi Hlen Hrun Htr Hid) as (g & Hi1 & Hf & Hgid & Hc & Hno).
  destruct (register_connection_run addr (reg2_packet id) ts' w1 Hi1) as (r & w2 & Hrun2 & Hspec2).
  pose proof (wp_done _ _ _ _ _ _ (wp_register_connection addr (reg2_packet id) ts'
    (fun _ _ => False) w1 Hi1) Hrun2) as [Hi2 _].
  unfold reg2_spec in Hspec2. change (drop 2 (reg2_packet id)) with id in Hspec2.
  rewrite Hf, Hno in Hspec2. unfold conn_addrs in Hspec2. rewrite Hc in Hspec2. cbn in Hspec2.
  destruct Hspec2 as (n & pre & _ & Hacc). rewrite Hsend in Hacc.
  destruct Hacc as (-> & Hg2 & _).
  set (c := new_connection (next_ptr w1) addr ts').
  set (g2 := add_connection c g <| last_address := addr |>).
  apply find_group_by_id_elem in Hf as [Hgin _].
  assert (g2 ∈ groups w2) as Hg2in.
  { rewrite Hg2. apply elem_of_on_group. exists g. split; [done|]. by rewrite decide_True. }
  assert (connections g2 = [c]) as Hc2 by (unfold g2, add_connection; cbn; by rewrite Hc).
  exists w2, g2, c. split; [done|]. split; [|done].
  apply find_by_address_complete; [done|done| |done]. rewrite Hc2. by left.
Qed.

Lemma handshake_witness :
  exists w2 g c, @register_connection os0 client2 (reg2_packet (last_reg2_id
      (run (@register_group os0 client2 reg1_packet 1000) w_joined))) 1001
      (run (@register_group os0 client2 reg1_packet 1000) w_joined) = Done 0 w2 /\
    find_by_address client2 (groups w2) = Some (g, Some c) /\
    g_id g = last_reg2_id (run (@register_group os0 client2 reg1_packet 1000) w_joined) /\
    connections g = [c] /\ address c = client2 /\ last_received c = 1001.
Proof.
  apply (@handshake os0 client2 reg1_packet 1000 1001 w_joined _ _ SRTLA_TYPE_REG2_LEN).
  - reflexivity.
  - exact joined_inv.
  - reflexivity.
  - apply result_of_done. vm_compute. reflexivity.
  - vm_compute. reflexivity.
  - apply Forall_forall. apply (bool_decide_unpack _). vm_compute. exact I.
Defined.
