(* ===== verification/AckStream.v ===== *)
(** * SRTLA acknowledgements

    [register_packet] (src/protocol/srtla_handler.cpp) over a stream of data
    packets: one ACK for every ten, holding exactly those ten sequence
    numbers, in order, in network byte order. *)

From stdpp Require Import list gmap.
From S2P Require Import Prelude Config Wire NetUtils Connection World Registry Quality.
From S2P Require Import SrtHandler SrtlaHandler MainLoop Hoare Invariant RegistryProofs.
From S2P Require Import QualityProofs HandlerProofs Scenario LoopProofs.

#[local] Arguments on_group : simpl never.
#[local] Arguments on_conn : simpl never.

(** ** Specification *)

(** The complete blocks of [k] elements of a list. *)
Definition full_chunks {A} (k : nat) (l : list A) : list (list A) :=
  map (fun i => take k (drop (i * k) l)) (seq 0 (length l / k)).

(** The ACK for ten packets: the type in the first two bytes, two zero bytes,
    then each sequence number, most significant byte first. *)
Definition ack_bytes (sns : list Z) : list byte :=
  be16_bytes SRTLA_TYPE_ACK ++ [Byte.x00; Byte.x00] ++ concat (map be32_bytes sns).

Definition ACK_EVERY : nat := Z.to_nat RECV_ACK_INT.
Lemma ACK_EVERY_eq : ACK_EVERY = 10%nat.
Proof. reflexivity. Qed.

(** ** A run on one connection *)

(** The ACKs due while the packets are logged, and the connection after. *)
Fixpoint ack_run (sns : list Z) (c : Connection) : list (list byte) * Connection :=
  match sns with
  | [] => ([], c)
  | sn :: sns' =>
      let '(acks, c') := ack_run sns' (log_and_reset sn c) in
      (match due_ack sn c with Some a => a :: acks | None => acks end, c')
  end.

Lemma ack_run_app l1 l2 c :
  ack_run (l1 ++ l2) c =
  ((ack_run l1 c).1 ++ (ack_run l2 (ack_run l1 c).2).1, (ack_run l2 (ack_run l1 c).2).2).
Proof.
  revert c. induction l1 as [|sn l1 IH]; intros c; cbn [ack_run app].
  - cbn. by destruct (ack_run l2 c).
  - rewrite IH. destruct (ack_run l1 (log_and_reset sn c)) as [a c1]. cbn. by destruct (due_ack sn c).
Qed.

Lemma next_recv_index_step i : 0 <= i < RECV_ACK_INT -> next_recv_index i = i + 1.
Proof.
  unfold next_recv_index, RECV_ACK_INT. intros H.
  destruct (Z.leb_spec (i + 1) 0), (Z.ltb_spec 10 (i + 1)); cbn; lia.
Qed.

Lemma take_insert_snoc {A} i (x : A) l :
  (i < length l)%nat -> take (S i) (<[i:=x]> l) = take i l ++ [x].
Proof.
  intros Hi. rewrite (insert_take_drop _ _ _ Hi), cons_middle, (assoc_L (++)).
  apply take_app_length'. rewrite length_app, length_take. cbn. lia.
Qed.

Lemma drop_insert_past {A} i m (x : A) l :
  (i < length l)%nat -> drop (S i + m) (<[i:=x]> l) = drop (S i + m) l.
Proof.
  intros Hi. rewrite (insert_take_drop _ _ _ Hi), cons_middle, (assoc_L (++)).
  rewrite drop_app_add' by (rewrite length_app, length_take; cbn; lia). by rewrite drop_drop.
Qed.

(** Packets that do not complete a block are only logged. *)
Lemma ack_run_partial l c :
  conn_ok c -> recv_index c + Zlength l < RECV_ACK_INT ->
  (ack_run l c).1 = [] /\ conn_ok (ack_run l c).2 /\
  recv_index (ack_run l c).2 = recv_index c + Zlength l /\
  recv_log (ack_run l c).2 =
    take (Z.to_nat (recv_index c)) (recv_log c) ++ map htobe32 l ++
    drop (Z.to_nat (recv_index c) + length l) (recv_log c).
Proof.
  revert c. induction l as [|sn l IH]; intros c Hok Hlt.
  - cbn. split; [done|]. split; [done|]. split; [unfold Zlength; cbn; lia|].
    by rewrite Nat.add_0_r, take_drop.
  - destruct Hok as [Hi Hl Hs] eqn:Eok. unfold Zlength in Hlt. cbn [length] in Hlt.
    assert (next_recv_index (recv_index c) = recv_index c + 1) as Hn by (by apply next_recv_index_step).
    assert (recv_index (log_packet sn c) = recv_index c + 1) as Hidx by done.
    assert ((recv_index c + 1 =? RECV_ACK_INT) = false) as Hne by (apply Z.eqb_neq; lia).
    assert (due_ack sn c = None) as Hd by (unfold due_ack; by rewrite Hidx, Hne).
    assert (log_and_reset sn c = log_packet sn c) as Hlr by (unfold log_and_reset; by rewrite Hidx, Hne).
    cbn [ack_run]. rewrite Hd, Hlr. destruct (IH (log_packet sn c)) as (H1 & H2 & H3 & H4).
    { rewrite <- Hlr. by apply log_and_reset_upd. }
    { rewrite Hidx. unfold Zlength. lia. }
    destruct (ack_run l (log_packet sn c)) as [acks c']. cbn [fst snd] in *.
    split; [done|]. split; [done|]. split; [rewrite H3, Hidx; unfold Zlength; cbn [length]; lia|].
    rewrite H4, Hidx. cbn [log_packet recv_log upd]. rewrite Hn.
    replace (Z.to_nat (recv_index c + 1 - 1)) with (Z.to_nat (recv_index c)) by lia.
    replace (Z.to_nat (recv_index c + 1)) with (S (Z.to_nat (recv_index c))) by lia.
    set (i := Z.to_nat (recv_index c)).
    assert (i < length (recv_log c))%nat as Hil by (rewrite Hl; unfold i; lia).
    change (recv_log (c <| recv_index := _ |> <| recv_log ::= _ |>)) with (<[i:=htobe32 sn]> (recv_log c)).
    rewrite take_insert_snoc, drop_insert_past by done. cbn [map length].
    rewrite <- (assoc_L (++)). cbn [app].
    by replace (S i + length l)%nat with (i + S (length l))%nat by lia.
Qed.

Lemma ack_packet_bytes sns : ack_packet (map htobe32 sns) = ack_bytes sns.
Proof.
  unfold ack_packet, ack_bytes. rewrite htobe32_mem, map_map.
  rewrite (map_ext (fun z => le32_bytes (htobe32 z)) be32_bytes) by apply htobe32_mem. done.
Qed.

(** Ten packets from a fresh index: one ACK, and the index is fresh again. *)
Lemma ack_run_block l c :
  conn_ok c -> recv_index c = 0 -> length l = ACK_EVERY ->
  (ack_run l c).1 = [ack_bytes l] /\ conn_ok (ack_run l c).2 /\ recv_index (ack_run l c).2 = 0.
Proof.
  intros Hok Hi Hl. destruct (exists_last (l := l)) as (l' & sn & ->).
  { intros ->. done. }
  rewrite length_app in Hl. cbn in Hl.
  assert (length l' = 9%nat) as Hl' by (unfold ACK_EVERY, RECV_ACK_INT in Hl; lia).
  destruct (ack_run_partial l' c Hok) as (H1 & H2 & H3 & H4).
  { rewrite Hi. unfold Zlength. rewrite Hl'. done. }
  rewrite Hi in H3, H4. unfold Zlength in H3. rewrite Hl' in H3, H4.
  change (0 + Z.of_nat 9) with 9 in H3. change (Z.to_nat 0 + 9)%nat with 9%nat in H4.
  change (take (Z.to_nat 0) (recv_log c)) with (@nil Z) in H4. cbn [app] in H4.
  rewrite ack_run_app. cbn [ack_run]. rewrite H1. cbn [app fst snd].
  set (c9 := (ack_run l' c).2) in *.
  assert (recv_index (log_packet sn c9) = RECV_ACK_INT) as Hidx.
  { cbn. rewrite next_recv_index_step by apply H2. by rewrite H3. }
  assert (recv_log (log_packet sn c9) = map htobe32 (l' ++ [sn])) as Hlog.
  { cbn. rewrite next_recv_index_step by apply H2. rewrite H3, H4.
    change (Z.to_nat (9 + 1 - 1)) with 9%nat. rewrite map_app.
    assert (length (drop 9 (recv_log c)) = 1%nat) as Hd.
    { rewrite length_drop. destruct Hok as [_ Hlen _]. rewrite Hlen. done. }
    destruct (drop 9 (recv_log c)) as [|y [|z ys]]; try done.
    rewrite insert_app_r_alt by (rewrite length_map, Hl'; done).
    rewrite length_map, Hl'. done. }
  unfold due_ack. rewrite Hidx, Z.eqb_refl, Hlog, ack_packet_bytes.
  split; [done|]. split; [by apply log_and_reset_upd|].
  unfold log_and_reset. by rewrite Hidx, Z.eqb_refl.
Qed.

Lemma full_chunks_short {A} k (l : list A) : (length l < k)%nat -> full_chunks k l = [].
Proof. intros H. unfold full_chunks. by rewrite Nat.div_small. Qed.

Lemma full_chunks_cons {A} k (l : list A) :
  (0 < k)%nat -> (k <= length l)%nat ->
  full_chunks k l = take k l :: full_chunks k (drop k l).
Proof.
  intros Hk Hl. unfold full_chunks.
  assert (length l / k = S (length (drop k l) / k))%nat as ->.
  { rewrite length_drop. replace (length l) with (1 * k + (length l - k))%nat at 1 by lia.
    rewrite Nat.div_add_l by lia. lia. }
  cbn [seq map]. rewrite Nat.mul_0_l, drop_0. f_equal.
  rewrite <- seq_shift, map_map. apply map_ext. intros i. by rewrite drop_drop.
Qed.

Lemma ack_run_chunks l c :
  conn_ok c -> recv_index c = 0 -> (ack_run l c).1 = map ack_bytes (full_chunks ACK_EVERY l).
Proof.
  remember (length l) as n eqn:Hn. revert l c Hn.
  induction (lt_wf n) as [n _ IH]. intros l c -> Hok Hi.
  destruct (Nat.lt_ge_cases (length l) ACK_EVERY) as [Hlt|Hge].
  - rewrite full_chunks_short by done. apply ack_run_partial; [done|].
    rewrite Hi. rewrite ACK_EVERY_eq in Hlt. unfold RECV_ACK_INT, Zlength. lia.
  - rewrite full_chunks_cons by (done || rewrite ACK_EVERY_eq; lia).
    rewrite <- (take_drop ACK_EVERY l) at 1. rewrite ack_run_app.
    destruct (ack_run_block (take ACK_EVERY l) c) as (H1 & H2 & H3); [done|done|rewrite length_take; lia|].
    rewrite H1. cbn [app map fst]. f_equal. eapply IH; [|reflexivity|done|done].
    rewrite length_drop, ACK_EVERY_eq in *. lia.
Qed.

(** ** The handler *)

(** The datagrams that carry the ACKs, with what [sendto] returned for each,
    newest first as in the log. *)
Definition ack_datagrams (dst : sockaddr_storage) (acks : list (list byte)) (rets : list Z) : list io :=
  rev (zip_with (fun a r => IoSendto dst a r) acks rets).

Section Stream.
Context {os : OS} {hc : HandlerConfig}.

Lemma register_stream gp cp sns g c w :
  inv w -> lookup_group gp (groups w) = Some g -> lookup_conn cp (connections g) = Some c ->
  exists w' rets, mfor sns (register_packet gp cp) w = Done tt w' /\ inv w' /\
    length rets = length (ack_run sns c).1 /\
    trace w' = ack_datagrams (address c) (map pad_payload (ack_run sns c).1) rets ++ trace w.
Proof.
  revert g c w. induction sns as [|sn sns IH]; intros g c w Hi Hg Hc; [by exists w, []|].
  destruct (wp_total (register_packet gp cp sn) (fun _ w' => stable w w' /\
     groups w' = on_group gp (fun g => g <| connections ::= on_conn cp (log_and_reset sn) |>) (groups w) /\
     (forall ack, due_ack sn c = Some ack ->
        exists ret, trace w' = IoSendto (address c) (pad_payload ack) ret :: trace w) /\
     (due_ack sn c = None -> trace w' = trace w)) w) as ([] & w1 & E1 & [S1 (G1 & T1 & T2)]).
  { eapply wp_register_packet; [done|exact Hg|exact Hc|]. done. }
  assert (forall c, c_ptr (log_and_reset sn c) = c_ptr c) as Hp by (intros x; apply log_and_reset_upd).
  destruct (IH (g <| connections ::= on_conn cp (log_and_reset sn) |>) (log_and_reset sn c) w1)
    as (w' & rets & E' & Hi' & Hlen & Ht).
  { apply S1. }
  { rewrite G1. by apply lookup_on_group. }
  { cbn. by apply lookup_on_conn. }
  assert (address (log_and_reset sn c) = address c) as Ha by apply log_and_reset_upd.
  rewrite Ha in Ht. cbn [mfor ack_run]. destruct (ack_run sns (log_and_reset sn c)) as [acks c'].
  cbn [fst] in *. destruct (due_ack sn c) as [a|].
  - destruct (T1 a eq_refl) as (ret & Htr). exists w', (ret :: rets).
    rewrite (bind_done _ _ _ _ _ E1). split; [done|]. split; [done|]. split; [cbn; by rewrite Hlen|].
    rewrite Ht, Htr. unfold ack_datagrams. cbn [map zip_with rev]. rewrite <- (assoc_L (++)). done.
  - exists w', rets. rewrite (bind_done _ _ _ _ _ E1). split; [done|]. split; [done|].
    split; [done|]. by rewrite Ht, T2.
Qed.

Lemma pad_ack_bytes l : length l = ACK_EVERY -> pad_payload (ack_bytes l) = ack_bytes l.
Proof.
  intros Hl. unfold pad_payload. rewrite (proj2 (Z.leb_le _ _)); [done|].
  unfold ack_bytes, Zlength. rewrite !length_app. cbn [length be16_bytes].
  assert (length (concat (map be32_bytes l)) = 4 * length l)%nat as ->.
  { clear. induction l as [|x l IH]; [done|]. cbn [map concat]. rewrite length_app, IH. cbn. lia. }
  rewrite Hl, ACK_EVERY_eq. unfold PAD_LEN. lia.
Qed.

Lemma full_chunks_length {A} k (l x : list A) : (0 < k)%nat -> x ∈ full_chunks k l -> length x = k.
Proof.
  intros Hk Hx. apply list_elem_of_fmap in Hx as (i & -> & Hi). apply elem_of_seq in Hi.
  rewrite length_take, length_drop.
  assert (S i * k <= length l)%nat; [|lia].
  transitivity (length l / k * k)%nat; [apply Nat.mul_le_mono_r; lia|].
  rewrite Nat.mul_comm. apply Nat.Div0.mul_div_le.
Qed.

(** C18: the ACK stream.  When packets with sequence numbers [sns] are
    registered on a connection with a fresh index, the receiver sends exactly
    one ACK for every complete block of ten, to that connection's address,
    holding the block's ten numbers in order, and nothing else. *)
Theorem ack_stream gp cp sns g c w :
  inv w -> lookup_group gp (groups w) = Some g -> lookup_conn cp (connections g) = Some c ->
  recv_index c = 0 ->
  exists w' rets, mfor sns (register_packet gp cp) w = Done tt w' /\ inv w' /\
    length rets = length (full_chunks ACK_EVERY sns) /\
    trace w' = ack_datagrams (address c) (map ack_bytes (full_chunks ACK_EVERY sns)) rets ++ trace w.
Proof.
  intros Hi Hg Hc Hidx. destruct (register_stream gp cp sns g c w Hi Hg Hc) as (w' & rets & E & Hi' & Hl & Ht).
  assert (conn_ok c) as Hok.
  { apply lookup_group_elem in Hg as [Hg _]. apply find_first_Some in Hc as [Hc _].
    destruct Hi as [[_ _ Hgs _ _] _]. rewrite Forall_forall in Hgs.
    destruct (Hgs g Hg) as [_ _ _ _ Hcs _]. rewrite Forall_forall in Hcs. by apply Hcs. }
  rewrite ack_run_chunks in Hl, Ht by done. rewrite length_map in Hl.
  exists w', rets. split; [done|]. split; [done|]. split; [done|]. rewrite Ht. do 2 f_equal.
  rewrite map_map. apply map_ext_in. intros l Hin%list_elem_of_In. apply pad_ack_bytes.
  eapply full_chunks_length; [|exact Hin]. rewrite ACK_EVERY_eq. lia.
Qed.
End Stream.

Lemma ack_stream_witness :
  exists w' rets, mfor (map Z.of_nat (seq 7 25)) (@register_packet os0 0 1) w_connected = Done tt w' /\
    inv w' /\ length rets = length (full_chunks ACK_EVERY (map Z.of_nat (seq 7 25))) /\
    trace w' = ack_datagrams (address (first_conn w_connected))
      (map ack_bytes (full_chunks ACK_EVERY (map Z.of_nat (seq 7 25)))) rets ++ trace w_connected.
Proof.
  apply (@ack_stream os0 0 1 (map Z.of_nat (seq 7 25)) (first_group w_connected)
    (first_conn w_connected) w_connected).
  - exact connected_inv.
  - vm_compute. reflexivity.
  - vm_compute. reflexivity.
  - vm_compute. reflexivity.
Defined.
