(* ===== verification/Relay.v ===== *)
(** * Relaying between the SRT server and the clients

    [handle_srt_data] and [forward_to_srt_server] (src/protocol/srt_handler.cpp):
    what goes to whom, and when a group is given up. *)

From stdpp Require Import list gmap.
From S2P Require Import Prelude Config Wire NetUtils AuthRateLimiter Connection World Registry.
From S2P Require Import Quality SrtHandler SrtlaHandler MainLoop Hoare Invariant.
From S2P Require Import RegistryProofs QualityProofs HandlerProofs Scenario LoopProofs.

#[local] Arguments on_group : simpl never.

Lemma all_addresses w g :
  inv w -> g ∈ groups w ->
  take (Z.to_nat MAX_CONNS_PER_GROUP) (map address (connections g)) = map address (connections g).
Proof.
  intros [[_ _ Hok _ _] _] Hg. rewrite Forall_forall in Hok. destruct (Hok g Hg) as [_ Hn _ _ _ _].
  apply take_ge. rewrite length_map. unfold Zlength, MAX_CONNS_PER_GROUP in *. lia.
Qed.

(** ACKs and NAKs are neither handshakes nor shutdowns. *)
Lemma ack_nak_no_auth g buf n :
  is_srt_ack buf n || is_srt_nak buf n = true -> auth_failed g buf n = false.
Proof.
  unfold is_srt_ack, is_srt_nak, auth_failed, is_srt_handshake_reject, is_srt_shutdown.
  intros H. assert (get_srt_type buf n = SRT_TYPE_ACK \/ get_srt_type buf n = SRT_TYPE_NAK) as [E|E]
    by (apply orb_true_iff in H as [H|H]; apply Z.eqb_eq in H; auto);
    rewrite E; destruct (n <? SIZEOF_SRT_HANDSHAKE); done.
Qed.

Section Relay.
Context {os : OS} {hc : HandlerConfig}.

(** The state in which a packet is looked at. *)
Lemma received_run gp g buf w :
  lookup_group gp (groups w) = Some g -> os_recv (calls w) (srt_socket g) = Some buf ->
  SRT_MIN_LEN <= Zlength buf <= MTU ->
  exists w1, handle_srt_data gp w = handle_srt_packet gp buf (Zlength buf) w1 /\
    groups w1 = groups w /\ limiter w1 = limiter w /\ trace w1 = trace w /\ same_state w w1 /\
    (forall c, c <> SRT_PACKETS_RECEIVED -> c <> SRT_BYTES_RECEIVED -> counters w1 c = counters w c) /\
    calls w1 = S (calls w).
Proof.
  intros Hg Hrecv [Hmin Hmax].
  assert (take (Z.to_nat MTU) buf = buf) as Htk by (apply take_ge; unfold Zlength, MTU in *; lia).
  unfold handle_srt_data. rewrite (bind_done _ _ _ g w) by (unfold deref_group; by rewrite Hg).
  rewrite (bind_done _ _ _ (Some buf) (w <| calls ::= S |>))
    by (unfold recv, mbind, M_bind, next_call; rewrite Hrecv; cbn; by rewrite Htk).
  cbv zeta. cbn [default]. rewrite (proj2 (Z.leb_le _ _) Hmin). cbn [when].
  rewrite (proj2 (Z.ltb_ge _ _) Hmin). erewrite bind_done by reflexivity.
  eexists. split; [reflexivity|]. split_and!; try done.
  intros c H1 H2. cbn. by rewrite !decide_False.
Qed.

Lemma relay_to_clients_run g buf n w :
  exists w' ret, relay_to_clients g buf n w = Done tt w' /\
    trace w' = IoSendmmsg (take (Z.to_nat MAX_CONNS_PER_GROUP) (map address (connections g))) buf ret
               :: trace w /\
    groups w' = groups w /\ limiter w' = limiter w.
Proof.
  unfold relay_to_clients, sendmmsg, mbind, M_bind, next_call, emit, modify, mret, M_ret.
  set (dsts := take _ _). destruct (_ <? 0); [by eexists _, _|].
  destruct (_ <? Zlength dsts); by eexists _, _.
Qed.

Lemma relay_to_last_run g buf n w :
  exists w' ret, relay_to_last g buf n w = Done tt w' /\
    trace w' = IoSendto (last_address g) (pad_payload buf) ret :: trace w /\
    same_state w w' /\ limiter w' = limiter w /\
    (forall c, c <> SEND_ERR_DOWNSTREAM -> counters w' c = counters w c).
Proof.
  unfold relay_to_last, pad_sendto, sendto, mbind, M_bind, next_call, emit, modify, mret, M_ret, when.
  destruct (negb _); eexists _, _; (split; [reflexivity|]); (split; [reflexivity|]); repeat split.
  intros c Hc. cbn. by rewrite decide_False.
Qed.

(** C22: an SRT ACK or NAK from the server goes, unmodified and in one
    [sendmmsg], to every connection of the group (never more than the vector
    holds), and to nobody else; an ACK also marks the group established.
    Nothing else of the registry changes. *)
Theorem server_ack_broadcast gp g buf w :
  inv w -> lookup_group gp (groups w) = Some g -> connections g <> [] ->
  os_recv (calls w) (srt_socket g) = Some buf -> SRT_MIN_LEN <= Zlength buf <= MTU ->
  is_srt_ack buf (Zlength buf) || is_srt_nak buf (Zlength buf) = true ->
  exists w' ret, handle_srt_data gp w = Done tt w' /\
    trace w' = IoSendmmsg (map address (connections g)) buf ret :: trace w /\
    groups w' = (if is_srt_ack buf (Zlength buf)
                 then on_group gp (fun g => g <| established := true |>) (groups w) else groups w) /\
    limiter w' = limiter w.
Proof.
  intros Hi Hg Hne Hrecv Hlen Htype.
  destruct (received_run gp g buf w Hg Hrecv Hlen) as (w1 & -> & G1 & L1 & T1 & _).
  set (n := Zlength buf) in *. unfold handle_srt_packet.
  set (g' := if is_srt_ack buf n then g <| established := true |> else g).
  set (w2 := if is_srt_ack buf n then w1 <| groups ::= on_group gp (fun g => g <| established := true |>) |> else w1).
  rewrite (bind_done _ _ _ tt w2) by (unfold w2; by destruct (is_srt_ack buf n)).
  assert (lookup_group gp (groups w2) = Some g') as Hg2.
  { unfold w2, g'. destruct (is_srt_ack buf n); cbn; rewrite G1; [by apply lookup_on_group|done]. }
  rewrite (bind_done _ _ _ g' w2) by (unfold deref_group; by rewrite Hg2).
  rewrite (ack_nak_no_auth g' buf n Htype), Htype. cbn [when].
  rewrite (bind_done _ _ _ tt w2) by done.
  assert (connections g' = connections g) as Ec by (unfold g'; by destruct (is_srt_ack buf n)).
  rewrite bool_decide_eq_false_2 by (by rewrite Ec). cbn [andb].
  destruct (relay_to_clients_run g' buf n w2) as (w3 & ret & E3 & T3 & G3 & L3).
  rewrite (bind_done _ _ _ _ _ E3). exists w3, ret. split; [done|].
  rewrite Ec, (all_addresses w g Hi) in T3 by (by eapply lookup_group_elem).
  rewrite T3, G3, L3. unfold w2. by destruct (is_srt_ack buf n); cbn; rewrite ?G1, ?T1, ?L1.
Qed.

(** ** Removal, exactly *)

Lemma destroy_group_run g w :
  exists w' pre, destroy_group g w = Done tt w' /\ groups w' = groups w /\
    trace w' = pre ++ trace w /\ limiter w' = limiter w /\ counters w' = counters w.
Proof.
  unfold destroy_group. destruct (0 <? srt_socket g); [|by exists w, []].
  assert (exists w1 pre, remove_socket_info_file g w = Done tt w1 /\ groups w1 = groups w /\
    trace w1 = pre ++ trace w /\ limiter w1 = limiter w /\ counters w1 = counters w)
    as (w1 & pre & E1 & G1 & T1 & L1 & C1).
  { unfold remove_socket_info_file. destruct (srt_socket g =? -1); [by exists w, []|]. by eexists _, [_]. }
  rewrite (bind_done _ _ _ _ _ E1). destruct (0 <=? epoll_fd g); cbn [when].
  - eexists _, ([IoClose (srt_socket g); IoEpollDel (srt_socket g)] ++ pre).
    split; [reflexivity|]. cbn. rewrite G1, T1, L1, C1. done.
  - eexists _, (IoClose (srt_socket g) :: pre).
    split; [reflexivity|]. cbn. rewrite G1, T1, L1, C1. done.
Qed.

Lemma srt_remove_group_run gp reason w :
  exists w' pre, srt_remove_group gp reason w = Done tt w' /\ groups w' = without gp (groups w) /\
    trace w' = pre ++ trace w /\ limiter w' = limiter w /\
    counters w' reason = u64 (counters w reason + 1) /\
    (forall c, c <> reason -> counters w' c = counters w c).
Proof.
  unfold srt_remove_group, remove_group. set (w1 := w <| counters ::= fun v c' =>
    if decide (c' = reason) then u64 (v reason + 1) else v c' |> <| groups := without gp (groups w) |>).
  assert (exists w' pre, (match lookup_group gp (groups w) with
      Some g => destroy_group g | None => skip end) w1 = Done tt w' /\ groups w' = groups w1 /\
      trace w' = pre ++ trace w1 /\ limiter w' = limiter w1 /\ counters w' = counters w1)
    as (w' & pre & E & G & T & L & C).
  { destruct (lookup_group gp (groups w)) as [g|]; [apply destroy_group_run|]. by exists w1, []. }
  exists w', pre. split; [exact E|]. rewrite G, T, L, C. unfold w1. cbn. rewrite decide_True by done.
  repeat split. intros c Hc. by rewrite decide_False.
Qed.

(** ** Packets for the last address *)

(** The clock the failure is dated by; zero when it cannot be read. *)
Definition clock_seconds (n : nat) : Z := default 0 (fst <$> os_clock_gettime n).

Lemma auth_record_run addr w :
  exists w', (now ← get_seconds; record_auth_failure addr (default 0 now)) w = Done tt w' /\
    limiter w' = record_failure addr (clock_seconds (calls w)) (limiter w) /\
    groups w' = groups w /\ trace w' = trace w /\
    counters w' AUTH_FAILURES = u64 (counters w AUTH_FAILURES + 1) /\
    (forall c, c <> AUTH_FAILURES -> counters w' c = counters w c).
Proof.
  eexists. split; [reflexivity|]. cbn. repeat split. intros c Hc. by rewrite decide_False.
Qed.

(** C23: a rejected handshake, or a shutdown before the group was
    established, is an authentication failure: it is charged to the host of
    the group's last address, at the time read after the packet, the client still gets the packet, and the group
    is removed. *)
Theorem server_rejects_client gp g buf w :
  lookup_group gp (groups w) = Some g ->
  os_recv (calls w) (srt_socket g) = Some buf -> SRT_MIN_LEN <= Zlength buf <= MTU ->
  auth_failed g buf (Zlength buf) = true ->
  exists w' pre ret, handle_srt_data gp w = Done tt w' /\
    limiter w' = record_failure (last_address g) (clock_seconds (S (calls w))) (limiter w) /\
    trace w' = pre ++ IoSendto (last_address g) (pad_payload buf) ret :: trace w /\
    groups w' = without gp (groups w) /\
    counters w' AUTH_FAILURES = u64 (counters w AUTH_FAILURES + 1) /\
    counters w' GROUPS_REMOVED_AUTH = u64 (counters w GROUPS_REMOVED_AUTH + 1).
Proof.
  intros Hg Hrecv Hlen Hauth.
  destruct (received_run gp g buf w Hg Hrecv Hlen) as (w1 & -> & G1 & L1 & T1 & _ & C1 & N1).
  set (n := Zlength buf) in *. unfold handle_srt_packet.
  assert (is_srt_ack buf n || is_srt_nak buf n = false) as Htype.
  { apply not_true_iff_false. intros H. apply (ack_nak_no_auth g) in H. congruence. }
  assert (is_srt_ack buf n = false) as Hack by (by apply orb_false_iff in Htype as [? _]).
  rewrite (bind_done _ _ _ tt w1) by (by rewrite Hack).
  rewrite (bind_done _ _ _ g w1) by (unfold deref_group; by rewrite G1, Hg).
  rewrite Hauth, Htype. cbn [when andb].
  destruct (auth_record_run (last_address g) w1) as (w2 & E2 & L2 & G2 & T2 & C2 & C2').
  rewrite (bind_done _ _ _ _ _ E2).
  destruct (relay_to_last_run g buf n w2) as (w3 & ret & E3 & T3 & (G3 & _) & L3 & C3).
  rewrite (bind_done _ _ _ _ _ E3).
  destruct (srt_remove_group_run gp GROUPS_REMOVED_AUTH w3) as (w' & pre & E' & G' & T' & L' & C' & C'').
  exists w', pre, ret. split; [done|]. rewrite <- N1, L', T', G', L3, T3, G3, L2, T2, G2, L1, T1, G1.
  split; [done|]. split; [done|]. split; [done|].
  split; [rewrite C'', C3, C2 by done|rewrite C', C3, C2' by done]; by rewrite C1.
Qed.

(** Any other server packet (data, handshake responses, a shutdown of an
    established session) goes to the last address the group was heard from
    and to nobody else, and leaves the registry as it was. *)
Theorem server_packet_to_last gp g buf w :
  lookup_group gp (groups w) = Some g ->
  os_recv (calls w) (srt_socket g) = Some buf -> SRT_MIN_LEN <= Zlength buf <= MTU ->
  is_srt_ack buf (Zlength buf) || is_srt_nak buf (Zlength buf) = false ->
  auth_failed g buf (Zlength buf) = false ->
  exists w' ret, handle_srt_data gp w = Done tt w' /\
    trace w' = IoSendto (last_address g) (pad_payload buf) ret :: trace w /\
    groups w' = groups w /\ limiter w' = limiter w.
Proof.
  intros Hg Hrecv Hlen Htype Hauth.
  destruct (received_run gp g buf w Hg Hrecv Hlen) as (w1 & -> & G1 & L1 & T1 & _).
  set (n := Zlength buf) in *. unfold handle_srt_packet.
  assert (is_srt_ack buf n = false) as Hack by (by apply orb_false_iff in Htype as [? _]).
  rewrite (bind_done _ _ _ tt w1) by (by rewrite Hack).
  rewrite (bind_done _ _ _ g w1) by (unfold deref_group; by rewrite G1, Hg).
  rewrite Hauth, Htype. cbn [when andb]. rewrite (bind_done _ _ _ tt w1) by done.
  destruct (relay_to_last_run g buf n w1) as (w2 & ret & E2 & T2 & (G2 & _) & L2 & _).
  rewrite (bind_done _ _ _ _ _ E2). exists w2, ret. by rewrite T2, G2, L2, T1, G1, L1.
Qed.

(** ** Towards the server *)

Lemma log_forward_drop_run w :
  exists b w', log_forward_drop w = Done b w' /\ groups w' = groups w /\ trace w' = trace w /\
    counters w' = counters w.
Proof.
  unfold log_forward_drop, get_ms, mbind, M_bind, next_call, modify, gets, mret, M_ret. cbn.
  destruct (os_clock_gettime (calls w)) as [ts|]; cbn; [|by eexists _, _].
  destruct (_ && _); by eexists _, _.
Qed.

(** What forwarding does, by what [send] returned. *)
Definition forward_outcome (gp : nat) (buf : list byte) (answer : Z * Z)
  (w : world) (r : bool) (w' : world) : Prop :=
  let '(ret, err) := answer in
  if ret =? Zlength buf then
    r = true /\ groups w' = groups w /\
    counters w' FORWARDED_PACKETS = u64 (counters w FORWARDED_PACKETS + 1) /\
    counters w' FORWARDED_BYTES = u64 (counters w FORWARDED_BYTES + Zlength buf)
  else if (ret <? 0) && bool_decide (err ∈ [EAGAIN; EWOULDBLOCK; ENOBUFS; EINTR]) then
    r = true /\ groups w' = groups w /\
    counters w' FORWARD_DROPPED = u64 (counters w FORWARD_DROPPED + 1)
  else
    r = false /\ groups w' = without gp (groups w) /\
    counters w' FORWARD_ERRORS = u64 (counters w FORWARD_ERRORS + 1) /\
    counters w' GROUPS_REMOVED_SRT_ERROR = u64 (counters w GROUPS_REMOVED_SRT_ERROR + 1).

Lemma transient_spec err :
  is_transient_forward_error err = bool_decide (err ∈ [EAGAIN; EWOULDBLOCK; ENOBUFS; EINTR]).
Proof.
  unfold is_transient_forward_error, EAGAIN, EWOULDBLOCK, ENOBUFS, EINTR.
  symmetry. case_bool_decide as H.
  - rewrite !elem_of_cons in H. destruct H as [->|[->|[->|[->|H]]]]; [done..|by apply elem_of_nil in H].
  - apply not_elem_of_cons in H as [H1 H]. apply not_elem_of_cons in H as [_ H].
    apply not_elem_of_cons in H as [H2 H]. apply not_elem_of_cons in H as [H3 _].
    symmetry. apply orb_false_iff. split; [apply orb_false_iff; split|]; by apply Z.eqb_neq.
Qed.

Lemma forward_run gp g buf w :
  lookup_group gp (groups w) = Some g -> 0 <= srt_socket g ->
  exists r w' pre, forward_to_srt_server gp buf w = Done r w' /\
    trace w' = pre ++ IoSend (srt_socket g) buf (os_send (calls w) (srt_socket g) buf).1 :: trace w /\
    (r = true -> pre = []) /\
    forward_outcome gp buf (os_send (calls w) (srt_socket g) buf) w r w'.
Proof.
  intros Hg Hs. unfold forward_to_srt_server.
  assert (ensure_group_socket gp w = Done true w) as E1.
  { unfold ensure_group_socket. rewrite (bind_done _ _ _ g w) by (unfold deref_group; by rewrite Hg).
    by rewrite (proj2 (Z.leb_le _ _) Hs). }
  rewrite (bind_done _ _ _ _ _ E1). cbn [negb].
  rewrite (bind_done _ _ _ g w) by (unfold deref_group; by rewrite Hg).
  set (answer := os_send (calls w) (srt_socket g) buf).
  set (w1 := w <| calls ::= S |> <| trace ::= cons (IoSend (srt_socket g) buf answer.1) |>).
  rewrite (bind_done _ _ _ answer w1) by done. destruct answer as [ret err] eqn:Ea. unfold forward_outcome.
  destruct (ret =? Zlength buf); [|rewrite transient_spec; destruct (_ && _)].
  - eexists _, _, []. by repeat split.
  - destruct (log_forward_drop_run (w1 <| counters ::= fun v c' =>
      if decide (c' = FORWARD_DROPPED) then u64 (v FORWARD_DROPPED + 1) else v c' |>))
      as (b & w2 & E2 & G2 & T2 & C2).
    exists true, w2, []. split; [|by rewrite G2, T2, C2; cbn; rewrite decide_True].
    erewrite bind_done by reflexivity. by rewrite (bind_done _ _ _ _ _ E2).
  - destruct (srt_remove_group_run gp GROUPS_REMOVED_SRT_ERROR (w1 <| counters ::= fun v c' =>
      if decide (c' = FORWARD_ERRORS) then u64 (v FORWARD_ERRORS + 1) else v c' |>))
      as (w2 & pre & E2 & G2 & T2 & _ & C2 & C2').
    exists false, w2, pre. split; [erewrite bind_done by reflexivity; by rewrite (bind_done _ _ _ _ _ E2)|].
    split; [by rewrite T2|]. split; [done|]. split; [done|]. split; [by rewrite G2|].
    split; [rewrite C2' by done; cbn; by rewrite decide_True|rewrite C2; cbn; by rewrite decide_False].
Qed.

(** C21: forwarding on an open socket.  The datagram is sent once, unmodified;
    a complete send is counted, a transient error (EAGAIN, EWOULDBLOCK,
    ENOBUFS, EINTR) drops the packet and keeps the group, and any other
    outcome removes exactly that group, which is what the result reports. *)
Theorem forward_spec gp g buf w :
  lookup_group gp (groups w) = Some g -> 0 <= srt_socket g ->
  exists r w' pre, forward_to_srt_server gp buf w = Done r w' /\
    trace w' = pre ++ IoSend (srt_socket g) buf (os_send (calls w) (srt_socket g) buf).1 :: trace w /\
    (r = true -> pre = []) /\
    forward_outcome gp buf (os_send (calls w) (srt_socket g) buf) w r w'.
Proof. apply forward_run. Qed.
End Relay.

(** ** The theorems on the session *)

(** A server packet of the given type. *)
Definition server_packet (type : Z) : list byte := be16_bytes type ++ replicate 30 Byte.x00.
Definition os_serving (type : Z) : OS := sample_os 1000 send_all (Some (server_packet type)).

Lemma server_ack_broadcast_witness :
  exists w' ret, @handle_srt_data (os_serving SRT_TYPE_ACK) 0 w_joined = Done tt w' /\
    trace w' = IoSendmmsg (map address (connections (first_group w_joined)))
                 (server_packet SRT_TYPE_ACK) ret :: trace w_joined /\
    groups w' = (if is_srt_ack (server_packet SRT_TYPE_ACK) (Zlength (server_packet SRT_TYPE_ACK))
                 then on_group 0 (fun g => g <| established := true |>) (groups w_joined)
                 else groups w_joined) /\
    limiter w' = limiter w_joined.
Proof.
  apply (@server_ack_broadcast (os_serving SRT_TYPE_ACK)).
  - exact joined_inv.
  - vm_compute. reflexivity.
  - vm_compute. discriminate.
  - vm_compute. reflexivity.
  - vm_compute. split; discriminate.
  - vm_compute. reflexivity.
Defined.

Lemma server_rejects_client_witness :
  exists w' pre ret, @handle_srt_data (os_serving SRT_TYPE_SHUTDOWN) 0 w_joined = Done tt w' /\
    limiter w' = record_failure (last_address (first_group w_joined))
                   (@clock_seconds (os_serving SRT_TYPE_SHUTDOWN) (S (calls w_joined))) (limiter w_joined) /\
    trace w' = pre ++ IoSendto (last_address (first_group w_joined))
                        (pad_payload (server_packet SRT_TYPE_SHUTDOWN)) ret :: trace w_joined /\
    groups w' = without 0 (groups w_joined) /\
    counters w' AUTH_FAILURES = u64 (counters w_joined AUTH_FAILURES + 1) /\
    counters w' GROUPS_REMOVED_AUTH = u64 (counters w_joined GROUPS_REMOVED_AUTH + 1).
Proof.
  apply (@server_rejects_client (os_serving SRT_TYPE_SHUTDOWN)).
  - vm_compute. reflexivity.
  - vm_compute. reflexivity.
  - vm_compute. split; discriminate.
  - vm_compute. reflexivity.
Defined.

Lemma server_packet_to_last_witness :
  exists w' ret, @handle_srt_data (os_serving 0) 0 w_joined = Done tt w' /\
    trace w' = IoSendto (last_address (first_group w_joined)) (pad_payload (server_packet 0)) ret
               :: trace w_joined /\
    groups w' = groups w_joined /\ limiter w' = limiter w_joined.
Proof.
  apply (@server_packet_to_last (os_serving 0)).
  - vm_compute. reflexivity.
  - vm_compute. reflexivity.
  - vm_compute. split; discriminate.
  - vm_compute. reflexivity.
  - vm_compute. reflexivity.
Defined.

Lemma forward_spec_witness :
  exists r w' pre, @forward_to_srt_server os0 sample_cfg 0 (data_packet 6) w_joined = Done r w' /\
    trace w' = pre ++ IoSend (srt_socket (first_group w_joined)) (data_packet 6)
      (@os_send os0 (calls w_joined) (srt_socket (first_group w_joined)) (data_packet 6)).1
      :: trace w_joined /\
    (r = true -> pre = []) /\
    forward_outcome 0 (data_packet 6)
      (@os_send os0 (calls w_joined) (srt_socket (first_group w_joined)) (data_packet 6)) w_joined r w'.
Proof.
  apply (@forward_spec os0 sample_cfg 0 (first_group w_joined) (data_packet 6) w_joined).
  - vm_compute. reflexivity.
  - vm_compute. discriminate.
Defined.
