(* ===== verification/DataPath.v ===== *)
(** * The path of a data packet

    [process_single_packet] (src/protocol/srtla_handler.cpp) on an SRT data
    packet of a registered connection, end to end; and the properties of the
    packet classes that steer it. *)

From stdpp Require Import list gmap.
From S2P Require Import Prelude Config Wire NetUtils NakDedup AuthRateLimiter Connection World.
From S2P Require Import Registry Quality SrtHandler SrtlaHandler MainLoop Hoare Invariant.
From S2P Require Import RegistryProofs QualityProofs HandlerProofs Scenario LoopProofs.
From S2P Require Import Registration AckStream Relay.

#[local] Arguments on_group : simpl never.
#[local] Arguments on_conn : simpl never.

(** ** Packet classes *)

(** Every packet is data or control, by its first bit. *)
Lemma data_not_control buf n :
  0 <= get_srt_sn buf n ->
  is_srtla_reg1 buf n = false /\ is_srtla_reg2 buf n = false /\
  is_srtla_keepalive buf n = false /\ is_srt_nak_packet buf n = false.
Proof.
  intros H. pose proof (data_packet_type buf n H) as Ht.
  unfold is_srtla_reg1, is_srtla_reg2, is_srtla_keepalive, is_srt_nak_packet.
  assert (forall t, 0x8000 <= t -> (get_srt_type buf n =? t) = false) as Hne
    by (intros t Hb; apply Z.eqb_neq; lia).
  rewrite !Hne by done. by repeat case_match.
Qed.

(** ** A live connection through a chain of updates *)

(** In [w], [gp] points to [g], which holds [c] as [cp]. *)
Definition points (gp cp : nat) (g : ConnectionGroup) (c : Connection) (w : world) : Prop :=
  inv w /\ lookup_group gp (groups w) = Some g /\ lookup_conn cp (connections g) = Some c.

Lemma points_update gp cp f g c w :
  points gp cp g c w -> (forall c, conn_upd c (f c)) ->
  points gp cp (g <| connections ::= on_conn cp f |>) (f c)
    (w <| groups ::= on_group gp (fun g => g <| connections ::= on_conn cp f |>) |>).
Proof.
  intros (Hi & Hg & Hc) Hf. split; [by apply stable_on_conn|]. split; cbn.
  - by apply lookup_on_group.
  - apply lookup_on_conn; [|done]. intros x. apply Hf.
Qed.

Lemma points_same gp cp g c w w' : same_state w w' -> points gp cp g c w -> points gp cp g c w'.
Proof.
  intros Hs (Hi & Hg & Hc). split; [by eapply inv_same|]. by rewrite (proj1 Hs).
Qed.

Lemma points_found gp cp g c w addr :
  points gp cp g c w -> addr_key (address c) = addr_key addr ->
  find_by_address addr (groups w) = Some (g, Some c).
Proof.
  intros (Hi & Hg & Hc) Ha. apply lookup_group_elem in Hg as [Hg _].
  apply find_first_Some in Hc as [Hc _]. by apply find_by_address_complete.
Qed.

(** A registered connection is well-formed. *)
Lemma conn_found_ok w g c :
  inv w -> lookup_group (g_ptr g) (groups w) = Some g -> lookup_conn (c_ptr c) (connections g) = Some c -> conn_ok c.
Proof.
  intros [[_ _ Hok _ _] _] Hg Hc. apply lookup_group_elem in Hg as [Hg _].
  apply find_first_Some in Hc as [Hc _]. rewrite Forall_forall in Hok.
  pose proof (go_conn_ok g (Hok g Hg)) as Hco. rewrite Forall_forall in Hco. by apply Hco.
Qed.

Section DataPath.
Context {os : OS} {hc : HandlerConfig} {so : StdinOpen}.

(** The ACK the packet completes, as the datagram that carries it. *)
Definition ack_sent (sn : Z) (c : Connection) (io : list io) : Prop :=
  match due_ack sn c with
  | Some ack => exists ret, io = [IoSendto (address c) (pad_payload ack) ret]
  | None => io = []
  end.

(** [send] took the packet whole, or failed for a passing reason. *)
Definition survives (buf : list byte) (answer : Z * Z) : bool :=
  (answer.1 =? Zlength buf) || ((answer.1 <? 0) && bool_decide (answer.2 ∈ [EAGAIN; EWOULDBLOCK; ENOBUFS; EINTR])).

Lemma forward_survives gp buf answer w r w' :
  forward_outcome gp buf answer w r w' ->
  r = survives buf answer /\ groups w' = (if survives buf answer then groups w else without gp (groups w)).
Proof.
  unfold forward_outcome, survives. destruct answer as [ret err]. cbn [fst snd].
  destruct (ret =? Zlength buf); cbn [orb]; [by intros (-> & -> & _)|].
  destruct (_ && _); by intros (-> & -> & _).
Qed.

Lemma without_on_group gp f gs :
  (forall g, g_ptr (f g) = g_ptr g) -> without gp (on_group gp f gs) = without gp gs.
Proof.
  intros Hf. unfold without, on_group. induction gs as [|g gs IH]; [done|]. cbn [map].
  destruct (decide (g_ptr g = gp)) as [E|E]; rewrite !filter_cons.
  - rewrite !decide_False by (rewrite ?Hf; auto). done.
  - rewrite !decide_True by done. by rewrite IH.
Qed.

(** Logging a packet asks the kernel for the datagram of the ACK only. *)
Lemma register_packet_calls gp cp sn g c w w' :
  lookup_group gp (groups w) = Some g -> lookup_conn cp (connections g) = Some c ->
  register_packet gp cp sn w = Done tt w' ->
  calls w' = (calls w + (if due_ack sn c is Some _ then 1 else 0))%nat.
Proof.
  intros Hg Hc. unfold register_packet, modify_conn at 1, modify_group at 1. erewrite bind_done by reflexivity.
  set (w1 := w <| groups ::= _ |>).
  assert (lookup_group gp (groups w1) = Some (g <| connections ::= on_conn cp (log_packet sn) |>)) as Hg1
    by (by apply lookup_on_group).
  assert (lookup_conn cp (on_conn cp (log_packet sn) (connections g)) = Some (log_packet sn c)) as Hc1
    by (by apply lookup_on_conn).
  assert (deref_conn gp cp w1 = Done (log_packet sn c) w1) as E1.
  { unfold deref_conn. rewrite (bind_done _ _ _ (g <| connections ::= on_conn cp (log_packet sn) |>) w1)
      by (unfold deref_group; by rewrite Hg1).
    cbn [connections upd]. by rewrite Hc1. }
  rewrite (bind_done _ _ _ _ _ E1). unfold due_ack.
  destruct (_ =? RECV_ACK_INT); [|intros E; injection E as <-; cbn; lia].
  unfold pad_sendto, sendto, modify_conn, modify_group, inc, emit, next_call, when, skip, modify, mbind, M_bind, mret, M_ret.
  destruct (negb _); intros E; injection E as <-; cbn; lia.
Qed.

Lemma ack_sent_length sn c acks :
  ack_sent sn c acks -> length acks = (if due_ack sn c is Some _ then 1 else 0)%nat.
Proof. unfold ack_sent. destruct (due_ack sn c); [by intros (ret & ->)|by intros ->]. Qed.

Lemma register_packet_run gp cp sn g c w :
  points gp cp g c w ->
  exists w' acks, register_packet gp cp sn w = Done tt w' /\
    groups w' = on_group gp (fun g => g <| connections ::= on_conn cp (log_and_reset sn) |>) (groups w) /\
    inv w' /\ ack_sent sn c acks /\ trace w' = acks ++ trace w /\ calls w' = (calls w + length acks)%nat.
Proof.
  intros (Hi & Hg & Hc).
  destruct (wp_total (register_packet gp cp sn) (fun _ w' =>
     groups w' = on_group gp (fun g => g <| connections ::= on_conn cp (log_and_reset sn) |>) (groups w) /\
     inv w' /\ exists acks, ack_sent sn c acks /\ trace w' = acks ++ trace w) w)
    as ([] & w' & E & G & Hi' & acks & A & T).
  { eapply wp_register_packet; [done|exact Hg|exact Hc|]. intros w' [Hi' _] G T1 T2. split; [done|]. split; [done|].
    unfold ack_sent. destruct (due_ack sn c) as [ack|].
    - destruct (T1 ack eq_refl) as (ret & T). by exists [IoSendto (address c) (pad_payload ack) ret]; split; [exists ret|].
    - exists []. split; [done|]. by apply T2. }
  exists w', acks. split_and!; try done.
  by rewrite (register_packet_calls gp cp sn g c w w' Hg Hc E), (ack_sent_length _ _ _ A).
Qed.

Lemma handle_data_run gp cp g c buf addr ts w :
  points gp cp g c w -> addr_key (address c) = addr_key addr ->
  let sn := get_srt_sn buf (Zlength buf) in
  0 <= sn -> 0 <= srt_socket g ->
  exists w' g' acks pre, let answer := os_send (calls w + length acks)%nat (srt_socket g) buf in
    handle_data gp cp buf (Zlength buf) addr ts w = Done tt w' /\ ack_sent sn c acks /\
    trace w' = pre ++ IoSend (srt_socket g) buf answer.1 :: acks ++ trace w /\
    data_seen g' = true /\ last_address g' = addr /\ srt_socket g' = srt_socket g /\
    without gp (groups w') = without gp (groups w) /\
    (if survives buf answer
     then pre = [] /\ find_by_address addr (groups w') =
       Some (g', Some (log_and_reset sn (c <| stats ::= on_packet_received (Zlength buf) |>)))
     else groups w' = without gp (groups w)).
Proof.
  intros Hpt Ha sn Hsn Hs. unfold handle_data.
  destruct (data_not_control buf (Zlength buf) Hsn) as (_ & _ & _ & Hnak).
  set (mark := fun g : ConnectionGroup => g <| data_seen := true |> <| last_address := addr |>).
  set (w1 := w <| groups ::= on_group gp mark |>). rewrite (bind_done _ _ _ tt w1) by done.
  assert (points gp cp (mark g) c w1) as P1.
  { destruct Hpt as (Hi & Hg & Hc). split; [|split; [by apply lookup_on_group|done]].
    apply (stable_set_last gp addr mark); [done| |by left]. exists g. split; [done|].
    apply (has_conn_owned cp). by exists c. }
  set (f := fun c => c <| stats ::= on_packet_received (Zlength buf) |>).
  assert (forall c, conn_upd c (f c)) as Hf
    by (intros x; apply conn_upd_simple; try done; apply on_packet_received_ok).
  pose proof (points_update gp cp f (mark g) c w1 P1 Hf) as P2.
  set (w2 := w1 <| groups ::= _ |>) in P2. rewrite (bind_done _ _ _ tt w2) by done.
  rewrite (bind_done _ _ _ true w2) by (unfold account_nak; by rewrite Hnak). cbn [negb].
  fold sn. rewrite (proj2 (Z.leb_le _ _) Hsn). cbn [when].
  set (g2 := mark g <| connections ::= on_conn cp f |>) in *. destruct P2 as (Hi2 & Hg2 & Hc2).
  destruct (register_packet_run gp cp sn g2 (f c) w2) as (w3 & acks & E3 & G3 & Hi3 & A3 & T3 & Hn); [done|].
  rewrite (bind_done _ _ _ _ _ E3).
  set (g3 := g2 <| connections ::= on_conn cp (log_and_reset sn) |>).
  assert (lookup_group gp (groups w3) = Some g3) as Hg3 by (rewrite G3; by apply lookup_on_group).
  assert (without gp (groups w3) = without gp (groups w)) as Hw3.
  { rewrite G3. unfold w2, w1. cbn [groups upd]. by rewrite !without_on_group. }
  change (calls w2) with (calls w) in Hn.
  destruct (forward_run gp g3 buf w3 Hg3 Hs) as (r & w' & pre & E4 & T4 & Hpre & Hout).
  rewrite (bind_done _ _ _ _ _ E4). rewrite Hn in *. apply forward_survives in Hout as [-> G4].
  change (srt_socket g3) with (srt_socket g) in *.
  exists w', g3, acks, pre. cbv zeta. split; [done|]. split; [exact A3|]. split; [by rewrite T4, T3|].
  split; [done|]. split; [done|]. split; [done|]. rewrite G4.
  destruct (survives buf _); rewrite Hw3; (split; [|auto]); [done| |].
  - split; [by apply Hpre|]. apply (points_found gp cp _ _ w3).
    2: { change (address c) with (address (f c)) in Ha. rewrite <- Ha. f_equal. apply log_and_reset_upd. }
    split; [done|]. split; [done|]. cbn. apply lookup_on_conn; [intros x; apply log_and_reset_upd|done].
  - unfold without. by rewrite list_filter_filter_l by done.
Qed.

(** The connection after a packet at time [ts]: heard from now, and in
    recovery when it had been silent for longer than the timeout. *)
Definition heard (ts : Z) (c : Connection) : Connection :=
  let c1 := c <| last_received := ts |> in
  if (recovery_start c =? 0) && (last_received c + CONN_TIMEOUT <? ts)
  then c1 <| recovery_start := ts |> else c1.

Lemma seq_done {A} (m1 m2 : M unit) (k : M A) w w' :
  (m1;; m2) w = Done tt w' -> (m1;; m2;; k) w = k w'.
Proof. unfold mbind, M_bind. destruct (m1 w); [|done]. by intros ->. Qed.

Lemma heard_run gp cp g c ts w :
  points gp cp g c w ->
  exists w2 g2, (modify_conn gp cp (fun c => c <| last_received := ts |>);;
     when ((recovery_start c =? 0) && (last_received c + CONN_TIMEOUT <? ts))
       (modify_conn gp cp (fun c => c <| recovery_start := ts |>);; inc RECOVERY_STARTED)) w = Done tt w2 /\
    points gp cp g2 (heard ts c) w2 /\ srt_socket g2 = srt_socket g /\ trace w2 = trace w /\ g_id g2 = g_id g /\
    calls w2 = calls w /\ without gp (groups w2) = without gp (groups w).
Proof.
  intros P0. set (f1 := fun c : Connection => c <| last_received := ts |>).
  pose proof (points_update gp cp f1 g c w P0 ltac:(intros x; by apply conn_upd_simple)) as P1.
  set (w1 := w <| groups ::= _ |>) in P1. set (g1 := g <| connections ::= _ |>) in P1.
  assert (O1 : without gp (groups w1) = without gp (groups w)) by (by apply (without_on_group gp _ (groups w))).
  rewrite (bind_done _ _ _ tt w1) by done. unfold heard. destruct (_ && _); [|by exists w1, g1].
  pose proof (points_update gp cp (fun c => c <| recovery_start := ts |>) g1 (f1 c) w1 P1
    ltac:(intros x; by apply conn_upd_simple)) as P2.
  eexists _, _. split; [reflexivity|]. split; [eapply points_same; [|exact P2]; done|].
  split_and!; try done. rewrite <- O1. by apply (without_on_group gp _ (groups w1)).
Qed.

Lemma data_packet_run buf addr ts w g c :
  inv w -> find_by_address addr (groups w) = Some (g, Some c) ->
  SRT_MIN_LEN <= Zlength buf -> 0 <= get_srt_sn buf (Zlength buf) -> 0 <= srt_socket g ->
  exists w' acks pre, let answer := os_send (calls w + length acks)%nat (srt_socket g) buf in
    process_single_packet buf (Zlength buf) addr ts w = Done tt w' /\
    ack_sent (get_srt_sn buf (Zlength buf)) c acks /\
    trace w' = pre ++ IoSend (srt_socket g) buf answer.1 :: acks ++ trace w /\
    without (g_ptr g) (groups w') = without (g_ptr g) (groups w) /\
    (if survives buf answer
     then pre = [] /\ exists g' c', find_by_address addr (groups w') = Some (g', Some c') /\
       c' = log_and_reset (get_srt_sn buf (Zlength buf))
              (heard ts c <| stats ::= on_packet_received (Zlength buf) |>) /\
       data_seen g' = true /\ last_address g' = addr /\ srt_socket g' = srt_socket g
     else groups w' = without (g_ptr g) (groups w)).
Proof.
  intros Hi Hf Hlen Hsn Hs. destruct (find_by_address_conn _ _ _ _ Hi Hf) as (Hg & Hc & Ha).
  destruct (data_not_control buf (Zlength buf) Hsn) as (H1 & H2 & H3 & _).
  destruct (heard_run (g_ptr g) (c_ptr c) g c ts w ltac:(done)) as (w2 & g2 & E2 & P2 & S2 & T2 & _ & N2 & O2).
  assert (address (heard ts c) = address c) as Ea by (unfold heard; by destruct (_ && _)).
  destruct (handle_data_run (g_ptr g) (c_ptr c) g2 (heard ts c) buf addr ts w2 P2)
    as (w' & g' & acks & pre & E' & Hack & Ht & Hd & Hl & Hsk & Hw & Hout);
    [by rewrite Ea|done|by rewrite S2|].
  rewrite N2, S2 in *.
  exists w', acks, pre. cbv zeta. split.
  { unfold process_single_packet. rewrite H1, H2, H3, (bind_done _ _ _ (groups w) w), Hf by done.
    cbv zeta. rewrite (seq_done _ _ _ _ _ E2), (proj2 (Z.ltb_ge _ _) Hlen). done. }
  split.
  { unfold ack_sent in *. rewrite <- Ea.
    replace (due_ack (get_srt_sn buf (Zlength buf)) c)
      with (due_ack (get_srt_sn buf (Zlength buf)) (heard ts c)) by (unfold heard; by destruct (_ && _)).
    done. }
  split; [by rewrite Ht, T2|]. rewrite Hw, O2. split; [done|].
  destruct (survives buf _); [|by rewrite Hout, O2]. destruct Hout as [-> Hfd]. split; [done|].
  by eexists g', _.
Qed.

(** ** A stream of data packets *)

Definition seq_no (buf : list byte) : Z := get_srt_sn buf (Zlength buf).
Definition is_data (buf : list byte) : Prop := SRT_MIN_LEN <= Zlength buf /\ 0 <= seq_no buf.

#[export] Instance is_data_dec buf : Decision (is_data buf).
Proof. unfold is_data. apply _. Defined.

Definition forward_of (e : io) : option (Z * list byte * Z) :=
  if e is IoSend fd b ret then Some (fd, b, ret) else None.
Definition ack_of (e : io) : option (sockaddr_storage * list byte) :=
  if e is IoSendto dst b _ then Some (dst, b) else None.

(** ACKs depend on the log and its index only. *)
Definition same_log (c d : Connection) : Prop :=
  recv_index c = recv_index d /\ recv_log c = recv_log d.

Lemma due_ack_same sn c d : same_log c d -> due_ack sn c = due_ack sn d.
Proof. intros [E1 E2]. unfold due_ack, log_packet. cbn. by rewrite E1, E2. Qed.
Lemma log_and_reset_same sn c d : same_log c d -> same_log (log_and_reset sn c) (log_and_reset sn d).
Proof.
  intros [E1 E2]. unfold log_and_reset, log_packet, same_log. cbn. rewrite E1.
  destruct (_ =? RECV_ACK_INT); cbn; by rewrite E2.
Qed.
Lemma ack_run_same sns : forall c d, same_log c d -> (ack_run sns c).1 = (ack_run sns d).1.
Proof.
  induction sns as [|sn sns IH]; intros c d H; [done|]. cbn [ack_run].
  specialize (IH _ _ (log_and_reset_same sn c d H)). rewrite (due_ack_same sn c d H).
  destruct (ack_run sns (log_and_reset sn c)), (ack_run sns (log_and_reset sn d)). cbn in IH |- *. by rewrite IH.
Qed.

Section ServerUp.
(** The SRT server takes every datagram. *)
Hypothesis server_up : forall n fd b, (os_send n fd b).1 = Zlength b.

Lemma data_packet_taken buf addr ts w g c :
  inv w -> find_by_address addr (groups w) = Some (g, Some c) ->
  SRT_MIN_LEN <= Zlength buf -> 0 <= get_srt_sn buf (Zlength buf) -> 0 <= srt_socket g ->
  exists w' g' c' acks, process_single_packet buf (Zlength buf) addr ts w = Done tt w' /\
    find_by_address addr (groups w') = Some (g', Some c') /\
    trace w' = IoSend (srt_socket g) buf (Zlength buf) :: acks ++ trace w /\
    ack_sent (get_srt_sn buf (Zlength buf)) c acks /\
    c' = log_and_reset (get_srt_sn buf (Zlength buf))
           (heard ts c <| stats ::= on_packet_received (Zlength buf) |>) /\
    srt_socket g' = srt_socket g /\ inv w'.
Proof.
  intros Hi Hf Hlen Hsn Hs.
  destruct (data_packet_run buf addr ts w g c Hi Hf Hlen Hsn Hs) as (w' & acks & pre & E & Ha & Ht & _ & Hout).
  unfold survives in Hout. rewrite server_up in Hout, Ht. rewrite Z.eqb_refl in Hout. cbn [orb] in Hout.
  destruct Hout as (-> & g' & c' & Hf' & Hc' & _ & _ & Hs').
  destruct (wp_done _ _ _ _ _ _ (wp_process_single_packet buf addr ts (fun _ _ => True) w Hi
    (fun _ _ _ => I)) E) as [Hi' _].
  by exists w', g', c', acks.
Qed.

Lemma data_stream addr ts bufs : forall w g c,
  inv w -> find_by_address addr (groups w) = Some (g, Some c) -> 0 <= srt_socket g -> Forall is_data bufs ->
  exists w' evs, mfor bufs (fun buf => process_single_packet buf (Zlength buf) addr ts) w = Done tt w' /\
    inv w' /\ trace w' = rev evs ++ trace w /\
    omap forward_of evs = map (fun b => (srt_socket g, b, Zlength b)) bufs /\
    omap ack_of evs = map (fun a => (address c, pad_payload a)) (ack_run (map seq_no bufs) c).1 /\
    Forall (fun e => is_Some (forward_of e) \/ is_Some (ack_of e)) evs.
Proof.
  induction bufs as [|b bufs IH]; intros w g c Hi Hf Hs Hb; [by exists w, []|].
  apply Forall_cons in Hb as [[Hlen Hsn] Hb].
  destruct (data_packet_taken b addr ts w g c Hi Hf Hlen Hsn Hs)
    as (w1 & g1 & c1 & acks & E1 & Hf1 & T1 & A1 & Ec & Hs1 & Hi1).
  destruct (IH w1 g1 c1 Hi1 Hf1) as (w2 & evs & E2 & Hi2 & T2 & F2 & A2 & K2); [by rewrite Hs1|done|].
  assert (Hlog : same_log c1 (log_and_reset (seq_no b) c)).
  { rewrite Ec. apply log_and_reset_same. unfold heard. by destruct (_ && _). }
  assert (Haddr : address c1 = address c).
  { rewrite Ec. etransitivity; [apply log_and_reset_upd|]. unfold heard. by destruct (_ && _). }
  exists w2, (rev acks ++ IoSend (srt_socket g) b (Zlength b) :: evs). split_and!.
  - cbn [mfor]. by rewrite (bind_done _ _ _ _ _ E1).
  - done.
  - rewrite T2, T1, rev_app_distr. cbn [rev]. rewrite rev_involutive, <- !app_assoc. done.
  - rewrite omap_app. cbn [omap list_omap forward_of map]. rewrite F2, Hs1.
    unfold ack_sent in A1. by destruct (due_ack _ c); [destruct A1 as (ret & ->)|rewrite A1].
  - rewrite omap_app. cbn [omap list_omap ack_of map ack_run]. rewrite A2, Haddr, (ack_run_same _ _ _ Hlog).
    unfold seq_no, ack_sent in *. destruct (ack_run _ (log_and_reset _ c)) as [acks' c'].
    by destruct (due_ack _ c); [destruct A1 as (ret & ->)|rewrite A1].
  - apply Forall_app. split; [|constructor; [left; by eexists|done]].
    unfold ack_sent in A1. destruct (due_ack _ c); [destruct A1 as (ret & ->)|rewrite A1; constructor].
    constructor; [right; by eexists|constructor].
Qed.

End ServerUp.

(** ** One packet *)

(** The connection [c'] after a packet of [len] bytes with sequence number
    [sn] was heard at [ts] and logged: its fields, one by one. *)
Record packet_logged (sn len ts : Z) (c c' : Connection) : Prop := {
  pl_heard : last_received c' = ts;
  pl_recovery : recovery_start c' =
    if (recovery_start c =? 0) && (last_received c + CONN_TIMEOUT <? ts) then ts else recovery_start c;
  pl_packets : packets_received (stats c') = u64 (packets_received (stats c) + 1);
  pl_bytes : bytes_received (stats c') = u64 (bytes_received (stats c) + len);
  pl_slot : recv_log c' !! Z.to_nat (recv_index c) = Some (htobe32 sn);
  pl_slots : forall k, k <> Z.to_nat (recv_index c) -> recv_log c' !! k = recv_log c !! k;
  pl_next : recv_index c' = (recv_index c + 1) mod RECV_ACK_INT;
  pl_address : address c' = address c
}.

Lemma log_and_reset_logged sn len ts c :
  conn_ok c -> packet_logged sn len ts c (log_and_reset sn (heard ts c <| stats ::= on_packet_received len |>)).
Proof.
  intros Hok. pose proof (co_index c Hok) as Hx. pose proof (co_log c Hok) as Hl.
  assert (Hh : recv_index (heard ts c) = recv_index c /\ recv_log (heard ts c) = recv_log c /\
    stats (heard ts c) = stats c /\ address (heard ts c) = address c /\ last_received (heard ts c) = ts)
    by (unfold heard; by destruct (_ && _)).
  assert (Hr : recovery_start (heard ts c) =
    if (recovery_start c =? 0) && (last_received c + CONN_TIMEOUT <? ts) then ts else recovery_start c)
    by (unfold heard; by destruct (_ && _)).
  destruct Hh as (H1 & H2 & H3 & H4 & H5). set (d := heard ts c <| stats ::= on_packet_received len |>).
  assert (Hd : recv_index (log_packet sn d) = recv_index c + 1).
  { cbn. rewrite H1. by apply next_recv_index_step. }
  assert (Hdl : recv_log (log_packet sn d) = <[Z.to_nat (recv_index c) := htobe32 sn]> (recv_log c)).
  { cbn. rewrite H1, H2, next_recv_index_step by done. do 2 f_equal. lia. }
  assert (Hz : forall x : Connection, packet_logged sn len ts c (x <| recv_index := (recv_index c + 1) mod RECV_ACK_INT |>) ->
    recv_index x = (recv_index c + 1) mod RECV_ACK_INT -> packet_logged sn len ts c x).
  { intros [] H E. cbn in E. rewrite <- E in H. exact H. }
  assert (Hp : packet_logged sn len ts c (log_packet sn d <| recv_index := (recv_index c + 1) mod RECV_ACK_INT |>)).
  { split; cbn -[log_packet]; try done; try (cbn; congruence); rewrite ?Hdl.
    - apply list_lookup_insert_eq. rewrite Hl. lia.
    - intros k Hk. by apply list_lookup_insert_ne. }
  unfold log_and_reset. rewrite Hd. destruct (Z.eqb_spec (recv_index c + 1) RECV_ACK_INT) as [E|E].
  - rewrite E, Z_mod_same_full in Hp. exact Hp.
  - apply Hz; [exact Hp|]. rewrite Hd. symmetry. apply Z.mod_small. lia.
Qed.

(** C11: the path of a data packet, whatever the SRT server's socket answers.
    From a registered connection whose group has its socket open, the packet
    is sent once, byte for byte, on the group's socket; the ACK it completes,
    if any, goes first.  When the send is complete or fails for a passing
    reason, nothing else is sent and the connection is still registered: it is
    heard from, counts one packet and its bytes, and logs the sequence number
    in the next slot; its group has seen data and remembers the address.  Any
    other answer removes exactly that group.  The other groups never change. *)
Theorem data_packet_path buf addr ts w g c :
  inv w -> find_by_address addr (groups w) = Some (g, Some c) ->
  SRT_MIN_LEN <= Zlength buf -> 0 <= get_srt_sn buf (Zlength buf) -> 0 <= srt_socket g ->
  exists w' acks pre, let answer := os_send (calls w + length acks)%nat (srt_socket g) buf in
    process_single_packet buf (Zlength buf) addr ts w = Done tt w' /\
    ack_sent (get_srt_sn buf (Zlength buf)) c acks /\
    trace w' = pre ++ IoSend (srt_socket g) buf answer.1 :: acks ++ trace w /\
    without (g_ptr g) (groups w') = without (g_ptr g) (groups w) /\
    (if survives buf answer
     then pre = [] /\ exists g' c', find_by_address addr (groups w') = Some (g', Some c') /\
       packet_logged (get_srt_sn buf (Zlength buf)) (Zlength buf) ts c c' /\
       data_seen g' = true /\ last_address g' = addr
     else groups w' = without (g_ptr g) (groups w)).
Proof.
  intros Hi Hf Hlen Hsn Hs.
  destruct (data_packet_run buf addr ts w g c Hi Hf Hlen Hsn Hs)
    as (w' & acks & pre & H1 & H2 & H3 & H4 & Hout).
  exists w', acks, pre. cbv zeta. split_and!; [done..|]. destruct (survives buf _); [|done].
  destruct Hout as (-> & g' & c' & Hf' & -> & Hd & Hl & _). split; [done|]. eexists g', _. split; [exact Hf'|].
  split; [|done]. apply log_and_reset_logged.
  apply find_by_address_conn in Hf as (Hg & Hc & _); [|done]. by eapply conn_found_ok.
Qed.
End DataPath.

Lemma data_packet_path_witness :
  let os := sample_os 1001 send_all None in
  exists w' acks pre,
    let answer := @os_send os (calls w_joined + length acks)%nat (srt_socket (first_group w_joined)) (data_packet 6) in
    @process_single_packet os sample_cfg (data_packet 6) (Zlength (data_packet 6)) client1 1001 w_joined = Done tt w' /\
    ack_sent (get_srt_sn (data_packet 6) (Zlength (data_packet 6))) (first_conn w_joined) acks /\
    trace w' = pre ++ IoSend (srt_socket (first_group w_joined)) (data_packet 6) answer.1 :: acks ++ trace w_joined /\
    without (g_ptr (first_group w_joined)) (groups w') = without (g_ptr (first_group w_joined)) (groups w_joined) /\
    (if survives (data_packet 6) answer
     then pre = [] /\ exists g' c', find_by_address client1 (groups w') = Some (g', Some c') /\
       packet_logged (get_srt_sn (data_packet 6) (Zlength (data_packet 6))) (Zlength (data_packet 6)) 1001
         (first_conn w_joined) c' /\
       data_seen g' = true /\ last_address g' = client1
     else groups w' = without (g_ptr (first_group w_joined)) (groups w_joined)).
Proof.
  apply (@data_packet_path (sample_os 1001 send_all None) sample_cfg).
  - exact joined_inv.
  - vm_compute. reflexivity.
  - vm_compute. discriminate.
  - vm_compute. discriminate.
  - vm_compute. discriminate.
Defined.
