(* ===== verification/Maintenance.v ===== *)
(** * Periodic maintenance

    [cleanup_inactive] (src/connection/connection_registry.cpp) with the
    keepalives it sends: which connections and groups go, which stay. *)

From stdpp Require Import list gmap.
From S2P Require Import Prelude Config Wire NetUtils NakDedup AuthRateLimiter Connection World.
From S2P Require Import Registry Quality SrtHandler SrtlaHandler MainLoop Hoare Invariant.
From S2P Require Import RegistryProofs QualityProofs HandlerProofs Scenario LoopProofs.

Section Maintenance.
Context {os : OS}.

(** ** Runs *)

Definition probe (c : Connection) (ret : Z) : io :=
  IoSendto (address c) (pad_payload (header_packet SRTLA_TYPE_KEEPALIVE)) ret.

Lemma send_keepalive_run c w :
  exists w' ret, send_keepalive c w = Done tt w' /\ trace w' = probe c ret :: trace w.
Proof.
  unfold send_keepalive, pad_sendto, sendto, mbind, M_bind, next_call, emit, modify, mret, M_ret, when.
  destruct (negb _); by eexists _, _.
Qed.

Lemma cleanup_recovery_trace t c w r w' :
  cleanup_recovery t c w = Done r w' -> trace w' = trace w.
Proof.
  unfold cleanup_recovery. repeat case_match; intros E; injection E as _ <-; done.
Qed.

Lemma cleanup_recovery_run t c w :
  exists w', cleanup_recovery t c w = Done (recovered t c) w' /\ trace w' = trace w.
Proof.
  pose proof (wp_cleanup_recovery t c (fun _ _ => False) w) as Hw.
  apply wp_total in Hw as (r & w' & E & -> & _). exists w'. split; [done|].
  by eapply cleanup_recovery_trace.
Qed.

(** Idle, but not timed out. *)
Definition idle (t : Z) (c : Connection) : bool :=
  (last_received c + KEEPALIVE_PERIOD <? t) && negb (conn_timed_out c t).

Lemma cleanup_conn_run t c w :
  exists w' rets, cleanup_conn t send_keepalive c w =
      Done (if conn_timed_out c t then None else Some (recovered t c)) w' /\
    length rets = length (List.filter (idle t) [c]) /\
    trace w' = rev (zip_with probe (List.filter (idle t) [c]) rets) ++ trace w.
Proof.
  unfold cleanup_conn. destruct (cleanup_recovery_run t c w) as (w1 & E1 & T1).
  rewrite (bind_done _ _ _ _ _ E1). destruct (recovered_times t c) as [Hl _].
  assert (address (recovered t c) = address c) as Ha by apply recovered_upd.
  unfold conn_timed_out at 1 2. rewrite Hl. cbn [List.filter]. unfold idle at 1 2, conn_timed_out at 1 2.
  destruct (last_received c + CONN_TIMEOUT <? t); cbn [negb].
  - rewrite andb_false_r. eexists _, []. by repeat split.
  - rewrite andb_true_r. destruct (last_received c + KEEPALIVE_PERIOD <? t); cbn [when].
    + destruct (send_keepalive_run (recovered t c) w1) as (w2 & ret & E2 & T2).
      exists w2, [ret]. rewrite (bind_done _ _ _ _ _ E2). split; [done|]. split; [done|].
      rewrite T2, T1. unfold probe. by rewrite Ha.
    + exists w1, []. by repeat split.
Qed.

(** The datagrams of a trace, without the kernel's answers. *)
Definition addressed (e : io) : option (sockaddr_storage * list byte) :=
  if e is IoSendto dst b _ then Some (dst, b) else None.
Definition datagrams (tr : list io) : list (sockaddr_storage * list byte) := omap addressed tr.

(** The keepalive to a connection. *)
Definition keepalive_to (c : Connection) : sockaddr_storage * list byte :=
  (address c, pad_payload (header_packet SRTLA_TYPE_KEEPALIVE)).

Lemma datagrams_probes cs rets tr :
  length rets = length cs ->
  datagrams (rev (zip_with probe cs rets) ++ tr) = rev (map keepalive_to cs) ++ datagrams tr.
Proof.
  revert rets tr. induction cs as [|c cs IH]; intros [|ret rets] tr Hl; try done.
  cbn [zip_with rev map]. rewrite <- !app_assoc, IH by (cbn in Hl; lia). done.
Qed.

(** Neither sends a datagram nor moves the date of the last run. *)
Definition mute (w w' : world) : Prop :=
  datagrams (trace w') = datagrams (trace w) /\ last_run w' = last_run w.

Lemma destroy_group_mute g w : exists w', destroy_group g w = Done tt w' /\ mute w w'.
Proof.
  unfold destroy_group, remove_socket_info_file, get_local_port, epoll_remove, close, emit, next_call,
    when, skip, modify, mbind, M_bind, mret, M_ret.
  repeat case_match; simplify_eq; eexists; by (split; [reflexivity|]).
Qed.

Lemma write_socket_info_file_mute g w : exists w', write_socket_info_file g w = Done tt w' /\ mute w w'.
Proof.
  unfold write_socket_info_file, get_local_port, open_file, emit, next_call,
    when, skip, modify, mbind, M_bind, mret, M_ret.
  repeat case_match; simplify_eq; eexists; by (split; [reflexivity|]).
Qed.

Lemma cleanup_conn_last_run t c w r w' :
  cleanup_conn t send_keepalive c w = Done r w' -> last_run w' = last_run w.
Proof.
  unfold cleanup_conn. destruct (cleanup_recovery t c w) as [c1 w1|] eqn:E1; unfold mbind, M_bind; rewrite E1; [|done].
  assert (last_run w1 = last_run w) as <-.
  { unfold cleanup_recovery in E1. repeat case_match; injection E1 as _ <-; done. }
  unfold send_keepalive, pad_sendto, sendto, inc, emit, next_call, when, skip, modify, mbind, M_bind, mret, M_ret.
  destruct (conn_timed_out c1 t); [intros E; by injection E as _ <-|].
  destruct (_ <? t); [|intros E; by injection E as _ <-].
  destruct (negb _); intros E; by injection E as _ <-.
Qed.

(** A cleanup run probes exactly the idle survivors: one padded two-byte
    keepalive to each connection of the group that has not timed out and was
    not heard from in the last second, in order, and nothing else. *)
Theorem cleanup_probes t cs w :
  exists w' rets, cleanup_conns t send_keepalive cs w = Done (survivors t cs) w' /\
    length rets = length (List.filter (idle t) cs) /\
    trace w' = rev (zip_with probe (List.filter (idle t) cs) rets) ++ trace w /\ last_run w' = last_run w.
Proof.
  revert w. induction cs as [|c cs IH]; intros w; [by exists w, []|]. cbn [cleanup_conns].
  destruct (cleanup_conn_run t c w) as (w1 & rets1 & E1 & L1 & T1).
  destruct (IH w1) as (w2 & rets2 & E2 & L2 & T2 & R2).
  exists w2, (rets1 ++ rets2). rewrite (bind_done _ _ _ _ _ E1), (bind_done _ _ _ _ _ E2).
  change (c :: cs) with ([c] ++ cs). rewrite List.filter_app, !length_app. split_and!.
  - unfold survivors. rewrite List.filter_app, map_app. cbn [List.filter].
    by destruct (conn_timed_out c t).
  - lia.
  - rewrite zip_with_app by done. by rewrite rev_app_distr, <- (assoc_L (++)), <- T1.
  - rewrite R2. by eapply cleanup_conn_last_run.
Qed.

Lemma cleanup_group_probes t g w :
  exists r w', cleanup_group t send_keepalive g w = Done r w' /\ last_run w' = last_run w /\
    datagrams (trace w') = rev (map keepalive_to (List.filter (idle t) (connections g))) ++ datagrams (trace w).
Proof.
  unfold cleanup_group. cbv zeta.
  destruct (cleanup_probes t (connections g) w) as (w1 & rets & E1 & L1 & T1 & R1).
  rewrite (bind_done _ _ _ _ _ E1). rewrite <- (datagrams_probes _ rets) by done. rewrite <- T1, <- R1.
  set (g1 := g <| connections := _ |>). destruct (bool_decide _ && _).
  - erewrite bind_done by reflexivity.
    destruct (destroy_group_mute g1 (run (inc GROUPS_REMOVED_IDLE) w1)) as (w2 & E2 & H1 & H2).
    rewrite (bind_done _ _ _ _ _ E2). by eexists _, _.
  - unfold when. destruct (negb _); [|by eexists _, _].
    destruct (write_socket_info_file_mute g1 w1) as (w2 & E2 & H1 & H2).
    rewrite (bind_done _ _ _ _ _ E2). by eexists _, _.
Qed.

(** The connections of a table, in order. *)
Definition all_conns (gs : list ConnectionGroup) : list Connection := concat (map connections gs).

Lemma cleanup_groups_probes t gs w :
  exists r w', cleanup_groups t send_keepalive gs w = Done r w' /\ last_run w' = last_run w /\
    datagrams (trace w') = rev (map keepalive_to (List.filter (idle t) (all_conns gs))) ++ datagrams (trace w).
Proof.
  revert w. induction gs as [|g gs IH]; intros w; [by eexists _, _|]. cbn [cleanup_groups].
  destruct (cleanup_group_probes t g w) as (r1 & w1 & E1 & R1 & T1).
  destruct (IH w1) as (r2 & w2 & E2 & R2 & T2).
  rewrite (bind_done _ _ _ _ _ E1), (bind_done _ _ _ _ _ E2). eexists _, w2. split; [reflexivity|].
  split; [congruence|]. rewrite T2, T1. unfold all_conns. cbn [map concat].
  by rewrite List.filter_app, map_app, rev_app_distr, <- app_assoc.
Qed.

(** A run that is due dates itself and sends the probes. *)
Lemma cleanup_due t w w' :
  last_run w + CLEANUP_PERIOD <= t -> cleanup_inactive t send_keepalive w = Done tt w' ->
  last_run w' = t /\
  datagrams (trace w') = rev (map keepalive_to (List.filter (idle t) (all_conns (groups w)))) ++ datagrams (trace w).
Proof.
  intros Hge. unfold cleanup_inactive. erewrite bind_done by reflexivity. rewrite (proj2 (Z.ltb_ge _ _) Hge).
  set (w1 := w <| last_run := t |>). rewrite (bind_done _ _ _ tt w1) by done.
  rewrite (bind_done _ _ _ (groups w) w1) by done.
  destruct (bool_decide_reflect (groups w = [])) as [->|_]; [intros E; by injection E as <-|].
  destruct (cleanup_groups_probes t (groups w) w1) as (gs' & w2 & E2 & R2 & T2).
  rewrite (bind_done _ _ _ _ _ E2). intros E. injection E as <-. split; [exact R2|exact T2].
Qed.

Lemma cleanup_throttled t w :
  t < last_run w + CLEANUP_PERIOD -> cleanup_inactive t send_keepalive w = Done tt w.
Proof.
  intros Hlt. unfold cleanup_inactive. erewrite bind_done by reflexivity. by rewrite (proj2 (Z.ltb_lt _ _) Hlt).
Qed.

(** C31: a cleanup at time [t] always completes and keeps the invariant.
    When the last run is less than three seconds old it changes nothing at
    all and sends nothing.  Otherwise the run is dated [t], and exactly these
    groups stay: those that still have a connection heard from in the last
    fifteen seconds, or that are younger than their timeout, each with exactly
    those connections, their recovery marks expired after five seconds; and it
    sends exactly one padded keepalive to each surviving connection that was
    silent for more than a second, in the order of the table.  A recovery that
    ends does not remove its connection. *)
Theorem cleanup_exact t w :
  inv w ->
  exists w', cleanup_inactive t send_keepalive w = Done tt w' /\ inv w' /\
    (t < last_run w + CLEANUP_PERIOD -> w' = w) /\
    (last_run w + CLEANUP_PERIOD <= t ->
       last_run w' = t /\
       datagrams (trace w') = rev (map keepalive_to (List.filter (idle t) (all_conns (groups w))))
                                ++ datagrams (trace w) /\
       forall g', g' ∈ groups w' <->
         exists g, g ∈ groups w /\ g' = swept t g /\
           ((exists c, c ∈ connections g /\ t <= last_received c + CONN_TIMEOUT) \/
            t <= created_at g + empty_timeout g)).
Proof.
  intros Hi.
  destruct (wp_total (cleanup_inactive t send_keepalive)
    (fun _ w' => inv w' /\ groups w' = after_cleanup t w) w) as ([] & w' & E & Hi' & Hg).
  { apply wp_cleanup_inactive; [apply _|done]. }
  exists w'. split; [done|]. split; [done|]. unfold after_cleanup in Hg. split.
  - intros Hlt. rewrite (cleanup_throttled t w Hlt) in E. by injection E.
  - intros Hge. destruct (cleanup_due t w w' Hge E) as [Hr Ht]. split; [done|]. split; [done|]. intros g'.
    rewrite (proj2 (Z.ltb_ge _ _) Hge) in Hg. rewrite Hg. unfold swept_groups.
    rewrite list_elem_of_fmap. split.
    + intros (g & -> & Hin). apply list_elem_of_In, filter_In in Hin as [Hin Hex].
      exists g. apply list_elem_of_In in Hin. split; [done|]. split; [done|].
      by apply expired_false, negb_true_iff.
    + intros (g & Hin & -> & Hstay). exists g. split; [done|].
      apply list_elem_of_In, filter_In. split; [by apply list_elem_of_In|].
      by apply negb_true_iff, expired_false.
Qed.
End Maintenance.

Lemma cleanup_exact_witness :
  exists w', @cleanup_inactive os0 1020 (@send_keepalive os0) w_joined = Done tt w' /\ inv w' /\
    (1020 < last_run w_joined + CLEANUP_PERIOD -> w' = w_joined) /\
    (last_run w_joined + CLEANUP_PERIOD <= 1020 ->
       last_run w' = 1020 /\
       datagrams (trace w') = rev (map keepalive_to (List.filter (idle 1020) (all_conns (groups w_joined))))
                                ++ datagrams (trace w_joined) /\
       forall g', g' ∈ groups w' <->
         exists g, g ∈ groups w_joined /\ g' = swept 1020 g /\
           ((exists c, c ∈ connections g /\ 1020 <= last_received c + CONN_TIMEOUT) \/
            1020 <= created_at g + empty_timeout g)).
Proof.
  apply (@cleanup_exact os0 1020 w_joined). exact joined_inv.
Defined.
