(* ===== verification/QualityProperties.v ===== *)
(** * Properties of quality evaluation and load balancing

    Scores, weights and the statistics they are computed from
    (src/quality/). *)

From stdpp Require Import list gmap.
From S2P Require Import Prelude Config Wire NetUtils Connection World Double Quality Hoare.
From S2P Require Import Invariant QualityProofs HandlerProofs.

(** ** Scores *)

(** Scales of penalties: the points of the first limit that is passed. *)
Fixpoint below (scale : list (double * Z)) (x : double) : Z :=
  match scale with [] => 0 | (limit, points) :: rest => if dlt x limit then points else below rest x end.
Fixpoint above (scale : list (double * Z)) (x : double) : Z :=
  match scale with [] => 0 | (limit, points) :: rest => if dgt x limit then points else above rest x end.
Fixpoint beyond (scale : list (Z * Z)) (x : Z) : Z :=
  match scale with [] => 0 | (limit, points) :: rest => if limit <? x then points else beyond rest x end.

(** The sender's report is at most two seconds old and says something. *)
Definition fresh_telemetry (t : Z) (s : ConnectionStats) : bool :=
  negb (last_keepalive s =? 0) && (t - last_keepalive s <=? 2) && ((0 <? rtt_ms s) || (0 <? window s)).

(** What is always charged for: bandwidth below what is expected, on a milder
    scale for senders with extended keepalives, and packet loss. *)
Definition measured_points (ratio : double) (m : QualityMetrics) (s : ConnectionStats) : Z :=
  below (if supports_extended_keepalives s then [(D0_3, 10); (D0_5, 7); (D0_7, 4); (D0_85, 2)]
         else [(D0_3, 40); (D0_5, 25); (D0_7, 15); (D0_85, 5)]) ratio +
  above [(D0_20, 40); (D0_10, 20); (D0_05, 10); (D0_01, 5)] (packet_loss_ratio m).

(** What the sender's report is charged for: round trips, their jitter, the
    NAKs it got since the last evaluation per packet, and a full window. *)
Definition reported_points (m : QualityMetrics) (s : ConnectionStats) : Z :=
  beyond [(500, 20); (200, 10); (100, 5)] (rtt_ms s) +
  (if dgt (calculate_rtt_variance s) (of_int 50) then 10 else 0) +
  (if (packets_diff m =? 0) || (sender_nak_count s =? 0) then 0 else
   above [(NAK_RATE_CRITICAL, 40); (NAK_RATE_HIGH, 20); (NAK_RATE_MODERATE, 10); (NAK_RATE_LOW, 5)]
     (ddiv (of_int (u32 (sender_nak_count s - last_sender_nak_count s))) (of_int (packets_diff m)))) +
  (if window s <=? 0 then 0 else
   above [(WINDOW_UTILIZATION_CONGESTED, 15)] (ddiv (of_int (in_flight s)) (of_int (window s)))).

Lemma valid_telemetry_fresh t s : has_valid_sender_telemetry s t = fresh_telemetry t s.
Proof.
  unfold has_valid_sender_telemetry, fresh_telemetry, KEEPALIVE_STALENESS_THRESHOLD.
  rewrite (Z.leb_antisym 2 (t - last_keepalive s)). by destruct (_ =? 0), (2 <? _).
Qed.

Lemma total_points_scales t ratio m s :
  total_points t ratio m s =
  measured_points ratio m s + (if fresh_telemetry t s then reported_points m s else 0).
Proof.
  unfold total_points, measured_points. rewrite valid_telemetry_fresh. f_equal.
  - unfold bandwidth_points, loss_points. by destruct (supports_extended_keepalives s).
  - destruct (fresh_telemetry t s) eqn:E; [|done]. apply andb_true_iff in E as [E _]. apply andb_true_iff in E as [E1 E2].
    unfold reported_points, calculate_rtt_error_points, KEEPALIVE_STALENESS_THRESHOLD.
    apply negb_true_iff in E1. rewrite E1, (proj2 (Z.ltb_ge 2 _)) by (by apply Z.leb_le). cbn [orb]. cbv zeta.
    do 2 f_equal. unfold calculate_nak_error_points. by destruct (_ || _).
Qed.

(** C40: the score an evaluation leaves is the exact sum of the penalties on
    their scales: for bandwidth and for loss always, and, with a report of the
    sender at most two seconds old, for round trip, jitter, NAKs and window
    too; the bitrate the sender reports is not scored.  The sum is at most 165,
    so no addition wraps, and the period counters start afresh. *)
Theorem evaluation_score t ms median min_expected m s :
  let s' := evaluate_stats t ms median min_expected m s in
  error_points s' =
    measured_points (performance_ratio median min_expected (bandwidth_kbits_per_sec m)) m s +
    (if fresh_telemetry t s then reported_points m s else 0) /\
  0 <= error_points s' <= 165 /\
  bytes_in_period s' = 0 /\ packets_in_period s' = 0 /\ naks_in_period s' = 0.
Proof.
  cbv zeta. split; [rewrite <- total_points_scales; apply evaluate_stats_points|].
  split; [rewrite evaluate_stats_points; apply total_points_range|].
  unfold bytes_in_period, packets_in_period, naks_in_period.
  destruct (evaluate_stats_fields t ms median min_expected m s) as (E1 & E2 & E3 & _).
  rewrite E1, E2, E3. unfold evaluate_stats, evaluate_connection_legacy, reset_period. cbv zeta.
  destruct (has_valid_sender_telemetry _ _); cbn.
  - set (s1 := s <| error_points := _ |>).
    pose proof (nak_points_stats s1 (packets_diff m)) as Hk.
    destruct (calculate_nak_error_points s1 (packets_diff m)) as [k s2]. cbn [snd] in Hk. cbn.
    destruct Hk as [-> | ->]; cbn; rewrite !Z.sub_diag; done.
  - rewrite !Z.sub_diag. done.
Qed.

(** A measured bandwidth of zero is a performance ratio of zero. *)
Lemma performance_ratio_zero median min_expected :
  exists s, performance_ratio median min_expected d0 = S754_zero s.
Proof.
  unfold performance_ratio. destruct (dgt _ d0) eqn:E; [|by exists false].
  apply (ddiv_zero false). exact E.
Qed.

Lemma bandwidth_points_zero ext s : bandwidth_points ext (S754_zero s) = if ext then 10 else 40.
Proof. by destruct ext, s; vm_compute. Qed.

(** The first evaluation after the grace period charges the full
    bandwidth penalty whatever the connection carried: its last evaluation
    time is still zero, so no interval is measured and its bandwidth counts
    as zero.  For a sender without extended keepalives that is 40 points, the
    critical weight of 10%. *)
Theorem first_evaluation_penalised t ms median min_expected s :
  last_eval_time s = 0 -> supports_extended_keepalives s = false ->
  let s' := evaluate_stats t ms median min_expected (measure ms s).1 s in
  40 <= error_points s' /\ weight_of_points (error_points s') = WEIGHT_CRITICAL.
Proof.
  intros H0 Hext. cbv zeta. rewrite evaluate_stats_points.
  assert ((measure ms s).1 = mkMetrics d0 d0 0) as Hm by (unfold measure; by rewrite H0).
  rewrite Hm. cbn [bandwidth_kbits_per_sec].
  destruct (performance_ratio_zero median min_expected) as (sg & Hr). rewrite Hr.
  assert (40 <= total_points t (S754_zero sg) (mkMetrics d0 d0 0) s) as Hp.
  { unfold total_points. rewrite Hext, bandwidth_points_zero.
    pose proof (loss_points_range (packet_loss_ratio (mkMetrics d0 d0 0))).
    pose proof (rtt_points_range s t). pose proof (nak_points_range s 0).
    pose proof (window_points_range s). cbn [packets_diff]. case_match; lia. }
  split; [done|]. unfold weight_of_points. by rewrite (proj2 (Z.leb_le _ _) Hp).
Qed.

(** A connection that received 5 MB in its first eleven seconds. *)
Definition busy_stats : ConnectionStats :=
  initial_stats <| bytes_received := 5000000 |> <| packets_received := 4000 |>.

Lemma first_evaluation_penalised_witness :
  let s' := evaluate_stats 1011 1011000 D1000 D1000 (measure 1011000 busy_stats).1 busy_stats in
  40 <= error_points s' /\ weight_of_points (error_points s') = WEIGHT_CRITICAL.
Proof. apply (first_evaluation_penalised 1011 1011000 D1000 D1000 busy_stats); reflexivity. Defined.

(** ** Weights *)

(** Weights fall as scores rise, are always one of the six levels, and
    after a rebalancing every connection has the weight of its score. *)
Theorem weights_follow_scores t g :
  (forall p q, p <= q -> weight_of_points q <= weight_of_points p) /\
  (forall p, weight_of_points p ∈ WEIGHTS) /\
  (connections g <> [] -> balance_due g t = true ->
   forall c, c ∈ connections (adjust_weights_at t g) ->
     weight_percent (stats c) = weight_of_points (error_points (stats c))).
Proof.
  split; [|split].
  - intros p q Hpq. unfold weight_of_points, WEIGHT_CRITICAL, WEIGHT_POOR, WEIGHT_FAIR,
      WEIGHT_DEGRADED, WEIGHT_EXCELLENT, WEIGHT_FULL.
    repeat match goal with |- context [?a <=? ?b] => destruct (Z.leb_spec a b) end; lia.
  - apply weight_of_points_WEIGHTS.
  - intros Hne Hdue c. unfold adjust_weights_at. rewrite bool_decide_eq_false_2, Hdue by done. cbn.
    intros Hc. apply list_elem_of_fmap in Hc as (c0 & -> & _). done.
Qed.

(** Rebalancing is driven by evaluations: with load balancing on, a
    group that was rebalanced no earlier than its last evaluation is left
    untouched by further rebalancing at any time, so weights change at most
    once per evaluation. *)
Theorem rebalance_once t t' g :
  load_balancing_enabled g = true -> last_quality_eval g <= t ->
  adjust_weights_at t' (adjust_weights_at t g) = adjust_weights_at t g.
Proof.
  intros Hen Ht. destruct (decide (connections g = [])) as [Hn|Hn].
  { assert (forall t, adjust_weights_at t g = g) as Hid
      by (intros t0; unfold adjust_weights_at; by rewrite bool_decide_eq_true_2).
    by rewrite !Hid. }
  assert (forall x, load_balancing_enabled x = true ->
    last_quality_eval x <= last_load_balance_eval x -> adjust_weights_at t' x = x) as Hstop.
  { intros x He Hx%Z.leb_le. unfold adjust_weights_at, balance_due. rewrite He, Hx. cbn. by rewrite orb_true_r. }
  assert (adjust_weights_at t g = g \/ adjust_weights_at t g =
    g <| last_load_balance_eval := t |> <| connections ::= map reweigh |>) as [E|E].
  { unfold adjust_weights_at. destruct (_ || _); auto. }
  - rewrite E. apply Hstop; [done|]. revert E. unfold adjust_weights_at, balance_due.
    rewrite bool_decide_eq_false_2, Hen by done. cbn.
    destruct (Z.leb_spec (last_quality_eval g) (last_load_balance_eval g)); [done|]. cbn.
    intros E. apply (f_equal last_load_balance_eval) in E. cbn in E. lia.
  - rewrite E. by apply Hstop.
Qed.

Definition sample_group : ConnectionGroup :=
  new_group 0 [] [] 1000
    <| connections := [new_connection 1 zero_addr 1000 <| stats := busy_stats <| error_points := 27 |> |>] |>
    <| last_quality_eval := 1010 |>.

Lemma rebalance_once_witness :
  adjust_weights_at 1099 (adjust_weights_at 1010 sample_group) = adjust_weights_at 1010 sample_group.
Proof. apply (rebalance_once 1010 1099 sample_group); [reflexivity|vm_compute; discriminate]. Defined.

Lemma weights_follow_scores_witness :
  (forall p q, p <= q -> weight_of_points q <= weight_of_points p) /\
  (forall p, weight_of_points p ∈ WEIGHTS) /\
  (connections sample_group <> [] -> balance_due sample_group 1010 = true ->
   forall c, c ∈ connections (adjust_weights_at 1010 sample_group) ->
     weight_percent (stats c) = weight_of_points (error_points (stats c))).
Proof. apply (weights_follow_scores 1010 sample_group). Defined.

(** The legacy scale kept beside the main one for comparison is not the
    same scale: the two weights agree except for scores from 15 to 19 and
    from 25 to 29, where the legacy weight is one level higher. *)
Theorem legacy_scale_differs p :
  (legacy_weight p = weight_of_points p <-> ~ (15 <= p < 20 \/ 25 <= p < 30)) /\
  weight_of_points p <= legacy_weight p.
Proof.
  unfold legacy_weight, weight_of_points, WEIGHT_CRITICAL, WEIGHT_POOR, WEIGHT_FAIR,
    WEIGHT_DEGRADED, WEIGHT_EXCELLENT, WEIGHT_FULL.
  repeat match goal with |- context [?a <=? ?b] => destruct (Z.leb_spec a b) end; lia.
Qed.

(** ** Statistics *)

(** Packets of the given sizes, in order. *)
Definition receive_all (sizes : list Z) (s : ConnectionStats) : ConnectionStats :=
  fold_left (fun s n => on_packet_received n s) sizes s.

Definition naks_all (n : nat) (s : ConnectionStats) : ConnectionStats :=
  Nat.iter n (on_nak_detected 1) s.

Lemma u64_idem_sub a b : u64 (u64 a - b) = u64 (a - b).
Proof. unfold u64. by rewrite Zminus_mod_idemp_l. Qed.
Lemma u64_idem_add a b : u64 (u64 a + b) = u64 (a + b).
Proof. unfold u64. by rewrite Zplus_mod_idemp_l. Qed.
Lemma u32_idem_add a b : u32 (u32 a + b) = u32 (a + b).
Proof. unfold u32. by rewrite Zplus_mod_idemp_l. Qed.
Lemma u32_idem_sub a b : u32 (u32 a - b) = u32 (a - b).
Proof. unfold u32. by rewrite Zminus_mod_idemp_l. Qed.

Lemma receive_all_counts sizes s :
  u64 (bytes_received (receive_all sizes s)) = u64 (bytes_received s + foldr Z.add 0 sizes) /\
  u64 (packets_received (receive_all sizes s)) = u64 (packets_received s + Zlength sizes) /\
  last_bytes_received (receive_all sizes s) = last_bytes_received s /\
  last_packets_received (receive_all sizes s) = last_packets_received s.
Proof.
  revert s. induction sizes as [|n sizes IH]; intros s.
  - unfold Zlength. cbn. by rewrite !Z.add_0_r.
  - cbn [receive_all fold_left foldr]. destruct (IH (on_packet_received n s)) as (H1 & H2 & H3 & H4).
    unfold receive_all in *. rewrite H1, H2, H3, H4. cbn. rewrite !u64_idem_add.
    unfold Zlength. cbn [length]. repeat split; f_equal; lia.
Qed.

Lemma u32_u32 a : u32 (u32 a) = u32 a.
Proof. unfold u32. apply Zmod_mod. Qed.

Lemma naks_all_counts n s :
  u32 (packets_lost (naks_all n s)) = u32 (packets_lost s + Z.of_nat n) /\
  last_packets_lost (naks_all n s) = last_packets_lost s.
Proof.
  induction n as [|n [IH1 IH2]]; [cbn; by rewrite Z.add_0_r|].
  change (naks_all (S n) s) with (on_nak_detected 1 (naks_all n s)).
  split; [|exact IH2]. cbn [on_nak_detected packets_lost upd].
  change (packets_lost (on_nak_detected 1 (naks_all n s))) with (u32 (packets_lost (naks_all n s) + 1)).
  rewrite u32_u32, <- u32_idem_add, IH1, u32_idem_add.
  replace (packets_lost s + Z.of_nat n + 1) with (packets_lost s + Z.of_nat (S n)) by lia. done.
Qed.

(** What the evaluator reads as traffic of a period is the traffic of
    the period: after a reset, the wrapped differences of the free-running
    counters are the bytes and packets received and the NAKs counted since,
    wherever the counters stood and even when they wrapped in between. *)
Theorem period_counters ms sizes naks s :
  0 <= foldr Z.add 0 sizes < 2 ^ 64 -> Zlength sizes < 2 ^ 64 -> Z.of_nat naks < 2 ^ 32 ->
  bytes_in_period (receive_all sizes (reset_period ms s)) = foldr Z.add 0 sizes /\
  packets_in_period (receive_all sizes (reset_period ms s)) = Zlength sizes /\
  naks_in_period (naks_all naks (reset_period ms s)) = Z.of_nat naks.
Proof.
  intros Hb Hp Hn. unfold bytes_in_period, packets_in_period, naks_in_period.
  destruct (receive_all_counts sizes (reset_period ms s)) as (H1 & H2 & H3 & H4).
  destruct (naks_all_counts naks (reset_period ms s)) as (H5 & H6).
  rewrite H3, H4, H6, <- u64_idem_sub, H1, <- (u64_idem_sub (packets_received _)), H2,
    <- u32_idem_sub, H5. pose proof (Zlength_nonneg sizes).
  split; [by apply u64_diff|]. split; [by apply u64_diff|]. apply u32_diff. lia.
Qed.

Lemma period_counters_witness :
  let s := initial_stats <| bytes_received := 2 ^ 64 - 1000 |> in
  bytes_in_period (receive_all [1316; 1316] (reset_period 5 s)) = 2632 /\
  packets_in_period (receive_all [1316; 1316] (reset_period 5 s)) = 2 /\
  naks_in_period (naks_all 3 (reset_period 5 s)) = 3.
Proof.
  exact (period_counters 5 [1316; 1316] 3 (initial_stats <| bytes_received := 2 ^ 64 - 1000 |>)
    ltac:(cbn; lia) ltac:(unfold Zlength; cbn; lia) ltac:(lia)).
Defined.

(** The RTT history is a ring of the five most recent samples: after any
    five updates it holds exactly those five, whatever it held before. *)
Theorem rtt_history_window rs s :
  stats_ok s -> length rs = RTT_HISTORY_SIZE ->
  rtt_history (fold_left (fun s r => update_rtt_history r s) rs s) ≡ₚ rs.
Proof.
  intros [_ _ _ _ _ _ _ _ Hh Hi] Hl. unfold RTT_HISTORY_SIZE in *.
  destruct rs as [|r0 [|r1 [|r2 [|r3 [|r4 [|? ?]]]]]]; try done.
  destruct (rtt_history s) as [|h0 [|h1 [|h2 [|h3 [|h4 [|? ?]]]]]] eqn:Eh; try done.
  assert (rtt_history_idx s = 0 \/ rtt_history_idx s = 1 \/ rtt_history_idx s = 2 \/
    rtt_history_idx s = 3 \/ rtt_history_idx s = 4) as Hcase by lia.
  cbn [fold_left]. unfold update_rtt_history. cbn. rewrite Eh.
  destruct Hcase as [E|[E|[E|[E|E]]]]; rewrite E; vm_compute (Z.to_nat _); cbn; solve_Permutation.
Qed.

Lemma rtt_history_window_witness :
  rtt_history (fold_left (fun s r => update_rtt_history r s) [40; 50; 60; 70; 80] initial_stats)
    ≡ₚ [40; 50; 60; 70; 80].
Proof.
  apply (rtt_history_window [40; 50; 60; 70; 80] initial_stats); [|reflexivity].
  exact (co_stats _ (new_connection_ok 0 zero_addr 0)).
Defined.
