(* ===== verification/Telemetry.v ===== *)
(** * Keepalives, NAKs and random ids

    Extended keepalives through the whole handler, suppression of duplicate
    NAKs, and the reads of the random device. *)

From stdpp Require Import list gmap.
From S2P Require Import Prelude Config Wire NetUtils NakDedup AuthRateLimiter Connection World.
From S2P Require Import Registry Quality SrtHandler SrtlaHandler MainLoop Hoare Invariant.
From S2P Require Import RegistryProofs QualityProofs HandlerProofs Scenario LoopProofs.
From S2P Require Import Registration Relay DataPath.

#[local] Arguments on_group : simpl never.
#[local] Arguments on_conn : simpl never.

Section Telemetry.
Context {os : OS} {hc : HandlerConfig}.

(** ** Keepalives *)

Lemma keepalive_parsed f :
  conn_info_ok f -> parse_keepalive_conn_info (build_ext_ka f) SRTLA_KEEPALIVE_EXT_LEN = Some f.
Proof.
  intros (H1 & H2 & H3 & H4 & H5 & H6). rewrite <- (build_ext_ka_length f), parse_build_fields.
  destruct f; cbn in *. rewrite !i32_u32, !i32_small, !u32_small by lia. done.
Qed.

Lemma keepalive_class f :
  is_srtla_keepalive (build_ext_ka f) SRTLA_KEEPALIVE_EXT_LEN = true /\
  is_srtla_reg1 (build_ext_ka f) SRTLA_KEEPALIVE_EXT_LEN = false /\
  is_srtla_reg2 (build_ext_ka f) SRTLA_KEEPALIVE_EXT_LEN = false.
Proof. done. Qed.

(** The statistics [s'] after the telemetry [f] of a keepalive read at [now]:
    each of the sender's figures in its own field, the round trip also in the
    slot of the history whose turn it is; the receiver's own measurements and
    scores as they were in [s]. *)
Record reported (f : connection_info_t) (now : Z) (s s' : ConnectionStats) : Prop := {
  rp_extended : sender_supports_extended_keepalives s' = true;
  rp_date : last_keepalive s' = now;
  rp_window : window s' = ci_window f;
  rp_in_flight : in_flight s' = ci_in_flight f;
  rp_naks : sender_nak_count s' = ci_nak_count f;
  rp_bitrate : sender_bitrate_bps s' = ci_bitrate_bytes_per_sec f;
  rp_rtt : rtt_ms s' = ci_rtt_ms f;
  rp_slot : rtt_history s' !! Z.to_nat (rtt_history_idx s) = Some (ci_rtt_ms f);
  rp_slots : forall k, k <> Z.to_nat (rtt_history_idx s) -> rtt_history s' !! k = rtt_history s !! k;
  rp_next : rtt_history_idx s' = (rtt_history_idx s + 1) mod Z.of_nat RTT_HISTORY_SIZE;
  rp_traffic : bytes_received s' = bytes_received s /\ packets_received s' = packets_received s /\
    packets_lost s' = packets_lost s /\ nack_count s' = nack_count s;
  rp_marks : last_eval_time s' = last_eval_time s /\ last_bytes_received s' = last_bytes_received s /\
    last_packets_received s' = last_packets_received s /\ last_packets_lost s' = last_packets_lost s /\
    last_sender_nak_count s' = last_sender_nak_count s;
  rp_scores : error_points s' = error_points s /\ weight_percent s' = weight_percent s /\
    legacy_error_points s' = legacy_error_points s /\ legacy_weight_percent s' = legacy_weight_percent s
}.

Lemma telemetry_reported f now s : stats_ok s -> reported f now s (update_connection_telemetry f now s).
Proof.
  intros Hs. pose proof (so_history s Hs) as Hl. pose proof (so_history_idx s Hs) as Hx.
  unfold update_connection_telemetry, update_rtt_history. split; try done; cbn.
  - apply list_lookup_insert_eq. rewrite Hl. lia.
  - intros k Hk. by apply list_lookup_insert_ne.
  - apply u8_small. unfold RTT_HISTORY_SIZE. pose proof (Z.mod_pos_bound (rtt_history_idx s + 1) (Z.of_nat 5)). lia.
Qed.

(** C39: an extended keepalive of a registered connection, end to end.  The
    connection is heard from at [ts]; its statistics hold, field by field, the
    figures the sender encoded, dated by the clock the handler reads, with the
    round trip entered in its slot of the history; everything else of the
    connection is as before.  The packet is echoed unchanged to the sender,
    and nothing else is sent. *)
Theorem keepalive_path f addr ts w g c :
  conn_info_ok f -> inv w -> find_by_address addr (groups w) = Some (g, Some c) ->
  exists w' g' c' ret,
    process_single_packet (build_ext_ka f) SRTLA_KEEPALIVE_EXT_LEN addr ts w = Done tt w' /\
    find_by_address addr (groups w') = Some (g', Some c') /\
    reported f (clock_seconds (calls w)) (stats c) (stats c') /\
    c' <| stats := stats c |> = heard ts c /\
    trace w' = IoSendto addr (build_ext_ka f) ret :: trace w.
Proof.
  intros Hf Hi Hfind. destruct (find_by_address_conn _ _ _ _ Hi Hfind) as (Hg & Hc & Ha).
  destruct (keepalive_class f) as (K1 & K2 & K3).
  destruct (heard_run (g_ptr g) (c_ptr c) g c ts w ltac:(done)) as (w1 & g1 & E1 & P1 & S1 & T1 & _ & N1 & _).
  unfold process_single_packet. rewrite K2, K3, (bind_done _ _ _ (groups w) w), Hfind by done. cbv zeta.
  rewrite (seq_done _ _ _ _ _ E1), K1. unfold handle_keepalive.
  rewrite (bind_done _ _ _ (fst <$> os_clock_gettime (calls w1)) (w1 <| calls ::= S |>)) by done.
  rewrite (keepalive_parsed f Hf). fold (clock_seconds (calls w1)).
  set (upd_c := fun c => c <| stats ::= update_connection_telemetry f (clock_seconds (calls w1)) |>).
  assert (forall c, conn_upd c (upd_c c)) as Hu
    by (intros x; apply conn_upd_simple; try done; apply telemetry_ok).
  pose proof (points_update _ _ upd_c _ _ _ (points_same _ _ _ _ w1 (w1 <| calls ::= S |>) ltac:(done) P1) Hu) as P2.
  set (w2 := (w1 <| calls ::= S |>) <| groups ::= _ |>) in P2. set (g2 := g1 <| connections ::= _ |>) in P2.
  rewrite (bind_done _ _ _ tt w2) by done.
  set (ret := os_sendto (calls w2) addr (build_ext_ka f)).
  set (w3 := w2 <| calls ::= S |> <| trace ::= cons (IoSendto addr (build_ext_ka f) ret) |>).
  rewrite (bind_done _ _ _ ret w3) by done.
  assert (exists w4, (when (negb (ret =? SRTLA_KEEPALIVE_EXT_LEN)) (inc SEND_ERR_KEEPALIVE)) w3 = Done tt w4 /\
    same_state w3 w4 /\ trace w4 = trace w3) as (w4 & E4 & Hs4 & T4).
  { destruct (negb _); by eexists. }
  exists w4, g2, (upd_c (heard ts c)), ret. split; [exact E4|]. split; [|split; [|split]].
  - apply (points_found (g_ptr g) (c_ptr c)).
    + eapply points_same; [exact Hs4|]. eapply points_same; [|exact P2]. done.
    + rewrite <- Ha. unfold heard. by destruct (_ && _).
  - assert (stats (heard ts c) = stats c) as Est by (unfold heard; by destruct (_ && _)).
    unfold upd_c. cbn [stats upd]. rewrite Est, N1. apply telemetry_reported.
    by apply co_stats, (conn_found_ok w g c).
  - unfold upd_c, heard. by destruct (_ && _), c.
  - rewrite T4. unfold w3, w2. cbn. by rewrite T1.
Qed.

(** ** Duplicate NAKs *)

(** The millisecond clock of the duplicate check; zero when unreadable. *)
Definition clock_ms (n : nat) : Z :=
  default 0 ((fun ts => u64 (u64 ts.1 * 1000 + u64 ts.2 / 1000 / 1000)) <$> os_clock_gettime n).

Lemma is_duplicate_nak_run gp g buf n w accept cache :
  lookup_group gp (groups w) = Some g ->
  should_accept_nak (nak_cache g) (hash_nak_payload buf n 128) (clock_ms (calls w)) = (accept, cache) ->
  is_duplicate_nak gp buf n w = Done (negb accept)
    (w <| calls ::= S |> <| groups ::= on_group gp (fun g => g <| nak_cache := cache |>) |>).
Proof.
  intros Hg Hs. unfold is_duplicate_nak. erewrite bind_done by reflexivity.
  rewrite (bind_done _ _ _ g (w <| calls ::= S |>))
    by (unfold deref_group; change (groups (w <| calls ::= S |>)) with (groups w); by rewrite Hg).
  fold (clock_ms (calls w)). by rewrite Hs.
Qed.

(** A NAK that the duplicate filter rejects goes no further: it is
    counted as suppressed, it is neither forwarded nor acknowledged, and the
    connection's loss statistics do not change. *)
Theorem duplicate_nak_dropped gp cp g c buf addr ts w :
  points gp cp g c w -> addr_key (address c) = addr_key addr ->
  is_srt_nak_packet buf (Zlength buf) = true ->
  (should_accept_nak (nak_cache g) (hash_nak_payload buf (Zlength buf) 128) (clock_ms (calls w))).1 = false ->
  exists w' g' c', handle_data gp cp buf (Zlength buf) addr ts w = Done tt w' /\
    lookup_group gp (groups w') = Some g' /\ lookup_conn cp (connections g') = Some c' /\
    c' = c <| stats ::= on_packet_received (Zlength buf) |> /\
    counters w' NAKS_SUPPRESSED = u64 (counters w NAKS_SUPPRESSED + 1) /\ trace w' = trace w.
Proof.
  intros (Hi & Hg & Hc) Ha Hnak Hdup. unfold handle_data.
  set (mark := fun g : ConnectionGroup => g <| data_seen := true |> <| last_address := addr |>).
  set (f := fun c => c <| stats ::= on_packet_received (Zlength buf) |>).
  set (g2 := mark g <| connections ::= on_conn cp f |>).
  set (w1 := w <| groups ::= on_group gp mark |>). rewrite (bind_done _ _ _ tt w1) by done.
  set (w2 := w1 <| groups ::= on_group gp (fun g => g <| connections ::= on_conn cp f |>) |>).
  rewrite (bind_done _ _ _ tt w2) by done.
  assert (lookup_group gp (groups w2) = Some g2) as Hg2
    by (unfold w2; cbn; apply lookup_on_group; [done|]; by apply lookup_on_group).
  destruct (should_accept_nak _ _ _) as [accept cache] eqn:Eacc. cbn [fst] in Hdup. subst accept.
  assert (account_nak gp cp buf (Zlength buf) ts w2 = Done false (w2 <| calls ::= S |>
      <| groups ::= on_group gp (fun g => g <| nak_cache := cache |>) |> <| counters ::= fun v c' =>
    if decide (c' = NAKS_SUPPRESSED) then u64 (v NAKS_SUPPRESSED + 1) else v c' |>)) as E4.
  { unfold account_nak. rewrite Hnak.
    by rewrite (bind_done _ _ _ _ _ (is_duplicate_nak_run gp g2 buf (Zlength buf) w2 false cache Hg2 Eacc)). }
  rewrite (bind_done _ _ _ _ _ E4). eexists _, (g2 <| nak_cache := cache |>), (f c). split; [reflexivity|].
  cbn [groups upd]. split; [by apply lookup_on_group|]. split; [by apply lookup_on_conn|].
  split; [done|]. split; [|done]. cbn. by rewrite decide_True.
Qed.
End Telemetry.

(** ** Random bytes *)

(** Ids are made of exactly as many random bytes as asked for.  When the
    device opens and every read gives at least one byte, the loop ends with
    exactly [size] bytes; it never ends with fewer, whatever the reads give,
    and the fuel of the model's loop is never what stops it. *)
Theorem random_bytes_exact {os : OS} size w :
  0 <= size ->
  (forall n, os_urandom_open n = true) ->
  (forall n k, 0 < k -> 1 <= Zlength (os_urandom_read n k)) ->
  exists r w', get_random_bytes size w = Done r w' /\ Zlength r = size /\ same_state w w'.
Proof.
  intros Hs Ho Hr. unfold get_random_bytes. erewrite bind_done by reflexivity. rewrite Ho. cbn [negb].
  assert (forall fuel acc w, Zlength acc <= size -> size - Zlength acc <= Z.of_nat fuel ->
    exists r w', read_random fuel acc size w = Done r w' /\ Zlength r = size /\ same_state w w') as Hloop.
  { induction fuel as [|fuel IH]; intros acc w0 Hle Hf; cbn [read_random];
      (destruct (Z.ltb_spec (Zlength acc) size); [|exists acc, w0; split; [done|split; [lia|done]]]); [lia|].
    erewrite bind_done by reflexivity. cbv zeta. set (chunk := take _ _).
    assert (1 <= Zlength chunk <= size - Zlength acc) as Hc.
    { pose proof (Hr (calls w0) (size - Zlength acc) ltac:(lia)) as H1.
      unfold chunk, Zlength in *. rewrite length_take. lia. }
    rewrite (proj2 (Z.leb_gt _ _)) by lia.
    assert (Zlength (acc ++ chunk) = Zlength acc + Zlength chunk) as Ha
      by (unfold Zlength; rewrite length_app; lia).
    destruct (IH (acc ++ chunk) (w0 <| calls ::= S |>)) as (r & w' & E & Hl & Hst); [lia|lia|].
    exists r, w'. split; [done|]. split; [done|]. transitivity (w0 <| calls ::= S |>); done. }
  destruct (Hloop (Z.to_nat size) [] (w <| calls ::= S |>)) as (r & w' & E & Hl & Hst);
    [unfold Zlength; cbn; lia|unfold Zlength; cbn; lia|].
  exists r, w'. split; [done|]. split; [done|]. transitivity (w <| calls ::= S |>); done.
Qed.

Lemma random_bytes_exact_witness :
  exists r w', @get_random_bytes os0 128 initial_world = Done r w' /\ Zlength r = 128 /\
    same_state initial_world w'.
Proof.
  apply (@random_bytes_exact os0 128 initial_world).
  - lia.
  - reflexivity.
  - intros n k Hk. cbn. unfold Zlength. rewrite length_replicate. lia.
Defined.

(** ** The theorems on the session *)

Definition sample_info : connection_info_t := {|
  ci_conn_id := 3; ci_window := 20000; ci_in_flight := -1; ci_rtt_ms := 45;
  ci_nak_count := 12; ci_bitrate_bytes_per_sec := 312500
|}.

Lemma keepalive_path_witness :
  exists w' g' c' ret,
    @process_single_packet os0 sample_cfg (build_ext_ka sample_info) SRTLA_KEEPALIVE_EXT_LEN client1 1003
      w_joined = Done tt w' /\
    find_by_address client1 (groups w') = Some (g', Some c') /\
    reported sample_info (@clock_seconds os0 (calls w_joined)) (stats (first_conn w_joined)) (stats c') /\
    c' <| stats := stats (first_conn w_joined) |> = heard 1003 (first_conn w_joined) /\
    trace w' = IoSendto client1 (build_ext_ka sample_info) ret :: trace w_joined.
Proof.
  apply (@keepalive_path os0 sample_cfg sample_info client1 1003 w_joined (first_group w_joined)
    (first_conn w_joined)).
  - unfold conn_info_ok. cbn. lia.
  - exact joined_inv.
  - vm_compute. reflexivity.
Defined.

(** A NAK, sent once before. *)
Definition nak_packet : list byte := be16_bytes SRT_TYPE_NAK ++ replicate 22 (byte_of 9).
Definition os_steady : OS := sample_os 1000 send_all None.
Definition w_nak : world :=
  run (@process_single_packet os_steady sample_cfg nak_packet (Zlength nak_packet) client1 1000) w_joined.

Lemma nak_run :
  @process_single_packet os_steady sample_cfg nak_packet (Zlength nak_packet) client1 1000 w_joined
  = Done tt w_nak.
Proof. apply exn_of_done. vm_compute. reflexivity. Qed.

Lemma nak_inv : inv w_nak.
Proof.
  pose proof (@wp_process_single_packet os_steady sample_cfg (sample_stdin _ _ _)
    nak_packet client1 1000 (fun _ _ => True) w_joined joined_inv (fun _ _ _ => I)) as Hw.
  exact (proj1 (wp_done _ _ _ _ _ _ Hw nak_run)).
Qed.

Lemma duplicate_nak_dropped_witness :
  exists w' g' c', @handle_data os_steady sample_cfg 0 1 nak_packet (Zlength nak_packet) client1 1000 w_nak
      = Done tt w' /\
    lookup_group 0 (groups w') = Some g' /\ lookup_conn 1 (connections g') = Some c' /\
    c' = first_conn w_nak <| stats ::= on_packet_received (Zlength nak_packet) |> /\
    counters w' NAKS_SUPPRESSED = u64 (counters w_nak NAKS_SUPPRESSED + 1) /\ trace w' = trace w_nak.
Proof.
  apply (@duplicate_nak_dropped os_steady sample_cfg 0 1 (first_group w_nak) (first_conn w_nak)).
  - split; [exact nak_inv|]. split; vm_compute; reflexivity.
  - vm_compute. reflexivity.
  - vm_compute. reflexivity.
  - vm_compute. reflexivity.
Defined.
