(* ===== verification/Packets.v ===== *)
(** * Packet classes, padding, lookups by id and by address; descriptor zero *)

From stdpp Require Import list gmap.
From S2P Require Import Prelude Config Wire NetUtils AuthRateLimiter Connection World Registry.
From S2P Require Import SrtHandler SrtlaHandler Exporter MainLoop Hoare Invariant RegistryProofs.
From S2P Require Import HandlerProofs Scenario LoopProofs.

(** ** Classes *)

(** The classes the handlers test for, data packets last. *)
Definition packet_classes (buf : list byte) (n : Z) : list bool :=
  [is_srtla_reg1 buf n; is_srtla_reg2 buf n; is_srtla_reg3 buf n; is_srtla_keepalive buf n;
   is_srt_ack buf n; is_srt_nak buf n; is_srt_shutdown buf n; is_srt_handshake_reject buf n;
   0 <=? get_srt_sn buf n].

(** The type each class goes with. *)
Definition class_types : list Z :=
  [SRTLA_TYPE_REG1; SRTLA_TYPE_REG2; SRTLA_TYPE_REG3; SRTLA_TYPE_KEEPALIVE;
   SRT_TYPE_ACK; SRT_TYPE_NAK; SRT_TYPE_SHUTDOWN; SRT_TYPE_HANDSHAKE].

Lemma control_class_type buf n i t :
  class_types !! i = Some t -> packet_classes buf n !! i = Some true -> get_srt_type buf n = t.
Proof.
  unfold packet_classes, is_srtla_reg1, is_srtla_reg2, is_srtla_reg3, is_srtla_keepalive, is_srt_ack,
    is_srt_nak, is_srt_shutdown, is_srt_handshake_reject.
  intros Ht Hc. do 7 (destruct i as [|i]; [cbn in Ht, Hc; injection Ht as <-;
    injection Hc as Hc; repeat case_match; try discriminate; by apply Z.eqb_eq|]).
  destruct i as [|i]; [|done]. cbn in Ht, Hc. injection Ht as <-. injection Hc as Hc.
  destruct (n <? SIZEOF_SRT_HANDSHAKE); [done|].
  destruct (Z.eqb_spec (get_srt_type buf n) SRT_TYPE_HANDSHAKE); done.
Qed.

(** No packet is in two classes: data packets have their first bit
    clear, and each control class has a type of its own. *)
Theorem packet_classes_disjoint buf n i j :
  packet_classes buf n !! i = Some true -> packet_classes buf n !! j = Some true -> i = j.
Proof.
  assert (forall i, packet_classes buf n !! i = Some true ->
    (exists t, class_types !! i = Some t /\ get_srt_type buf n = t) \/
    (i = 8%nat /\ get_srt_type buf n < 2 ^ 15)) as Hcase.
  { intros k Hk. destruct (class_types !! k) as [t|] eqn:Et.
    - left. exists t. split; [done|]. by eapply control_class_type.
    - right. apply lookup_ge_None in Et. cbn in Et. pose proof (lookup_lt_Some _ _ _ Hk) as Hl. cbn in Hl.
      assert (k = 8%nat) as -> by lia. split; [done|]. injection Hk as Hk%Z.leb_le. by apply data_packet_type. }
  intros Hi Hj.
  assert (forall k t, class_types !! k = Some t -> 2 ^ 15 <= t) as Hbig.
  { intros k t Hk. apply (list_elem_of_lookup_2 _ k) in Hk. revert t Hk. apply Forall_forall.
    by repeat constructor. }
  destruct (Hcase i Hi) as [(t & Ht & E)|(-> & E)], (Hcase j Hj) as [(t' & Ht' & E')|(-> & E')]; try done.
  - assert (NoDup class_types) as Hnd by (apply (bool_decide_unpack _); by vm_compute).
    eapply NoDup_lookup; [exact Hnd|exact Ht|]. by rewrite <- E, E'.
  - apply Hbig in Ht. lia.
  - apply Hbig in Ht'. lia.
Qed.

Lemma packet_classes_disjoint_witness :
  packet_classes reg1_packet 258 !! 0%nat = Some true /\ 0%nat = 0%nat.
Proof.
  split; [vm_compute; reflexivity|].
  apply (packet_classes_disjoint reg1_packet 258 0 0); vm_compute; reflexivity.
Defined.

(** ** Padding *)

(** [pad_sendto] sends one datagram of at least 32 bytes that starts
    with the given bytes and is zero after them, and reports the unpadded
    length exactly when the kernel took the whole datagram. *)
Theorem pad_sendto_spec {os : OS} buf dst w :
  exists r w' ret d, pad_sendto buf dst w = Done r w' /\
    trace w' = IoSendto dst d ret :: trace w /\ same_state w w' /\
    Zlength d = Z.max PAD_LEN (Zlength buf) /\
    d = buf ++ replicate (length d - length buf) Byte.x00 /\
    (ret = Zlength d -> r = Zlength buf) /\ (ret < 0 -> r < 0).
Proof.
  unfold pad_sendto, sendto. eexists _, _, (os_sendto (calls w) dst (pad_payload buf)), (pad_payload buf).
  split; [reflexivity|]. split; [done|]. split; [done|]. split; [apply length_pad_payload|].
  split; [|].
  - unfold pad_payload. destruct (PAD_LEN <=? Zlength buf).
    + by rewrite Nat.sub_diag, app_nil_r.
    + f_equal. rewrite length_app, length_replicate. f_equal. lia.
  - set (ret := os_sendto _ _ _). rewrite length_pad_payload. unfold pad_result.
    destruct (Z.leb_spec PAD_LEN (Zlength buf)); [lia|].
    destruct (Z.eqb_spec ret PAD_LEN); [|lia]. unfold PAD_LEN in *. pose proof (Zlength_nonneg buf). lia.
Qed.

(** ** Lookup by id *)

(** The constant-time lookup by id finds what a plain comparison of the
    256-byte ids finds: the first group with that id, or none. *)
Theorem group_lookup_exact {os : OS} {hc : HandlerConfig} {ec : ExporterConfig} {so : StdinOpen} id w :
  reachable w -> length id = Z.to_nat SRTLA_ID_LEN ->
  find_group_by_id id (groups w) = find_first (fun g => bool_decide (g_id g = id)) (groups w).
Proof.
  intros Hr Hid. apply reachable_inv in Hr as [[_ _ Hok _ _] _].
  unfold find_group_by_id. induction (groups w) as [|g gs IH]; cbn; [done|].
  apply Forall_cons in Hok as [Hg Hok]. rewrite constant_time_compare_spec by (done || apply Hg).
  by rewrite IH.
Qed.

Lemma group_lookup_exact_witness :
  find_group_by_id (last_reg2_id w_pending) (groups w_joined) =
  find_first (fun g => bool_decide (g_id g = last_reg2_id w_pending)) (groups w_joined).
Proof.
  apply (@group_lookup_exact os0 sample_cfg sample_exporter (sample_stdin _ _ _) (last_reg2_id w_pending) w_joined).
  - exact joined_reachable.
  - vm_compute. reflexivity.
Defined.

(** Two socket addresses are the same client exactly when their family,
    their IP address (4 bytes, or 16 for IPv6) and their port agree; flow
    label, scope and padding do not matter. *)
Theorem same_client a b :
  addresses_equal a b = true <->
  ss_family a = ss_family b /\ sin_port a = sin_port b /\
  if ss_family a =? AF_INET6 then sin6_addr a = sin6_addr b else sin_addr a = sin_addr b.
Proof.
  rewrite addresses_equal_true. unfold addr_key. split.
  - intros [= E1 E2 E3]. rewrite <- E1 in E2. split; [done|]. split; [done|]. by case_match.
  - intros (E1 & E2 & E3). rewrite <- E1, E2. by case_match; rewrite E3.
Qed.

(** ** Descriptor zero *)

(** The kernel of a process started with its standard input closed: the
    first socket it opens has descriptor 0. *)
Definition os_stdin_closed : OS := {|
  os_sendto _ _ b := Zlength b; os_sendmmsg _ d _ := Zlength d;
  os_send _ _ b := (Zlength b, 0); os_recv _ _ := None; os_socket _ := 0;
  os_setsockopt _ _ := 0; os_fcntl_getfl _ _ := 0; os_fcntl_setfl _ _ := 0;
  os_connect _ _ := 0; os_epoll_ctl _ _ := 0; os_getsockname _ _ := None;
  os_clock_gettime _ := Some (1000, 0); os_open_file _ := true; os_urandom_open _ := true;
  os_urandom_read n size := replicate (Z.to_nat size) (byte_of (Z.of_nat n))
|}.

Definition step0 (events : list event) (w : world) : world :=
  run (@loop_iteration os_stdin_closed sample_cfg sample_exporter events) w.
Definition z_pending : world := step0 (says client1 reg1_packet) initial_world.
Definition z_connected : world :=
  step0 (says client1 (reg2_request (last_reg2_id z_pending))) z_pending.
Definition z_joined : world := step0 (says client1 (data_packet 5)) z_connected.
(** The server's socket fails: the group is removed. *)
Definition z_removed : world := step0 [EvGroup 0] z_joined.

Lemma step0_reachable events w :
  @reachable os_stdin_closed sample_cfg sample_exporter w ->
  exn_of (@loop_iteration os_stdin_closed sample_cfg sample_exporter events w) = None ->
  @reachable os_stdin_closed sample_cfg sample_exporter (step0 events w).
Proof. intros Hr He. eapply reachable_iteration; [exact Hr|]. by apply exn_of_done. Qed.

(** The hypothesis on descriptor 0 is needed.  [ensure_group_socket]
    takes 0 for a valid descriptor and the destructor does not: started
    without standard input, the receiver destroys a group without closing its
    socket, and the epoll set keeps a registration that points to it. *)
Theorem descriptor_zero_leaks :
  @reachable os_stdin_closed sample_cfg sample_exporter z_removed /\
  groups z_removed = [] /\ epoll_set z_removed = [(0, 0%nat)] /\
  IoClose 0 ∉ trace z_removed.
Proof.
  split; [|split; [|split]].
  - unfold z_removed, z_joined, z_connected. do 3 (apply step0_reachable; [|vm_compute; reflexivity]).
    unfold z_pending. apply step0_reachable; [constructor|vm_compute; reflexivity].
  - vm_compute. reflexivity.
  - vm_compute. reflexivity.
  - assert (existsb (fun e => match e with IoClose _ => true | _ => false end) (trace z_removed) = false) as H
      by (vm_compute; reflexivity).
    intros Hin%list_elem_of_In. rewrite <- not_true_iff_false in H. apply H, existsb_exists.
    exists (IoClose 0). split; [exact Hin|reflexivity].
Qed.
