(* ===== verification/SenderModel.v ===== *)
(** * The sender (src/sender.cpp)

    [srtla_send]: the program on the other end of the links.  Packets of the
    local SRT caller are spread over the connections by window and packets in
    flight; acknowledgements and NAKs that come back adjust the windows; the
    sender registers its connections with the receiver and keeps them alive.
    The names are those of the source; the file does not import the
    receiver's handlers, some of which have the same names. *)

From stdpp Require Import list.
From S2P Require Import Prelude Config Wire.

Definition PKT_LOG_SZ : Z := 256.
Definition CONN_TIMEOUT : Z := 4.
Definition REG2_TIMEOUT : Z := 4.
Definition REG3_TIMEOUT : Z := 4.
Definition GLOBAL_TIMEOUT : Z := 10.
Definition IDLE_TIME : Z := 1.
Definition WINDOW_MIN : Z := 1.
Definition WINDOW_DEF : Z := 20.
Definition WINDOW_MAX : Z := 60.
Definition WINDOW_MULT : Z := 1000.
Definition WINDOW_DECR : Z := 100.
Definition WINDOW_INCR : Z := 30.
Definition HOUSEKEEPING_INT : Z := 1000.

(** [struct sockaddr]: its sixteen bytes, compared with [memcmp]. *)
Definition sockaddr : Type := list byte.

(** [conn_t]; [c_ptr] is the identity of the object, [next] is the order of
    the list [conns]. *)
Record conn_t := mkConnT {
  c_ptr : nat;
  fd : Z;
  last_rcvd : Z;
  last_sent : Z;
  src : sockaddr;
  removed : bool;
  in_flight_pkts : Z;
  window : Z;
  pkt_idx : Z;
  pkt_log : list Z
}.
#[export] Instance conn_t_eta : Eta conn_t := fun c =>
  mkConnT (c_ptr c) (fd c) (last_rcvd c) (last_sent c) (src c) (removed c)
    (in_flight_pkts c) (window c) (pkt_idx c) (pkt_log c).

(** The result of an operation on [int]: [None] when it overflows, which is
    undefined. *)
Definition c_int (z : Z) : option Z :=
  if (- 2 ^ 31 <=? z) && (z <? 2 ^ 31) then Some z else None.

(** ** The packet log and the window *)

Definition log_at (c : conn_t) (i : Z) : Z := nth (Z.to_nat i) (pkt_log c) 0.
Definition log_set (i v : Z) (c : conn_t) : conn_t :=
  c <| pkt_log ::= fun l => <[Z.to_nat i := v]> l |>.

Definition reg_pkt (packet : Z) (c : conn_t) : option conn_t :=
  let c := log_set (pkt_idx c) packet c in
  let c := c <| pkt_idx := Z.rem (pkt_idx c + 1) PKT_LOG_SZ |> in
  n ← c_int (in_flight_pkts c + 1);
  Some (c <| in_flight_pkts := n |>).

Definition conn_timed_out (c : conn_t) (ts : Z) : bool := last_rcvd c + CONN_TIMEOUT <? ts.

Definition get_pkt_idx (idx increment : Z) : Z :=
  let idx := idx + increment in
  let idx := if idx <? 0 then idx + PKT_LOG_SZ else idx in
  Z.rem idx PKT_LOG_SZ.

(** The indices a loop [for (i = ...; i != c->pkt_idx; i = get_pkt_idx(i, -1))]
    goes through, newest entry first. *)
Fixpoint visited (fuel : nat) (i stop : Z) : list Z :=
  match fuel with
  | O => []
  | S fuel' => if i =? stop then [] else i :: visited fuel' (get_pkt_idx i (-1)) stop
  end.
Definition log_order (c : conn_t) : list Z :=
  visited (Z.to_nat PKT_LOG_SZ) (get_pkt_idx (pkt_idx c) (-1)) (pkt_idx c).

(** The newest entry that holds [v]. *)
Definition find_log (v : Z) (c : conn_t) : option Z :=
  find_first (fun i => log_at c i =? v) (log_order c).

Definition nak_conn (i : Z) (c : conn_t) : option conn_t :=
  let c := log_set i (-1) c in
  w ← c_int (window c - WINDOW_DECR);
  Some (c <| window := Z.max w (WINDOW_MIN * WINDOW_MULT) |>).

Fixpoint register_nak (packet : Z) (conns : list conn_t) : option (list conn_t) :=
  match conns with
  | [] => Some []
  | c :: conns' =>
      match find_log packet c with
      | Some i => c' ← nak_conn i c; Some (c' :: conns')
      | None => rest ← register_nak packet conns'; Some (c :: rest)
      end
  end.

(** The entry [i] of the log is acknowledged. *)
Definition ack_entry (i : Z) (c : conn_t) : option conn_t :=
  let c := if 0 <? in_flight_pkts c then c <| in_flight_pkts ::= Z.pred |> else c in
  let c := log_set i (-1) c in
  load ← c_int (in_flight_pkts c * WINDOW_MULT);
  if window c <? load then
    w ← c_int (window c + (WINDOW_INCR - 1));
    Some (c <| window := w |>)
  else Some c.

(** Every connection heard from grows a little with each acknowledgement. *)
Definition ack_growth (c : conn_t) : option conn_t :=
  if last_rcvd c =? 0 then Some c else
  w ← c_int (window c + 1);
  Some (c <| window := Z.min w (WINDOW_MAX * WINDOW_MULT) |>).

Fixpoint srtla_ack_loop (ack : Z) (found : bool) (conns : list conn_t) : option (list conn_t) :=
  match conns with
  | [] => Some []
  | c :: conns' =>
      let hit := if found then None else find_log ack c in
      c1 ← (match hit with Some i => ack_entry i c | None => Some c end);
      c2 ← ack_growth c1;
      rest ← srtla_ack_loop ack (found || bool_decide (is_Some hit)) conns';
      Some (c2 :: rest)
  end.
Definition register_srtla_ack (ack : Z) (conns : list conn_t) : option (list conn_t) :=
  srtla_ack_loop ack false conns.

Definition srt_ack_step (ack : Z) (acc : conn_t * Z) (i : Z) : conn_t * Z :=
  let '(c, count) := acc in
  if log_at c i <? ack then (log_set i (-1) c, count) else (c, count + 1).
Definition conn_register_srt_ack (ack : Z) (c : conn_t) : conn_t :=
  let '(c, count) := fold_left (srt_ack_step ack) (log_order c) (c, 0) in
  c <| in_flight_pkts := count |>.
Definition register_srt_ack (ack : Z) (conns : list conn_t) : list conn_t :=
  map (conn_register_srt_ack ack) conns.

(** ** Selection *)

(** [window / (in_flight_pkts + 1)]; division truncates. *)
Definition score (c : conn_t) : option Z :=
  n ← c_int (in_flight_pkts c + 1);
  if n =? 0 then None else Some (Z.quot (window c) n).

Definition consider (t : Z) (best : option conn_t * Z) (c : conn_t)
  : option (option conn_t * Z) :=
  if conn_timed_out c t then Some best else
  s ← score c;
  Some (if best.2 <? s then (Some c, s) else best).

(** The loop of [select_conn] at time [t]; the maximum window the function
    also computes is not used. *)
Fixpoint best_conn (t : Z) (best : option conn_t * Z) (conns : list conn_t)
  : option (option conn_t * Z) :=
  match conns with
  | [] => Some best
  | c :: conns' => best ← consider t best c; best_conn t best conns'
  end.

(** ** State and system calls *)

Inductive io :=
  | IoSendto (fd : Z) (buf : list byte) (n : Z) (dst : sockaddr) (ret : Z)
  | IoSocket (fd : Z)
  | IoClose (fd : Z).

(** The kernel and the C library, as for the receiver: the first argument is
    the number of calls made so far.  [so_recvfrom] gives the result of the
    call, the 1500 bytes of the buffer after it (those beyond the datagram
    are whatever the stack held) and the address it came from;
    [so_uninit] is the value of a variable nothing was written to. *)
Class SenderOS := {
  so_clock_gettime : nat -> option (Z * Z);
  so_uninit : nat -> Z;
  so_recvfrom : nat -> Z -> Z * list byte * sockaddr;
  so_sendto : nat -> Z -> list byte -> Z -> sockaddr -> Z;
  so_socket : nat -> Z;
  so_setsockopt : nat -> Z -> Z;
  so_bind : nat -> Z -> Z;
  so_getlines : nat -> option (list (list byte));
  so_urandom_open : nat -> bool;
  so_urandom_read : nat -> Z -> list byte;
  so_getaddrinfo : nat -> option (list sockaddr);
  inet_addr : list byte -> Z
}.

(** The globals of sender.cpp, the function-local statics of
    [connection_housekeeping], and the bookkeeping of the model.  [addrs] is
    the address in use followed by those still to try. *)
Record sender := mkSender {
  conns : list conn_t;
  next_ptr : nat;
  active_fds : list Z;
  listenfd : Z;
  srtla_addr : sockaddr;
  srt_addr : sockaddr;
  addrs : list sockaddr;
  active_connections : Z;
  has_connected : bool;
  pending_reg2_conn : option nat;
  pending_reg_timeout : Z;
  srtla_id : list byte;
  do_update_conns : bool;
  all_failed_at : Z;
  last_ran : Z;
  calls : nat;
  trace : list io
}.
#[export] Instance sender_eta : Eta sender := fun s =>
  mkSender (conns s) (next_ptr s) (active_fds s) (listenfd s) (srtla_addr s) (srt_addr s)
    (addrs s) (active_connections s) (has_connected s) (pending_reg2_conn s)
    (pending_reg_timeout s) (srtla_id s) (do_update_conns s) (all_failed_at s) (last_ran s)
    (calls s) (trace s).

(** Why the program stops: it exits, an exception is not caught, or it does
    something undefined. *)
Inductive stop :=
  | Exit (status : Z)
  | Uncaught
  | SignedOverflow
  | OutOfBounds (offset : Z)
  | DanglingConn (ptr : nat).

Inductive outcome (A : Type) :=
  | Done (a : A) (s : sender)
  | Stopped (r : stop) (s : sender).
Arguments Done {A} a s.
Arguments Stopped {A} r s.

Definition SM (A : Type) : Type := sender -> outcome A.

#[export] Instance SM_ret : MRet SM := fun A a s => Done a s.
#[export] Instance SM_bind : MBind SM := fun A B k m s =>
  match m s with Done a s' => k a s' | Stopped r s' => Stopped r s' end.

Definition stop_with {A} (r : stop) : SM A := fun s => Stopped r s.
Definition gets {A} (f : sender -> A) : SM A := fun s => Done (f s) s.
Definition modify (f : sender -> sender) : SM unit := fun s => Done tt (f s).
Definition skip : SM unit := mret tt.
Definition when (b : bool) (m : SM unit) : SM unit := if b then m else skip.
Fixpoint mfor {A} (l : list A) (body : A -> SM unit) : SM unit :=
  match l with
  | [] => skip
  | x :: l' => body x;; mfor l' body
  end.

(** A computation on [int]s that may overflow. *)
Definition int_op {A} (o : option A) : SM A :=
  match o with Some a => mret a | None => stop_with SignedOverflow end.

Definition next_call : SM nat := fun s => Done (calls s) (s <| calls ::= S |>).
Definition emit (e : io) : SM unit := modify (fun s => s <| trace ::= cons e |>).

(** Reading and writing through a [conn_t *]. *)
Definition lookup_conn (p : nat) (cs : list conn_t) : option conn_t :=
  find_first (fun c => bool_decide (c_ptr c = p)) cs.
Definition deref (p : nat) : SM conn_t := fun s =>
  match lookup_conn p (conns s) with
  | Some c => Done c s
  | None => Stopped (DanglingConn p) s
  end.
Definition on_conn (p : nat) (f : conn_t -> conn_t) (cs : list conn_t) : list conn_t :=
  map (fun c => if decide (c_ptr c = p) then f c else c) cs.
Definition modify_conn (p : nat) (f : conn_t -> conn_t) : SM unit :=
  modify (fun s => s <| conns ::= on_conn p f |>).
(** [for (conn_t *c = conns; c != NULL; c = c->next)], where the body does
    not change the list. *)
Definition for_conns (body : nat -> SM unit) : SM unit :=
  ps ← gets (fun s => map c_ptr (conns s));
  mfor ps body.

(** The receiver's address in use. *)
Definition set_srtla_addr (addr : sockaddr) : SM unit := modify (fun s => s <| srtla_addr := addr |>).
(** The handler of SIGHUP. *)
Definition schedule_update_conns : SM unit := modify (fun s => s <| do_update_conns := true |>).

Section Sender.
Context `{SenderOS}.

Definition get_seconds : SM (option Z) :=
  t ← next_call; mret (fst <$> so_clock_gettime t).
Definition get_ms : SM (option Z) :=
  t ← next_call;
  mret ((fun ts => u64 (u64 ts.1 * 1000 + u64 ts.2 / 1000 / 1000)) <$> so_clock_gettime t).

Definition sendto (fd : Z) (buf : list byte) (n : Z) (dst : sockaddr) : SM Z :=
  t ← next_call; let ret := so_sendto t fd buf n dst in
  emit (IoSendto fd buf n dst ret);; mret ret.
Definition recvfrom (fd : Z) : SM (Z * list byte * sockaddr) :=
  t ← next_call; mret (so_recvfrom t fd).
Definition socket : SM Z :=
  t ← next_call; let fd := so_socket t in emit (IoSocket fd);; mret fd.
Definition setsockopt (fd : Z) : SM Z := t ← next_call; mret (so_setsockopt t fd).
Definition bind_ (fd : Z) : SM Z := t ← next_call; mret (so_bind t fd).
Definition close (fd : Z) : SM unit := emit (IoClose fd).

(** ** Active descriptors *)

Definition add_active_fd (fd : Z) : SM Z :=
  if fd <? 0 then mret (-1) else
  modify (fun s => s <| active_fds ::= fun l => fd :: filter (fun x => x <> fd) l |>);; mret 0.
Definition remove_active_fd (fd : Z) : SM Z :=
  if fd <? 0 then mret (-1) else
  modify (fun s => s <| active_fds ::= filter (fun x => x <> fd) |>);; mret 0.

(** ** Registration packets *)

Definition reg_packet (type : Z) (id : list byte) : list byte := be16_bytes type ++ id.

(** The send of [send_reg1] and [send_reg2]: type and id of the session. *)
Definition send_reg (type len : Z) (p : nat) : SM Z :=
  c ← deref p;
  if fd c <? 0 then mret (-1) else
  id ← gets srtla_id;
  dst ← gets srtla_addr;
  ret ← sendto (fd c) (reg_packet type id) len dst;
  mret (if ret =? len then 0 else -1).
Definition send_reg1 : nat -> SM Z := send_reg SRTLA_TYPE_REG1 SRTLA_TYPE_REG1_LEN.
Definition send_reg2 : nat -> SM Z := send_reg SRTLA_TYPE_REG2 SRTLA_TYPE_REG2_LEN.

(** ** Packets of the SRT caller *)

Definition select_conn : SM (option nat) :=
  now ← get_seconds;
  match now with
  | None => mret None
  | Some t =>
      cs ← gets conns;
      best ← int_op (best_conn t (None, -1) cs);
      match best.1 with
      | None => mret None
      | Some c => modify_conn (c_ptr c) (fun c => c <| last_sent := t |>);; mret (Some (c_ptr c))
      end
  end.

(** The packet on the selected connection. *)
Definition send_packet (p : nat) (buf : list byte) (n : Z) : SM unit :=
  c ← deref p;
  let sn := get_srt_sn buf n in
  dst ← gets srtla_addr;
  ret ← sendto (fd c) buf n dst;
  if ret =? n then
    if 0 <=? sn then
      c' ← int_op (reg_pkt sn c); modify_conn p (fun _ => c')
    else skip
  else modify_conn p (fun c => c <| last_rcvd := 1 |>).

Definition handle_srt_data (listen : Z) : SM unit :=
  '(n, buf, from) ← recvfrom listen;
  when (0 <=? n) (modify (fun s => s <| srt_addr := from |>));;
  selected ← select_conn;
  match selected with
  | None => skip
  | Some p => send_packet p buf n
  end.

(** ** Packets of the receiver *)

(** [be32toh(((uint32_t * )buf)[i])] with [char buf[MTU]]. *)
Definition word (buf : list byte) (i : Z) : SM Z :=
  if MTU <? 4 * i + 4 then stop_with (OutOfBounds (4 * i))
  else mret (read_be32 buf (Z.to_nat (4 * i))).

Definition on_conns (f : list conn_t -> option (list conn_t)) : SM unit :=
  cs ← gets conns; cs' ← int_op (f cs); modify (fun s => s <| conns := cs' |>).

(** [for (int32_t lost = id; lost <= last_id; lost++)]: the comparison is
    unsigned and [lost] is signed, so the increment overflows when
    [last_id] is [INT32_MAX] or more. *)
Definition nak_range (id last_id : Z) : SM unit :=
  if last_id <? id then skip else
  if 2 ^ 31 - 1 <=? last_id then stop_with SignedOverflow else
  mfor (seqZ id (last_id - id + 1)) (fun lost => on_conns (register_nak lost)).

Fixpoint nak_loop (fuel : nat) (i : Z) (buf : list byte) (n : Z) : SM unit :=
  match fuel with
  | O => skip
  | S fuel' =>
      if n / 4 <=? i then skip else
      id ← word buf i;
      if negb (Z.land id (Z.shiftl 1 31) =? 0) then
        last_id ← word buf (i + 1);
        nak_range (Z.land id 0x7FFFFFFF) last_id;;
        nak_loop fuel' (i + 2) buf n
      else
        on_conns (register_nak (i32 id));;
        nak_loop fuel' (i + 1) buf n
  end.

Fixpoint ack_loop (fuel : nat) (i : Z) (buf : list byte) (n : Z) : SM unit :=
  match fuel with
  | O => skip
  | S fuel' =>
      if n / 4 <=? i then skip else
      id ← word buf i;
      on_conns (register_srtla_ack (i32 id));;
      ack_loop fuel' (i + 1) buf n
  end.

Definition handle_reg_ngp (p : nat) (ts : Z) : SM unit :=
  active ← gets active_connections;
  pending ← gets pending_reg2_conn;
  timeout ← gets pending_reg_timeout;
  if (active =? 0) && bool_decide (pending = None) && (timeout <? ts) then
    ret ← send_reg1 p;
    when (ret =? 0)
      (modify (fun s => s <| pending_reg2_conn := Some p |>
                          <| pending_reg_timeout := ts + REG2_TIMEOUT |>))
  else skip.

Definition handle_reg2 (p : nat) (ts : Z) (buf : list byte) : SM unit :=
  pending ← gets pending_reg2_conn;
  if negb (bool_decide (pending = Some p)) then skip else
  let id := take (Z.to_nat SRTLA_ID_LEN) (drop 2 buf) in
  own ← gets srtla_id;
  let half := Z.to_nat (SRTLA_ID_LEN / 2) in
  if negb (bool_decide (take half id = take half own)) then skip else
  modify (fun s => s <| srtla_id := id |>);;
  for_conns (fun i => send_reg2 i;; skip);;
  modify (fun s => s <| pending_reg2_conn := None |> <| pending_reg_timeout := ts + REG3_TIMEOUT |>).

Definition to_srt (buf : list byte) (n : Z) : SM unit :=
  listen ← gets listenfd; dst ← gets srt_addr; sendto listen buf n dst;; skip.

(** The packets that count as heard from the receiver. *)
Definition handle_received (p : nat) (buf : list byte) (n packet_type : Z) : SM unit :=
  if packet_type =? SRT_TYPE_ACK then
    last_ack ← word buf 4;
    modify (fun s => s <| conns ::= register_srt_ack (i32 last_ack) |>);;
    to_srt buf n
  else if packet_type =? SRT_TYPE_NAK then
    nak_loop (Z.to_nat n) 4 buf n;; to_srt buf n
  else if packet_type =? SRTLA_TYPE_ACK then ack_loop (Z.to_nat n) 1 buf n
  else if packet_type =? SRTLA_TYPE_KEEPALIVE then skip
  else if packet_type =? SRTLA_TYPE_REG3 then
    active ← gets active_connections;
    active ← int_op (c_int (active + 1));
    modify (fun s => s <| has_connected := true |> <| active_connections := active |>)
  else to_srt buf n.

Definition handle_srtla_data (p : nat) : SM unit :=
  c ← deref p;
  '(n, buf, _) ← recvfrom (fd c);
  if n <=? 0 then skip else
  k ← gets calls;
  now ← get_seconds;
  let ts := default (so_uninit k) now in
  let packet_type := get_srt_type buf n in
  if packet_type =? SRTLA_TYPE_REG_NGP then handle_reg_ngp p ts else
  if packet_type =? SRTLA_TYPE_REG2 then handle_reg2 p ts buf else
  modify_conn p (fun c => c <| last_rcvd := ts |>);;
  handle_received p buf n packet_type.

(** ** Connections and sockets *)

Definition conn_find_by_src (a : sockaddr) (cs : list conn_t) : option conn_t :=
  find_first (fun c => bool_decide (a = src c)) cs.

(** [parse_ip] of src/common.c: a [sockaddr_in] with port 0. *)
Definition parse_ip (line : list byte) : option sockaddr :=
  let ip := inet_addr line in
  if ip =? 0xFFFFFFFF then None
  else Some ([byte_of AF_INET; byte_of (Z.shiftr AF_INET 8); Byte.x00; Byte.x00] ++
             le32_bytes ip ++ replicate 8 Byte.x00).

(** A line up to its newline. *)
Definition chomp (line : list byte) : list byte :=
  take (default (length line) (fst <$> list_find (fun b => b = Byte.x0a) line)) line.

(** [calloc] and the three assignments that follow. *)
Definition fresh_conn (p : nat) (a : sockaddr) : conn_t :=
  mkConnT p (-1) 0 0 a false 0 (WINDOW_DEF * WINDOW_MULT) 0 (replicate (Z.to_nat PKT_LOG_SZ) 0).

(** One line of the file: 1 when it adds a connection. *)
Definition setup_conn (line : list byte) : SM Z :=
  match parse_ip (chomp line) with
  | None => mret 0
  | Some a =>
      cs ← gets conns;
      match conn_find_by_src a cs with
      | None =>
          p ← gets next_ptr;
          modify (fun s => s <| next_ptr ::= S |> <| conns ::= cons (fresh_conn p a) |>);;
          mret 1
      | Some c => modify_conn (c_ptr c) (fun c => c <| removed := false |>);; mret 0
      end
  end.

Fixpoint setup_lines (lines : list (list byte)) : SM Z :=
  match lines with
  | [] => mret 0
  | line :: lines' => k ← setup_conn line; count ← setup_lines lines'; mret (k + count)
  end.

Definition setup_conns : SM Z :=
  t ← next_call;
  match so_getlines t with
  | None => stop_with (Exit 1)
  | Some lines => setup_lines lines
  end.

(** A connection whose address is no longer in the file. *)
Definition drop_conn (c : conn_t) : SM unit :=
  pending ← gets pending_reg2_conn;
  when (bool_decide (pending = Some (c_ptr c))) (modify (fun s => s <| pending_reg2_conn := None |>));;
  remove_active_fd (fd c);;
  close (fd c);;
  modify (fun s => s <| conns ::= filter (fun c' => c_ptr c' <> c_ptr c) |>).

Definition update_conns : SM unit :=
  modify (fun s => s <| conns ::= map (fun c => c <| removed := true |>) |>);;
  setup_conns;;
  cs ← gets conns;
  mfor cs (fun c => when (removed c) (drop_conn c)).

Definition open_socket (p : nat) : SM Z :=
  c ← deref p;
  when (0 <=? fd c)
    (remove_active_fd (fd c);; close (fd c);; modify_conn p (fun c => c <| fd := -1 |>));;
  sock ← socket;
  if sock <? 0 then mret (-1) else
  ret ← setsockopt sock;
  if negb (ret =? 0) then close sock;; mret (-1) else
  ret ← bind_ sock;
  if negb (ret =? 0) then close sock;; mret (-1) else
  add_active_fd sock;;
  modify_conn p (fun c => c <| fd := sock |>);;
  mret 0.

Fixpoint open_each (ps : list nat) : SM Z :=
  match ps with
  | [] => mret 0
  | p :: ps' =>
      ret ← open_socket p;
      opened ← open_each ps';
      mret (if ret =? 0 then 1 + opened else opened)
  end.
Definition open_conns : SM Z :=
  ps ← gets (fun s => map c_ptr (conns s)); open_each ps.

(** ** Housekeeping *)

Definition send_keepalive (p : nat) : SM unit :=
  c ← deref p;
  dst ← gets srtla_addr;
  sendto (fd c) (be16_bytes SRTLA_TYPE_KEEPALIVE) 2 dst;; skip.

(** The state of a connection that has just been found dead. *)
Definition reset_conn (c : conn_t) : conn_t :=
  c <| last_rcvd := 0 |> <| last_sent := 0 |> <| window := WINDOW_MIN * WINDOW_MULT |>
    <| in_flight_pkts := 0 |> <| pkt_log := replicate (Z.to_nat PKT_LOG_SZ) (-1) |>.

Definition housekeep_conn (time : Z) (p : nat) : SM unit :=
  c ← deref p;
  if fd c <? 0 then open_socket p;; skip else
  if conn_timed_out c time then
    when (0 <? last_rcvd c) (modify_conn p reset_conn);;
    pending ← gets pending_reg2_conn;
    match pending with
    | None => send_reg2 p;; skip
    | Some q => if decide (q = p) then send_reg1 p;; skip else skip
    end
  else
    active ← gets active_connections;
    active ← int_op (c_int (active + 1));
    modify (fun s => s <| active_connections := active |>);;
    when (last_sent c + IDLE_TIME <? time) (send_keepalive p).

(** The end of [connection_housekeeping]: nothing is connected for too long. *)
Definition check_global_timeout (ms : Z) : SM unit :=
  active ← gets active_connections;
  if negb (active =? 0) then modify (fun s => s <| all_failed_at := 0 |>) else
  failed_at ← gets all_failed_at;
  when (failed_at =? 0) (modify (fun s => s <| all_failed_at := ms |>));;
  failed_at ← gets all_failed_at;
  if u64 (failed_at + GLOBAL_TIMEOUT * 1000) <? ms then
    connected ← gets has_connected;
    if connected : bool then stop_with (Exit 1) else
    rest ← gets addrs;
    match rest with
    | _ :: next :: rest' =>
        modify (fun s => s <| addrs := next :: rest' |>);;
        set_srtla_addr next;;
        modify (fun s => s <| all_failed_at := 0 |>)
    | _ => stop_with (Exit 1)
    end
  else skip.

(** A round at the time [ms]. *)
Definition housekeeping_at (ms : Z) : SM unit :=
  let time := ms / 1000 in
  modify (fun s => s <| active_connections := 0 |>);;
  timeout ← gets pending_reg_timeout;
  when (timeout <? time) (modify (fun s => s <| pending_reg2_conn := None |>));;
  for_conns (housekeep_conn time);;
  check_global_timeout ms;;
  modify (fun s => s <| last_ran := ms |>).

Definition connection_housekeeping : SM unit :=
  now ← get_ms;
  match now with
  | None => skip
  | Some ms =>
      ran ← gets last_ran;
      if ms <? u64 (ran + HOUSEKEEPING_INT) then skip else housekeeping_at ms
  end.

(** ** The program *)

(** Bytes of /dev/urandom; the stream's [gcount] is the length of what a
    read gives, and a short read also sets its [fail]. *)
Definition get_random_bytes (size : Z) : SM (list byte) :=
  t ← next_call;
  if negb (so_urandom_open t) then stop_with Uncaught else
  t ← next_call;
  let ret := so_urandom_read t size in
  if negb (Zlength ret =? size) then stop_with Uncaught else mret ret.

(** From [main] to the loop: the first reading of the file, the client's
    half of the group id, the listening socket, the sockets of the
    connections, and the receiver's addresses. *)
Definition start : SM unit :=
  conn_count ← setup_conns;
  if conn_count <=? 0 then stop_with (Exit 1) else
  random_bytes ← get_random_bytes (SRTLA_ID_LEN / 2);
  modify (fun s => s <| srtla_id ::= fun id => random_bytes ++ drop (length random_bytes) id |>);;
  sock ← socket;
  if sock <? 0 then stop_with (Exit 1) else
  modify (fun s => s <| listenfd := sock |>);;
  ret ← bind_ sock;
  if ret <? 0 then stop_with (Exit 1) else
  add_active_fd sock;;
  connected ← open_conns;
  if connected <? 1 then stop_with (Exit 1) else
  t ← next_call;
  match so_getaddrinfo t with
  | Some (a :: rest) => modify (fun s => s <| addrs := a :: rest |>);; set_srtla_addr a
  | _ => stop_with (Exit 1)
  end.

(** One turn of the loop: [hup] when SIGHUP arrived since the last turn,
    [ready] the descriptors [select] found readable (none when it fails). *)
Definition iteration (hup : bool) (ready : list Z) : SM unit :=
  when hup schedule_update_conns;;
  update ← gets do_update_conns;
  when update (update_conns;; modify (fun s => s <| do_update_conns := false |>));;
  connection_housekeeping;;
  fds ← gets active_fds;
  let read_fds := filter (fun fd => fd ∈ fds) ready in
  listen ← gets listenfd;
  when (bool_decide (listen ∈ read_fds)) (handle_srt_data listen);;
  for_conns (fun p =>
    c ← deref p;
    when ((0 <=? fd c) && bool_decide (fd c ∈ read_fds)) (handle_srtla_data p)).

End Sender.

(** The state when [main] begins: the globals are zero. *)
Definition initial_sender : sender := {|
  conns := []; next_ptr := 0; active_fds := []; listenfd := 0;
  srtla_addr := replicate 16 Byte.x00; srt_addr := replicate 16 Byte.x00; addrs := [];
  active_connections := 0; has_connected := false;
  pending_reg2_conn := None; pending_reg_timeout := 0;
  srtla_id := replicate (Z.to_nat SRTLA_ID_LEN) Byte.x00;
  do_update_conns := false; all_failed_at := 0; last_ran := 0; calls := 0; trace := []
|}.
