(* ===== verification/SenderLog.v ===== *)
(** * The sender's packet log

    The ring of 256 entries of a connection (src/sender.cpp) against a plain
    list, [recent]: the last 255 packets sent on the connection, newest
    first.  Every operation on the log is an operation on that list. *)

From stdpp Require Import list.
From S2P Require Import Prelude Config Wire SenderModel.

(** What the fields of a connection always satisfy. *)
Record conn_ok (c : conn_t) : Prop := {
  ok_log : length (pkt_log c) = Z.to_nat PKT_LOG_SZ;
  ok_idx : 0 <= pkt_idx c < PKT_LOG_SZ;
  ok_window : WINDOW_MIN * WINDOW_MULT <= window c < 2 ^ 31;
  ok_flight : 0 <= in_flight_pkts c < 2 ^ 31
}.

(** The entries the loops over the log see. *)
Definition recent (c : conn_t) : list Z := map (log_at c) (log_order c).

(** ** The order of the loops *)

(** Index of the [k]-th newest entry. *)
Definition back (idx : Z) (k : nat) : Z := (idx - 1 - Z.of_nat k) mod PKT_LOG_SZ.

Lemma get_pkt_idx_pred i : 0 <= i < PKT_LOG_SZ -> get_pkt_idx i (-1) = (i - 1) mod PKT_LOG_SZ.
Proof.
  unfold get_pkt_idx, PKT_LOG_SZ. intros Hi.
  destruct (Z.ltb_spec (i + -1) 0).
  - replace i with 0 by lia. reflexivity.
  - rewrite Z.rem_mod_nonneg by lia. done.
Qed.

Lemma back_range idx k : 0 <= back idx k < PKT_LOG_SZ.
Proof. apply Z.mod_pos_bound. unfold PKT_LOG_SZ. lia. Qed.

Lemma back_succ idx k : get_pkt_idx (back idx k) (-1) = back idx (S k).
Proof.
  rewrite get_pkt_idx_pred by apply back_range.
  unfold back. rewrite Zminus_mod_idemp_l. f_equal. lia.
Qed.

Lemma back_stop idx k : 0 <= idx < PKT_LOG_SZ -> (k < 256)%nat ->
  back idx k = idx <-> k = 255%nat.
Proof.
  unfold back, PKT_LOG_SZ. intros Hi Hk. split.
  - intros E. pose proof (Z.div_mod (idx - 1 - Z.of_nat k) 256). lia.
  - intros ->. replace (idx - 1 - Z.of_nat 255) with (idx + -1 * 256) by lia.
    rewrite Z.mod_add by lia. by apply Z.mod_small.
Qed.

Lemma visited_back idx n k :
  0 <= idx < PKT_LOG_SZ -> (k + n = 256)%nat ->
  visited n (back idx k) idx = map (back idx) (seq k (255 - k)).
Proof.
  intros Hi. revert k. induction n as [|n IH]; intros k Hk; cbn [visited].
  - replace (255 - k)%nat with 0%nat by lia. done.
  - destruct (Z.eqb_spec (back idx k) idx) as [E|E].
    + apply back_stop in E; [|done|lia]. subst k. done.
    + rewrite back_succ, IH by lia.
      destruct (decide (k = 255%nat)) as [->|Hne].
      { exfalso. apply E. apply back_stop; done || lia. }
      replace (255 - k)%nat with (S (255 - S k)) by lia. done.
Qed.

(** The loops end at [pkt_idx] after 255 turns: the fuel is enough. *)
Lemma log_order_eq c :
  0 <= pkt_idx c < PKT_LOG_SZ -> log_order c = map (back (pkt_idx c)) (seq 0 255).
Proof.
  intros Hi. unfold log_order.
  replace (get_pkt_idx (pkt_idx c) (-1)) with (back (pkt_idx c) 0).
  - apply (visited_back (pkt_idx c) 256 0); done.
  - rewrite get_pkt_idx_pred by done. unfold back. f_equal. lia.
Qed.

Lemma length_recent c : 0 <= pkt_idx c < PKT_LOG_SZ -> length (recent c) = 255%nat.
Proof. intros Hi. unfold recent. by rewrite log_order_eq, !length_map, length_seq. Qed.

Lemma recent_lookup c k : 0 <= pkt_idx c < PKT_LOG_SZ -> (k < 255)%nat ->
  recent c !! k = Some (log_at c (back (pkt_idx c) k)).
Proof.
  intros Hi Hk. unfold recent. rewrite log_order_eq by done.
  rewrite !list_lookup_fmap, lookup_seq_lt by lia. done.
Qed.

Lemma back_inj idx j k : (j < 256)%nat -> (k < 256)%nat -> back idx j = back idx k -> j = k.
Proof.
  unfold back, PKT_LOG_SZ. intros Hj Hk E.
  pose proof (Z.div_mod (idx - 1 - Z.of_nat j) 256).
  pose proof (Z.div_mod (idx - 1 - Z.of_nat k) 256). lia.
Qed.

(** ** Reading and writing entries *)

Lemma log_at_set c i j v :
  0 <= i < Zlength (pkt_log c) -> 0 <= j ->
  log_at (log_set i v c) j = if decide (i = j) then v else log_at c j.
Proof.
  unfold log_at, log_set, Zlength. intros Hi Hj. cbn.
  rewrite !nth_lookup. case_decide as E.
  - subst j. rewrite list_lookup_insert_eq by lia. done.
  - rewrite list_lookup_insert_ne by lia. done.
Qed.

Lemma Zlength_log c : conn_ok c -> Zlength (pkt_log c) = PKT_LOG_SZ.
Proof. intros Hc. unfold Zlength. rewrite (ok_log _ Hc). done. Qed.

Lemma log_set_ok i v c : conn_ok c -> conn_ok (log_set i v c).
Proof. intros Hc. split; cbn; try apply Hc. rewrite length_insert. apply Hc. Qed.

Lemma recent_set c k v : conn_ok c -> (k < 255)%nat ->
  recent (log_set (back (pkt_idx c) k) v c) = <[k := v]> (recent c).
Proof.
  intros Hc Hk. pose proof (ok_idx _ Hc) as Hi.
  apply list_eq. intros j. destruct (decide (j < 255)%nat) as [Hj|Hj].
  - rewrite recent_lookup by done.
    change (pkt_idx (log_set _ _ c)) with (pkt_idx c).
    rewrite log_at_set by (rewrite ?(Zlength_log _ Hc); apply back_range).
    destruct (decide (j = k)) as [->|Hne].
    + rewrite decide_True by done.
      by rewrite list_lookup_insert_eq by (rewrite length_recent; done).
    + rewrite decide_False; [|intros E; apply Hne; symmetry; apply (back_inj (pkt_idx c)); lia || done].
      by rewrite list_lookup_insert_ne, recent_lookup by done.
  - rewrite !lookup_ge_None_2; [done| |]; rewrite ?length_insert, length_recent; done || lia.
Qed.

(** ** Sending *)

Lemma c_int_Some z w : c_int z = Some w -> w = z /\ - 2 ^ 31 <= z < 2 ^ 31.
Proof.
  unfold c_int. destruct (Z.leb_spec (- 2 ^ 31) z), (Z.ltb_spec z (2 ^ 31)); cbn;
    intros [=]; lia.
Qed.
Lemma c_int_small z : - 2 ^ 31 <= z < 2 ^ 31 -> c_int z = Some z.
Proof.
  unfold c_int. intros Hz.
  destruct (Z.leb_spec (- 2 ^ 31) z), (Z.ltb_spec z (2 ^ 31)); cbn; done || lia.
Qed.

Lemma back_next idx k : 0 <= idx < PKT_LOG_SZ ->
  back (Z.rem (idx + 1) PKT_LOG_SZ) (S k) = back idx k.
Proof.
  unfold back, PKT_LOG_SZ. intros Hi. rewrite Z.rem_mod_nonneg by lia.
  replace ((idx + 1) mod 256 - 1 - Z.of_nat (S k))
    with ((idx + 1) mod 256 - (1 + Z.of_nat (S k))) by lia.
  rewrite Zminus_mod_idemp_l. f_equal. lia.
Qed.
Lemma back_zero idx : 0 <= idx < PKT_LOG_SZ -> back (Z.rem (idx + 1) PKT_LOG_SZ) 0 = idx.
Proof.
  unfold back, PKT_LOG_SZ. intros Hi. rewrite Z.rem_mod_nonneg by lia.
  replace ((idx + 1) mod 256 - 1 - Z.of_nat 0) with ((idx + 1) mod 256 - 1) by lia.
  rewrite Zminus_mod_idemp_l. rewrite Z.mod_small; lia.
Qed.

(** Sending puts the packet at the head and forgets the oldest. *)
Lemma reg_pkt_spec v c c' : conn_ok c -> reg_pkt v c = Some c' ->
  conn_ok c' /\ recent c' = take 255 (v :: recent c) /\
  in_flight_pkts c' = in_flight_pkts c + 1 /\ window c' = window c /\
  last_rcvd c' = last_rcvd c /\ c_ptr c' = c_ptr c /\ src c' = src c.
Proof.
  intros Hc. pose proof (ok_idx _ Hc) as Hi. unfold reg_pkt.
  destruct (c_int _) as [n|] eqn:En; intros E; [|discriminate].
  cbn in E. injection E as <-. apply c_int_Some in En as [-> Hn]. cbn in Hn. pose proof (ok_flight _ Hc).
  assert (Hi' : 0 <= Z.rem (pkt_idx c + 1) PKT_LOG_SZ < PKT_LOG_SZ).
  { rewrite Z.rem_mod_nonneg by (unfold PKT_LOG_SZ; lia). apply Z.mod_pos_bound. done. }
  split_and!; try done.
  - split; cbn; [rewrite length_insert; apply Hc|done|apply Hc|lia].
  - apply list_eq. intros k. destruct (decide (k < 255)%nat) as [Hk|Hk].
    + rewrite recent_lookup, lookup_take_lt by done.
      change (Some (log_at (log_set (pkt_idx c) v c)
        (back (Z.rem (pkt_idx c + 1) PKT_LOG_SZ) k)) = (v :: recent c) !! k).
      rewrite log_at_set by (rewrite ?(Zlength_log _ Hc); done || apply back_range).
      destruct k as [|k].
      * rewrite back_zero, decide_True by done. done.
      * rewrite back_next by done. rewrite decide_False.
        { cbn. by rewrite recent_lookup by (done || lia). }
        intros E. symmetry in E. apply back_stop in E; lia || done.
    + rewrite !lookup_ge_None_2; [done| |].
      * rewrite length_take. lia.
      * rewrite length_recent by done. lia.
Qed.

(** ** Searching *)

(** The position of the newest occurrence of [v]. *)
Definition position (v : Z) (l : list Z) : option nat := fst <$> list_find (fun x => x = v) l.

Lemma find_first_position {A} (f : A -> Z) v l :
  find_first (fun i => f i =? v) l = position v (map f l) ≫= (fun k => l !! k).
Proof.
  unfold position. induction l as [|i l IH]; [done|]. cbn.
  destruct (Z.eqb_spec (f i) v) as [E|E].
  - by rewrite decide_True.
  - rewrite decide_False by done. rewrite IH.
    destruct (list_find _ (map f l)) as [[k x]|]; done.
Qed.

Lemma find_log_position v c : conn_ok c ->
  find_log v c = back (pkt_idx c) <$> position v (recent c).
Proof.
  intros Hc. pose proof (ok_idx _ Hc) as Hi. unfold find_log.
  rewrite find_first_position. fold (recent c). unfold position.
  destruct (list_find _ (recent c)) as [[k x]|] eqn:E; [|done]. cbn.
  apply list_find_Some in E as (E & _). apply lookup_lt_Some in E.
  rewrite length_recent in E by done.
  by rewrite log_order_eq, list_lookup_fmap, lookup_seq_lt by (done || lia).
Qed.

Lemma position_lt v c k : conn_ok c -> position v (recent c) = Some k -> (k < 255)%nat.
Proof.
  intros Hc. unfold position. destruct (list_find _ _) as [[j x]|] eqn:E; [|done].
  intros [= <-]. apply list_find_Some in E as (E & _). apply lookup_lt_Some in E.
  by rewrite length_recent in E by apply Hc.
Qed.

Lemma position_None v l : position v l = None <-> v ∉ l.
Proof.
  unfold position. rewrite fmap_None, list_find_None, Forall_forall. split.
  - intros Hf Hin. by apply (Hf v).
  - intros Hn x Hx ->. done.
Qed.

(** ** SRT acknowledgements *)

Lemma srt_ack_fold ack l : forall c n,
  conn_ok c -> NoDup l -> Forall (fun i => 0 <= i < PKT_LOG_SZ) l ->
  exists log', fold_left (srt_ack_step ack) l (c, n) =
      (c <| pkt_log := log' |>, n + Zlength (List.filter (fun i => ack <=? log_at c i) l)) /\
    length log' = Z.to_nat PKT_LOG_SZ /\
    forall j, 0 <= j -> nth (Z.to_nat j) log' 0 =
      if bool_decide (j ∈ l) && (log_at c j <? ack) then -1 else log_at c j.
Proof.
  induction l as [|i l IH]; intros c n Hc Hnd Hr.
  - exists (pkt_log c). split_and!; [|apply Hc|done].
    cbn. destruct c; f_equal. unfold Zlength. cbn. lia.
  - apply NoDup_cons in Hnd as [Hni Hnd]. apply Forall_cons in Hr as [Hi Hr].
    cbn [fold_left srt_ack_step List.filter].
    assert (Hcase : forall j, 0 <= j -> (j ∈ i :: l) <-> j = i \/ j ∈ l) by (intros; apply elem_of_cons).
    destruct (Z.ltb_spec (log_at c i) ack) as [Hlt|Hge].
    + destruct (IH (log_set i (-1) c) n (log_set_ok _ _ _ Hc) Hnd Hr) as (log' & -> & Hl & Hat).
      exists log'. split_and!; [|done|].
      * rewrite (proj2 (Z.leb_gt ack (log_at c i)) Hlt). do 3 f_equal.
        apply filter_ext_in. intros j Hj. rewrite log_at_set; [|rewrite (Zlength_log _ Hc); done|].
        -- rewrite decide_False; [done|]. intros ->. apply Hni. by apply list_elem_of_In.
        -- apply list_elem_of_In in Hj. rewrite Forall_forall in Hr. by apply Hr.
      * intros j Hj. rewrite Hat by done.
        rewrite log_at_set by (rewrite ?(Zlength_log _ Hc); done).
        case_decide as E; [subst j|].
        -- rewrite !bool_decide_false by done. cbn.
           rewrite bool_decide_true by (apply Hcase; auto).
           by rewrite (proj2 (Z.ltb_lt _ _) Hlt).
        -- rewrite (bool_decide_ext (j ∈ i :: l) (j ∈ l)); [done|]. rewrite Hcase by done.
           split; [intros [->|?]; done|auto].
    + destruct (IH c (n + 1) Hc Hnd Hr) as (log' & -> & Hl & Hat).
      exists log'. split_and!; [|done|].
      * rewrite (proj2 (Z.leb_le ack (log_at c i)) Hge). f_equal. unfold Zlength. cbn. lia.
      * intros j Hj. rewrite Hat by done.
        destruct (decide (j = i)) as [->|E].
        -- rewrite (proj2 (Z.ltb_ge _ _) Hge), !andb_false_r. done.
        -- rewrite (bool_decide_ext (j ∈ i :: l) (j ∈ l)); [done|]. rewrite Hcase by done.
           split; [intros [->|?]; done|auto].
Qed.

(** An entry below a cumulative acknowledgement is cleared. *)
Definition clear_below (ack v : Z) : Z := if v <? ack then -1 else v.

Lemma NoDup_log_order c : 0 <= pkt_idx c < PKT_LOG_SZ -> NoDup (log_order c).
Proof.
  intros Hi. rewrite log_order_eq by done. apply NoDup_fmap_2_strong; [|apply NoDup_seq].
  intros j k Hj%elem_of_seq Hk%elem_of_seq. apply back_inj; lia.
Qed.

Lemma log_order_range c : 0 <= pkt_idx c < PKT_LOG_SZ ->
  Forall (fun i => 0 <= i < PKT_LOG_SZ) (log_order c).
Proof.
  intros Hi. rewrite log_order_eq by done. apply Forall_fmap, Forall_forall.
  intros k _. apply back_range.
Qed.

Lemma filter_map_count {A B} (f : A -> B) p l :
  Zlength (List.filter (fun x => p (f x)) l) = Zlength (List.filter p (map f l)).
Proof. unfold Zlength. induction l as [|x l IH]; [done|]. cbn. destruct (p (f x)); cbn; lia. Qed.

Lemma filter_count_le {A} (p : A -> bool) l : Zlength (List.filter p l) <= Zlength l.
Proof. unfold Zlength. induction l as [|x l IH]; [done|]. cbn. destruct (p x); cbn; lia. Qed.

Lemma srt_ack_conn ack c : conn_ok c ->
  exists log', conn_register_srt_ack ack c =
      c <| pkt_log := log' |> <| in_flight_pkts := Zlength (List.filter (fun v => ack <=? v) (recent c)) |> /\
    conn_ok (conn_register_srt_ack ack c) /\
    recent (conn_register_srt_ack ack c) = map (clear_below ack) (recent c).
Proof.
  intros Hc. pose proof (ok_idx _ Hc) as Hi.
  destruct (srt_ack_fold ack (log_order c) c 0 Hc (NoDup_log_order _ Hi) (log_order_range _ Hi))
    as (log' & E & Hl & Hat).
  assert (Hn : Zlength (List.filter (fun i => ack <=? log_at c i) (log_order c)) =
               Zlength (List.filter (fun v => ack <=? v) (recent c))).
  { apply (filter_map_count (log_at c) (fun v => ack <=? v)). }
  exists log'. unfold conn_register_srt_ack. rewrite E, Hn, Z.add_0_l.
  pose proof (filter_count_le (fun v => ack <=? v) (recent c)) as Hle.
  unfold Zlength in Hle at 2. rewrite length_recent in Hle by done.
  split_and!; [done|split; cbn; [done|apply Hc|apply Hc|]|].
  - pose proof (Zlength_nonneg (List.filter (fun v => ack <=? v) (recent c))). lia.
  - apply list_eq. intros k. rewrite list_lookup_fmap.
    destruct (decide (k < 255)%nat) as [Hk|Hk].
    + rewrite !recent_lookup by done. cbn [fmap option_fmap option_map]. f_equal.
      change (nth (Z.to_nat (back (pkt_idx c) k)) log' 0 = clear_below ack (log_at c (back (pkt_idx c) k))).
      rewrite Hat by apply back_range. rewrite bool_decide_true; [done|].
      rewrite log_order_eq by done. apply list_elem_of_fmap. exists k. split; [done|].
      apply elem_of_seq. lia.
    + rewrite !lookup_ge_None_2; [done| |]; rewrite length_recent by done; lia.
Qed.

(** ** NAKs and SRTLA acknowledgements *)

Lemma recent_ext c c' :
  pkt_idx c' = pkt_idx c -> pkt_log c' = pkt_log c -> recent c' = recent c.
Proof. unfold recent, log_order, log_at. by intros -> ->. Qed.

Lemma nak_conn_spec c k : conn_ok c -> (k < 255)%nat ->
  exists c', nak_conn (back (pkt_idx c) k) c = Some c' /\ conn_ok c' /\
    recent c' = <[k := -1]> (recent c) /\
    window c' = Z.max (window c - WINDOW_DECR) (WINDOW_MIN * WINDOW_MULT) /\
    in_flight_pkts c' = in_flight_pkts c /\ c_ptr c' = c_ptr c /\ src c' = src c /\
    last_rcvd c' = last_rcvd c.
Proof.
  intros Hc Hk. pose proof (ok_window _ Hc) as Hw. unfold WINDOW_MIN, WINDOW_MULT in Hw.
  unfold nak_conn. rewrite c_int_small by (cbn; unfold WINDOW_DECR; lia).
  eexists. split; [done|]. split_and!; try done.
  - destruct (log_set_ok (back (pkt_idx c) k) (-1) c Hc) as [H1 H2 H3 H4].
    split; cbn in *; try done. unfold WINDOW_DECR, WINDOW_MIN, WINDOW_MULT. lia.
  - rewrite <- recent_set by done. by apply recent_ext.
Qed.

(** The connection whose log holds [v]: the first one of the list. *)
Definition first_holder (v : Z) (pre : list conn_t) (c : conn_t) (k : nat) : Prop :=
  Forall (fun c => v ∉ recent c) pre /\ position v (recent c) = Some k.

Lemma holder_cases v cs :
  Forall (fun c => v ∉ recent c) cs \/
  exists pre c k post, cs = pre ++ c :: post /\ first_holder v pre c k.
Proof.
  induction cs as [|c cs IH]; [by left|].
  destruct (position v (recent c)) as [k|] eqn:E.
  - right. by exists [], c, k, cs.
  - apply position_None in E. destruct IH as [IH|(pre & c' & k & post & -> & Hp & Hk)].
    + left. by constructor.
    + right. exists (c :: pre), c', k, post. split; [done|]. split; [by constructor|done].
Qed.

Lemma find_log_none v c : conn_ok c -> v ∉ recent c -> find_log v c = None.
Proof. intros Hc Hv. rewrite find_log_position by done. by rewrite (proj2 (position_None _ _) Hv). Qed.

Lemma register_nak_miss v pre cs : Forall conn_ok pre -> Forall (fun c => v ∉ recent c) pre ->
  register_nak v (pre ++ cs) = (fun r => pre ++ r) <$> register_nak v cs.
Proof.
  induction pre as [|c pre IH]; intros Hc Hp; cbn; [by destruct (register_nak v cs)|].
  apply Forall_cons in Hc as [Hc Hcs], Hp as [Hv Hp].
  rewrite find_log_none, IH by done. by destruct (register_nak v cs).
Qed.

(** What a SRTLA ACK does to the window of every connection heard from. *)
Definition grown (c : conn_t) : conn_t :=
  if last_rcvd c =? 0 then c
  else c <| window := Z.min (window c + 1) (WINDOW_MAX * WINDOW_MULT) |>.

(** Far from overflow: fewer than two million packets in flight. *)
Definition moderate (c : conn_t) : Prop :=
  window c <= 2 ^ 30 /\ in_flight_pkts c <= 2000000.

Lemma ack_growth_grown c : conn_ok c -> window c <= 2 ^ 30 + 29 -> ack_growth c = Some (grown c).
Proof.
  intros Hc Hw. pose proof (ok_window _ Hc). unfold ack_growth, grown.
  destruct (last_rcvd c =? 0); [done|]. unfold WINDOW_MIN, WINDOW_MULT in *.
  by rewrite c_int_small by lia.
Qed.

Lemma ack_entry_spec c k : conn_ok c -> moderate c -> (k < 255)%nat ->
  exists c', ack_entry (back (pkt_idx c) k) c = Some c' /\ conn_ok c' /\
    recent c' = <[k := -1]> (recent c) /\
    in_flight_pkts c' = Z.max 0 (in_flight_pkts c - 1) /\
    window c' = window c + (if window c <? 1000 * in_flight_pkts c' then 29 else 0) /\
    last_rcvd c' = last_rcvd c.
Proof.
  intros Hc [Hw Hf] Hk. pose proof (ok_window _ Hc) as Hw0. pose proof (ok_flight _ Hc) as Hf0.
  set (c1 := c <| in_flight_pkts := Z.max 0 (in_flight_pkts c - 1) |>).
  assert (Hc1 : conn_ok c1) by (split; cbn; try apply Hc; lia).
  assert (E1 : (if 0 <? in_flight_pkts c then c <| in_flight_pkts ::= Z.pred |> else c) = c1).
  { unfold c1. destruct (Z.ltb_spec 0 (in_flight_pkts c)); destruct c; unfold upd;
      cbn in *; f_equal; lia. }
  unfold ack_entry. rewrite E1.
  set (c2 := log_set (back (pkt_idx c) k) (-1) c1).
  assert (Hc2 : conn_ok c2) by (by apply log_set_ok).
  assert (Er : recent c2 = <[k := -1]> (recent c)).
  { unfold c2. rewrite (recent_set c1) by done. f_equal. }
  assert (Ef : in_flight_pkts c2 = Z.max 0 (in_flight_pkts c - 1)) by done.
  assert (Ew : window c2 = window c) by done.
  assert (El : last_rcvd c2 = last_rcvd c) by done. clearbody c2. clear E1.
  unfold WINDOW_MULT, WINDOW_INCR, WINDOW_MIN in *. rewrite Ef, Ew.
  rewrite (c_int_small (_ * 1000)) by lia. cbn.
  destruct (Z.ltb_spec (window c) (Z.max 0 (in_flight_pkts c - 1) * 1000)) as [Hl|Hl].
  - rewrite c_int_small by lia. eexists. split; [reflexivity|]. split_and!; cbn.
    + destruct Hc2. split; cbn; unfold WINDOW_MULT, WINDOW_MIN in *; done || lia.
    + rewrite <- Er. by apply recent_ext.
    + done.
    + rewrite Ef, (proj2 (Z.ltb_lt _ _)) by lia. lia.
    + done.
  - exists c2. split_and!; try done. rewrite Ef, Ew, (proj2 (Z.ltb_ge _ _)) by lia. lia.
Qed.

Lemma srtla_ack_found ack cs : Forall conn_ok cs -> Forall moderate cs ->
  srtla_ack_loop ack true cs = Some (map grown cs).
Proof.
  induction cs as [|c cs IH]; intros Hc Hm; [done|].
  apply Forall_cons in Hc as [Hc Hcs], Hm as [[Hw Hf] Hm]. cbn [srtla_ack_loop mbind option_bind].
  rewrite ack_growth_grown by (done || lia). cbn [orb]. by rewrite IH.
Qed.

Lemma srtla_ack_miss ack pre cs : Forall conn_ok pre -> Forall moderate pre ->
  Forall (fun c => ack ∉ recent c) pre ->
  srtla_ack_loop ack false (pre ++ cs) = (fun r => map grown pre ++ r) <$> srtla_ack_loop ack false cs.
Proof.
  induction pre as [|c pre IH]; intros Hc Hm Hp; cbn [app map]; [by destruct (srtla_ack_loop _ _ _)|].
  apply Forall_cons in Hc as [Hc Hcs], Hm as [[Hw Hf] Hm], Hp as [Hv Hp].
  cbn [srtla_ack_loop]. rewrite find_log_none by done. cbn [mbind option_bind].
  rewrite ack_growth_grown by (done || lia). rewrite bool_decide_false by (by intros [? ?]).
  cbn [orb]. rewrite IH by done. by destruct (srtla_ack_loop _ _ cs).
Qed.

(** Several packets sent on one connection. *)
Fixpoint reg_all (sns : list Z) (c : conn_t) : option conn_t :=
  match sns with
  | [] => Some c
  | sn :: sns' => c' ← reg_pkt sn c; reg_all sns' c'
  end.

Lemma reg_all_spec sns : forall c c', conn_ok c -> reg_all sns c = Some c' ->
  recent c' = take 255 (rev sns ++ recent c) /\
  in_flight_pkts c' = in_flight_pkts c + Zlength sns /\ conn_ok c'.
Proof.
  induction sns as [|v sns IH]; intros c c' Hc; cbn [reg_all rev app].
  - intros [= <-]. unfold Zlength. cbn. split_and!; [|lia|done].
    rewrite take_ge; [done|]. by rewrite length_recent by apply Hc.
  - destruct (reg_pkt v c) as [c1|] eqn:E; [|discriminate]. cbn. intros E'.
    destruct (reg_pkt_spec _ _ _ Hc E) as (Hc1 & Er & Ef & _).
    destruct (IH _ _ Hc1 E') as (-> & -> & Hc'). rewrite Er, Ef. split_and!; [|unfold Zlength; cbn; lia|done].
    rewrite <- app_assoc. cbn [app]. apply list_eq. intros k.
    destruct (decide (k < 255)%nat); [|by rewrite !lookup_take_ge by lia].
    rewrite !lookup_take_lt by done. destruct (decide (k < length (rev sns))%nat).
    + by rewrite !lookup_app_l by done.
    + rewrite !lookup_app_r, lookup_take_lt by lia. done.
Qed.

(** ** Properties *)

(** C25: the ring buffer is a window of the last 255 packets: after packets
    [sns] were sent on a connection, the loops over its log see them newest
    first, followed by what they saw before, and nothing older than 255
    packets; each packet is one more in flight. *)
Theorem packet_log_window sns c c' :
  conn_ok c -> reg_all sns c = Some c' ->
  recent c' = take 255 (rev sns ++ recent c) /\
  in_flight_pkts c' = in_flight_pkts c + Zlength sns /\ conn_ok c'.
Proof. apply reg_all_spec. Qed.

(** A cumulative SRT ACK clears exactly the entries below it, and the
    packets in flight become the number of entries it leaves, at most 255,
    whatever was counted before. *)
Theorem srt_ack_cumulative ack c :
  conn_ok c ->
  let c' := conn_register_srt_ack ack c in
  recent c' = map (clear_below ack) (recent c) /\
  in_flight_pkts c' = Zlength (List.filter (fun v => ack <=? v) (recent c)) /\
  in_flight_pkts c' <= 255 /\ window c' = window c /\ conn_ok c'.
Proof.
  intros Hc. destruct (srt_ack_conn ack c Hc) as (log' & E & Hok & Hr). cbn zeta.
  split_and!; [done| |  | |done]; rewrite E; cbn; try done.
  etransitivity; [apply filter_count_le|]. unfold Zlength. by rewrite length_recent by apply Hc.
Qed.

(** C26: a NAK costs exactly the connection that sent the packet: the first
    connection whose log holds it loses 100 of its window, never below 1000,
    and the entry; no other connection changes, and a packet that nobody
    sent changes nothing. *)
Theorem nak_shrinks_window v cs :
  Forall conn_ok cs ->
  exists cs', register_nak v cs = Some cs' /\ Forall conn_ok cs' /\
    (Forall (fun c => v ∉ recent c) cs /\ cs' = cs \/
     exists pre c c' k post, cs = pre ++ c :: post /\ cs' = pre ++ c' :: post /\
       first_holder v pre c k /\ recent c' = <[k := -1]> (recent c) /\
       window c' = Z.max 1000 (window c - 100) /\ in_flight_pkts c' = in_flight_pkts c).
Proof.
  intros Hok. destruct (holder_cases v cs) as [Hn|(pre & c & k & post & -> & Hf)].
  - exists cs. split_and!; [|done|by left].
    rewrite <- (app_nil_r cs) at 1. rewrite register_nak_miss by done.
    cbn. by rewrite app_nil_r.
  - apply Forall_app in Hok as [Hpre Hcp]. apply Forall_cons in Hcp as [Hc Hpost].
    destruct Hf as [Hp Hk]. pose proof (position_lt _ _ _ Hc Hk) as Hlt.
    destruct (nak_conn_spec c k Hc Hlt) as (c' & E & Hc' & Hr & Hw & Hfl & _).
    exists (pre ++ c' :: post). split_and!.
    + rewrite register_nak_miss by done. cbn.
      rewrite find_log_position, Hk by done. cbn. by rewrite E.
    + apply Forall_app. split; [done|by constructor].
    + right. exists pre, c, c', k, post. split_and!; [done|done|done|done| |done].
      rewrite Hw. unfold WINDOW_DECR, WINDOW_MIN, WINDOW_MULT. lia.
Qed.

(** A SRTLA ACK for a packet in the log of [c]. *)
Lemma ack_hit ack pre c post k :
  Forall conn_ok (pre ++ c :: post) -> Forall moderate (pre ++ c :: post) -> first_holder ack pre c k ->
  exists c1, register_srtla_ack ack (pre ++ c :: post) = Some (map grown pre ++ grown c1 :: map grown post) /\
    conn_ok c1 /\ recent c1 = <[k := -1]> (recent c) /\
    in_flight_pkts c1 = Z.max 0 (in_flight_pkts c - 1) /\
    window c1 = window c + (if window c <? 1000 * in_flight_pkts c1 then 29 else 0) /\
    last_rcvd c1 = last_rcvd c.
Proof.
  intros Hok Hm [Hp Hk]. apply Forall_app in Hok as [Hpre Hcp], Hm as [Hmpre Hmcp].
  apply Forall_cons in Hcp as [Hc Hpost], Hmcp as [Hmc Hmpost].
  pose proof (position_lt _ _ _ Hc Hk) as Hlt.
  destruct (ack_entry_spec c k Hc Hmc Hlt) as (c1 & E & Hc1 & Hr & Hfl & Hw & Hl).
  exists c1. split_and!; try done.
  unfold register_srtla_ack. rewrite srtla_ack_miss by done. cbn [srtla_ack_loop].
  rewrite find_log_position, Hk by done. cbn [fmap option_fmap option_map].
  rewrite E. cbn [mbind option_bind]. rewrite ack_growth_grown; [|done|].
  - rewrite bool_decide_true by done. cbn [orb]. by rewrite srtla_ack_found.
  - rewrite Hw. destruct Hmc. destruct (_ <? _); lia.
Qed.

(** C27: a SRTLA ACK acknowledges the packet on the first connection whose log
    holds it (one packet less in flight, the entry cleared, 29 more window
    when the connection is saturated), and then grows by one, up to 60000,
    the window of every connection that was heard from. *)
Theorem ack_grows_windows ack cs :
  Forall conn_ok cs -> Forall moderate cs ->
  exists cs', register_srtla_ack ack cs = Some cs' /\
    (Forall (fun c => ack ∉ recent c) cs /\ cs' = map grown cs \/
     exists pre c c1 k post, cs = pre ++ c :: post /\
       cs' = map grown pre ++ grown c1 :: map grown post /\
       first_holder ack pre c k /\ recent c1 = <[k := -1]> (recent c) /\
       in_flight_pkts c1 = Z.max 0 (in_flight_pkts c - 1) /\
       window c1 = window c + (if window c <? 1000 * in_flight_pkts c1 then 29 else 0) /\
       last_rcvd c1 = last_rcvd c).
Proof.
  intros Hok Hm. destruct (holder_cases ack cs) as [Hn|(pre & c & k & post & -> & Hf)].
  - exists (map grown cs). split; [|by left]. unfold register_srtla_ack.
    rewrite <- (app_nil_r cs) at 1. rewrite srtla_ack_miss by done. cbn. by rewrite app_nil_r.
  - destruct (ack_hit ack pre c post k Hok Hm Hf) as (c1 & E & _ & Hr & Hfl & Hw & Hl).
    eexists. split; [exact E|]. right. by exists pre, c, c1, k, post.
Qed.
