(* ===== verification/SenderProofs.v ===== *)
(** * The sender: invariant and pointer safety

    Every turn of the sender's loop (src/sender.cpp) keeps its connection
    list well formed, and no pointer to a freed connection is followed. *)

From stdpp Require Import list.
From S2P Require Import Prelude Config Wire SenderModel SenderLog.

(** ** Outcomes *)

(** A run may exit, or hit the overflows and the out-of-bounds read that the
    source does not exclude, but never follow a dangling pointer. *)
Definition allowed (r : stop) : Prop :=
  match r with DanglingConn _ => False | _ => True end.
Definition swp {A} (m : SM A) (Q : A -> sender -> Prop) (s : sender) : Prop :=
  match m s with Done a s' => Q a s' | Stopped r _ => allowed r end.

Lemma swp_bind {A B} (m : SM A) (k : A -> SM B) Q s :
  swp m (fun a s' => swp (k a) Q s') s -> swp (m ≫= k) Q s.
Proof. unfold swp, mbind, SM_bind. by destruct (m s). Qed.
Lemma swp_mono {A} (m : SM A) (Q Q' : A -> sender -> Prop) s :
  swp m Q s -> (forall a s', Q a s' -> Q' a s') -> swp m Q' s.
Proof. unfold swp. destruct (m s); auto. Qed.

(** ** Invariant *)

(** The connections: identity and source address. *)
Definition ids (s : sender) : list (nat * sockaddr) := map (fun c => (c_ptr c, src c)) (conns s).

Record sender_ok (s : sender) : Prop := {
  ok_conns : Forall conn_ok (conns s);
  ok_ptrs : NoDup (ids s).*1;
  ok_srcs : NoDup (ids s).*2;
  ok_next : Forall (fun p => p < next_ptr s)%nat (ids s).*1;
  ok_pending : forall p, pending_reg2_conn s = Some p -> p ∈ (ids s).*1;
  ok_id : length (srtla_id s) = Z.to_nat SRTLA_ID_LEN
}.

(** A step that keeps the list of connections, in order. *)
Definition good (s s' : sender) : Prop := sender_ok s' /\ ids s' = ids s.

(** A computation that keeps the invariant and the list, from states whose
    connections satisfy [P]. *)
Class Keeps (P : list (nat * sockaddr) -> Prop) {A} (m : SM A) : Prop :=
  keeps : forall s, sender_ok s -> P (ids s) -> swp m (fun _ s' => good s s') s.

Section Keeps.
Context (P : list (nat * sockaddr) -> Prop).

#[export] Instance keeps_ret {A} (a : A) : Keeps P (mret a).
Proof. intros s Hs _. by split. Qed.
#[export] Instance keeps_skip : Keeps P skip.
Proof. apply keeps_ret. Qed.
#[export] Instance keeps_bind {A B} (m : SM A) (k : A -> SM B) :
  Keeps P m -> (forall a, Keeps P (k a)) -> Keeps P (m ≫= k).
Proof.
  intros Hm Hk s Hs HP. apply swp_bind. eapply swp_mono; [by apply Hm|].
  intros a s' [Hs' E]. cbn. eapply swp_mono; [apply Hk; [done|by rewrite E]|].
  intros b s'' [Hs'' E']. split; [done|congruence].
Qed.
#[export] Instance keeps_if {A} (b : bool) (m1 m2 : SM A) :
  Keeps P m1 -> Keeps P m2 -> Keeps P (if b then m1 else m2).
Proof. by destruct b. Qed.
#[export] Instance keeps_dec {A} (Q : Prop) (b : {Q} + {~ Q}) (m1 m2 : SM A) :
  Keeps P m1 -> Keeps P m2 -> Keeps P (if b then m1 else m2).
Proof. by destruct b. Qed.
#[export] Instance keeps_when b m : Keeps P m -> Keeps P (when b m).
Proof. intros Hm. unfold when. apply keeps_if; [done|apply keeps_skip]. Qed.
#[export] Instance keeps_option {A B} (o : option A) (m1 : A -> SM B) m2 :
  (forall a, Keeps P (m1 a)) -> Keeps P m2 ->
  Keeps P (match o with Some a => m1 a | None => m2 end).
Proof. by destruct o. Qed.
#[export] Instance keeps_pair {A B C} (o : A * B) (m : A -> B -> SM C) :
  (forall a b, Keeps P (m a b)) -> Keeps P (let '(a, b) := o in m a b).
Proof. by destruct o. Qed.
#[export] Instance keeps_gets {A} (f : sender -> A) : Keeps P (gets f).
Proof. intros s Hs _. by split. Qed.
#[export] Instance keeps_stop_exit {A} n : Keeps P (stop_with (A:=A) (Exit n)).
Proof. intros s Hs _. done. Qed.
#[export] Instance keeps_stop_overflow {A} : Keeps P (stop_with (A:=A) SignedOverflow).
Proof. intros s Hs _. done. Qed.
#[export] Instance keeps_stop_bounds {A} n : Keeps P (stop_with (A:=A) (OutOfBounds n)).
Proof. intros s Hs _. done. Qed.
#[export] Instance keeps_int_op {A} (o : option A) : Keeps P (int_op o).
Proof. destruct o; intros s Hs _; by try split. Qed.

(** Changes of fields the invariant does not mention. *)
Lemma keeps_modify f :
  (forall s, conns (f s) = conns s /\ next_ptr (f s) = next_ptr s /\
             srtla_id (f s) = srtla_id s /\
             (pending_reg2_conn (f s) = pending_reg2_conn s \/ pending_reg2_conn (f s) = None)) ->
  Keeps P (modify f).
Proof.
  intros Hf s [] HP. destruct (Hf s) as (E1 & E2 & E3 & E4).
  split; [|unfold ids; cbn; by rewrite E1].
  split; unfold ids in *; rewrite ?E1, ?E2, ?E3; try done.
  intros p Hp. destruct E4 as [E|E]; rewrite E in Hp; [auto|done].
Qed.

Lemma keeps_mfor {A} (l : list A) body :
  (forall x, x ∈ l -> Keeps P (body x)) -> Keeps P (mfor l body).
Proof.
  induction l as [|x l IH]; intros Hb; [apply keeps_skip|].
  cbn. apply keeps_bind; [apply Hb; left|]. intros _. apply IH. intros y Hy. apply Hb. by right.
Qed.
End Keeps.

#[export] Hint Extern 5 (Keeps _ (modify _)) =>
  apply keeps_modify; intros ?; split_and!; first [reflexivity|left; reflexivity|right; reflexivity]
  : typeclass_instances.

#[export] Instance keeps_set_srtla_addr P a : Keeps P (set_srtla_addr a).
Proof. unfold set_srtla_addr. apply _. Qed.
#[export] Instance keeps_schedule_update P : Keeps P schedule_update_conns.
Proof. unfold schedule_update_conns. apply _. Qed.

Lemma keeps_weaken {A} (P Q : list (nat * sockaddr) -> Prop) (m : SM A) :
  (forall l, Q l -> P l) -> Keeps P m -> Keeps Q m.
Proof. intros HPQ Hm s Hs HQ. apply Hm; auto. Qed.

(** The list holds the connection [p]; the connection [c]. *)
Definition has (p : nat) (l : list (nat * sockaddr)) : Prop := p ∈ l.*1.
Definition holds_conn (c : conn_t) (l : list (nat * sockaddr)) : Prop :=
  NoDup l.*1 /\ (c_ptr c, src c) ∈ l.

Lemma ids_ptrs s : (ids s).*1 = map c_ptr (conns s).
Proof. unfold ids. rewrite <- list_fmap_compose. done. Qed.

Lemma lookup_conn_elem p cs c : lookup_conn p cs = Some c -> c ∈ cs /\ c_ptr c = p.
Proof.
  intros E. apply find_first_Some in E as [Hc Hp]. by apply bool_decide_eq_true in Hp.
Qed.
Lemma lookup_conn_has p cs : p ∈ map c_ptr cs -> exists c, lookup_conn p cs = Some c.
Proof.
  intros Hp. apply list_elem_of_fmap in Hp as (c & -> & Hc).
  eapply find_first_complete; [exact Hc|]. by apply bool_decide_eq_true.
Qed.

(** Reading through a pointer of the list, with what is then known of the
    connection. *)
Lemma keeps_deref_bind {B} P p (k : conn_t -> SM B) :
  (forall l, P l -> has p l) ->
  (forall c, conn_ok c -> c_ptr c = p -> Keeps (fun l => P l /\ holds_conn c l) (k c)) ->
  Keeps P (deref p ≫= k).
Proof.
  intros HP Hk s Hs HPs. pose proof (HP _ HPs) as Hp. unfold has in Hp. rewrite ids_ptrs in Hp.
  destruct (lookup_conn_has p (conns s) Hp) as (c & E).
  unfold swp, mbind, SM_bind, deref. rewrite E.
  apply lookup_conn_elem in E as [Hin Hc]. pose proof (ok_conns _ Hs) as Hok.
  rewrite Forall_forall in Hok. apply (Hk c); auto. split; [done|].
  split; [apply Hs|]. apply list_elem_of_fmap. by exists c.
Qed.

(** An update that keeps a connection's identity and form. *)
Definition keeps_conn (f : conn_t -> conn_t) : Prop :=
  forall c, conn_ok c -> conn_ok (f c) /\ c_ptr (f c) = c_ptr c /\ src (f c) = src c.

Lemma ok_with_conns s cs :
  sender_ok s -> Forall conn_ok cs -> map (fun c => (c_ptr c, src c)) cs = ids s ->
  good s (s <| conns := cs |>).
Proof.
  intros [] Hc Ep. split; [|done]. split; unfold ids in *; cbn; rewrite ?Ep; done.
Qed.

(** Writing through a pointer. *)
Lemma keeps_on_conn P p f :
  (forall s c, sender_ok s -> P (ids s) -> c ∈ conns s -> c_ptr c = p ->
     conn_ok (f c) /\ c_ptr (f c) = c_ptr c /\ src (f c) = src c) ->
  Keeps P (modify_conn p f).
Proof.
  intros Hf s Hs HP. pose proof (ok_conns _ Hs) as Hc. rewrite Forall_forall in Hc.
  apply (ok_with_conns s); [done| |].
  - apply Forall_forall. intros c Hin. apply list_elem_of_fmap in Hin as (c' & -> & Hin).
    case_decide; [by apply (Hf s)|by apply Hc].
  - unfold on_conn. rewrite map_map. apply map_ext_in. intros c Hin%list_elem_of_In.
    case_decide; [|done]. by destruct (Hf s c) as (_ & -> & ->).
Qed.
Lemma keeps_modify_conn P p f : keeps_conn f -> Keeps P (modify_conn p f).
Proof.
  intros Hf. apply keeps_on_conn. intros s c Hs _ Hc _. apply Hf.
  pose proof (ok_conns _ Hs) as Hok. rewrite Forall_forall in Hok. auto.
Qed.

(** Overwriting a connection that was read before. *)
Lemma keeps_overwrite P c c' :
  (forall l, P l -> holds_conn c l) ->
  conn_ok c' -> c_ptr c' = c_ptr c -> src c' = src c -> Keeps P (modify_conn (c_ptr c) (fun _ => c')).
Proof.
  intros HP Hc' Ep Es. apply keeps_on_conn. intros s d Hs HPs Hd Hp.
  destruct (HP _ HPs) as [Hnd Hin]. split_and!; [done|congruence|].
  assert (Hind : (c_ptr d, src d) ∈ ids s) by (apply list_elem_of_fmap; by exists d).
  rewrite Es. apply list_elem_of_lookup in Hin as [i Hi], Hind as [j Hj].
  assert (i = j) as ->.
  { eapply NoDup_lookup; [exact Hnd| |]; rewrite list_lookup_fmap; [rewrite Hi|rewrite Hj]; cbn;
      [done|by rewrite Hp]. }
  congruence.
Qed.

#[export] Hint Extern 5 (Keeps _ (modify_conn _ _)) =>
  apply keeps_modify_conn; intros ? []; split_and!; [split; assumption|reflexivity|reflexivity]
  : typeclass_instances.

Lemma keeps_on_conns P f :
  (forall cs cs', Forall conn_ok cs -> f cs = Some cs' ->
     Forall conn_ok cs' /\ map (fun c => (c_ptr c, src c)) cs' = map (fun c => (c_ptr c, src c)) cs) ->
  Keeps P (on_conns f).
Proof.
  intros Hf s Hs _. unfold swp, on_conns, mbind, SM_bind, gets, int_op.
  destruct (f (conns s)) as [cs'|] eqn:E; cbn; [|done].
  destruct (Hf _ _ (ok_conns _ Hs) E) as (H1 & H2). by apply ok_with_conns.
Qed.

Lemma keeps_for_conns P body : (forall p, Keeps (has p) (body p)) -> Keeps P (for_conns body).
Proof.
  intros Hb s Hs HP. unfold for_conns. apply swp_bind. cbn.
  apply (keeps_mfor (fun l => l = ids s)); [|done|done].
  intros p Hp. eapply keeps_weaken; [|apply Hb]. intros l ->. unfold has. by rewrite ids_ptrs.
Qed.

(** ** The window operations *)

Definition same_id (c c' : conn_t) : Prop := c_ptr c' = c_ptr c /\ src c' = src c.

Lemma nak_conn_ok i c c' : conn_ok c -> nak_conn i c = Some c' -> conn_ok c' /\ same_id c c'.
Proof.
  intros Hc. unfold nak_conn. destruct (c_int _) as [w|] eqn:E; intros E'; [|discriminate].
  cbn in E'. injection E' as <-. apply c_int_Some in E as [-> Hw]. split; [|done].
  destruct (log_set_ok i (-1) c Hc). split; cbn in *; try done.
  unfold WINDOW_MIN, WINDOW_MULT, WINDOW_DECR in *. lia.
Qed.

Lemma ack_entry_ok i c c' : conn_ok c -> ack_entry i c = Some c' -> conn_ok c' /\ same_id c c'.
Proof.
  intros Hc. unfold ack_entry.
  set (c1 := if 0 <? in_flight_pkts c then _ else c).
  assert (H1 : conn_ok c1 /\ same_id c c1).
  { unfold c1. destruct (Z.ltb_spec 0 (in_flight_pkts c)); [|done].
    destruct Hc. split; [|done]. split; cbn; try done. lia. }
  destruct H1 as [H1 Hid]. clearbody c1.
  destruct (log_set_ok i (-1) c1 H1). intros E.
  destruct (c_int (in_flight_pkts _ * _)) as [load|]; [|discriminate]. cbn -[log_set] in E.
  destruct (_ <? load).
  - destruct (c_int (window _ + _)) as [w|] eqn:Ew; [|discriminate]. cbn -[log_set] in E.
    injection E as <-. apply c_int_Some in Ew as [-> Hw]. split; [|done]. split; cbn -[log_set] in *; try done.
    unfold WINDOW_MIN, WINDOW_MULT, WINDOW_INCR in *. cbn in *. lia.
  - injection E as <-. done.
Qed.

Lemma ack_growth_ok c c' : conn_ok c -> ack_growth c = Some c' -> conn_ok c' /\ same_id c c'.
Proof.
  intros Hc. unfold ack_growth. destruct (last_rcvd c =? 0); [by intros [= <-]|].
  destruct (c_int _) as [w|] eqn:E; intros E'; [|discriminate]. cbn in E'. injection E' as <-.
  apply c_int_Some in E as [-> Hw]. destruct Hc. split; [|done]. split; cbn; try done.
  unfold WINDOW_MIN, WINDOW_MULT, WINDOW_MAX in *. lia.
Qed.

Definition same_ids (cs cs' : list conn_t) : Prop :=
  map (fun c => (c_ptr c, src c)) cs' = map (fun c => (c_ptr c, src c)) cs.

Lemma same_ids_cons c c' cs cs' : same_id c c' -> same_ids cs cs' -> same_ids (c :: cs) (c' :: cs').
Proof. intros [H1 H2] H3. unfold same_ids in *. cbn. by rewrite H1, H2, H3. Qed.

Lemma register_nak_ok v cs : forall cs', Forall conn_ok cs -> register_nak v cs = Some cs' ->
  Forall conn_ok cs' /\ same_ids cs cs'.
Proof.
  induction cs as [|c cs IH]; intros cs' Hc; cbn; [by intros [= <-]|].
  apply Forall_cons in Hc as [Hc Hcs]. destruct (find_log v c) as [i|].
  - destruct (nak_conn i c) as [c'|] eqn:E; [|discriminate]. intros [= <-].
    destruct (nak_conn_ok _ _ _ Hc E). split; [by constructor|by apply same_ids_cons].
  - destruct (register_nak v cs) as [r|]; [|discriminate]. intros [= <-].
    destruct (IH r Hcs eq_refl). split; [by constructor|by apply same_ids_cons].
Qed.

Lemma srtla_ack_ok v cs : forall found cs', Forall conn_ok cs ->
  srtla_ack_loop v found cs = Some cs' -> Forall conn_ok cs' /\ same_ids cs cs'.
Proof.
  induction cs as [|c cs IH]; intros found cs' Hc; cbn [srtla_ack_loop]; [by intros [= <-]|].
  apply Forall_cons in Hc as [Hc Hcs].
  set (hit := if found then None else find_log v c). clearbody hit. cbn zeta.
  destruct (match hit with Some i => ack_entry i c | None => Some c end) as [c1|] eqn:E1; [|discriminate].
  assert (H1 : conn_ok c1 /\ same_id c c1).
  { destruct hit; [by eapply ack_entry_ok|]. by injection E1 as <-. }
  destruct H1 as [H1 Hid1]. cbn [mbind option_bind].
  destruct (ack_growth c1) as [c2|] eqn:E2; [|discriminate].
  destruct (ack_growth_ok _ _ H1 E2) as [H2 [Hp2 Hs2]].
  destruct (srtla_ack_loop v _ cs) as [r|] eqn:E3; [|discriminate]. intros [= <-].
  destruct (IH _ _ Hcs E3). split; [by constructor|]. apply same_ids_cons; [|done].
  destruct Hid1. split; congruence.
Qed.

Lemma srt_ack_ok ack cs : Forall conn_ok cs ->
  Forall conn_ok (register_srt_ack ack cs) /\ same_ids cs (register_srt_ack ack cs).
Proof.
  induction cs as [|c cs IH]; intros Hc; [done|]. apply Forall_cons in Hc as [Hc Hcs].
  destruct (IH Hcs). destruct (srt_ack_conn ack c Hc) as (log' & E & Hok & _).
  split; [by constructor|]. apply same_ids_cons; [|done]. rewrite E. done.
Qed.

#[export] Instance keeps_register_nak P v : Keeps P (on_conns (register_nak v)).
Proof. apply keeps_on_conns. apply register_nak_ok. Qed.
#[export] Instance keeps_register_srtla_ack P v : Keeps P (on_conns (register_srtla_ack v)).
Proof. apply keeps_on_conns. intros cs cs'. apply srtla_ack_ok. Qed.
#[export] Instance keeps_register_srt_ack P v :
  Keeps P (modify (fun s => s <| conns ::= register_srt_ack v |>)).
Proof. intros s Hs _. destruct (srt_ack_ok v (conns s) (ok_conns _ Hs)). by apply ok_with_conns. Qed.

(** ** The handlers *)

(** The buffer of a receive has its size. *)
Class SenderEnv `{SenderOS} : Prop := {
  env_buffer : forall n fd, length (so_recvfrom n fd).1.2 = Z.to_nat MTU
}.

Section Handlers.
Context `{so : SenderOS} `{!SenderEnv} (P : list (nat * sockaddr) -> Prop).

#[export] Instance keeps_next_call : Keeps P next_call.
Proof. intros s [] _. split; [by split|done]. Qed.
#[export] Instance keeps_emit e : Keeps P (emit e).
Proof. unfold emit. apply _. Qed.
#[export] Instance keeps_get_seconds : Keeps P get_seconds.
Proof. unfold get_seconds. apply _. Qed.
#[export] Instance keeps_get_ms : Keeps P get_ms.
Proof. unfold get_ms. apply _. Qed.
#[export] Instance keeps_sendto fd b n d : Keeps P (sendto fd b n d).
Proof. unfold sendto. apply _. Qed.
#[export] Instance keeps_socket : Keeps P socket.
Proof. unfold socket. apply _. Qed.
#[export] Instance keeps_setsockopt fd : Keeps P (setsockopt fd).
Proof. unfold setsockopt. apply _. Qed.
#[export] Instance keeps_bind_ fd : Keeps P (bind_ fd).
Proof. unfold bind_. apply _. Qed.
#[export] Instance keeps_close fd : Keeps P (close fd).
Proof. unfold close. apply _. Qed.
#[export] Instance keeps_add_active_fd fd : Keeps P (add_active_fd fd).
Proof. unfold add_active_fd. apply _. Qed.
#[export] Instance keeps_remove_active_fd fd : Keeps P (remove_active_fd fd).
Proof. unfold remove_active_fd. apply _. Qed.
#[export] Instance keeps_word buf i : Keeps P (word buf i).
Proof. unfold word. apply _. Qed.
#[export] Instance keeps_to_srt buf n : Keeps P (to_srt buf n).
Proof. unfold to_srt. apply _. Qed.

Lemma keeps_recvfrom_bind {B} fd (k : Z * list byte * sockaddr -> SM B) :
  (forall n buf from, length buf = Z.to_nat MTU -> Keeps P (k (n, buf, from))) ->
  Keeps P (recvfrom fd ≫= k).
Proof.
  intros Hk s Hs HP. unfold recvfrom, swp, mbind, SM_bind, mret, SM_ret. cbn.
  pose proof (env_buffer (calls s) fd) as Hb.
  destruct (so_recvfrom (calls s) fd) as [[n buf] from]. cbn in Hb.
  destruct (keeps_next_call s Hs HP) as [Hs' E].
  pose proof (Hk n buf from Hb _ Hs' ltac:(by rewrite E)) as Hk'. unfold swp in Hk'.
  destruct (k _ _); [|done]. destruct Hk' as [H1 H2]. split; [done|congruence].
Qed.

#[export] Instance keeps_nak_range id last_id : Keeps P (nak_range id last_id).
Proof. unfold nak_range. repeat apply keeps_if; try apply _. apply keeps_mfor. intros. apply _. Qed.
#[export] Instance keeps_nak_loop fuel i buf n : Keeps P (nak_loop fuel i buf n).
Proof. revert i. induction fuel as [|fuel IH]; intros i; cbn [nak_loop]; apply _. Qed.
#[export] Instance keeps_ack_loop fuel i buf n : Keeps P (ack_loop fuel i buf n).
Proof. revert i. induction fuel as [|fuel IH]; intros i; cbn [ack_loop]; apply _. Qed.
#[export] Instance keeps_handle_received p buf n t : Keeps P (handle_received p buf n t).
Proof. unfold handle_received. apply _. Qed.
End Handlers.

Section Loop.
Context `{so : SenderOS} `{!SenderEnv}.

#[export] Instance keeps_send_reg type len p : Keeps (has p) (send_reg type len p).
Proof. unfold send_reg. apply keeps_deref_bind; [done|]. intros c _ _. apply _. Qed.
#[export] Instance keeps_send_reg1 p : Keeps (has p) (send_reg1 p).
Proof. apply keeps_send_reg. Qed.
#[export] Instance keeps_send_reg2 p : Keeps (has p) (send_reg2 p).
Proof. apply keeps_send_reg. Qed.

Lemma keeps_set_pending p t :
  Keeps (has p) (modify (fun s => s <| pending_reg2_conn := Some p |> <| pending_reg_timeout := t |>)).
Proof. intros s [] HP. split; [|done]. split; try done. cbn. by intros q [= <-]. Qed.

#[export] Instance keeps_handle_reg_ngp p ts : Keeps (has p) (handle_reg_ngp p ts).
Proof.
  unfold handle_reg_ngp. do 3 (apply keeps_bind; [apply _|intros ?]). apply keeps_if; [|apply _].
  apply keeps_bind; [apply _|]. intros r. apply keeps_when, keeps_set_pending.
Qed.

Lemma keeps_set_id P id : length id = Z.to_nat SRTLA_ID_LEN ->
  Keeps P (modify (fun s => s <| srtla_id := id |>)).
Proof. intros Hid s [] _. split; [|done]. by split. Qed.

Lemma keeps_handle_reg2 p ts buf : length buf = Z.to_nat MTU -> Keeps (has p) (handle_reg2 p ts buf).
Proof.
  intros Hb. unfold handle_reg2. apply keeps_bind; [apply _|]. intros pending.
  apply keeps_if; [apply _|]. apply keeps_bind; [apply _|]. intros own. apply keeps_if; [apply _|].
  apply keeps_bind; [apply keeps_set_id|intros _].
  { rewrite length_take, length_drop, Hb. done. }
  apply keeps_bind; [|apply _]. apply keeps_for_conns. intros i. apply _.
Qed.

#[export] Instance keeps_handle_srtla_data p : Keeps (has p) (handle_srtla_data p).
Proof.
  unfold handle_srtla_data. apply keeps_deref_bind; [done|]. intros c _ _.
  eapply keeps_weaken; [intros l [Hl _]; exact Hl|].
  apply keeps_recvfrom_bind. intros n buf from Hb. apply keeps_if; [apply _|].
  do 2 (apply keeps_bind; [apply _|intros ?]). cbn zeta.
  repeat apply keeps_if; try apply _. by apply keeps_handle_reg2.
Qed.

(** ** Selection and sending *)

Lemma best_conn_elem t cs : forall best r,
  best_conn t best cs = Some r -> r.1 = best.1 \/ exists c, r.1 = Some c /\ c ∈ cs.
Proof.
  induction cs as [|c cs IH]; intros best r; cbn [best_conn]; [intros [= <-]; by left|].
  destruct (consider t best c) as [b|] eqn:E; [|discriminate]. cbn. intros Hr.
  assert (Hb : b.1 = best.1 \/ b.1 = Some c).
  { unfold consider in E. destruct (conn_timed_out c t); [injection E as <-; by left|].
    destruct (score c); [|discriminate]. cbn in E. injection E as <-. destruct (_ <? _); auto. }
  destruct (IH _ _ Hr) as [Hd|(d & Hr1 & Hd)]; [|right; exists d; split; [done|by right]].
  destruct Hb as [Hb|Hb]; [left; congruence|]. right. exists c. split; [congruence|left].
Qed.

Lemma swp_select_conn s : sender_ok s ->
  swp select_conn (fun r s' => good s s' /\ forall p, r = Some p -> has p (ids s')) s.
Proof.
  intros Hs. unfold select_conn. apply swp_bind.
  eapply swp_mono; [apply (keeps_get_seconds (fun _ => True)); done|].
  intros now s1 [Hs1 E1]. destruct now as [t|]; [|by split].
  unfold swp, mbind, SM_bind, gets, int_op. destruct (best_conn t _ (conns s1)) as [r|] eqn:Eb; [|done].
  destruct r as [[c|] m]; [|by split]. apply best_conn_elem in Eb as [?|(d & [= <-] & Hin)]; [done|].
  assert (Hk : Keeps (fun _ => True) (modify_conn (c_ptr c) (fun c => c <| last_sent := t |>)))
    by apply _.
  destruct (Hk s1 Hs1 I) as [Hs2 E2]. split; [split; [exact Hs2|by etransitivity]|].
  intros p [= <-]. unfold has. rewrite E2, ids_ptrs. apply list_elem_of_fmap. by exists c.
Qed.

#[export] Instance keeps_send_packet p buf n : Keeps (has p) (send_packet p buf n).
Proof.
  apply keeps_deref_bind; [done|]. intros c Hc <-. cbn zeta.
  do 2 (apply keeps_bind; [apply _|intros ?]). repeat apply keeps_if; try apply _.
  destruct (reg_pkt _ c) as [c'|] eqn:E; [|by intros s Hs _].
  destruct (reg_pkt_spec _ _ _ Hc E) as (Hc' & _ & _ & _ & _ & Ep & Es).
  apply (keeps_overwrite _ c c'); [by intros l [_ ?]|done..].
Qed.

#[export] Instance keeps_handle_srt_data P listen : Keeps P (handle_srt_data listen).
Proof.
  unfold handle_srt_data. apply keeps_recvfrom_bind. intros n buf from _.
  apply keeps_bind; [apply _|]. intros _ s Hs _. apply swp_bind.
  eapply swp_mono; [by apply swp_select_conn|]. intros r s1 [[Hs1 E1] Hr].
  destruct r as [p|]; [|by split].
  eapply swp_mono; [apply keeps_send_packet; [done|by apply Hr]|].
  intros [] s2 [Hs2 E2]. split; [done|congruence].
Qed.

(** ** Sockets and housekeeping *)

#[export] Instance keeps_open_socket p : Keeps (has p) (open_socket p).
Proof.
  unfold open_socket. apply keeps_deref_bind; [done|]. intros c _ _. apply _.
Qed.

Lemma keeps_open_each ps P : (forall p l, p ∈ ps -> P l -> has p l) -> Keeps P (open_each ps).
Proof.
  induction ps as [|p ps IH]; intros HP; cbn [open_each]; [apply _|].
  apply keeps_bind; [eapply keeps_weaken; [|apply keeps_open_socket]|].
  - intros l. apply HP. left.
  - intros r. apply keeps_bind; [apply IH|apply _]. intros q l Hq. apply HP. by right.
Qed.
#[export] Instance keeps_open_conns P : Keeps P open_conns.
Proof.
  intros s Hs HP. unfold open_conns. apply swp_bind. cbn.
  apply (keeps_open_each _ (fun l => l = ids s)); [|done|done].
  intros p l Hp ->. unfold has. by rewrite ids_ptrs.
Qed.

#[export] Instance keeps_send_keepalive p : Keeps (has p) (send_keepalive p).
Proof. unfold send_keepalive. apply keeps_deref_bind; [done|]. intros c _ _. apply _. Qed.

Lemma reset_conn_ok : keeps_conn reset_conn.
Proof.
  intros c []. split; [|done]. by split.
Qed.

#[export] Instance keeps_housekeep_conn t p : Keeps (has p) (housekeep_conn t p).
Proof.
  unfold housekeep_conn. apply keeps_deref_bind; [done|]. intros c _ _.
  eapply keeps_weaken; [intros l [Hl _]; exact Hl|].
  repeat apply keeps_if; try apply _.
  apply keeps_bind; [apply keeps_when, keeps_modify_conn, reset_conn_ok|]. intros _. apply _.
Qed.

#[export] Instance keeps_check_global_timeout P ms : Keeps P (check_global_timeout ms).
Proof.
  unfold check_global_timeout. apply keeps_bind; [apply _|]. intros a. apply keeps_if; [apply _|].
  do 3 (apply keeps_bind; [apply _|intros ?]). apply keeps_if; [|apply _].
  apply keeps_bind; [apply _|]. intros b. apply keeps_if; [apply _|].
  apply keeps_bind; [apply _|]. intros [|x [|y l]]; apply _.
Qed.

#[export] Instance keeps_housekeeping P : Keeps P connection_housekeeping.
Proof.
  unfold connection_housekeeping. apply keeps_bind; [apply _|]. intros [ms|]; [|apply _].
  apply keeps_bind; [apply _|]. intros ran. apply keeps_if; [apply _|]. unfold housekeeping_at. cbv zeta.
  do 3 (apply keeps_bind; [apply _|intros ?]).
  apply keeps_bind; [apply keeps_for_conns; apply _|]. apply _.
Qed.

(** ** Reloading the list of addresses *)

(** The addresses a file lists. *)
Definition listed (lines : list (list byte)) : list sockaddr :=
  omap (fun line => parse_ip (chomp line)) lines.

Definition revive (A : list sockaddr) (c : conn_t) : conn_t :=
  if decide (src c ∈ A) then c <| removed := false |> else c.

(** A connection as it is created. *)
Definition is_fresh (c : conn_t) : Prop := c = fresh_conn (c_ptr c) (src c).

Lemma fresh_conn_ok p a : conn_ok (fresh_conn p a).
Proof. split; cbn; try done. Qed.

Lemma find_src_None a cs : conn_find_by_src a cs = None <-> a ∉ map src cs.
Proof.
  unfold conn_find_by_src. rewrite find_first_None. split.
  - intros Hn Ha. apply list_elem_of_fmap in Ha as (c & -> & Hc). specialize (Hn c Hc).
    by rewrite bool_decide_true in Hn.
  - intros Ha c Hc. apply bool_decide_eq_false. intros ->. apply Ha, list_elem_of_fmap. by exists c.
Qed.

Lemma ids_srcs s : (ids s).*2 = map src (conns s).
Proof. unfold ids. rewrite <- list_fmap_compose. done. Qed.

Lemma add_fresh_ok s a : sender_ok s -> a ∉ map src (conns s) ->
  sender_ok (s <| next_ptr ::= S |> <| conns ::= cons (fresh_conn (next_ptr s) a) |>).
Proof.
  intros [] Ha. assert (Hn : next_ptr s ∉ (ids s).*1).
  { intros Hin. rewrite Forall_forall in ok_next0. specialize (ok_next0 _ Hin). lia. }
  split; cbn; try done.
  - constructor; [apply fresh_conn_ok|done].
  - by constructor.
  - constructor; [|done]. rewrite <- ids_srcs in Ha. exact Ha.
  - constructor; [lia|]. eapply Forall_impl; [exact ok_next0|]. cbn. lia.
  - intros p Hp. right. by apply ok_pending0.
Qed.

(** What one line does to the list: the connection with its address, if any,
    is revived, otherwise a fresh one is put in front. *)
Lemma setup_conn_run line s : sender_ok s ->
  exists k s', setup_conn line s = Done k s' /\ sender_ok s' /\ trace s' = trace s /\
    exists new, conns s' = new ++ map (revive (listed [line])) (conns s) /\ Forall is_fresh new /\
      map src new = filter (fun a => a ∉ map src (conns s)) (listed [line]).
Proof.
  intros Hs. unfold setup_conn, listed. cbn [omap list_omap].
  destruct (parse_ip (chomp line)) as [a|].
  2: { exists 0, s. split_and!; try done. exists []. split_and!; try done.
       unfold revive. cbn. induction (conns s) as [|c cs IH]; [done|]. cbn.
       rewrite <- IH. by rewrite decide_False by apply not_elem_of_nil. }
  unfold mbind, SM_bind, gets. destruct (conn_find_by_src a (conns s)) as [c|] eqn:E.
  - apply find_first_Some in E as [Hc Ha]. apply bool_decide_eq_true in Ha. subst a.
    assert (Hk : Keeps (fun _ => True) (modify_conn (c_ptr c) (fun c => c <| removed := false |>)))
      by apply _.
    destruct (Hk s Hs I) as [Hs' _]. eexists _, _. split_and!; [reflexivity|exact Hs'|done|].
    exists []. split_and!; [|done|].
    + cbn. unfold on_conn. apply map_ext_in. intros d Hd%list_elem_of_In. unfold revive.
      assert (Hiff : c_ptr d = c_ptr c <-> src d ∈ [src c]).
      { rewrite list_elem_of_singleton. split; intros Heq.
        - assert (d = c) as ->; [|done]. pose proof (ok_ptrs _ Hs) as Hnd. rewrite ids_ptrs in Hnd.
          by eapply (NoDup_map_inj c_ptr).
        - assert (d = c) as ->; [|done]. pose proof (ok_srcs _ Hs) as Hnd. rewrite ids_srcs in Hnd.
          by eapply (NoDup_map_inj src). }
      destruct (decide (c_ptr d = c_ptr c)), (decide (src d ∈ [src c])); tauto.
    + rewrite filter_cons_False; [done|]. intros Hn. apply Hn, list_elem_of_fmap. by exists c.
  - apply find_src_None in E. eexists _, _. split_and!; [reflexivity|by apply add_fresh_ok|done|].
    exists [fresh_conn (next_ptr s) a]. split_and!; [|by repeat constructor|].
    + cbn. f_equal. symmetry. erewrite map_ext_in; [apply map_id|].
      intros d Hd%list_elem_of_In. unfold revive. rewrite decide_False; [done|].
      intros Ha%list_elem_of_singleton. apply E. rewrite <- Ha.
      apply list_elem_of_fmap. by exists d.
    + by rewrite filter_cons_True.
Qed.
Lemma listed_cons line lines : listed (line :: lines) = listed [line] ++ listed lines.
Proof. unfold listed. cbn. by destruct (parse_ip (chomp line)). Qed.

Lemma revive_app A B c : revive B (revive A c) = revive (A ++ B) c.
Proof.
  unfold revive. destruct (decide (src c ∈ A)) as [HA|HA];
    destruct (decide (src c ∈ A ++ B)) as [HAB|HAB]; rewrite elem_of_app in HAB.
  - cbn. by case_decide.
  - tauto.
  - rewrite decide_True by tauto. done.
  - rewrite decide_False by tauto. done.
Qed.
Lemma revive_fresh A c : is_fresh c -> revive A c = c.
Proof. intros ->. unfold revive. by case_decide. Qed.
Lemma revive_src A cs : map src (map (revive A) cs) = map src cs.
Proof. rewrite map_map. apply map_ext. intros c. unfold revive. by case_decide. Qed.

(** What a file does to the list: the connections it lists are revived, in
    place, and one fresh connection is put in front for each new address. *)
Lemma setup_lines_run lines : forall s, sender_ok s ->
  exists k s', setup_lines lines s = Done k s' /\ sender_ok s' /\ trace s' = trace s /\
    exists new, conns s' = new ++ map (revive (listed lines)) (conns s) /\ Forall is_fresh new /\
      forall a, a ∈ map src new <-> a ∈ listed lines /\ a ∉ map src (conns s).
Proof.
  induction lines as [|line lines IH]; intros s Hs.
  - exists 0, s. split_and!; try done. exists []. split_and!; [|done|intros a; cbn; rewrite !elem_of_nil; tauto].
    cbn. rewrite <- (map_id (conns s)) at 1. apply map_ext. intros c.
    unfold revive. rewrite decide_False; [done|]. apply not_elem_of_nil.
  - destruct (setup_conn_run line s Hs) as (k & s1 & E1 & Hs1 & Ep1 & new1 & Ec1 & Hf1 & Hn1).
    destruct (IH s1 Hs1) as (k2 & s2 & E2 & Hs2 & Ep2 & new2 & Ec2 & Hf2 & Hn2).
    exists (k + k2), s2. split_and!; [|done|congruence|].
    + cbn [setup_lines]. unfold mbind, SM_bind. by rewrite E1, E2.
    + exists (new2 ++ new1). rewrite Ec2, Ec1, map_app, map_map, <- app_assoc. split_and!.
      * f_equal. f_equal.
        -- rewrite <- (map_id new1) at 2. apply map_ext_in. intros c Hc%list_elem_of_In.
           apply revive_fresh. rewrite Forall_forall in Hf1. auto.
        -- apply map_ext. intros c. rewrite (listed_cons line lines). apply revive_app.
      * by apply Forall_app.
      * intros a. rewrite map_app, elem_of_app, Hn2, Hn1, list_elem_of_filter, (listed_cons line lines), elem_of_app.
        rewrite Ec1, map_app, revive_src, elem_of_app, Hn1, list_elem_of_filter.
        destruct (decide (a ∈ listed [line])), (decide (a ∈ listed lines)); tauto.
Qed.

Lemma remove_conn_ok c s : sender_ok s -> pending_reg2_conn s <> Some (c_ptr c) ->
  sender_ok (s <| conns ::= filter (fun c' => c_ptr c' <> c_ptr c) |>).
Proof.
  intros [] Hp.
  assert (Hsub : ids (s <| conns ::= filter (fun c' => c_ptr c' <> c_ptr c) |>) `sublist_of` ids s).
  { unfold ids. cbn. apply (fmap_sublist (fun c => (c_ptr c, src c))), sublist_filter. }
  split; try done.
  - cbn. eapply Forall_sublist_of; [exact ok_conns0|apply sublist_filter].
  - eapply sublist_NoDup; [exact ok_ptrs0|apply fmap_sublist, Hsub].
  - eapply sublist_NoDup; [exact ok_srcs0|apply fmap_sublist, Hsub].
  - eapply Forall_sublist_of; [exact ok_next0|apply fmap_sublist, Hsub].
  - intros p E. specialize (ok_pending0 p E). rewrite ids_ptrs in ok_pending0 |- *. cbn in E |- *.
    apply list_elem_of_fmap in ok_pending0 as (d & -> & Hd). apply list_elem_of_fmap.
    exists d. split; [done|]. apply list_elem_of_filter. split; [congruence|done].
Qed.

(** Freeing a connection. *)
Lemma drop_conn_run c s : sender_ok s ->
  exists s', drop_conn c s = Done tt s' /\ sender_ok s' /\
    conns s' = filter (fun c' => c_ptr c' <> c_ptr c) (conns s) /\
    trace s' = IoClose (fd c) :: trace s.
Proof.
  intros Hs.
  set (s1 := (if bool_decide (pending_reg2_conn s = Some (c_ptr c))
              then s <| pending_reg2_conn := None |> else s)
             <| active_fds ::= fun l => if fd c <? 0 then l else filter (fun x => x <> fd c) l |>
             <| trace ::= cons (IoClose (fd c)) |>).
  exists (s1 <| conns ::= filter (fun c' => c_ptr c' <> c_ptr c) |>). split_and!.
  - unfold drop_conn, remove_active_fd, close, emit, when, modify, mbind, SM_bind, gets, s1.
    destruct (bool_decide _), (fd c <? 0); destruct s; reflexivity.
  - apply remove_conn_ok.
    + unfold s1. destruct Hs, (bool_decide _); split; done.
    + unfold s1. case_bool_decide; cbn; [done|congruence].
  - unfold s1. by destruct (bool_decide _).
  - unfold s1. by destruct (bool_decide _).
Qed.

Definition close_of (c : conn_t) : io := IoClose (fd c).

(** The last loop of [update_conns]. *)
Lemma drop_all_run cs : forall s, sender_ok s ->
  exists s', mfor cs (fun c => when (removed c) (drop_conn c)) s = Done tt s' /\ sender_ok s' /\
    conns s' = filter (fun c' => c_ptr c' ∉ map c_ptr (List.filter removed cs)) (conns s) /\
    trace s' = rev (map close_of (List.filter removed cs)) ++ trace s.
Proof.
  induction cs as [|c cs IH]; intros s Hs.
  - exists s. split_and!; try done. cbn. symmetry. apply filter_all.
    intros c _. apply not_elem_of_nil.
  - cbn [mfor List.filter]. destruct (removed c).
    + destruct (drop_conn_run c s Hs) as (s1 & E1 & Hs1 & Ec1 & Et1).
      destruct (IH s1 Hs1) as (s2 & E2 & Hs2 & Ec2 & Et2). exists s2.
      unfold mbind, SM_bind. cbn [when]. rewrite E1. split_and!; [done|done| |].
      * rewrite Ec2, Ec1, list_filter_filter. apply list_filter_iff. intros d.
        cbn. rewrite not_elem_of_cons. tauto.
      * rewrite Et2, Et1. cbn. by rewrite <- app_assoc.
    + destruct (IH s Hs) as (s2 & E2 & Hs2 & Ec2 & Et2). by exists s2.
Qed.

Lemma mark_removed_ok s : sender_ok s ->
  sender_ok (s <| conns ::= map (fun c => c <| removed := true |>) |>).
Proof.
  intros Hs. pose proof (ok_conns _ Hs) as Hc.
  apply (ok_with_conns s (map (fun c => c <| removed := true |>) (conns s))); [done| |].
  - apply Forall_fmap. eapply Forall_impl; [exact Hc|]. intros c []. by split.
  - rewrite map_map. done.
Qed.

Lemma update_conns_run s lines : sender_ok s -> so_getlines (calls s) = Some lines ->
  exists s' new, update_conns s = Done tt s' /\ sender_ok s' /\
    conns s' = new ++ map (fun c => c <| removed := false |>)
                        (filter (fun c => src c ∈ listed lines) (conns s)) /\
    Forall is_fresh new /\
    (forall a, a ∈ map src new <-> a ∈ listed lines /\ a ∉ map src (conns s)) /\
    trace s' = rev (map close_of (filter (fun c => src c ∉ listed lines) (conns s))) ++ trace s.
Proof.
  intros Hs El. set (mark := fun c => c <| removed := true |>).
  set (s1 := s <| conns ::= map mark |> <| calls ::= S |>).
  assert (Hs1 : sender_ok s1).
  { destruct (mark_removed_ok s Hs). by split. }
  destruct (setup_lines_run lines s1 Hs1) as (k & s2 & E2 & Hs2 & Et2 & new & Ec2 & Hf & Hn).
  destruct (drop_all_run (conns s2) s2 Hs2) as (s3 & E3 & Hs3 & Ec3 & Et3).
  exists s3, new.
  assert (Eold : forall cs, List.filter removed (map (revive (listed lines)) (map mark cs)) =
                       map mark (filter (fun c => src c ∉ listed lines) cs) /\
                     filter (fun c => removed c = false) (map (revive (listed lines)) (map mark cs)) =
                       map (fun c => c <| removed := false |>) (filter (fun c => src c ∈ listed lines) cs)).
  { induction cs as [|c cs [IH1 IH2]]; [done|]. cbn [map List.filter].
    assert (Er : revive (listed lines) (mark c) =
                 if decide (src c ∈ listed lines) then c <| removed := false |> else mark c) by done.
    rewrite Er. destruct (decide (src c ∈ listed lines)) as [Hi|Hi].
    - rewrite (filter_cons_False (fun c => src c ∉ listed lines)) by tauto.
      rewrite !filter_cons_True by done. cbn. by rewrite IH1, IH2.
    - rewrite (filter_cons_True (fun c => src c ∉ listed lines)) by done.
      rewrite !filter_cons_False by done. cbn. by rewrite IH1, IH2. }
  destruct (Eold (conns s)) as [Eold1 Eold2].
  assert (Enew : List.filter removed new = []).
  { clear -Hf. induction Hf as [|c new Hc _ IH]; [done|]. cbn. by rewrite Hc. }
  assert (Erem : List.filter removed (conns s2) =
                 map mark (filter (fun c => src c ∉ listed lines) (conns s))).
  { rewrite Ec2, List.filter_app, Enew. apply Eold1. }
  assert (Esrc : map src (conns s1) = map src (conns s)) by (cbn; by rewrite map_map).
  rewrite Esrc in Hn. split_and!; [|done| |done|exact Hn|].
  - assert (E1 : setup_conns (s <| conns ::= map mark |>) = Done k s2).
    { unfold setup_conns, next_call, mbind, SM_bind.
      change (calls (s <| conns ::= map mark |>)) with (calls s). rewrite El. exact E2. }
    unfold update_conns, modify, gets, mbind, SM_bind. fold mark. by rewrite E1.
  - rewrite Ec3. rewrite (filter_agree _ (fun c => removed c = false)).
    + rewrite Ec2, filter_app, (filter_all _ new); [by f_equal|].
      intros c Hc. rewrite Forall_forall in Hf. by rewrite (Hf c Hc).
    + intros c Hc. rewrite list_elem_of_fmap. split.
      * intros Hno. destruct (removed c) eqn:Er; [|done]. exfalso. apply Hno. exists c.
        split; [done|]. apply list_elem_of_In, filter_In. by rewrite <- list_elem_of_In.
      * intros Er (d & Ed & Hd). apply list_elem_of_In, filter_In in Hd as [Hd Hrd].
        apply list_elem_of_In in Hd. assert (c = d) as <-; [|congruence].
        eapply (NoDup_map_inj c_ptr (conns s2)); [|done..]. rewrite <- ids_ptrs. apply Hs2.
  - rewrite Et3, Et2, Erem, map_map. done.
Qed.

Lemma swp_setup_conns s : sender_ok s -> swp setup_conns (fun _ s' => sender_ok s') s.
Proof.
  intros Hs. unfold setup_conns. apply swp_bind.
  eapply swp_mono; [by apply (keeps_next_call (fun _ => True))|]. intros t s1 [Hs1 _].
  destruct (so_getlines t) as [lines|]; [|done].
  destruct (setup_lines_run lines s1 Hs1) as (k & s2 & E & Hs2 & _). unfold swp. by rewrite E.
Qed.

Lemma swp_update_conns s : sender_ok s -> swp update_conns (fun _ s' => sender_ok s') s.
Proof.
  intros Hs. destruct (so_getlines (calls s)) as [lines|] eqn:El.
  - destruct (update_conns_run s lines Hs El) as (s' & new & E & Hs' & _). unfold swp. by rewrite E.
  - unfold swp, update_conns, setup_conns, next_call, modify, mbind, SM_bind.
    change (calls (upd conns _ s)) with (calls s). by rewrite El.
Qed.

Lemma swp_keeps {A} (m : SM A) s : Keeps (fun _ => True) m -> sender_ok s ->
  swp m (fun _ s' => sender_ok s') s.
Proof. intros Hm Hs. eapply swp_mono; [by apply Hm|]. by intros a s' []. Qed.

Lemma swp_iteration hup ready s : sender_ok s -> swp (iteration hup ready) (fun _ s' => sender_ok s') s.
Proof.
  intros Hs. unfold iteration.
  apply swp_bind. eapply swp_mono; [apply swp_keeps; [apply _|done]|]. intros [] s1 Hs1. cbn beta.
  apply swp_bind. eapply swp_mono; [apply swp_keeps; [apply _|done]|]. intros update s2 Hs2. cbn beta.
  apply swp_bind. eapply (swp_mono _ (fun _ s' => sender_ok s')).
  - unfold when. destruct update; [|done]. apply swp_bind.
    eapply swp_mono; [by apply swp_update_conns|]. intros [] s3 Hs3. apply swp_keeps; [apply _|done].
  - intros [] s3 Hs3. apply swp_keeps; [|done].
    apply keeps_bind; [apply _|]. intros _. apply keeps_bind; [apply _|]. intros fds. cbn zeta.
    apply keeps_bind; [apply _|]. intros listen. apply keeps_bind; [apply _|]. intros _.
    apply keeps_for_conns. intros p. apply keeps_deref_bind; [done|]. intros c _ _.
    eapply keeps_weaken; [intros l [Hl _]; exact Hl|]. apply _.
Qed.

Lemma initial_ok : sender_ok initial_sender.
Proof. split; try done; constructor. Qed.

Lemma set_client_id_ok b s : Zlength b = SRTLA_ID_LEN / 2 -> sender_ok s ->
  sender_ok (s <| srtla_id ::= fun id => b ++ drop (length b) id |>).
Proof.
  intros Hb []. split; try done. cbn. rewrite length_app, length_drop, ok_id0.
  unfold Zlength, SRTLA_ID_LEN in *. change (256 / 2) with 128 in Hb. lia.
Qed.

Lemma swp_get_random_bytes size s :
  sender_ok s -> swp (get_random_bytes size) (fun b s' => Zlength b = size /\ sender_ok s') s.
Proof.
  intros Hs. unfold get_random_bytes. apply swp_bind.
  eapply swp_mono; [apply swp_keeps; [apply _|done]|]. intros t s1 Hs1.
  destruct (so_urandom_open t); [|done]. apply swp_bind. cbn [negb].
  eapply swp_mono; [apply swp_keeps; [apply _|done]|]. intros t' s2 Hs2. cbv zeta.
  by destruct (Z.eqb_spec (Zlength (so_urandom_read t' size)) size).
Qed.

Lemma swp_start : swp start (fun _ s' => sender_ok s') initial_sender.
Proof.
  unfold start. apply swp_bind. eapply swp_mono; [apply swp_setup_conns, initial_ok|].
  intros count s1 Hs1. destruct (count <=? 0); [done|].
  apply swp_bind. eapply swp_mono; [by apply swp_get_random_bytes|]. intros b s2 [Eb Hs2].
  apply swp_bind. pose proof (set_client_id_ok b s2 Eb Hs2) as Hs3.
  eapply (swp_mono _ (fun _ s' => sender_ok s')); [exact Hs3|]. intros [] s3 Hs3'.
  apply swp_keeps; [|done]. apply keeps_bind; [apply _|]. intros sock. apply keeps_if; [apply _|].
  do 2 (apply keeps_bind; [apply _|intros ?]). apply keeps_if; [apply _|].
  do 2 (apply keeps_bind; [apply _|intros ?]). apply keeps_if; [apply _|].
  apply keeps_bind; [apply _|]. intros t'. destruct (so_getaddrinfo t') as [[|]|]; apply _.
Qed.

(** The states of the sender's loop. *)
Inductive s_reachable : sender -> Prop :=
  | sr_start s : start initial_sender = Done tt s -> s_reachable s
  | sr_step hup ready s s' :
      s_reachable s -> iteration hup ready s = Done tt s' -> s_reachable s'.

Lemma s_reachable_ok s : s_reachable s -> sender_ok s.
Proof.
  induction 1 as [s E|hup ready s s' _ IH E].
  - pose proof swp_start as Hw. unfold swp in Hw. by rewrite E in Hw.
  - pose proof (swp_iteration hup ready s IH) as Hw. unfold swp in Hw. by rewrite E in Hw.
Qed.

(** ** Properties *)

(** C2: in every state the sender reaches, for every packet, every kernel
    answer and every reload of its address file, the connections are well
    formed (a log of 256 entries, an index into it, a window of at least
    1000), no two have the same address, the group id has 256 bytes, and the
    connection a REG2 is awaited on is one of the list; and no iteration from
    such a state follows a pointer to a freed connection. *)
Theorem sender_safe s hup ready :
  s_reachable s ->
  sender_ok s /\ forall p s', iteration hup ready s <> Stopped (DanglingConn p) s'.
Proof.
  intros Hr. pose proof (s_reachable_ok s Hr) as Hs. split; [done|].
  intros p s' E. pose proof (swp_iteration hup ready s Hs) as Hw. unfold swp in Hw.
  by rewrite E in Hw.
Qed.

(** C29: a reload of the address file leaves exactly the addresses of the
    file: connections that stay keep all of their state, new ones are fresh
    and come first, and the sockets of those that went are closed, in order;
    nothing is sent. *)
Theorem reload_exact s lines :
  s_reachable s -> so_getlines (calls s) = Some lines ->
  exists s' new, update_conns s = Done tt s' /\ sender_ok s' /\
    conns s' = new ++ map (fun c => c <| removed := false |>)
                        (filter (fun c => src c ∈ listed lines) (conns s)) /\
    Forall is_fresh new /\ (forall a, a ∈ map src (conns s') <-> a ∈ listed lines) /\
    trace s' = rev (map close_of (filter (fun c => src c ∉ listed lines) (conns s))) ++ trace s.
Proof.
  intros Hr El. destruct (update_conns_run s lines (s_reachable_ok s Hr) El)
    as (s' & new & E & Hs' & Ec & Hf & Hn & Ht).
  exists s', new. split_and!; try done. intros a. rewrite Ec, map_app, map_map, elem_of_app, Hn. cbn.
  rewrite !list_elem_of_fmap. setoid_rewrite list_elem_of_filter. split; [by intros [[Ha _]|(c & -> & Ha & _)]|].
  intros Ha. destruct (decide (a ∈ map src (conns s))) as [Hi|Hi].
  - apply list_elem_of_fmap in Hi as (c & -> & Hc). right. by exists c.
  - left. split; [done|]. by rewrite list_elem_of_fmap in Hi.
Qed.

End Loop.
