(* ===== verification/SenderProperties.v ===== *)
(** * Properties of the sender

    Which connection a packet takes, what the receiver's packets do to the
    sender, and the two packets that make it misbehave (src/sender.cpp). *)

From stdpp Require Import list.
From S2P Require Import Prelude Config Wire SenderModel SenderLog SenderProofs.

(** ** Selection *)

(** The share of a connection: its window divided by the packets that would
    be in flight. *)
Definition share (c : conn_t) : Z := window c / (in_flight_pkts c + 1).
Definition alive (t : Z) (c : conn_t) : Prop := conn_timed_out c t = false.
#[export] Instance alive_dec t c : Decision (alive t c) := decide (conn_timed_out c t = false).

Lemma score_share c : conn_ok c -> in_flight_pkts c < 2 ^ 31 - 1 -> score c = Some (share c).
Proof.
  intros [] Hf. unfold score, share, WINDOW_MIN, WINDOW_MULT in *.
  rewrite c_int_small by lia. cbn.
  destruct (Z.eqb_spec (in_flight_pkts c + 1) 0); [lia|].
  rewrite Z.quot_div_nonneg by lia. done.
Qed.

(** The outcome of the loop from a current best [b] of score [m]: either
    nothing beats it, or the first of the connections with the best share. *)
Lemma best_conn_spec t cs : forall b m,
  Forall conn_ok cs -> Forall (fun c => in_flight_pkts c < 2 ^ 31 - 1) cs ->
  exists r, best_conn t (b, m) cs = Some r /\
    ((r = (b, m) /\ Forall (fun c => alive t c -> share c <= m) cs) \/
     exists pre c post, cs = pre ++ c :: post /\ r = (Some c, share c) /\ alive t c /\ m < share c /\
       Forall (fun d => alive t d -> share d < share c) pre /\
       Forall (fun d => alive t d -> share d <= share c) post).
Proof.
  induction cs as [|c cs IH]; intros b m Hok Hfl.
  - exists (b, m). split; [done|]. by left.
  - apply Forall_cons in Hok as [Hc Hok], Hfl as [Hf Hfl]. cbn [best_conn]. unfold consider.
    destruct (conn_timed_out c t) eqn:Et.
    + assert (Hd : ~ alive t c) by (unfold alive; congruence).
      cbn. destruct (IH b m Hok Hfl) as (r & E & [[-> Ha]|(pre & d & post & -> & -> & H1 & H2 & H3 & H4)]).
      * exists (b, m). split; [done|]. left. split; [done|]. by constructor.
      * eexists. split; [done|]. right. exists (c :: pre), d, post. split_and!; try done. by constructor.
    + rewrite score_share by done. cbn.
      destruct (Z.ltb_spec m (share c)) as [Hlt|Hge].
      * destruct (IH (Some c) (share c) Hok Hfl)
          as (r & E & [[-> Ha]|(pre & d & post & -> & -> & H1 & H2 & H3 & H4)]).
        -- eexists. split; [done|]. right. by exists [], c, cs.
        -- eexists. split; [done|]. right. exists (c :: pre), d, post.
           split_and!; try done; [lia|by constructor].
      * destruct (IH b m Hok Hfl) as (r & E & [[-> Ha]|(pre & d & post & -> & -> & H1 & H2 & H3 & H4)]).
        -- exists (b, m). split; [done|]. left. split; [done|]. by constructor.
        -- eexists. split; [done|]. right. exists (c :: pre), d, post.
           split_and!; try done. constructor; [lia|done].
Qed.

Section Sender.
Context `{so : SenderOS}.

(** A selected connection, and the state with its send time. *)
Definition selects (t : Z) (s : sender) (c : conn_t) (s' : sender) : Prop :=
  exists pre post, conns s = pre ++ c :: post /\ alive t c /\
    Forall (fun d => alive t d -> share d < share c) pre /\
    Forall (fun d => alive t d -> share d <= share c) post /\
    s' = s <| calls ::= S |> <| conns ::= on_conn (c_ptr c) (fun c => c <| last_sent := t |>) |>.

Lemma select_conn_run s t ns :
  sender_ok s -> Forall (fun c => in_flight_pkts c < 2 ^ 31 - 1) (conns s) ->
  so_clock_gettime (calls s) = Some (t, ns) ->
  (Forall (fun c => ~ alive t c) (conns s) /\ select_conn s = Done None (s <| calls ::= S |>)) \/
  exists c s', select_conn s = Done (Some (c_ptr c)) s' /\ selects t s c s'.
Proof.
  intros Hs Hf Ht. unfold select_conn, get_seconds, next_call, mbind, SM_bind. rewrite Ht. cbn.
  destruct (best_conn_spec t (conns s) None (-1) (ok_conns _ Hs) Hf)
    as (r & E & [[-> Ha]|(pre & c & post & Ec & -> & H1 & H2 & H3 & H4)]); cbn in E; rewrite E; cbn.
  - left. split; [|done]. pose proof (ok_conns _ Hs) as Hok. rewrite !Forall_forall in *.
    intros c Hc Hal. specialize (Ha c Hc Hal). specialize (Hok c Hc). destruct Hok.
    unfold share, WINDOW_MIN, WINDOW_MULT in *.
    pose proof (Z.div_pos (window c) (in_flight_pkts c + 1)). lia.
  - right. eexists c, _. split; [reflexivity|]. by exists pre, post.
Qed.
Lemma on_conn_split pre c post f : NoDup (map c_ptr (pre ++ c :: post)) ->
  on_conn (c_ptr c) f (pre ++ c :: post) = pre ++ f c :: post.
Proof.
  intros Hnd. rewrite map_app in Hnd. cbn in Hnd. apply NoDup_app in Hnd as (_ & Hpre & Hnd).
  apply NoDup_cons in Hnd as [Hpost _].
  assert (Hid : forall l, c_ptr c ∉ map c_ptr l -> on_conn (c_ptr c) f l = l).
  { intros l Hl. unfold on_conn. rewrite <- (map_id l) at 2. apply map_ext_in.
    intros d Hd%list_elem_of_In. rewrite decide_False; [done|]. intros E. apply Hl.
    rewrite <- E. by apply list_elem_of_fmap_2. }
  unfold on_conn in *. rewrite map_app. cbn. rewrite decide_True by done.
  rewrite !Hid; [done|done|]. intros Hin. apply (Hpre _ Hin). left.
Qed.

Lemma lookup_conn_split pre c post : NoDup (map c_ptr (pre ++ c :: post)) ->
  lookup_conn (c_ptr c) (pre ++ c :: post) = Some c.
Proof.
  intros Hnd. destruct (lookup_conn_has (c_ptr c) (pre ++ c :: post)) as (d & E).
  { apply list_elem_of_fmap_2, elem_of_app. right. left. }
  rewrite E. f_equal. apply lookup_conn_elem in E as [Hd Ep].
  eapply (NoDup_map_inj c_ptr); [exact Hnd|done| |done].
  apply elem_of_app. right. left.
Qed.

(** What a packet does to the connection it was sent on. *)
Definition sent_on (t n sn ret : Z) (c c' : conn_t) : Prop :=
  if ret =? n then
    if 0 <=? sn then reg_pkt sn (c <| last_sent := t |>) = Some c'
    else c' = c <| last_sent := t |>
  else c' = c <| last_sent := t |> <| last_rcvd := 1 |>.

Lemma send_packet_run pre c post buf n t s :
  conn_ok c -> in_flight_pkts c < 2 ^ 31 - 1 -> NoDup (map c_ptr (pre ++ c :: post)) ->
  conns s = pre ++ c <| last_sent := t |> :: post ->
  exists c' s' ret, send_packet (c_ptr c) buf n s = Done tt s' /\
    trace s' = IoSendto (fd c) buf n (srtla_addr s) ret :: trace s /\
    conns s' = pre ++ c' :: post /\ sent_on t n (get_srt_sn buf n) ret c c' /\
    listenfd s' = listenfd s /\ exists k, ret = so_sendto k (fd c) buf n (srtla_addr s).
Proof.
  intros Hc Hfc Hnd Ec. set (c1 := c <| last_sent := t |>) in *.
  assert (Hnd1 : NoDup (map c_ptr (pre ++ c1 :: post))) by (by rewrite map_app in *).
  assert (Hrun : forall f : conn_t -> conn_t, on_conn (c_ptr c) f (conns s) = pre ++ f c1 :: post).
  { intros f. rewrite Ec. by apply (on_conn_split pre c1 post). }
  assert (E2 : exists c2, reg_pkt (get_srt_sn buf n) c1 = Some c2).
  { unfold reg_pkt. cbn. pose proof (ok_flight _ Hc). rewrite c_int_small by lia. by eexists. }
  destruct E2 as (c2 & E2). unfold send_packet, deref, mbind, SM_bind. rewrite Ec.
  change (c_ptr c) with (c_ptr c1). rewrite lookup_conn_split by done.
  unfold gets, sendto, next_call, emit, modify, mret, SM_ret, mbind, SM_bind. cbv beta iota zeta.
  unfold sent_on. set (ret := so_sendto _ _ _ _ _).
  destruct (ret =? n) eqn:Er; [destruct (0 <=? get_srt_sn buf n) eqn:Esn|].
  - exists c2. eexists _, ret. rewrite E2. unfold int_op, modify_conn, modify. split; [reflexivity|].
    rewrite Er. split_and!; [done| |done|done|by eexists]. cbn. apply Hrun.
  - exists c1. eexists _, ret. split; [reflexivity|]. rewrite Er. split_and!; [done..|by eexists].
  - exists (c1 <| last_rcvd := 1 |>). eexists _, ret. split; [reflexivity|].
    rewrite Er. split_and!; [done| |done|done|by eexists]. cbn. apply Hrun.
Qed.

(** One packet of the SRT caller, with the state after it. *)
Lemma packet_run s n buf from t ns :
  sender_ok s -> Forall (fun c => in_flight_pkts c < 2 ^ 31 - 1) (conns s) ->
  so_recvfrom (calls s) (listenfd s) = (n, buf, from) ->
  so_clock_gettime (S (calls s)) = Some (t, ns) -> Exists (alive t) (conns s) ->
  exists pre c c' post s' ret,
    conns s = pre ++ c :: post /\ alive t c /\
    Forall (fun d => alive t d -> share d < share c) pre /\
    Forall (fun d => alive t d -> share d <= share c) post /\
    handle_srt_data (listenfd s) s = Done tt s' /\
    trace s' = IoSendto (fd c) buf n (srtla_addr s) ret :: trace s /\
    conns s' = pre ++ c' :: post /\ sent_on t n (get_srt_sn buf n) ret c c' /\
    listenfd s' = listenfd s /\ exists k, ret = so_sendto k (fd c) buf n (srtla_addr s).
Proof.
  intros Hs Hf Hr Ht Hex.
  set (s1 := s <| calls ::= S |>).
  set (s2 := if 0 <=? n then s1 <| srt_addr := from |> else s1).
  assert (Hs2 : sender_ok s2 /\ conns s2 = conns s /\ srtla_addr s2 = srtla_addr s /\
                trace s2 = trace s /\ listenfd s2 = listenfd s /\ calls s2 = S (calls s) /\
                when (0 <=? n) (modify (fun s => s <| srt_addr := from |>)) s1 = Done tt s2).
  { unfold s2, s1, when. destruct Hs, (0 <=? n); split_and!; done || by split. }
  destruct Hs2 as (Hs2 & Ec2 & Ea2 & Et2 & El2 & En2 & Erun).
  destruct (select_conn_run s2 t ns Hs2) as [[Hnone _]|(c & s3 & E3 & Hsel)];
    [by rewrite Ec2|by rewrite En2| |].
  { exfalso. rewrite Ec2 in Hnone. apply Exists_exists in Hex as (d & Hd & Hal).
    rewrite Forall_forall in Hnone. by apply (Hnone d). }
  destruct Hsel as (pre & post & Ec & Hal & Hpre & Hpost & Es3). rewrite Ec2 in Ec.
  assert (Hnd : NoDup (map c_ptr (pre ++ c :: post))) by (rewrite <- Ec, <- ids_ptrs; apply Hs).
  assert (Hc : conn_ok c /\ in_flight_pkts c < 2 ^ 31 - 1).
  { pose proof (ok_conns _ Hs) as Hok. rewrite Forall_forall in Hok, Hf.
    split; [apply Hok|apply Hf]; rewrite Ec; apply elem_of_app; right; left. }
  destruct Hc as [Hc Hfc].
  destruct (send_packet_run pre c post buf n t s3 Hc Hfc Hnd) as (c' & s' & ret & E & Et & Ec' & Hsent & El & k & Ek).
  { rewrite Es3. cbn. rewrite Ec2, Ec. by apply on_conn_split. }
  exists pre, c, c', post, s', ret. split_and!; try done.
  - unfold handle_srt_data, recvfrom, next_call, mbind, SM_bind, mret, SM_ret. rewrite Hr.
    fold s1. cbv beta iota. by rewrite Erun, E3.
  - rewrite Et, Es3. cbn. by rewrite Ea2, Et2.
  - rewrite El, Es3. exact El2.
  - exists k. rewrite Ek, Es3. cbn. by rewrite Ea2.
Qed.

(** C12: a packet of the SRT caller is sent while any link is up: if some
    connection was heard from in the last four seconds, the packet goes out
    exactly once, unmodified, on the first of the connections with the
    largest window per packet in flight; a packet the kernel took is logged
    and in flight, and a refused one takes the link out of use. *)
Theorem packet_takes_best s n buf from t ns :
  sender_ok s -> Forall (fun c => in_flight_pkts c < 2 ^ 31 - 1) (conns s) ->
  so_recvfrom (calls s) (listenfd s) = (n, buf, from) ->
  so_clock_gettime (S (calls s)) = Some (t, ns) -> Exists (alive t) (conns s) ->
  exists pre c c' post s' ret,
    conns s = pre ++ c :: post /\ alive t c /\
    Forall (fun d => alive t d -> share d < share c) pre /\
    Forall (fun d => alive t d -> share d <= share c) post /\
    handle_srt_data (listenfd s) s = Done tt s' /\
    trace s' = IoSendto (fd c) buf n (srtla_addr s) ret :: trace s /\
    conns s' = pre ++ c' :: post /\ sent_on t n (get_srt_sn buf n) ret c c'.
Proof.
  intros Hs Hf Hr Ht Hex.
  destruct (packet_run s n buf from t ns Hs Hf Hr Ht Hex)
    as (pre & c & c' & post & s' & ret & H1 & H2 & H3 & H4 & H5 & H6 & H7 & H8 & _).
  by exists pre, c, c', post, s', ret.
Qed.

(** ** Acknowledgements of the receiver *)

Lemma word_run buf i s : 4 * i + 4 <= MTU -> word buf i s = Done (read_be32 buf (Z.to_nat (4 * i))) s.
Proof. intros Hi. unfold word. destruct (Z.ltb_spec MTU (4 * i + 4)); [lia|done]. Qed.

Lemma ack_loop_run sns : forall pre rest fuel i n s,
  Zlength pre = 4 * i -> n / 4 = i + Zlength sns -> n <= MTU -> (length sns <= fuel)%nat ->
  Forall (fun sn => 0 <= sn < 2 ^ 31) sns ->
  ack_loop fuel i (pre ++ concat (map be32_bytes sns) ++ rest) n s =
  mfor sns (fun sn => on_conns (register_srtla_ack sn)) s.
Proof.
  induction sns as [|sn sns IH]; intros pre rest fuel i n s Hpre Hn Hm Hfuel Hsn.
  - destruct fuel; cbn [ack_loop mfor]; [done|].
    unfold Zlength in Hn. cbn in Hn. by rewrite (proj2 (Z.leb_le (n / 4) i)) by lia.
  - destruct fuel as [|fuel]; [cbn in Hfuel; lia|]. apply Forall_cons in Hsn as [Hsn Hsns].
    assert (Hl : Zlength (sn :: sns) = 1 + Zlength sns) by (unfold Zlength; cbn; lia).
    pose proof (Zlength_nonneg sns). cbn [ack_loop mfor map concat].
    rewrite (proj2 (Z.leb_gt (n / 4) i)) by lia.
    assert (Hw : 4 * i + 4 <= MTU) by (unfold MTU in *; Z.to_euclidean_division_equations; lia).
    unfold mbind, SM_bind. rewrite word_run by done.
    rewrite <- (app_assoc (be32_bytes sn)), read_be32_at by (unfold Zlength in Hpre; lia).
    rewrite u32_small, i32_small by lia.
    destruct (on_conns (register_srtla_ack sn) s) as [[] s1|]; [|done].
    rewrite app_assoc. apply IH; try done; [|lia|cbn in Hfuel; lia].
    unfold Zlength in *. rewrite length_app. cbn. lia.
Qed.

Lemma concat_be32_length sns : Zlength (concat (map be32_bytes sns)) = 4 * Zlength sns.
Proof.
  unfold Zlength. induction sns as [|sn sns IH]; [done|]. cbn [map concat length].
  rewrite length_app. cbn [be32_bytes length]. lia.
Qed.

(** The sender reads the receiver's ACK packets: on the packet the receiver
    builds from its log of sequence numbers, it acknowledges exactly those
    numbers, in order, and nothing from the rest of its buffer. *)
Lemma receiver_acks_decoded sns rest p s :
  Zlength sns = RECV_ACK_INT -> Forall (fun sn => 0 <= sn < 2 ^ 31) sns ->
  let pkt := ack_packet (map htobe32 sns) in
  get_srt_type (pkt ++ rest) (Zlength pkt) = SRTLA_TYPE_ACK /\
  handle_received p (pkt ++ rest) (Zlength pkt) SRTLA_TYPE_ACK s =
  mfor sns (fun sn => on_conns (register_srtla_ack sn)) s.
Proof.
  intros Hl Hsn. cbv zeta. rewrite ack_packet_mem, <- app_assoc.
  assert (Hlen : Zlength (be32_bytes (Z.shiftl SRTLA_TYPE_ACK 16) ++ concat (map be32_bytes sns)) = 44).
  { unfold Zlength. rewrite length_app. pose proof (concat_be32_length sns) as E.
    unfold Zlength, RECV_ACK_INT in *. cbn [be32_bytes length]. lia. }
  rewrite Hlen. split; [reflexivity|]. unfold handle_received.
  change (SRTLA_TYPE_ACK =? SRT_TYPE_ACK) with false. change (SRTLA_TYPE_ACK =? SRT_TYPE_NAK) with false.
  rewrite Z.eqb_refl. cbv beta iota. apply ack_loop_run; try done.
  - rewrite Hl. done.
  - unfold Zlength, RECV_ACK_INT in Hl. lia.
Qed.

Lemma position_rev sn sns tail : sn ∉ sns -> position sn (rev sns ++ sn :: tail) = Some (length sns).
Proof.
  intros Hn. unfold position.
  assert (E : list_find (fun x => x = sn) (rev sns ++ sn :: tail) = Some (length sns, sn)); [|by rewrite E].
  apply list_find_Some. rewrite <- (length_rev sns). split_and!; [|done|].
  - by rewrite lookup_app_r, Nat.sub_diag by lia.
  - intros j y Hj Hlt ->. rewrite lookup_app_l in Hj by lia. apply Hn.
    apply list_elem_of_In. rewrite in_rev. apply list_elem_of_In. by eapply list_elem_of_lookup_2.
Qed.

(** Far from overflow for [n] more acknowledgements. *)
Definition room (n : Z) (c : conn_t) : Prop :=
  window c + 30 * n <= 2 ^ 30 /\ in_flight_pkts c <= 2000000.

Lemma grown_fields c :
  recent (grown c) = recent c /\ in_flight_pkts (grown c) = in_flight_pkts c /\ window (grown c) <= window c + 1.
Proof.
  unfold grown. destruct (last_rcvd c =? 0); [split_and!; [done|done|lia]|].
  split_and!; [by apply recent_ext|done|]. cbn. lia.
Qed.
Lemma grown_ok c : conn_ok c -> window c < 2 ^ 31 - 1 -> conn_ok (grown c).
Proof.
  intros Hc Hw. unfold grown. destruct (last_rcvd c =? 0); [done|].
  destruct Hc. split; cbn; try done. unfold WINDOW_MIN, WINDOW_MULT, WINDOW_MAX in *. lia.
Qed.
Lemma grown_room n cs : Forall conn_ok cs -> Forall (room (n + 1)) cs -> 0 <= n ->
  Forall conn_ok (map grown cs) /\ Forall (room n) (map grown cs).
Proof.
  intros Hok Hr Hn. rewrite !Forall_fmap, !Forall_forall in *. split; intros c Hc; specialize (Hr c Hc) as [Hw Hf].
  - apply grown_ok; [auto|lia].
  - destruct (grown_fields c) as (_ & E & Hg). split; [lia|by rewrite E].
Qed.

(** Acknowledging the newest packets of a connection, oldest first. *)
Lemma acks_run sns : forall pre c post tail s,
  conns s = pre ++ c :: post -> Forall conn_ok (conns s) -> Forall (room (Zlength sns)) (conns s) ->
  NoDup sns -> Forall (fun d => forall sn, sn ∈ sns -> sn ∉ recent d) pre ->
  recent c = rev sns ++ tail -> Zlength sns <= in_flight_pkts c ->
  exists s' pre' c' post', mfor sns (fun sn => on_conns (register_srtla_ack sn)) s = Done tt s' /\
    conns s' = pre' ++ c' :: post' /\ length pre' = length pre /\
    recent c' = replicate (length sns) (-1) ++ tail /\
    in_flight_pkts c' = in_flight_pkts c - Zlength sns.
Proof.
  induction sns as [|sn sns IH]; intros pre c post tail s Ec Hok Hr Hnd Hpre Hrec Hfl.
  { exists s, pre, c, post. split_and!; try done. unfold Zlength. cbn. lia. }
  apply NoDup_cons in Hnd as [Hn Hnd].
  assert (El : Zlength (sn :: sns) = Zlength sns + 1) by (unfold Zlength; cbn; lia).
  pose proof (Zlength_nonneg sns) as H0. rewrite El in Hr, Hfl.
  cbn [rev] in Hrec. rewrite <- app_assoc in Hrec. cbn [app] in Hrec.
  rewrite Ec in Hok, Hr.
  assert (Hm : Forall moderate (pre ++ c :: post)).
  { eapply Forall_impl; [exact Hr|]. intros d [Hw Hf]. split; lia. }
  destruct (ack_hit sn pre c post (length sns) Hok Hm) as (c1 & E & Hc1 & Hr1 & Hf1 & Hw1 & _).
  { split; [|rewrite Hrec; by apply position_rev]. eapply Forall_impl; [exact Hpre|].
    intros d Hd. apply Hd. left. }
  apply Forall_app in Hok as [Hokp Hokc], Hr as [Hrp Hrc].
  apply Forall_cons in Hokc as [_ Hokq], Hrc as [[Hwc Hfc] Hrq].
  set (s1 := s <| conns := map grown pre ++ grown c1 :: map grown post |>).
  destruct (grown_fields c1) as (Gr & Gf & Gw).
  destruct (grown_room (Zlength sns) pre) as [Gp1 Gp2]; [done..|].
  destruct (grown_room (Zlength sns) post) as [Gq1 Gq2]; [done..|].
  assert (Hw1' : window c1 <= window c + 29) by (rewrite Hw1; destruct (_ <? _); lia).
  destruct (IH (map grown pre) (grown c1) (map grown post) ((-1) :: tail) s1)
    as (s' & pre' & c' & post' & Erun & Ec' & Hl & Hrec' & Hf'); try done.
  - cbn. apply Forall_app. split; [done|]. constructor; [|done]. apply grown_ok; [done|lia].
  - cbn. apply Forall_app. split; [done|]. constructor; [|done]. split; lia.
  - apply Forall_fmap. eapply Forall_impl; [exact Hpre|]. intros d Hd sn' Hsn'. cbn.
    destruct (grown_fields d) as (-> & _). apply Hd. by right.
  - rewrite Gr, Hr1, Hrec. rewrite insert_app_r_alt by (rewrite length_rev; lia).
    rewrite length_rev, Nat.sub_diag. done.
  - lia.
  - exists s', pre', c', post'. split_and!; try done.
    + assert (E1 : on_conns (register_srtla_ack sn) s = Done tt s1).
      { unfold on_conns, mbind, SM_bind, gets, int_op. cbv beta iota. by rewrite Ec, E. }
      cbn [mfor]. unfold mbind, SM_bind. by rewrite E1.
    + by rewrite Hl, length_map.
    + rewrite Hrec'. cbn [length replicate]. rewrite replicate_cons_app. by rewrite <- app_assoc.
    + lia.
Qed.

(** The cycle of a block of ten packets: sent on a connection, logged by the
    receiver and acknowledged in one ACK packet, they are in flight no
    more, and of the sender's log only their ten entries are cleared, whatever
    the other connections are doing. *)
Lemma acks_clear_block sns pre c c1 post rest p s :
  sender_ok s -> conns s = pre ++ c1 :: post -> conn_ok c -> reg_all sns c = Some c1 ->
  Forall (fun d => window d <= WINDOW_MAX * WINDOW_MULT /\ in_flight_pkts d <= 2000000) (conns s) ->
  Zlength sns = RECV_ACK_INT -> NoDup sns -> Forall (fun sn => 0 <= sn < 2 ^ 31) sns ->
  Forall (fun d => forall sn, sn ∈ sns -> sn ∉ recent d) pre ->
  let pkt := ack_packet (map htobe32 sns) in
  exists s' pre' c' post', handle_received p (pkt ++ rest) (Zlength pkt) SRTLA_TYPE_ACK s = Done tt s' /\
    conns s' = pre' ++ c' :: post' /\ length pre' = length pre /\
    in_flight_pkts c' = in_flight_pkts c /\
    recent c' = take 255 (replicate 10 (-1) ++ recent c).
Proof.
  intros Hs Ec Hc Hreg Hm Hl Hnd Hsn Hpre. cbv zeta.
  destruct (reg_all_spec sns c c1 Hc Hreg) as (Hr & Hf & Hc1).
  destruct (receiver_acks_decoded sns rest p s Hl Hsn) as [_ ->].
  assert (Hlen : length sns = 10%nat) by (unfold Zlength, RECV_ACK_INT in Hl; lia).
  rewrite take_app_ge in Hr by (rewrite length_rev; lia). rewrite length_rev, Hlen in Hr.
  destruct (acks_run sns pre c1 post (take (255 - 10) (recent c)) s Ec (ok_conns _ Hs)) as (s' & pre' & c' & post' & H1 & H2 & H3 & H4 & H5);
    try done.
  - eapply Forall_impl; [exact Hm|]. intros d [Hw Hfl]. unfold room, WINDOW_MAX, WINDOW_MULT, RECV_ACK_INT in *. lia.
  - rewrite Hf. pose proof (ok_flight _ Hc). lia.
  - exists s', pre', c', post'. split_and!; try done; [lia|].
    rewrite H4, Hlen, take_app_ge by (rewrite length_replicate; lia). done.
Qed.

(** ** Malformed NAKs *)

(** A NAK of [words] after its sixteen-byte header. *)
Definition nak_packet (words : list Z) : list byte :=
  be16_bytes SRT_TYPE_NAK ++ replicate 14 Byte.x00 ++ concat (map be32_bytes words).

(** An entry of a loss list: one packet, or a range of sequence numbers,
    which are counted modulo [2 ^ 31]. *)
Inductive loss := One (sn : Z) | Range (first last : Z).
(** The entries the sender reads as they are meant: ranges that do not wrap
    and stop short of the last sequence number, [2 ^ 31 - 1]. *)
Definition loss_ok (l : loss) : Prop :=
  match l with
  | One sn => 0 <= sn < 2 ^ 31
  | Range a b => 0 <= a <= b /\ b < 2 ^ 31 - 1
  end.
Definition encode_loss (l : loss) : list Z :=
  match l with One sn => [sn] | Range a b => [2 ^ 31 + a; b] end.
(** The packets an entry denotes, in the order they were sent; a range whose
    end is smaller than its start goes over the end of the sequence numbers. *)
Definition lost (l : loss) : list Z :=
  match l with
  | One sn => [sn]
  | Range a b => map (fun k => (a + k) mod 2 ^ 31) (seqZ 0 ((b - a) mod 2 ^ 31 + 1))
  end.

Lemma lost_range a b : 0 <= a <= b -> b < 2 ^ 31 -> lost (Range a b) = seqZ a (b - a + 1).
Proof.
  intros Hab Hb. unfold lost. rewrite (Z.mod_small (b - a)) by lia.
  apply list_eq. intros i. rewrite list_lookup_fmap, !option_eq. intros x. unfold fmap, option_fmap.
  destruct (decide (Z.of_nat i < b - a + 1)) as [Hi|Hi].
  - rewrite !lookup_seqZ_lt by lia. cbn. by rewrite Z.mod_small by lia.
  - rewrite !lookup_seqZ_ge by lia. done.
Qed.

Lemma mfor_app {A} (l1 l2 : list A) body s :
  mfor (l1 ++ l2) body s = (mfor l1 body;; mfor l2 body) s.
Proof.
  revert s. induction l1 as [|x l1 IH]; intros s; [done|]. cbn [mfor app].
  unfold mbind, SM_bind in *. destruct (body x s); [apply IH|done].
Qed.

Lemma range_mask a : 0 <= a < 2 ^ 31 -> Z.land (2 ^ 31 + a) 0x7FFFFFFF = a.
Proof.
  intros Ha. change 0x7FFFFFFF with (Z.ones 31). rewrite Z.land_ones by lia.
  replace (2 ^ 31 + a) with (a + 1 * 2 ^ 31) by lia. rewrite Z.mod_add by lia. apply Z.mod_small; lia.
Qed.

Lemma nak_range_run a b s : 0 <= b < 2 ^ 31 - 1 ->
  nak_range a b s = mfor (seqZ a (b - a + 1)) (fun lost => on_conns (register_nak lost)) s.
Proof.
  intros Hb. unfold nak_range. rewrite (proj2 (Z.leb_gt (2 ^ 31 - 1) b)) by lia.
  destruct (Z.ltb_spec b a); [|done]. by rewrite seqZ_nil by lia.
Qed.

(** One entry of the list, wherever it stands in the packet. *)
Lemma nak_loop_step l pre rest fuel i n s :
  loss_ok l -> Zlength pre = 4 * i -> i + Zlength (encode_loss l) <= n / 4 -> n <= MTU ->
  nak_loop (S fuel) i (pre ++ concat (map be32_bytes (encode_loss l)) ++ rest) n s =
  (mfor (lost l) (fun lost => on_conns (register_nak lost));;
   nak_loop fuel (i + Zlength (encode_loss l))
     (pre ++ concat (map be32_bytes (encode_loss l)) ++ rest) n) s.
Proof.
  intros Hl Hpre Hi Hn.
  assert (Hm : 4 * (n / 4) <= MTU) by (unfold MTU in *; Z.to_euclidean_division_equations; lia).
  assert (Hp : length pre = Z.to_nat (4 * i)) by (unfold Zlength in Hpre; lia).
  destruct l as [sn|a b]; cbn [loss_ok encode_loss map concat lost] in *; unfold Zlength in *; cbn [length] in *;
    cbn [nak_loop]; rewrite (proj2 (Z.leb_gt (n / 4) i)) by lia; unfold mbind, SM_bind;
    rewrite word_run by lia; rewrite <- !app_assoc; rewrite read_be32_at by done;
    rewrite u32_small, msb_clear by lia.
  - rewrite (proj2 (Z.ltb_lt sn (2 ^ 31))) by lia. cbn [negb mfor]. rewrite i32_small by lia.
    unfold mbind, SM_bind. by destruct (on_conns (register_nak sn) s).
  - rewrite (proj2 (Z.ltb_ge (2 ^ 31 + a) (2 ^ 31))) by lia. cbn [negb].
    rewrite word_run by lia. rewrite app_assoc, read_be32_at.
    + fold (lost (Range a b)). rewrite u32_small, range_mask, nak_range_run, lost_range, <- app_assoc by lia. done.
    + rewrite length_app, Hp. cbn. lia.
Qed.

Lemma nak_loop_run ls : forall pre rest fuel i n s,
  Forall loss_ok ls -> Zlength pre = 4 * i -> n <= MTU ->
  n / 4 = i + Zlength (concat (map encode_loss ls)) -> (length ls <= fuel)%nat ->
  nak_loop fuel i (pre ++ concat (map be32_bytes (concat (map encode_loss ls))) ++ rest) n s =
  mfor (concat (map lost ls)) (fun lost => on_conns (register_nak lost)) s.
Proof.
  induction ls as [|l ls IH]; intros pre rest fuel i n s Hok Hpre Hm Hn Hfuel.
  - cbn. destruct fuel; cbn [nak_loop]; [done|].
    unfold Zlength in Hn. cbn in Hn. by rewrite (proj2 (Z.leb_le (n / 4) i)) by lia.
  - apply Forall_cons in Hok as [Hl Hok]. destruct fuel as [|fuel]; [cbn in Hfuel; lia|].
    cbn [map concat] in Hn |- *. rewrite map_app, concat_app, <- app_assoc, mfor_app.
    assert (El : Zlength (encode_loss l ++ concat (map encode_loss ls)) =
                 Zlength (encode_loss l) + Zlength (concat (map encode_loss ls))).
    { unfold Zlength. rewrite length_app. lia. }
    rewrite El in Hn. pose proof (Zlength_nonneg (concat (map encode_loss ls))).
    rewrite nak_loop_step by (done || lia). unfold mbind, SM_bind.
    destruct (mfor (lost l) _ s) as [[] s1|]; [|done]. rewrite app_assoc.
    apply IH; try done; [|lia|cbn in Hfuel; lia].
    unfold Zlength. rewrite length_app. pose proof (concat_be32_length (encode_loss l)) as E.
    unfold Zlength in *. lia.
Qed.

(** C28: the sender reads loss lists.  On a NAK that fits a datagram and
    encodes a list of single packets and of ranges that neither wrap around
    nor end with the last sequence number, it registers the loss of exactly
    the packets the list denotes, in order, and passes the packet on to the
    SRT caller. *)
Theorem loss_list_decoded ls rest p s :
  Forall loss_ok ls -> 16 + 4 * Zlength (concat (map encode_loss ls)) <= MTU ->
  let pkt := nak_packet (concat (map encode_loss ls)) in
  get_srt_type (pkt ++ rest) (Zlength pkt) = SRT_TYPE_NAK /\
  handle_received p (pkt ++ rest) (Zlength pkt) SRT_TYPE_NAK s =
  (mfor (concat (map lost ls)) (fun sn => on_conns (register_nak sn));; to_srt (pkt ++ rest) (Zlength pkt)) s.
Proof.
  intros Hok Hm. cbv zeta. set (words := concat (map encode_loss ls)) in *.
  assert (Hlen : Zlength (nak_packet words) = 16 + 4 * Zlength words).
  { pose proof (concat_be32_length words) as E. unfold nak_packet, Zlength in *.
    rewrite !length_app, length_replicate. cbn [be16_bytes length]. lia. }
  rewrite Hlen. pose proof (Zlength_nonneg words) as H0. split.
  { unfold get_srt_type. rewrite (proj2 (Z.ltb_ge _ 2)) by lia. reflexivity. }
  unfold handle_received. change (SRT_TYPE_NAK =? SRT_TYPE_ACK) with false. rewrite Z.eqb_refl.
  cbv beta iota. unfold mbind at 1 2, SM_bind at 1 2.
  rewrite <- (nak_loop_run ls (be16_bytes SRT_TYPE_NAK ++ replicate 14 Byte.x00) rest
    (Z.to_nat (16 + 4 * Zlength words)) 4 (16 + 4 * Zlength words) s); try done.
  - fold words. replace (16 + 4 * Zlength words) with (4 * (4 + Zlength words)) by lia.
    rewrite Z.mul_comm. apply Z.div_mul. lia.
  - assert (Hle : Zlength ls <= Zlength words).
    { clear. unfold words. induction ls as [|l ls IH]; [done|]. cbn [map concat].
      unfold Zlength in *. rewrite length_app. cbn. destruct l; cbn; lia. }
    unfold Zlength in *. lia.
Qed.

(** Two NAK packets on which the sender's behaviour is undefined, in every
    state: a range that ends at [INT32_MAX] overflows the loop counter, and a
    range that starts in the last word of a full-size packet is read beyond
    the buffer. *)
Theorem malformed_naks p s :
  handle_received p (nak_packet [0x80000000; 0x7FFFFFFF]) 24 SRT_TYPE_NAK s = Stopped SignedOverflow s /\
  handle_received p (nak_packet (concat (replicate 185 [0x80000001; 0]) ++ [0x80000000])) MTU SRT_TYPE_NAK s
  = Stopped (OutOfBounds MTU) s.
Proof. split; vm_compute; reflexivity. Qed.

(** A range that wraps around denotes packets, and the sender registers the
    loss of none of them. *)
Theorem wrapped_range_dropped a b s :
  0 <= b < a -> a < 2 ^ 31 -> nak_range a b s = Done tt s /\ a ∈ lost (Range a b) /\ b ∈ lost (Range a b).
Proof.
  intros Hb Ha. split; [unfold nak_range; by rewrite (proj2 (Z.ltb_lt b a)) by lia|].
  assert (Hm : (b - a) mod 2 ^ 31 = b - a + 2 ^ 31).
  { replace (b - a) with (b - a + 2 ^ 31 + (-1) * 2 ^ 31) at 1 by lia. rewrite Z.mod_add by lia.
    apply Z.mod_small. lia. }
  unfold lost. rewrite Hm. split; apply list_elem_of_fmap.
  - exists 0. rewrite elem_of_seqZ, Z.add_0_r, Z.mod_small by lia. lia.
  - exists (b - a + 2 ^ 31). rewrite elem_of_seqZ. split; [|lia].
    replace (a + (b - a + 2 ^ 31)) with (b + 1 * 2 ^ 31) by lia. rewrite Z.mod_add by lia. by rewrite Z.mod_small by lia.
Qed.

End Sender.
