(* ===== verification/SenderUpkeep.v ===== *)
(** * The sender's upkeep

    Registration and housekeeping of the sender (src/sender.cpp): the group
    id it adopts, the state of dead and live connections after a round of
    [connection_housekeeping], and when it gives up. *)

From stdpp Require Import list.
From S2P Require Import Prelude Config Wire SenderModel SenderLog SenderProofs SenderProperties.

Section Upkeep.
Context `{so : SenderOS}.

(** A step that talks to the kernel and leaves the globals as they are. *)
Definition undisturbed (s s' : sender) : Prop :=
  conns s' = conns s /\ srtla_id s' = srtla_id s /\ srtla_addr s' = srtla_addr s /\
  addrs s' = addrs s /\ active_connections s' = active_connections s /\
  has_connected s' = has_connected s /\ pending_reg2_conn s' = pending_reg2_conn s /\
  all_failed_at s' = all_failed_at s.

#[export] Instance undisturbed_preorder : PreOrder undisturbed.
Proof.
  unfold undisturbed. split; [by intros s|]. intros s1 s2 s3 H1 H2. destruct_and!.
  split_and!; congruence.
Qed.

(** ** Registration *)

Definition open (c : conn_t) : bool := 0 <=? fd c.

(** The datagram of a registration packet on a connection. *)
Definition reg_io (type len : Z) (s : sender) (c : conn_t) (ret : Z) : io :=
  IoSendto (fd c) (reg_packet type (srtla_id s)) len (srtla_addr s) ret.

Lemma send_reg_run type len c s :
  lookup_conn (c_ptr c) (conns s) = Some c ->
  exists r s' rets, send_reg type len (c_ptr c) s = Done r s' /\ undisturbed s s' /\
    length rets = length (List.filter open [c]) /\
    trace s' = rev (zip_with (reg_io type len s) (List.filter open [c]) rets) ++ trace s /\
    calls s' = (calls s + length rets)%nat.
Proof.
  intros E. unfold send_reg, deref, mbind, SM_bind. rewrite E. cbn [List.filter]. unfold open.
  rewrite <- (negb_involutive (0 <=? fd c)), <- Z.ltb_antisym.
  destruct (fd c <? 0); cbn [negb].
  - exists (-1), s, []. split_and!; try done; cbn; lia.
  - unfold gets, sendto, next_call, emit, modify, mbind, SM_bind. cbv beta iota zeta.
    eexists _, _, [_]. split_and!; try done; cbn; lia.
Qed.

(** REG2 on every open connection, in the order of the list. *)
Lemma broadcast_run cs : forall s,
  (forall c, c ∈ cs -> lookup_conn (c_ptr c) (conns s) = Some c) ->
  exists s' rets, mfor (map c_ptr cs) (fun i => send_reg2 i;; skip) s = Done tt s' /\
    undisturbed s s' /\ length rets = length (List.filter open cs) /\
    trace s' = rev (zip_with (reg_io SRTLA_TYPE_REG2 SRTLA_TYPE_REG2_LEN s) (List.filter open cs) rets)
                ++ trace s.
Proof.
  induction cs as [|c cs IH]; intros s Hl; [by exists s, []|].
  destruct (send_reg_run SRTLA_TYPE_REG2 SRTLA_TYPE_REG2_LEN c s (Hl c ltac:(left)))
    as (r & s1 & rets1 & E1 & Hu1 & Hn1 & Ht1 & _).
  destruct (IH s1) as (s2 & rets2 & E2 & Hu2 & Hn2 & Ht2).
  { intros d Hd. destruct Hu1 as [-> _]. apply Hl. by right. }
  exists s2, (rets1 ++ rets2). split_and!.
  - cbn [map mfor]. unfold send_reg2, mbind, SM_bind in *. by rewrite E1.
  - by etransitivity.
  - rewrite length_app, Hn1, Hn2. cbn. by destruct (open c).
  - rewrite Ht2, Ht1. assert (Er : reg_io SRTLA_TYPE_REG2 SRTLA_TYPE_REG2_LEN s1 =
                                   reg_io SRTLA_TYPE_REG2 SRTLA_TYPE_REG2_LEN s).
    { unfold reg_io. destruct Hu1 as (_ & -> & -> & _). done. }
    rewrite Er, app_assoc, <- rev_app_distr. do 2 f_equal.
    rewrite <- zip_with_app by done. f_equal. cbn. by destruct (open c).
Qed.

Lemma lookup_self s c : sender_ok s -> c ∈ conns s -> lookup_conn (c_ptr c) (conns s) = Some c.
Proof.
  intros Hs Hc. apply list_elem_of_split in Hc as (pre & post & E). rewrite E.
  apply lookup_conn_split. rewrite <- E, <- ids_ptrs. apply Hs.
Qed.

(** The REG2 of the receiver on the connection it is awaited on. *)
Lemma group_id_adopted p ts id rest s :
  sender_ok s -> pending_reg2_conn s = Some p ->
  length id = Z.to_nat SRTLA_ID_LEN ->
  take (Z.to_nat (SRTLA_ID_LEN / 2)) id = take (Z.to_nat (SRTLA_ID_LEN / 2)) (srtla_id s) ->
  exists s' rets, handle_reg2 p ts (reg2_packet id ++ rest) s = Done tt s' /\
    srtla_id s' = id /\ pending_reg2_conn s' = None /\ conns s' = conns s /\ active_connections s' = active_connections s /\
    length rets = length (List.filter open (conns s)) /\
    trace s' = rev (zip_with (fun c ret => IoSendto (fd c) (reg2_packet id) SRTLA_TYPE_REG2_LEN (srtla_addr s) ret)
                      (List.filter open (conns s)) rets) ++ trace s.
Proof.
  intros Hs Hp Hid Hhalf. set (s1 := s <| srtla_id := id |>).
  destruct (broadcast_run (conns s) s1) as (s2 & rets & E & Hu & Hn & Ht).
  { intros c Hc. exact (lookup_self s c Hs Hc). }
  destruct Hu as (Hc & Hi & _ & _ & Hact & _).
  exists (s2 <| pending_reg2_conn := None |> <| pending_reg_timeout := ts + REG3_TIMEOUT |>), rets.
  split_and!; try done.
  unfold handle_reg2, for_conns, gets, modify, mbind, SM_bind. rewrite Hp, bool_decide_true by done.
  assert (Eid : take (Z.to_nat SRTLA_ID_LEN) (drop 2 (reg2_packet id ++ rest)) = id).
  { unfold reg2_packet. cbn [be16_bytes app drop]. rewrite <- Hid. apply take_app_length. }
  cbn [negb]. cbv beta iota zeta. rewrite Eid, bool_decide_true by done. cbn [negb]. fold s1.
  cbv beta iota. change (conns s1) with (conns s).
  unfold mbind, SM_bind in E. by rewrite E.
Qed.

(** ** Housekeeping *)

(** A datagram without the kernel's answer, and those of a trace. *)
Definition datagram : Type := Z * list byte * Z * sockaddr.
Definition datagram_of (e : io) : option datagram :=
  if e is IoSendto fd buf n dst _ then Some (fd, buf, n, dst) else None.
Definition sends (tr : list io) : list datagram := omap datagram_of tr.

(** Nothing was heard from the receiver in the last [CONN_TIMEOUT] seconds. *)
Definition dead (time : Z) (c : conn_t) : bool := last_rcvd c + CONN_TIMEOUT <? time.

(** What a round sends on a connection: nothing when it has no socket; a
    REG2 when it is dead, or a REG1 when the reply to its REG1 is awaited, or
    nothing while another's is; a keepalive when it is alive and idle. *)
Definition upkeep (time : Z) (s : sender) (c : conn_t) : list datagram :=
  if negb (open c) then [] else
  if dead time c then
    match pending_reg2_conn s with
    | None => [(fd c, reg_packet SRTLA_TYPE_REG2 (srtla_id s), SRTLA_TYPE_REG2_LEN, srtla_addr s)]
    | Some q => if decide (q = c_ptr c)
                then [(fd c, reg_packet SRTLA_TYPE_REG1 (srtla_id s), SRTLA_TYPE_REG1_LEN, srtla_addr s)]
                else []
    end
  else if last_sent c + IDLE_TIME <? time
  then [(fd c, be16_bytes SRTLA_TYPE_KEEPALIVE, 2, srtla_addr s)] else [].

Lemma upkeep_undisturbed time s s' c :
  srtla_id s' = srtla_id s -> srtla_addr s' = srtla_addr s -> pending_reg2_conn s' = pending_reg2_conn s ->
  upkeep time s' c = upkeep time s c.
Proof. unfold upkeep. by intros -> -> ->. Qed.

Lemma keepalive_run c s :
  lookup_conn (c_ptr c) (conns s) = Some c ->
  exists s', send_keepalive (c_ptr c) s = Done tt s' /\ undisturbed s s' /\
    sends (trace s') = (fd c, be16_bytes SRTLA_TYPE_KEEPALIVE, 2, srtla_addr s) :: sends (trace s) /\
    calls s' = S (calls s).
Proof.
  intros E. unfold send_keepalive, deref, mbind, SM_bind. rewrite E.
  unfold gets, sendto, next_call, emit, modify, mbind, SM_bind. cbv beta iota zeta.
  by eexists.
Qed.

(** From call [n] on, the kernel gives a socket, its buffer and its address. *)
Definition can_open (n : nat) : bool :=
  (0 <=? so_socket n) && (so_setsockopt (S n) (so_socket n) =? 0) && (so_bind (S (S n)) (so_socket n) =? 0).

(** The state of a link that failed: never heard from, nothing sent, the
    smallest window, nothing in flight and nothing in the log. *)
Definition emptied (c : conn_t) : conn_t :=
  {| c_ptr := c_ptr c; src := src c; fd := fd c; last_rcvd := 0; last_sent := 0; window := 1000;
     in_flight_pkts := 0; pkt_log := replicate 256 (-1); pkt_idx := pkt_idx c; removed := removed c |}.

(** A link after a round at [time] that reaches it with call [n]: a closed one
    has the socket the kernel gives, exactly when the kernel allows it; a dead
    one that was heard from is emptied; the others are as they were. *)
Definition tended (time : Z) (n : nat) (c : conn_t) : conn_t :=
  if open c then (if dead time c && (0 <? last_rcvd c) then emptied c else c)
  else if can_open n then c <| fd := so_socket n |> else c.

(** The calls it takes: one for each datagram, up to three to open a socket. *)
Definition asked (time : Z) (s : sender) (n : nat) (c : conn_t) : nat :=
  if open c then length (upkeep time s c) else
  if so_socket n <? 0 then 1%nat else
  if so_setsockopt (S n) (so_socket n) =? 0 then 3%nat else 2%nat.

Fixpoint tend_all (time : Z) (s : sender) (n : nat) (cs : list conn_t) : list conn_t :=
  match cs with
  | [] => []
  | c :: cs' => tended time n c :: tend_all time s (n + asked time s n c)%nat cs'
  end.

Lemma asked_undisturbed time s s' n c :
  srtla_id s' = srtla_id s -> srtla_addr s' = srtla_addr s -> pending_reg2_conn s' = pending_reg2_conn s ->
  asked time s' n c = asked time s n c.
Proof. intros H1 H2 H3. unfold asked. by rewrite (upkeep_undisturbed time s s' c H1 H2 H3). Qed.

Lemma tend_all_undisturbed time s s' cs : forall n,
  srtla_id s' = srtla_id s -> srtla_addr s' = srtla_addr s -> pending_reg2_conn s' = pending_reg2_conn s ->
  tend_all time s' n cs = tend_all time s n cs.
Proof.
  induction cs as [|c cs IH]; intros n H1 H2 H3; [done|]. cbn [tend_all].
  by rewrite (asked_undisturbed time s s' n c H1 H2 H3), IH.
Qed.

Lemma tended_ptr time n c : c_ptr (tended time n c) = c_ptr c.
Proof. unfold tended. by destruct (open c); [destruct (dead time c && (0 <? last_rcvd c))|destruct (can_open n)]. Qed.

Lemma open_socket_run time pre c post s :
  NoDup (map c_ptr (conns s)) -> conns s = pre ++ c :: post -> open c = false ->
  exists r s', open_socket (c_ptr c) s = Done r s' /\ calls s' = (calls s + asked time s (calls s) c)%nat /\
    undisturbed (s <| conns := pre ++ tended time (calls s) c :: post |>) s' /\
    sends (trace s') = sends (trace s).
Proof.
  intros Hnd Ec Ho. rewrite Ec in Hnd. unfold tended, asked. rewrite Ho.
  unfold open_socket, deref, mbind, SM_bind. rewrite Ec, lookup_conn_split by done.
  unfold open in Ho. rewrite Ho. unfold when, skip, mret, SM_ret. cbv beta iota.
  unfold socket, setsockopt, bind_, close, emit, next_call, modify, mbind, SM_bind, mret, SM_ret.
  cbv beta iota zeta. unfold can_open. rewrite Z.leb_antisym. set (sock := so_socket (calls s)).
  assert (Hu : undisturbed (s <| conns := pre ++ c :: post |>) s) by (rewrite <- Ec; by destruct s).
  destruct (Z.ltb_spec sock 0) as [|Hsock]; cbn [negb andb]; cbv beta iota.
  { eexists _, _. split_and!; [reflexivity|cbn; lia|exact Hu|done]. }
  change (calls (s <| calls ::= S |> <| trace ::= cons (IoSocket sock) |>)) with (S (calls s)).
  destruct (so_setsockopt (S (calls s)) sock =? 0); cbn [negb andb]; cbv beta iota.
  2: { eexists _, _. split_and!; [reflexivity|cbn; lia|exact Hu|done]. }
  change (calls (s <| calls ::= S |> <| trace ::= cons (IoSocket sock) |> <| calls ::= S |>)) with (S (S (calls s))).
  destruct (so_bind (S (S (calls s))) sock =? 0); cbn [negb]; cbv beta iota.
  2: { eexists _, _. split_and!; [reflexivity|cbn; lia|exact Hu|done]. }
  unfold add_active_fd. rewrite (proj2 (Z.ltb_ge sock 0)) by done.
  unfold modify_conn, modify, mbind, SM_bind, mret, SM_ret. cbv beta iota.
  eexists _, _. split; [reflexivity|]. split; [cbn; lia|]. split; [|done].
  assert (E : on_conn (c_ptr c) (fun c => c <| fd := sock |>) (conns s) = pre ++ c <| fd := sock |> :: post)
    by (rewrite Ec; by apply on_conn_split).
  split; [exact E|done].
Qed.

(** A connection counts as up when it has a socket and was heard from. *)
Definition up (time : Z) (c : conn_t) : bool := open c && negb (dead time c).

Definition count_up (time : Z) (cs : list conn_t) : Z := Zlength (List.filter (up time) cs).

Lemma open_neg c : (fd c <? 0) = negb (open c).
Proof. unfold open. by rewrite Z.ltb_antisym. Qed.

(** The effect of one connection's round on the globals and the network. *)
Definition round (time : Z) (pre : list conn_t) (c : conn_t) (post : list conn_t) (s s' : sender) : Prop :=
  sends (trace s') = rev (upkeep time s c) ++ sends (trace s) /\
  calls s' = (calls s + asked time s (calls s) c)%nat /\
  undisturbed (s <| conns := pre ++ tended time (calls s) c :: post |>
                 <| active_connections ::= Z.add (if up time c then 1 else 0) |>) s'.

Lemma housekeep_dead time pre c post s :
  NoDup (map c_ptr (conns s)) -> conns s = pre ++ c :: post -> open c = true -> dead time c = true ->
  exists s', housekeep_conn time (c_ptr c) s = Done tt s' /\ round time pre c post s s'.
Proof.
  intros Hnd Ec Ho Ht. rewrite Ec in Hnd.
  set (c1 := if 0 <? last_rcvd c then reset_conn c else c).
  set (s1 := s <| conns := pre ++ c1 :: post |>).
  assert (Hp1 : c_ptr c1 = c_ptr c) by (unfold c1; by destruct (0 <? last_rcvd c)).
  assert (E1 : when (0 <? last_rcvd c) (modify_conn (c_ptr c) reset_conn) s = Done tt s1).
  { unfold s1, c1, when, modify_conn, modify, skip, mret, SM_ret. destruct (0 <? last_rcvd c); f_equal.
    - rewrite <- (on_conn_split pre c post reset_conn) by done. by rewrite <- Ec.
    - rewrite <- Ec. by destruct s. }
  assert (Hl : lookup_conn (c_ptr c) (conns s1) = Some c1).
  { rewrite <- Hp1. apply lookup_conn_split. rewrite map_app in *. cbn in *. by rewrite Hp1. }
  assert (Hround : forall s', undisturbed s1 s' -> sends (trace s') = rev (upkeep time s c) ++ sends (trace s) ->
    calls s' = (calls s + length (upkeep time s c))%nat -> round time pre c post s s').
  { intros s' Hu Hs Hn. unfold round, asked, tended, up. rewrite Ho, Ht. cbn [negb andb].
    split; [done|]. split; [done|]. destruct s. exact Hu. }
  assert (Hfd1 : fd c1 = fd c) by (unfold c1; by destruct (0 <? last_rcvd c)).
  assert (Hrun : forall type len, exists r s', send_reg type len (c_ptr c) s1 = Done r s' /\ undisturbed s1 s' /\
    sends (trace s') = (fd c, reg_packet type (srtla_id s), len, srtla_addr s) :: sends (trace s) /\
    calls s' = (calls s + 1)%nat).
  { intros type len. rewrite <- Hp1 in Hl |- *.
    destruct (send_reg_run type len c1 s1 Hl) as (r & s' & rets & E & Hu & Hn & Htr & Hc). exists r, s'.
    cbn [List.filter] in Hn, Htr. unfold open in *. rewrite Hfd1, Ho in *.
    destruct rets as [|ret [|]]; [discriminate Hn| |discriminate Hn].
    split_and!; [done|done| |exact Hc]. rewrite Htr. unfold reg_io. cbn. by rewrite Hfd1. }
  unfold upkeep in Hround. rewrite Ho, Ht in Hround. cbn [negb] in Hround.
  unfold housekeep_conn, deref, mbind, SM_bind. rewrite Ec, lookup_conn_split by done.
  change (conn_timed_out c time) with (dead time c).
  rewrite open_neg, Ho, Ht. cbn [negb]. cbv beta iota. rewrite E1. unfold gets. cbv beta iota.
  change (pending_reg2_conn s1) with (pending_reg2_conn s).
  destruct (pending_reg2_conn s) as [p|]; [destruct (decide (p = c_ptr c))|].
  - destruct (Hrun SRTLA_TYPE_REG1 SRTLA_TYPE_REG1_LEN) as (r & s' & E & Hu & Hs & Hn).
    unfold send_reg1. rewrite E. eexists. split; [reflexivity|]. by apply Hround.
  - eexists. split; [reflexivity|]. apply Hround; [done|done|cbn; lia].
  - destruct (Hrun SRTLA_TYPE_REG2 SRTLA_TYPE_REG2_LEN) as (r & s' & E & Hu & Hs & Hn).
    unfold send_reg2. rewrite E. eexists. split; [reflexivity|]. by apply Hround.
Qed.

Lemma housekeep_live time pre c post s :
  NoDup (map c_ptr (conns s)) -> conns s = pre ++ c :: post ->
  open c = true -> dead time c = false -> 0 <= active_connections s < 2 ^ 31 - 1 ->
  exists s', housekeep_conn time (c_ptr c) s = Done tt s' /\ round time pre c post s s'.
Proof.
  intros Hnd Ec Ho Ht Ha. rewrite Ec in Hnd.
  set (s1 := s <| active_connections := active_connections s + 1 |>).
  assert (Hround : forall s', undisturbed s1 s' -> sends (trace s') = rev (upkeep time s c) ++ sends (trace s) ->
    calls s' = (calls s + length (upkeep time s c))%nat -> round time pre c post s s').
  { intros s' Hu Hs Hn. unfold round, asked, tended, up. rewrite Ho, Ht. cbn [negb andb].
    split; [done|]. split; [done|].
    rewrite <- Ec. unfold s1 in Hu. rewrite Z.add_comm in Hu. destruct s. exact Hu. }
  unfold upkeep in Hround. rewrite Ho, Ht in Hround. cbn [negb] in Hround.
  unfold housekeep_conn, deref, mbind, SM_bind. rewrite Ec, lookup_conn_split by done.
  change (conn_timed_out c time) with (dead time c).
  rewrite open_neg, Ho, Ht. cbn [negb]. unfold gets. cbv beta iota.
  rewrite c_int_small by lia. unfold int_op, mret, SM_ret, modify. cbv beta iota. fold s1.
  unfold when. destruct (last_sent c + IDLE_TIME <? time).
  - destruct (keepalive_run c s1) as (s' & E & Hu & Hs & Hn).
    { change (conns s1) with (conns s). rewrite Ec. by apply lookup_conn_split. }
    rewrite E. eexists. split; [reflexivity|]. apply Hround; [done|done|]. rewrite Hn. cbn. lia.
  - eexists. split; [reflexivity|]. apply Hround; [done|done|cbn; lia].
Qed.

Lemma housekeep_conn_run time pre c post s :
  NoDup (map c_ptr (conns s)) -> conns s = pre ++ c :: post -> 0 <= active_connections s < 2 ^ 31 - 1 ->
  exists s', housekeep_conn time (c_ptr c) s = Done tt s' /\ round time pre c post s s'.
Proof.
  intros Hnd Ec Ha. destruct (open c) eqn:Ho; [destruct (dead time c) eqn:Ht|].
  - by apply housekeep_dead.
  - by apply housekeep_live.
  - destruct (open_socket_run time pre c post s Hnd Ec Ho) as (r & s' & E & Hn & Hu & Hs).
    exists s'. split.
    + unfold housekeep_conn, deref, mbind, SM_bind. rewrite Ec in Hnd |- *. rewrite lookup_conn_split by done.
      rewrite open_neg, Ho. cbn [negb]. cbv beta iota. by rewrite E.
    + split; [unfold upkeep; by rewrite Ho|]. split; [done|]. unfold up. rewrite Ho. destruct s. exact Hu.
Qed.

(** The loop over the connections. *)
Lemma housekeep_loop time cs : forall pre s,
  NoDup (map c_ptr (pre ++ cs)) -> conns s = pre ++ cs ->
  0 <= active_connections s -> active_connections s + Zlength cs < 2 ^ 31 - 1 ->
  exists s', mfor (map c_ptr cs) (housekeep_conn time) s = Done tt s' /\
    sends (trace s') = rev (concat (map (upkeep time s) cs)) ++ sends (trace s) /\
    undisturbed (s <| conns := pre ++ tend_all time s (calls s) cs |>
                   <| active_connections ::= Z.add (count_up time cs) |>) s'.
Proof.
  induction cs as [|c cs IH]; intros pre s Hnd Ec Ha Hm.
  - exists s. split_and!; [done|done|]. cbn [tend_all]. rewrite <- Ec. by destruct s.
  - assert (El : Zlength (c :: cs) = 1 + Zlength cs) by (unfold Zlength; cbn; lia).
    pose proof (Zlength_nonneg cs).
    destruct (housekeep_conn_run time pre c cs s) as (s1 & E1 & Hs1 & Hn1 & Hu1); [by rewrite Ec|done|lia|].
    set (c' := tended time (calls s) c) in *.
    assert (Hc1 : conns s1 = (pre ++ [c']) ++ cs).
    { destruct Hu1 as [-> _]. cbn. by rewrite <- app_assoc. }
    assert (Ha1 : active_connections s1 = active_connections s + (if up time c then 1 else 0)).
    { destruct Hu1 as (_ & _ & _ & _ & -> & _). cbn. lia. }
    assert (Hx : srtla_id s1 = srtla_id s /\ srtla_addr s1 = srtla_addr s /\ pending_reg2_conn s1 = pending_reg2_conn s)
      by (split_and!; apply Hu1). destruct Hx as (X1 & X2 & X3).
    destruct (IH (pre ++ [c']) s1) as (s2 & E2 & Hs2 & Hu2).
    + rewrite <- app_assoc. rewrite map_app in *. cbn in *. unfold c'. by rewrite tended_ptr.
    + done.
    + rewrite Ha1. destruct (up time c); lia.
    + rewrite Ha1. destruct (up time c); lia.
    + exists s2. split; [|split].
      * cbn [map mfor]. unfold mbind, SM_bind. by rewrite E1.
      * rewrite Hs2, Hs1. cbn [map concat]. rewrite rev_app_distr, <- app_assoc. do 3 f_equal.
        apply map_ext. intros d. by apply upkeep_undisturbed.
      * rewrite (tend_all_undisturbed time s s1 cs _ X1 X2 X3), Hn1, <- app_assoc in Hu2. cbn [tend_all app] in Hu2 |- *.
        fold c'. destruct Hu1 as (_ & U2 & U3 & U4 & _ & U6 & U7 & U8), Hu2 as (V1 & V2 & V3 & V4 & V5 & V6 & V7 & V8).
        cbn in *. split_and!; cbn; try congruence.
        rewrite V5, Ha1. unfold count_up, Zlength. cbn [List.filter].
        destruct (up time c); cbn [length]; lia.
Qed.

(** The milliseconds of call [n]. *)
Definition ms_of (ts : Z * Z) : Z := u64 (u64 ts.1 * 1000 + u64 ts.2 / 1000 / 1000).

(** ** The end of a round *)

(** Nothing is up and nothing has been for more than ten seconds. *)
Definition overdue (ms : Z) (s : sender) : bool :=
  negb (all_failed_at s =? 0) && (all_failed_at s + 10000 <? ms).

(** The sender exits when this is so and it was connected once or has tried
    the last of the receiver's addresses. *)
Definition gives_up (ms : Z) (s : sender) : bool :=
  overdue ms s && (has_connected s || bool_decide (length (addrs s) <= 1)%nat).

(** What the round leaves of the clock of failures and of the address of the
    receiver, when [n] connections are up. *)
Definition failing_since (ms n : Z) (s : sender) : Z :=
  if negb (n =? 0) then 0 else
  if all_failed_at s =? 0 then ms else if overdue ms s then 0 else all_failed_at s.
Definition receiver_of (ms n : Z) (s : sender) : sockaddr * list sockaddr :=
  match addrs s with
  | _ :: next :: rest => if (n =? 0) && overdue ms s then (next, next :: rest) else (srtla_addr s, addrs s)
  | _ => (srtla_addr s, addrs s)
  end.

Lemma global_timeout_run ms s :
  0 <= all_failed_at s <= ms -> ms < 2 ^ 63 ->
  let n := active_connections s in
  exists s', conns s' = conns s /\ trace s' = trace s /\ active_connections s' = n /\
    if (n =? 0) && gives_up ms s then check_global_timeout ms s = Stopped (Exit 1) s'
    else check_global_timeout ms s = Done tt s' /\ all_failed_at s' = failing_since ms n s /\
      (srtla_addr s', addrs s') = receiver_of ms n s /\
      srtla_id s' = srtla_id s /\ has_connected s' = has_connected s /\ pending_reg2_conn s' = pending_reg2_conn s.
Proof.
  intros Hf Hm. cbv zeta. unfold check_global_timeout, gets, when, modify, skip, mret, SM_ret, mbind, SM_bind.
  unfold failing_since, receiver_of, gives_up, overdue.
  destruct (Z.eqb_spec (active_connections s) 0) as [Ea|Ea]; cbn [negb andb]; cbv beta iota.
  2: { exists (s <| all_failed_at := 0 |>). split_and!; try done. cbn. by destruct (addrs s) as [|a [|b rest]]. }
  unfold GLOBAL_TIMEOUT. destruct (Z.eqb_spec (all_failed_at s) 0) as [E0|E0]; cbv beta iota; cbn [all_failed_at negb andb].
  - rewrite u64_small by (cbn; lia). cbn [all_failed_at upd]. rewrite (proj2 (Z.ltb_ge _ ms)) by lia.
    exists (s <| all_failed_at := ms |>). split_and!; try done. cbn. by destruct (addrs s) as [|a [|b rest]].
  - rewrite u64_small by lia. change (10 * 1000) with 10000. destruct (all_failed_at s + 10000 <? ms); cbn [andb].
    + destruct (has_connected s) eqn:Eh; cbn [orb]; [by exists s|].
      destruct (addrs s) as [|a [|b rest]] eqn:Er; cbn [length]; [by exists s..|].
      rewrite bool_decide_eq_false_2 by lia.
      by exists (s <| addrs := b :: rest |> <| srtla_addr := b |> <| all_failed_at := 0 |>).
    + exists s. split_and!; try done. by destruct (addrs s) as [|a [|b rest]].
Qed.

(** The awaited REG2 is given up when its time is over. *)
Definition expire (time : Z) (s : sender) : sender :=
  if pending_reg_timeout s <? time then s <| pending_reg2_conn := None |> else s.

(** What a round at [ms] that reached [s'] from [s] did, its kernel calls
    from [n] on. *)
Definition rounded (ms : Z) (n : nat) (s s' : sender) : Prop :=
  conns s' = tend_all (ms / 1000) (expire (ms / 1000) s) n (conns s) /\
  sends (trace s') = rev (concat (map (upkeep (ms / 1000) (expire (ms / 1000) s)) (conns s))) ++ sends (trace s) /\
  active_connections s' = count_up (ms / 1000) (conns s).

(** What it leaves of the rest when the sender goes on. *)
Definition round_settled (ms : Z) (s s' : sender) : Prop :=
  last_ran s' = ms /\ all_failed_at s' = failing_since ms (count_up (ms / 1000) (conns s)) s /\
  (srtla_addr s', addrs s') = receiver_of ms (count_up (ms / 1000) (conns s)) s /\
  srtla_id s' = srtla_id s /\ has_connected s' = has_connected s /\
  pending_reg2_conn s' = pending_reg2_conn (expire (ms / 1000) s).

Lemma housekeeping_at_run ms s :
  sender_ok s -> 0 <= all_failed_at s <= ms -> ms < 2 ^ 63 -> Zlength (conns s) < 2 ^ 31 - 1 ->
  exists s', rounded ms (calls s) s s' /\
    if (count_up (ms / 1000) (conns s) =? 0) && gives_up ms s then housekeeping_at ms s = Stopped (Exit 1) s'
    else housekeeping_at ms s = Done tt s' /\ round_settled ms s s'.
Proof.
  intros Hs Hf Hm Hn. unfold rounded, round_settled. set (time := ms / 1000).
  set (s1 := s <| active_connections := 0 |>).
  set (s2 := expire time s1).
  assert (Hs2 : s2 = expire time s <| active_connections := 0 |> /\
    when (pending_reg_timeout s <? time) (modify (fun s => s <| pending_reg2_conn := None |>)) s1 = Done tt s2).
  { unfold s2, expire, when. change (pending_reg_timeout s1) with (pending_reg_timeout s).
    by destruct (_ <? time). }
  destruct Hs2 as (E2 & Ew). set (s0 := expire time s) in *.
  assert (Hs0 : conns s0 = conns s /\ trace s0 = trace s /\ calls s0 = calls s /\ all_failed_at s0 = all_failed_at s /\
    srtla_addr s0 = srtla_addr s /\ addrs s0 = addrs s /\ has_connected s0 = has_connected s /\ srtla_id s0 = srtla_id s)
    by (unfold s0, expire; by destruct (_ <? time)).
  destruct Hs0 as (Z1 & Z2 & Z3 & Z4 & Z5 & Z6 & Z7 & Z8).
  destruct (housekeep_loop time (conns s) [] s2) as (s3 & E3 & Ht3 & Hu); [| |rewrite E2; cbn; lia..|].
  { cbn. rewrite <- ids_ptrs. apply Hs. }
  { by rewrite E2. }
  assert (Hc2 : conns s2 = conns s) by (by rewrite E2).
  assert (Erun : housekeeping_at ms s =
    (check_global_timeout ms;; modify (fun s => s <| last_ran := ms |>)) s3).
  { unfold housekeeping_at, for_conns, gets, mbind, SM_bind. cbv zeta.
    change (modify (fun s => s <| active_connections := 0 |>) s) with (Done tt s1). cbv beta iota.
    change (pending_reg_timeout s1) with (pending_reg_timeout s). fold time. rewrite Ew, Hc2. by rewrite E3. }
  rewrite Erun. rewrite (tend_all_undisturbed time s0 s2 (conns s)) in Hu by (by rewrite E2).
  rewrite (map_ext _ (upkeep time s0)) in Ht3 by (intros c; apply upkeep_undisturbed; by rewrite E2).
  destruct Hu as (U1 & U2 & U3 & U4 & U5 & U6 & U7 & U8). rewrite E2 in U1, U2, U3, U4, U5, U6, U7, U8, Ht3.
  cbn in U1, U2, U3, U4, U5, U6, U7, U8, Ht3. rewrite Z.add_0_r in U5.
  destruct (global_timeout_run ms s3) as (s' & C1 & C2 & C3 & Hend); [by rewrite U8, Z4|done|].
  unfold failing_since, receiver_of, gives_up, overdue in *. rewrite U3, U4, U5, U6, U8, Z4, Z5, Z6, Z7 in Hend.
  unfold mbind, SM_bind. destruct (_ && _).
  - exists s'. rewrite Hend, C1, C2, C3, U1, U5, Ht3, Z2, Z3. done.
  - destruct Hend as (E & Q1 & Q2 & Q3 & Q4 & Q5). exists (s' <| last_ran := ms |>). rewrite E. cbn -[sends].
    rewrite C1, C2, C3, U1, U5, Ht3, Z2, Z3, Q1, Q2, Q3, Q4, Q5, U2, U7, Z8. done.
Qed.

(** C30: housekeeping, by the clock it reads.  Within a second of the last
    round it does nothing.  Otherwise it goes through the links in order: a
    closed one is reopened exactly when the kernel gives it a socket, a buffer
    and its address; a dead one that was heard from is emptied; the others are
    left as they are.  It sends exactly the datagrams of [upkeep], in the order
    of the list: a registration on dead links, a keepalive on idle live ones;
    and it counts the links that are up.  It exits exactly when none is up,
    none has been for more than ten seconds since the round that found so, and
    the sender was connected before or has no further address to try.
    Otherwise it dates the round, notes since when nothing is up, and turns to
    the next address of the receiver when the ten seconds are over. *)
Theorem housekeeping_round s ts :
  sender_ok s -> so_clock_gettime (calls s) = Some ts -> 0 <= last_ran s < 2 ^ 63 ->
  0 <= all_failed_at s <= ms_of ts -> ms_of ts < 2 ^ 63 -> Zlength (conns s) < 2 ^ 31 - 1 ->
  if ms_of ts <? last_ran s + 1000 then connection_housekeeping s = Done tt (s <| calls ::= S |>)
  else exists s', rounded (ms_of ts) (S (calls s)) s s' /\
    if (count_up (ms_of ts / 1000) (conns s) =? 0) && gives_up (ms_of ts) s
    then connection_housekeeping s = Stopped (Exit 1) s'
    else connection_housekeeping s = Done tt s' /\ round_settled (ms_of ts) s s'.
Proof.
  intros Hs Ht Hr Hf Hm Hn. set (s1 := s <| calls ::= S |>). set (ms := ms_of ts) in *.
  assert (Hs1 : sender_ok s1) by (destruct Hs; by split).
  assert (Erun : connection_housekeeping s =
    if ms <? last_ran s + 1000 then Done tt s1 else housekeeping_at ms s1).
  { unfold connection_housekeeping, get_ms, next_call, mbind, SM_bind, gets, mret, SM_ret. rewrite Ht.
    cbn [fmap option_fmap option_map]. fold (ms_of ts). fold ms. unfold HOUSEKEEPING_INT.
    change (last_ran (s <| calls ::= S |>)) with (last_ran s).
    rewrite (u64_small (last_ran s + 1000)) by lia. by destruct (_ <? _). }
  rewrite Erun. destruct (ms <? last_ran s + 1000); [done|].
  destruct (housekeeping_at_run ms s1 Hs1 Hf Hm Hn) as (s' & Hround & Hend). exists s'.
  assert (He : expire (ms / 1000) s1 = expire (ms / 1000) s <| calls ::= S |>)
    by (unfold expire; change (pending_reg_timeout s1) with (pending_reg_timeout s); by destruct (_ <? _)).
  unfold rounded, round_settled in *. rewrite He in Hround, Hend.
  rewrite (tend_all_undisturbed _ (expire (ms / 1000) s)) in Hround by done.
  rewrite (map_ext _ (upkeep (ms / 1000) (expire (ms / 1000) s))) in Hround by (intros c; by apply upkeep_undisturbed).
  split; [exact Hround|]. by destruct s.
Qed.

End Upkeep.
