(* ===== verification/SenderScenario.v ===== *)
(** * A concrete sender

    A kernel with two source addresses and a state of the sender built by
    running the model on it; the theorems about the sender at those values. *)

From stdpp Require Import list.
From S2P Require Import Prelude Config Wire SenderModel SenderLog SenderProofs SenderProperties.
From S2P Require Import SenderUpkeep.

(** A data packet in a receive buffer. *)
Definition buffer_of (packet : list byte) : list byte :=
  packet ++ replicate (Z.to_nat MTU - length packet) Byte.x00.

(** Three seconds after the clock's origin; two one-byte lines in the address
    file; every descriptor new; every datagram sent whole. *)
Definition sample_so : SenderOS := {|
  so_clock_gettime := fun _ => Some (3, 0);
  so_uninit := fun _ => 0;
  so_recvfrom := fun _ _ => (20, buffer_of (be32_bytes 7), replicate 16 Byte.x01);
  so_sendto := fun _ _ _ n _ => n;
  so_socket := fun n => 10 + Z.of_nat n;
  so_setsockopt := fun _ _ => 0;
  so_bind := fun _ _ => 0;
  so_getlines := fun _ => Some [[Byte.x01; Byte.x0a]; [Byte.x02; Byte.x0a]];
  so_urandom_open := fun _ => true; so_urandom_read := fun _ n => replicate (Z.to_nat n) Byte.x55;
  so_getaddrinfo := fun _ => Some [replicate 16 Byte.x09];
  inet_addr := fun line => match line with [b] => bval b | _ => 0xFFFFFFFF end
|}.

#[export] Instance sample_env : @SenderEnv sample_so.
Proof. by split. Qed.

(** The state a computation ends in, and whether it ran to its end. *)
Definition end_of {A} (o : outcome A) : sender := match o with Done _ s => s | Stopped _ s => s end.
Definition ends {A} (o : outcome A) : bool := match o with Done _ _ => true | Stopped _ _ => false end.
Lemma ends_done (o : outcome unit) : ends o = true -> o = Done tt (end_of o).
Proof. by destruct o as [[]|]. Qed.

(** The sender when it enters its loop: two connections, both open. *)
Definition s_started : sender := end_of (@start sample_so initial_sender).

Lemma started_reachable : @s_reachable sample_so s_started.
Proof. apply sr_start, ends_done. vm_compute. reflexivity. Qed.
Lemma started_ok : sender_ok s_started.
Proof. exact (@s_reachable_ok sample_so sample_env s_started started_reachable). Qed.

(** A connection that has sent four packets. *)
Definition sample_conn : conn_t := fresh_conn 7 [].
Definition busy_conn : conn_t := default sample_conn (reg_all [5; 6; 7; 8] sample_conn).
Lemma busy_run : reg_all [5; 6; 7; 8] sample_conn = Some busy_conn.
Proof. vm_compute. reflexivity. Qed.
Lemma busy_ok : conn_ok busy_conn.
Proof. exact (proj2 (proj2 (reg_all_spec _ _ _ (fresh_conn_ok 7 []) busy_run))). Qed.
Lemma sample_conns_ok : Forall conn_ok [sample_conn; busy_conn].
Proof. constructor; [apply fresh_conn_ok|]. constructor; [apply busy_ok|constructor]. Qed.

(** ** The theorems at these values *)

Lemma packet_log_window_witness :
  recent busy_conn = take 255 (rev [5; 6; 7; 8] ++ recent sample_conn) /\
  in_flight_pkts busy_conn = in_flight_pkts sample_conn + Zlength [5; 6; 7; 8] /\ conn_ok busy_conn.
Proof. apply packet_log_window; [apply fresh_conn_ok|apply busy_run]. Defined.

Lemma srt_ack_cumulative_witness :
  recent (conn_register_srt_ack 7 busy_conn) = map (clear_below 7) (recent busy_conn) /\
  in_flight_pkts (conn_register_srt_ack 7 busy_conn) = Zlength (List.filter (fun v => 7 <=? v) (recent busy_conn)) /\
  in_flight_pkts (conn_register_srt_ack 7 busy_conn) <= 255 /\
  window (conn_register_srt_ack 7 busy_conn) = window busy_conn /\ conn_ok (conn_register_srt_ack 7 busy_conn).
Proof. exact (srt_ack_cumulative 7 busy_conn busy_ok). Defined.

Lemma nak_shrinks_window_witness : exists cs', register_nak 6 [sample_conn; busy_conn] = Some cs' /\
  Forall conn_ok cs' /\ map window cs' = [20000; 19900].
Proof.
  destruct (nak_shrinks_window 6 [sample_conn; busy_conn] sample_conns_ok) as (cs' & E & Hok & _).
  exists cs'. split; [exact E|]. split; [exact Hok|]. vm_compute in E. injection E as <-. reflexivity.
Defined.

Lemma ack_grows_windows_witness : exists cs', register_srtla_ack 6 [sample_conn; busy_conn] = Some cs' /\
  map in_flight_pkts cs' = [0; 3].
Proof.
  destruct (ack_grows_windows 6 [sample_conn; busy_conn] sample_conns_ok) as (cs' & E & _).
  - repeat constructor; vm_compute; discriminate.
  - exists cs'. split; [exact E|]. vm_compute in E. injection E as <-. reflexivity.
Defined.

Lemma sender_safe_witness : sender_ok s_started /\
  @iteration sample_so true [12] s_started <> Stopped (DanglingConn 0) s_started.
Proof.
  destruct (@sender_safe sample_so sample_env s_started true [12] started_reachable) as [H1 H2].
  split; [exact H1|]. apply H2.
Defined.

Lemma reload_exact_witness : exists s' new, @update_conns sample_so s_started = Done tt s' /\ sender_ok s' /\
  conns s' = new ++ map (fun c => c <| removed := false |>) (conns s_started).
Proof.
  destruct (@reload_exact sample_so sample_env s_started [[Byte.x01; Byte.x0a]; [Byte.x02; Byte.x0a]]
    started_reachable eq_refl) as (s' & new & E & Hs & Ec & _).
  exists s', new. split; [exact E|]. split; [exact Hs|]. rewrite Ec.
  apply (f_equal (fun l => new ++ map (fun c => c <| removed := false |>) l)). apply filter_all. intros c Hc.
  assert (Hall : forallb (fun c => bool_decide (src c ∈ @listed sample_so [[Byte.x01; Byte.x0a]; [Byte.x02; Byte.x0a]]))
                   (conns s_started) = true) by (vm_compute; reflexivity).
  apply forallb_forall with (x := c) in Hall; [by apply bool_decide_eq_true in Hall|by apply list_elem_of_In].
Defined.

Lemma packet_takes_best_witness : exists pre c c' post s' ret,
  conns s_started = pre ++ c :: post /\ @handle_srt_data sample_so (listenfd s_started) s_started = Done tt s' /\
  trace s' = IoSendto (fd c) (buffer_of (be32_bytes 7)) 20 (srtla_addr s_started) ret :: trace s_started /\
  conns s' = pre ++ c' :: post.
Proof.
  destruct (@packet_takes_best sample_so s_started 20 (buffer_of (be32_bytes 7)) (replicate 16 Byte.x01) 3 0 started_ok)
    as (pre & c & c' & post & s' & ret & H1 & _ & _ & _ & H2 & H3 & H4 & _).
  - apply Forall_forall. intros c Hc.
    assert (Hall : forallb (fun c => in_flight_pkts c <? 2 ^ 31 - 1) (conns s_started) = true)
      by (vm_compute; reflexivity).
    apply forallb_forall with (x := c) in Hall; [by apply Z.ltb_lt in Hall|by apply list_elem_of_In].
  - reflexivity.
  - reflexivity.
  - apply Exists_exists.
    assert (Hex : existsb (fun c => negb (conn_timed_out c 3)) (conns s_started) = true) by (vm_compute; reflexivity).
    apply existsb_exists in Hex as (c & Hc & Ht). exists c. split; [by apply list_elem_of_In|].
    unfold alive. by apply negb_true_iff in Ht.
  - by exists pre, c, c', post, s', ret.
Defined.

Lemma loss_list_decoded_witness :
  @handle_received sample_so 0 (nak_packet [5; 2 ^ 31 + 7; 9] ++ []) 28 SRT_TYPE_NAK s_started =
  (mfor [5; 7; 8; 9] (fun sn => on_conns (register_nak sn));;
   @to_srt sample_so (nak_packet [5; 2 ^ 31 + 7; 9] ++ []) 28) s_started.
Proof.
  apply (@loss_list_decoded sample_so [One 5; Range 7 9] [] 0 s_started).
  - repeat constructor; cbn; lia.
  - vm_compute. discriminate.
Defined.

(** One connection that has just sent ten packets. *)
Definition sample_block : list Z := [1; 2; 3; 4; 5; 6; 7; 8; 9; 10].
Definition block_conn : conn_t := default sample_conn (reg_all sample_block sample_conn).
Definition s_block : sender := initial_sender <| conns := [block_conn] |> <| next_ptr := 8%nat |>.
Lemma block_run : reg_all sample_block sample_conn = Some block_conn.
Proof. vm_compute. reflexivity. Qed.
Lemma block_ok : sender_ok s_block.
Proof.
  pose proof (proj2 (proj2 (reg_all_spec _ _ _ (fresh_conn_ok 7 []) block_run))) as Hc.
  assert (Hp : c_ptr block_conn = 7%nat) by (vm_compute; reflexivity).
  split.
  - constructor; [exact Hc|constructor].
  - apply NoDup_singleton.
  - apply NoDup_singleton.
  - constructor; [rewrite Hp; cbn; lia|constructor].
  - intros p E. discriminate E.
  - reflexivity.
Qed.

Lemma housekeeping_round_witness :
  exists s', @rounded sample_so 3000 (S (calls s_started)) s_started s' /\
    @connection_housekeeping sample_so s_started = Done tt s' /\ round_settled 3000 s_started s'.
Proof.
  apply (@housekeeping_round sample_so s_started (3, 0) started_ok).
  - reflexivity.
  - vm_compute. split; [discriminate|reflexivity].
  - vm_compute. split; discriminate.
  - vm_compute. reflexivity.
  - vm_compute. reflexivity.
Defined.
