(* ===== verification/SenderShares.v ===== *)
(** * How the sender spreads a burst over its links

    [select_conn] of src/sender.cpp takes the connection with the largest
    window per packet in flight.  Over a burst of packets this fills the links
    like vessels: none is given a packet at a worse share than one that is left
    waiting could offer. *)

From stdpp Require Import list.
From S2P Require Import Prelude Config Wire SenderModel SenderLog SenderProofs SenderProperties.
From S2P Require Import SenderScenario.

(** ** A burst *)

(** [k] packets of the SRT caller, one after another. *)
Fixpoint burst `{SenderOS} (k : nat) : SM unit :=
  match k with
  | O => skip
  | S k' => burst k';; l ← gets listenfd; handle_srt_data l
  end.

Definition in_flight_total (cs : list conn_t) : Z := foldr Z.add 0 (map in_flight_pkts cs).

(** What a burst at time [now] does to a connection: some packets more in
    flight, and none if it is not alive. *)
Definition loaded (now : Z) (c c' : conn_t) : Prop :=
  c_ptr c' = c_ptr c /\ window c' = window c /\ last_rcvd c' = last_rcvd c /\
  in_flight_pkts c <= in_flight_pkts c' /\ (~ alive now c -> in_flight_pkts c' = in_flight_pkts c).

(** No live connection [b] offers a better share for the next packet than
    the one at which a connection [a] that was used got its last packet. *)
Definition level (now : Z) (cs cs' : list conn_t) : Prop :=
  forall i j c a b, cs !! i = Some c -> cs' !! i = Some a -> in_flight_pkts c < in_flight_pkts a ->
    cs' !! j = Some b -> alive now b -> share b <= window a / in_flight_pkts a.

Lemma in_flight_total_app l r : in_flight_total (l ++ r) = in_flight_total l + in_flight_total r.
Proof. unfold in_flight_total. induction l as [|c l IH]; cbn; [done|]. rewrite IH. lia. Qed.
Lemma in_flight_total_nonneg cs : Forall conn_ok cs -> 0 <= in_flight_total cs.
Proof.
  unfold in_flight_total. induction 1 as [|c cs [_ _ _ Hf] _ IH]; cbn; [done|]. lia.
Qed.
Lemma in_flight_below cs bound :
  Forall conn_ok cs -> in_flight_total cs < bound -> Forall (fun c => in_flight_pkts c < bound) cs.
Proof.
  intros Hok Hb. apply Forall_forall. intros c (l & r & ->)%list_elem_of_split.
  apply Forall_app in Hok as [Hl [Hc Hr]%Forall_cons]. rewrite in_flight_total_app in Hb.
  apply in_flight_total_nonneg in Hl, Hr. unfold in_flight_total in *. cbn in Hb. lia.
Qed.

(** ** One packet more *)

Lemma more_in_flight t sn c c' : 0 <= sn -> reg_pkt sn (c <| last_sent := t |>) = Some c' ->
  c_ptr c' = c_ptr c /\ window c' = window c /\ last_rcvd c' = last_rcvd c /\
  in_flight_pkts c' = in_flight_pkts c + 1.
Proof.
  intros Hsn. unfold reg_pkt. cbn. unfold c_int. case_match; [|done]. intros [= <-]. done.
Qed.

Lemma share_less c c' : conn_ok c -> window c' = window c -> in_flight_pkts c' = in_flight_pkts c + 1 -> share c' <= share c.
Proof.
  intros [_ _ Hw Hf] Ew Ef. unfold share, WINDOW_MIN, WINDOW_MULT in *. rewrite Ew, Ef.
  apply Z.div_le_compat_l; lia.
Qed.

Lemma alive_same now c c' : last_rcvd c' = last_rcvd c -> alive now c' <-> alive now c.
Proof. intros E. unfold alive, conn_timed_out. by rewrite E. Qed.

(** Another element in the middle of a list. *)
Lemma middle_lookup {A} (pre post : list A) x y j b :
  (pre ++ x :: post) !! j = Some b ->
  (j = length pre /\ b = x) \/ (j <> length pre /\ (pre ++ y :: post) !! j = Some b /\ b ∈ pre ++ post).
Proof.
  intros [Hj|[Hle Hj]]%lookup_app_Some.
  - right. assert (j < length pre)%nat by (by eapply lookup_lt_Some). split_and!; [lia| |].
    + by apply lookup_app_l_Some.
    + apply elem_of_app. left. by eapply list_elem_of_lookup_2.
  - destruct (j - length pre)%nat as [|k] eqn:E; cbn in Hj; [left; split; [lia|congruence]|right].
    split_and!; [lia| |].
    + rewrite lookup_app_r by done. by rewrite E.
    + apply elem_of_app. right. by eapply list_elem_of_lookup_2.
Qed.

Lemma level_step now cs0 pre c c' post :
  conn_ok c -> window c' = window c -> last_rcvd c' = last_rcvd c -> in_flight_pkts c' = in_flight_pkts c + 1 ->
  Forall (fun d => alive now d -> share d <= share c) (pre ++ post) -> alive now c ->
  level now cs0 (pre ++ c :: post) -> level now cs0 (pre ++ c' :: post).
Proof.
  intros Hc Ew Er Ef Hbest Hal Hlv i j c0 a b H0 Ha Huse Hb Hb_al. rewrite Forall_forall in Hbest.
  pose proof (share_less c c' Hc Ew Ef) as Hless.
  assert (Hj : exists b0, (pre ++ c :: post) !! j = Some b0 /\ alive now b0 /\ share b <= share b0 /\ share b0 <= share c).
  { apply (middle_lookup pre post c' c) in Hb as [[-> ->]|(_ & Hb & Hin)].
    - exists c. rewrite list_lookup_middle by done. split_and!; [done..|lia].
    - exists b. split_and!; [done|done|lia|by apply Hbest]. }
  destruct Hj as (b0 & Hb0 & Hal0 & Hs1 & Hs2).
  apply (middle_lookup pre post c' c) in Ha as [[-> ->]|(_ & Ha & _)].
  - rewrite Ew, Ef. fold (share c). lia.
  - specialize (Hlv i j c0 a b0 H0 Ha Huse Hb0 Hal0). lia.
Qed.

Lemma loaded_step now c0 c c' : alive now c -> window c' = window c -> c_ptr c' = c_ptr c ->
  last_rcvd c' = last_rcvd c -> in_flight_pkts c' = in_flight_pkts c + 1 -> loaded now c0 c -> loaded now c0 c'.
Proof.
  intros Hal Ew Ep Er Ef (P & W & R & F & D). split_and!; [congruence|congruence|congruence|lia|].
  intros Hd. destruct Hd. by apply (alive_same now c0 c).
Qed.

(** Connections are alive when they were. *)
Lemma loaded_alive now cs0 cs sec c : Forall2 (loaded now) cs0 cs -> c ∈ cs ->
  (forall c0, c0 ∈ cs0 -> alive sec c0 <-> alive now c0) -> alive sec c <-> alive now c.
Proof.
  intros HF (i & Hc)%list_elem_of_lookup_1 Hsec. destruct (Forall2_lookup_r _ _ _ _ _ HF Hc) as (c0 & H0 & _ & _ & R & _).
  rewrite (alive_same sec c0 c), (alive_same now c0 c) by done. apply Hsec. by eapply list_elem_of_lookup_2.
Qed.
Lemma loaded_exists now cs0 cs : Forall2 (loaded now) cs0 cs -> Exists (alive now) cs0 -> Exists (alive now) cs.
Proof.
  intros HF (c0 & (i & H0)%list_elem_of_lookup_1 & Hal)%Exists_exists.
  destruct (Forall2_lookup_l _ _ _ _ _ HF H0) as (c & Hc & _ & _ & R & _). apply Exists_exists. exists c.
  split; [by eapply list_elem_of_lookup_2|]. by apply (alive_same now c0 c).
Qed.

Lemma loaded_middle now cs0 pre c c' post :
  (forall c0, loaded now c0 c -> loaded now c0 c') ->
  Forall2 (loaded now) cs0 (pre ++ c :: post) -> Forall2 (loaded now) cs0 (pre ++ c' :: post).
Proof.
  intros Hc (l & r & Hl & (c0 & r' & H0 & Hr & ->)%Forall2_cons_inv_r & ->)%Forall2_app_inv_r.
  apply Forall2_app; [done|]. constructor; auto.
Qed.

Section Burst.
Context `{so : SenderOS} `{env : !SenderEnv}.

(** The environment of a burst that starts in [s]: the clock works and does
    not outlive a connection, what the caller sends is data, and the kernel
    takes it. *)
Record steady (now : Z) (s : sender) : Prop := {
  sd_clock t : exists sec ns, so_clock_gettime t = Some (sec, ns) /\
    forall c, c ∈ conns s -> alive sec c <-> alive now c;
  sd_data t n buf from : so_recvfrom t (listenfd s) = (n, buf, from) -> 0 <= get_srt_sn buf n;
  sd_sent t fd buf n dst : so_sendto t fd buf n dst = n
}.

Lemma burst_run now k s :
  sender_ok s -> steady now s -> Exists (alive now) (conns s) ->
  in_flight_total (conns s) + Z.of_nat k < 2 ^ 31 - 1 ->
  exists s', burst k s = Done tt s' /\ sender_ok s' /\ listenfd s' = listenfd s /\
    Forall2 (loaded now) (conns s) (conns s') /\
    in_flight_total (conns s') = in_flight_total (conns s) + Z.of_nat k /\ level now (conns s) (conns s').
Proof.
  intros Hs Hsd Hex. induction k as [|k IH]; intros Hb.
  - exists s. split_and!; [done..| |lia|].
    + apply Forall2_same_length_lookup_2; [done|]. intros i c c' -> [= ->]. split_and!; [done..|lia|done].
    + intros i j c a b E1 E2. rewrite E1 in E2. injection E2 as ->. lia.
  - destruct IH as (s1 & E1 & Hs1 & L1 & F1 & T1 & V1); [lia|].
    assert (Hclock : forall c sec, c ∈ conns s1 ->
      (forall c0, c0 ∈ conns s -> alive sec c0 <-> alive now c0) -> alive sec c <-> alive now c)
      by (intros; by apply (loaded_alive now (conns s) (conns s1))).
    assert (Hex1 : Exists (alive now) (conns s1)) by (by apply (loaded_exists now (conns s))).
    destruct (so_recvfrom (calls s1) (listenfd s1)) as [[n buf] from] eqn:Er.
    destruct (sd_clock now s Hsd (S (calls s1))) as (sec & ns & Ec & Hsec).
    destruct (packet_run s1 n buf from sec ns) 
      as (pre & c & c' & post & s' & ret & Ecs & Hal & Hpre & Hpost & E & _ & Ecs' & Hsent & El & t & Eret); try done.
    + apply in_flight_below; [apply Hs1|lia].
    + apply Exists_exists in Hex1 as (c & Hc & Hal). apply Exists_exists. exists c. split; [done|]. by apply Hclock.
    + rewrite (sd_sent now s Hsd) in Eret. subst ret. rewrite L1 in Er. apply (sd_data now s Hsd) in Er as Hsn.
      unfold sent_on in Hsent. rewrite Z.eqb_refl, (proj2 (Z.leb_le 0 _) Hsn) in Hsent.
      destruct (more_in_flight sec _ c c' Hsn Hsent) as (Ep & Ew & Erc & Ef).
      assert (Hin : forall d, d ∈ c :: pre ++ post -> d ∈ conns s1) by (rewrite Ecs; set_solver).
      assert (Halc : alive now c) by (apply (Hclock c sec); [apply Hin; left|done|done]).
      exists s'. split_and!.
      * cbn [burst]. unfold mbind, SM_bind, gets. rewrite E1. exact E.
      * pose proof (keeps_handle_srt_data (fun _ => True) (listenfd s1) s1 Hs1 I) as Hk.
        unfold swp in Hk. rewrite E in Hk. apply Hk.
      * congruence.
      * rewrite Ecs'. rewrite Ecs in F1. eapply loaded_middle; [|exact F1]. intros c0. by apply loaded_step.
      * rewrite Ecs', in_flight_total_app. rewrite Ecs, in_flight_total_app in T1.
        unfold in_flight_total in *. cbn in *. lia.
      * rewrite Ecs'. rewrite Ecs in V1. apply (level_step now _ pre c c' post); try done.
        -- pose proof (ok_conns _ Hs1) as Hok. rewrite Forall_forall in Hok. apply Hok, Hin. left.
        -- rewrite Forall_forall in Hpre, Hpost. apply Forall_forall. intros d Hd Hald.
           assert (Hsd' : alive sec d) by (apply (Hclock d sec); [apply Hin; by right|done|done]).
           apply elem_of_app in Hd as [Hd|Hd]; [apply Z.lt_le_incl; by apply Hpre|by apply Hpost].
Qed.

(** C13: the load is spread by windows.  When [k] packets of the SRT caller
    come in a row, the kernel takes them and no link dies meanwhile, all [k]
    are put in flight, on links that are alive, the windows and the other
    links being as before; and the links are filled evenly: no live link could
    offer the next packet more window per packet in flight than each link that
    was used had for the last packet it got. *)
Theorem load_spread now k s :
  sender_ok s -> steady now s -> Exists (alive now) (conns s) ->
  in_flight_total (conns s) + Z.of_nat k < 2 ^ 31 - 1 ->
  exists s', burst k s = Done tt s' /\ Forall2 (loaded now) (conns s) (conns s') /\
    in_flight_total (conns s') = in_flight_total (conns s) + Z.of_nat k /\ level now (conns s) (conns s').
Proof.
  intros Hs Hsd Hex Hb. destruct (burst_run now k s Hs Hsd Hex Hb) as (s' & E & _ & _ & F & T & V). by exists s'.
Qed.
End Burst.

(** ** Three packets over two links *)

Lemma started_alive : Forall (alive 3) (conns s_started).
Proof.
  apply Forall_forall. intros c Hc.
  assert (Hall : forallb (fun c => negb (conn_timed_out c 3)) (conns s_started) = true) by (vm_compute; reflexivity).
  apply forallb_forall with (x := c) in Hall; [by apply negb_true_iff in Hall|by apply list_elem_of_In].
Qed.
Lemma started_steady : @steady sample_so 3 s_started.
Proof.
  split.
  - intros t. exists 3, 0. done.
  - intros t n buf from [= <- <- _]. vm_compute. discriminate.
  - done.
Qed.

Lemma load_spread_witness : exists s', @burst sample_so 3 s_started = Done tt s' /\
  map in_flight_pkts (conns s') = [2; 1] /\ level 3 (conns s_started) (conns s').
Proof.
  destruct (@load_spread sample_so sample_env 3 3 s_started started_ok started_steady) as (s' & E & _ & _ & V).
  - pose proof started_alive as Ha. assert (Hl : length (conns s_started) = 2%nat) by (vm_compute; reflexivity).
    destruct (conns s_started) as [|c cs]; [discriminate Hl|]. apply Forall_cons in Ha as [Ha _]. by left.
  - assert (Ht : in_flight_total (conns s_started) = 0) by (vm_compute; reflexivity). rewrite Ht. lia.
  - exists s'. split; [exact E|]. split; [|exact V].
    assert (Hf : map in_flight_pkts (conns (end_of (@burst sample_so 3 s_started))) = [2; 1]) by (vm_compute; reflexivity).
    rewrite E in Hf. exact Hf.
Defined.
