(* ===== verification/EndToEnd.v ===== *)
(** * The two programs together

    The sender (src/sender.cpp) and the receiver's registration
    (src/protocol/srtla_handler.cpp) agree on the packets they exchange. *)

From stdpp Require Import list gmap.
From S2P Require Import SenderModel SenderLog SenderProofs SenderProperties SenderUpkeep.
From S2P Require Import SenderScenario.
From S2P Require Import Prelude Config Wire NetUtils AuthRateLimiter Connection World Registry.
From S2P Require Import SrtHandler SrtlaHandler Hoare Invariant RegistryProofs HandlerProofs.
From S2P Require Import MainLoop QualityProofs Scenario LoopProofs Registration AckStream DataPath.

Section Handshake.
Context {os : OS} {so : SenderOS}.

(** The registration of a group across both programs.  When the receiver
    accepts the REG1 a sender sent, its reply, received on the connection
    that waits for it, makes the sender adopt the id of the group that was
    created, and announce every one of its open connections with a REG2 that
    the receiver recognises and that carries that id. *)
Theorem group_registration_agrees w w' s addr ts p :
  inv w -> sender_ok s -> SenderModel.pending_reg2_conn s = Some p ->
  register_group addr (reg_packet SRTLA_TYPE_REG1 (srtla_id s)) ts w = Done 0 w' ->
  is_srtla_reg1 (reg_packet SRTLA_TYPE_REG1 (srtla_id s)) SRTLA_TYPE_REG1_LEN = true /\
  exists pkt ret g, trace w' = IoSendto addr pkt ret :: trace w /\ g ∈ groups w' /\
    forall rest ts', exists s' rets,
      handle_reg2 p ts' (pkt ++ rest) s = SenderModel.Done tt s' /\
      srtla_id s' = g_id g /\ SenderModel.pending_reg2_conn s' = None /\
      length rets = length (List.filter SenderUpkeep.open (conns s)) /\
      SenderModel.trace s' =
        rev (zip_with (fun c ret => SenderModel.IoSendto (fd c) (reg2_packet (g_id g))
                         SRTLA_TYPE_REG2_LEN (srtla_addr s) ret)
               (List.filter SenderUpkeep.open (conns s)) rets) ++ SenderModel.trace s /\
      is_srtla_reg2 (reg2_packet (g_id g)) SRTLA_TYPE_REG2_LEN = true /\
      drop 2 (reg2_packet (g_id g)) = g_id g.
Proof.
  intros Hi Hs Hp Hrun. split; [reflexivity|]. pose proof (ok_id _ Hs) as Hid.
  assert (Hlen : Zlength (reg_packet SRTLA_TYPE_REG1 (srtla_id s)) = SRTLA_TYPE_REG1_LEN).
  { unfold Zlength, reg_packet. rewrite length_app, Hid. done. }
  pose proof (register_group_run addr _ ts w Hi Hlen) as Hspec. rewrite Hrun in Hspec.
  destruct (reg1_verdict addr ts w) as [[reason|] gs]; [by destruct Hspec|].
  destruct Hspec as (rnd & ret & Hrnd & Htr & Hcase).
  set (g := new_group (next_ptr w) (drop 2 (reg_packet SRTLA_TYPE_REG1 (srtla_id s))) rnd ts <| last_address := addr |>) in *.
  assert (Egid : g_id g = take (Z.to_nat (SRTLA_ID_LEN / 2)) (srtla_id s) ++ rnd) by done.
  assert (Hhalf : length (take (Z.to_nat (SRTLA_ID_LEN / 2)) (srtla_id s)) = Z.to_nat (SRTLA_ID_LEN / 2)).
  { rewrite length_take, Hid. done. }
  assert (Hgl : length (g_id g) = Z.to_nat SRTLA_ID_LEN).
  { rewrite Egid, length_app, Hhalf. unfold Zlength in Hrnd. change (SRTLA_ID_LEN / 2) with 128 in *.
    change (Z.to_nat SRTLA_ID_LEN) with 256%nat. lia. }
  assert (Hgt : take (Z.to_nat (SRTLA_ID_LEN / 2)) (g_id g) = take (Z.to_nat (SRTLA_ID_LEN / 2)) (srtla_id s)).
  { rewrite Egid, <- Hhalf at 1. apply take_app_length. }
  destruct (ret =? SRTLA_TYPE_REG2_LEN); destruct Hcase as [Hr Hcase]; [|discriminate Hr].
  destruct Hcase as [Hgs _]. exists (reg2_packet (g_id g)), ret, g. split_and!; [done| |].
  { rewrite Hgs. apply elem_of_app. right. left. }
  intros rest ts'. destruct (group_id_adopted p ts' (g_id g) rest s Hs Hp Hgl Hgt)
    as (s' & rets & E & E1 & E2 & _ & _ & E3 & E4).
  exists s', rets. by split_and!.
Qed.

End Handshake.

Section Link.
Context {os : OS} {hc : HandlerConfig} {so : SenderOS}.
Hypothesis replies_sent : forall n a b, os_sendto n a b = Zlength b.

(** What REG3 does to the sender that receives it on a connection of its own. *)
Lemma reg3_received p c s rest from now ns :
  SenderModel.lookup_conn p (conns s) = Some c -> active_connections s < 2 ^ 31 - 1 -> - 2 ^ 31 <= active_connections s ->
  so_recvfrom (SenderModel.calls s) (fd c) = (PAD_LEN, pad_payload (header_packet SRTLA_TYPE_REG3) ++ rest, from) ->
  so_clock_gettime (S (SenderModel.calls s)) = Some (now, ns) ->
  exists s', handle_srtla_data p s = SenderModel.Done tt s' /\ has_connected s' = true /\
    active_connections s' = active_connections s + 1 /\
    conns s' = SenderModel.on_conn p (fun c => c <| last_rcvd := now |>) (conns s) /\
    SenderModel.trace s' = SenderModel.trace s /\ srtla_id s' = srtla_id s.
Proof.
  intros Hl Ha1 Ha2 Hr Ht. unfold handle_srtla_data, deref, recvfrom, SenderModel.get_seconds.
  unfold SenderModel.next_call, SenderModel.gets, mbind, SM_bind, mret, SM_ret. rewrite Hl. cbv beta iota. rewrite Hr.
  change (PAD_LEN <=? 0) with false. cbv beta iota.
  change (SenderModel.calls (s <| SenderModel.calls ::= S |>)) with (S (SenderModel.calls s)). rewrite Ht.
  assert (E : get_srt_type (pad_payload (header_packet SRTLA_TYPE_REG3) ++ rest) PAD_LEN = SRTLA_TYPE_REG3) by reflexivity.
  rewrite E. unfold handle_received, SenderModel.gets, SenderModel.modify_conn, SenderModel.modify, int_op, mbind, SM_bind.
  change (SRTLA_TYPE_REG3 =? SRTLA_TYPE_REG_NGP) with false. change (SRTLA_TYPE_REG3 =? SRTLA_TYPE_REG2) with false.
  change (SRTLA_TYPE_REG3 =? SRT_TYPE_ACK) with false. change (SRTLA_TYPE_REG3 =? SRT_TYPE_NAK) with false.
  change (SRTLA_TYPE_REG3 =? SRTLA_TYPE_ACK) with false. change (SRTLA_TYPE_REG3 =? SRTLA_TYPE_KEEPALIVE) with false.
  change (SRTLA_TYPE_REG3 =? SRTLA_TYPE_REG3) with true. cbv beta iota.
  set (s1 := upd conns _ _). change (active_connections s1) with (active_connections s).
  rewrite c_int_small by lia. by eexists.
Qed.

(** A REG2 with the id of a group that has room for its address. *)
Lemma reg2_joins w id addr ts g :
  inv w -> length id = Z.to_nat SRTLA_ID_LEN -> find_group_by_id id (groups w) = Some g ->
  owned_elsewhere addr g (groups w) = false -> addr_key addr ∉ conn_addrs g ->
  Zlength (connections g) < MAX_CONNS_PER_GROUP ->
  exists w' pre g' c',
    process_single_packet (reg2_packet id) SRTLA_TYPE_REG2_LEN addr ts w = Done tt w' /\
    trace w' = pre ++ IoSendto addr (pad_payload (header_packet SRTLA_TYPE_REG3)) PAD_LEN :: trace w /\
    find_by_address addr (groups w') = Some (g', Some c') /\ g_id g' = id /\
    connections g' = connections g ++ [c'] /\ address c' = addr /\ last_received c' = ts /\ inv w'.
Proof.
  intros Hi Hl Hf Hno Hnew Hroom.
  destruct (register_connection_run addr (reg2_packet id) ts w Hi) as (r & w' & Hrun & Hspec).
  pose proof (wp_done _ _ _ _ _ _ (wp_register_connection addr (reg2_packet id) ts (fun _ _ => False) w Hi) Hrun) as [Hi' _].
  unfold reg2_spec in Hspec. change (drop 2 (reg2_packet id)) with id in Hspec. rewrite Hf, Hno in Hspec.
  rewrite (bool_decide_eq_false_2 _ Hnew), (proj2 (Z.leb_gt _ _) Hroom) in Hspec.
  destruct Hspec as (n & pre & Htr & Hacc). rewrite replies_sent in Htr, Hacc.
  change (pad_result (header_packet SRTLA_TYPE_REG3) (Zlength (pad_payload (header_packet SRTLA_TYPE_REG3))) =? 2)
    with true in Hacc. destruct Hacc as (-> & Hg' & _).
  set (c' := new_connection (next_ptr w) addr ts) in *. set (g' := add_connection c' g <| last_address := addr |>).
  apply find_group_by_id_elem in Hf as [Hg Hid].
  assert (Hin : g' ∈ groups w').
  { rewrite Hg'. apply elem_of_on_group. exists g. split; [done|]. by rewrite decide_True. }
  exists w', pre, g', c'. split_and!; try done.
  - unfold process_single_packet. change (is_srtla_reg1 (reg2_packet id) SRTLA_TYPE_REG2_LEN) with false.
    change (is_srtla_reg2 (reg2_packet id) SRTLA_TYPE_REG2_LEN) with true. cbv beta iota.
    by rewrite (bind_done _ _ _ _ _ Hrun).
  - apply find_by_address_complete; [done|done| |done]. apply elem_of_app. right. left.
  - change (g_id g = id). assert (Hlen : length (g_id g) = Z.to_nat SRTLA_ID_LEN).
    { destruct Hi as [[_ _ Hgs _ _] _]. rewrite Forall_forall in Hgs. by apply Hgs. }
    apply Z.eqb_eq in Hid. rewrite constant_time_compare_spec in Hid by done. by apply bool_decide_eq_true in Hid.
Qed.

(** The registration of a link across both programs.  The REG2 with which a
    sender announces a link to a receiver that holds its group and has room
    makes the link's address lead to a connection of that group, the group's
    other connections being as before, and is answered with one datagram,
    REG3; when that reaches the sender, the link counts as connected and as
    heard from now, its other links are as before, and nothing is passed on to
    the SRT caller. *)
Theorem link_registration_agrees w s addr ts g p c rest from now ns :
  inv w -> sender_ok s -> find_group_by_id (srtla_id s) (groups w) = Some g ->
  owned_elsewhere addr g (groups w) = false -> addr_key addr ∉ conn_addrs g ->
  Zlength (connections g) < MAX_CONNS_PER_GROUP ->
  SenderModel.lookup_conn p (conns s) = Some c -> - 2 ^ 31 <= active_connections s < 2 ^ 31 - 1 ->
  so_recvfrom (SenderModel.calls s) (fd c) = (PAD_LEN, pad_payload (header_packet SRTLA_TYPE_REG3) ++ rest, from) ->
  so_clock_gettime (S (SenderModel.calls s)) = Some (now, ns) ->
  exists w' pre g' c' s',
    process_single_packet (reg_packet SRTLA_TYPE_REG2 (srtla_id s)) SRTLA_TYPE_REG2_LEN addr ts w = Done tt w' /\
    trace w' = pre ++ IoSendto addr (pad_payload (header_packet SRTLA_TYPE_REG3)) PAD_LEN :: trace w /\
    find_by_address addr (groups w') = Some (g', Some c') /\ g_id g' = srtla_id s /\
    connections g' = connections g ++ [c'] /\ address c' = addr /\ last_received c' = ts /\
    handle_srtla_data p s = SenderModel.Done tt s' /\ has_connected s' = true /\
    active_connections s' = active_connections s + 1 /\
    conns s' = SenderModel.on_conn p (fun c => c <| last_rcvd := now |>) (conns s) /\
    SenderModel.trace s' = SenderModel.trace s.
Proof.
  intros Hi Hs Hf Hno Hnew Hroom Hl [Ha1 Ha2] Hr Ht.
  destruct (reg3_received p c s rest from now ns Hl Ha2 Ha1 Hr Ht) as (s' & E & H1 & H2 & H3 & H4 & _).
  destruct (reg2_joins w (srtla_id s) addr ts g) as (w' & pre & g' & c' & E1 & E2 & E3 & E4 & E5 & E6 & E7 & _);
    try done; [apply Hs|].
  by exists w', pre, g', c', s'.
Qed.
End Link.

Section Delivery.
Context {os : OS} {hc : HandlerConfig} {so : StdinOpen} {sos : SenderOS}.
Hypothesis server_up : forall n fd b, (os_send n fd b).1 = Zlength b.

(** C19: the delivery of a block of ten packets across both programs, when
    nothing fails on the way.  The receiver's side: every send to the SRT
    server succeeds whole ([server_up]), standard input is open, the group's
    socket is open, and the connection stands at the start of a block.  The
    sender's side: the ten data packets have distinct numbers and are the last
    ten logged on the link that sent them ([c1] is [c0] after the ten), no link
    earlier in the list has any of them among its last 255, and no window
    exceeds its maximum nor any link's packets in flight two million.  Then the
    ten packets are forwarded to the SRT server, byte for byte and in order,
    and answered with exactly one datagram, to the connection's address; when
    the sender handles it, the link that sent them has as many packets in
    flight as before the ten, and exactly their log entries are cleared. *)
Theorem block_delivered bufs addr ts w g c p s pre c0 c1 post rest :
  inv w -> find_by_address addr (groups w) = Some (g, Some c) -> 0 <= srt_socket g -> recv_index c = 0 ->
  Forall is_data bufs -> Zlength bufs = RECV_ACK_INT -> NoDup (map seq_no bufs) ->
  sender_ok s -> conns s = pre ++ c1 :: post -> SenderLog.conn_ok c0 -> reg_all (map seq_no bufs) c0 = Some c1 ->
  Forall (fun d => SenderModel.window d <= WINDOW_MAX * WINDOW_MULT /\ in_flight_pkts d <= 2000000) (conns s) ->
  Forall (fun d => forall sn, sn ∈ map seq_no bufs -> sn ∉ recent d) pre ->
  exists w' evs ack s' pre' c' post',
    mfor bufs (fun buf => process_single_packet buf (Zlength buf) addr ts) w = Done tt w' /\
    trace w' = rev evs ++ trace w /\
    omap forward_of evs = map (fun b => (srt_socket g, b, Zlength b)) bufs /\
    omap ack_of evs = [(address c, ack)] /\
    get_srt_type (ack ++ rest) (Zlength ack) = SRTLA_TYPE_ACK /\
    handle_received p (ack ++ rest) (Zlength ack) SRTLA_TYPE_ACK s = SenderModel.Done tt s' /\
    conns s' = pre' ++ c' :: post' /\ length pre' = length pre /\
    in_flight_pkts c' = in_flight_pkts c0 /\ recent c' = take 255 (replicate 10 (-1) ++ recent c0).
Proof.
  intros Hi Hf Hs Hidx Hd Hlen Hnd Hsok Ec Hc0 Hreg Hm Hpre. set (sns := map seq_no bufs) in *.
  assert (Hl : length sns = ACK_EVERY).
  { unfold sns. rewrite length_map, ACK_EVERY_eq. unfold Zlength, RECV_ACK_INT in Hlen. lia. }
  assert (Hok : Invariant.conn_ok c).
  { destruct (find_by_address_conn _ _ _ _ Hi Hf) as (Hg & Hc & _).
    apply lookup_group_elem in Hg as [Hg _]. apply find_first_Some in Hc as [Hc _].
    destruct Hi as [[_ _ Hgs _ _] _]. rewrite Forall_forall in Hgs.
    destruct (Hgs g Hg) as [_ _ _ _ Hcs _]. rewrite Forall_forall in Hcs. by apply Hcs. }
  assert (Hrange : Forall (fun sn => 0 <= sn < 2 ^ 31) sns).
  { apply Forall_fmap. eapply Forall_impl; [exact Hd|]. intros b [_ Hsn]. cbn. split; [done|].
    unfold seq_no, get_srt_sn in *. repeat case_match; try lia. apply i32_range. }
  destruct (data_stream server_up addr ts bufs w g c Hi Hf Hs Hd) as (w' & evs & E & _ & Ht & Hfw & Hak & _).
  fold sns in Hak. destruct (ack_run_block sns c Hok Hidx Hl) as (Hrun & _). rewrite Hrun in Hak.
  cbn [map] in Hak. rewrite pad_ack_bytes, <- ack_packet_bytes in Hak by done.
  assert (Hz : Zlength sns = RECV_ACK_INT) by (unfold Zlength in *; unfold sns; by rewrite length_map).
  destruct (acks_clear_block sns pre c0 c1 post rest p s) as (s' & pre' & c' & post' & H1 & H2 & H3 & H4 & H5); try done.
  exists w', evs, (ack_packet (map htobe32 sns)), s', pre', c', post'. split_and!; try done.
  apply (receiver_acks_decoded sns rest p s Hz Hrange).
Qed.
End Delivery.


(** A sender that waits for the reply on its first connection. *)
Definition s_waiting : sender := s_started <| SenderModel.pending_reg2_conn := Some 0%nat |>.
Lemma set_waiting_ok s p : sender_ok s -> p ∈ (ids s).*1 ->
  sender_ok (s <| SenderModel.pending_reg2_conn := Some p |>).
Proof. intros [] Hp. split; try done. by intros q [= <-]. Qed.
Lemma waiting_ok : sender_ok s_waiting.
Proof.
  apply set_waiting_ok; [exact started_ok|].
  apply (bool_decide_eq_true_1 (0%nat ∈ (ids s_started).*1)). vm_compute. reflexivity.
Qed.

Lemma group_registration_agrees_witness :
  exists w' g s', @register_group os0 client1 (reg_packet SRTLA_TYPE_REG1 (srtla_id s_waiting)) 1000 initial_world
    = Done 0 w' /\ g ∈ groups w' /\ srtla_id s' = g_id g.
Proof.
  pose proof (result_of_done (@register_group os0 client1 (reg_packet SRTLA_TYPE_REG1 (srtla_id s_waiting)) 1000)
    initial_world 0 ltac:(vm_compute; reflexivity)) as E.
  destruct (@group_registration_agrees os0 sample_so initial_world _ s_waiting client1 1000 0
    initial_inv waiting_ok eq_refl E) as (_ & pkt & ret & g & _ & Hg & Hs).
  destruct (Hs [] 0) as (s' & rets & _ & Hid & _). eexists _, g, s'.
  split; [exact E|]. split; [exact Hg|exact Hid].
Defined.

(** A sender that has adopted the id of the group of [w_pending], and a kernel
    that gives it REG3. *)
Definition so_reg3 : SenderOS := {|
  so_clock_gettime := @so_clock_gettime sample_so; so_uninit := @so_uninit sample_so;
  so_recvfrom := fun _ _ => (PAD_LEN, buffer_of (pad_payload (header_packet SRTLA_TYPE_REG3)), []);
  so_sendto := @so_sendto sample_so; so_socket := @so_socket sample_so; so_setsockopt := @so_setsockopt sample_so;
  so_bind := @so_bind sample_so; so_getlines := @so_getlines sample_so; so_urandom_open := @so_urandom_open sample_so; so_urandom_read := @so_urandom_read sample_so;
  so_getaddrinfo := @so_getaddrinfo sample_so; inet_addr := @inet_addr sample_so
|}.
Definition s_link : sender := s_started <| srtla_id := last_reg2_id w_pending |>.
Lemma set_id_ok s id : sender_ok s -> length id = Z.to_nat SRTLA_ID_LEN -> sender_ok (s <| srtla_id := id |>).
Proof. intros [] Hid. by split. Qed.

Lemma link_registration_agrees_witness :
  exists w' g c s', @process_single_packet os0 sample_cfg (reg_packet SRTLA_TYPE_REG2 (srtla_id s_link))
      SRTLA_TYPE_REG2_LEN client1 1000 w_pending = Done tt w' /\
    find_by_address client1 (groups w') = Some (g, Some c) /\
    @handle_srtla_data so_reg3 0 s_link = SenderModel.Done tt s' /\ has_connected s' = true.
Proof.
  destruct (@link_registration_agrees os0 sample_cfg so_reg3 (fun _ _ _ => eq_refl) w_pending s_link client1 1000
    (first_group w_pending) 0 (default sample_conn (SenderModel.lookup_conn 0 (conns s_link)))
    (replicate 1468 Byte.x00) [] 3 0) as (w' & pre & g & c & s' & E1 & _ & E2 & _ & _ & _ & _ & E3 & E4 & _).
  - exact (@reachable_inv os0 sample_cfg sample_exporter (sample_stdin _ _ _) w_pending pending_reachable).
  - apply set_id_ok; [exact started_ok|vm_compute; reflexivity].
  - vm_compute. reflexivity.
  - vm_compute. reflexivity.
  - assert (Hc : conn_addrs (first_group w_pending) = []) by (vm_compute; reflexivity). rewrite Hc. apply not_elem_of_nil.
  - vm_compute. reflexivity.
  - vm_compute. reflexivity.
  - vm_compute. split; [discriminate|reflexivity].
  - reflexivity.
  - reflexivity.
  - exists w', g, c, s'. split; [exact E1|]. split; [exact E2|]. split; [exact E3|exact E4].
Defined.

(** A receiver whose client has just completed a block of ten, and the ten
    packets the client sends next. *)
Definition os_up : OS := sample_os 1001 send_all None.
Definition relay (bufs : list (list byte)) : M unit :=
  World.mfor bufs (fun buf => @process_single_packet os_up sample_cfg buf (Zlength buf) client1 1001).
Definition w_block : world := run (relay (map data_packet [6; 7; 8; 9; 10; 11; 12; 13; 14])) w_joined.
Definition next_block : list (list byte) := map data_packet sample_block.

Lemma w_block_inv : inv w_block.
Proof.
  destruct (@data_stream os_up sample_cfg (sample_stdin _ _ _) (fun _ _ _ => eq_refl) client1 1001
    (map data_packet [6; 7; 8; 9; 10; 11; 12; 13; 14]) w_joined (first_group w_joined) (first_conn w_joined))
    as (w' & evs & E & Hi & _).
  - exact joined_inv.
  - vm_compute. reflexivity.
  - vm_compute. discriminate.
  - apply (bool_decide_unpack _). vm_compute. exact I.
  - unfold w_block, run, relay. rewrite E. exact Hi.
Qed.

Lemma next_block_run : reg_all (map seq_no next_block) sample_conn = Some block_conn.
Proof. vm_compute. reflexivity. Qed.

Lemma block_delivered_witness :
  exists w' evs ack s' c', relay next_block w_block = Done tt w' /\
    omap forward_of evs = map (fun b => (srt_socket (first_group w_block), b, Zlength b)) next_block /\
    omap ack_of evs = [(address (first_conn w_block), ack)] /\
    @handle_received sample_so 7 (ack ++ []) (Zlength ack) SRTLA_TYPE_ACK s_block = SenderModel.Done tt s' /\
    c' ∈ conns s' /\ in_flight_pkts c' = 0.
Proof.
  destruct (@block_delivered os_up sample_cfg (sample_stdin _ _ _) sample_so (fun _ _ _ => eq_refl) next_block client1
    1001 w_block (first_group w_block) (first_conn w_block) 7 s_block [] sample_conn block_conn [] [])
    as (w' & evs & ack & s' & pre' & c' & post' & E1 & _ & E2 & E3 & _ & E4 & E5 & _ & E6 & _).
  - exact w_block_inv.
  - vm_compute. reflexivity.
  - vm_compute. discriminate.
  - vm_compute. reflexivity.
  - apply (bool_decide_unpack _). vm_compute. exact I.
  - reflexivity.
  - apply (bool_decide_unpack _). vm_compute. exact I.
  - exact block_ok.
  - reflexivity.
  - exact (fresh_conn_ok 7 []).
  - exact next_block_run.
  - constructor; [|constructor]. split; vm_compute; discriminate.
  - constructor.
  - exists w', evs, ack, s', c'. split; [exact E1|]. split; [exact E2|]. split; [exact E3|]. split; [exact E4|].
    split; [rewrite E5; apply elem_of_app; right; left|exact E6].
Defined.
