(* ===== verification/Session.v ===== *)
(** * The steps of a session

    What the handlers of the sender (src/sender.cpp) and of the receiver
    (src/protocol/srtla_handler.cpp) do with each packet of a registration
    when the network delivers, REG2 with the sender's own id, REG_NGP, REG1,
    REG2 with the id of the new group, REG2 of the link, REG3, and with a
    keepalive and its echo; [Establishment] puts them together. *)

From stdpp Require Import list gmap.
From S2P Require Import SenderModel SenderLog SenderProofs SenderProperties SenderUpkeep.
From S2P Require Import SenderScenario.
From S2P Require Import Prelude Config Wire NetUtils AuthRateLimiter Connection World Registry.
From S2P Require Import SrtHandler SrtlaHandler Hoare Invariant RegistryProofs HandlerProofs.
From S2P Require Import MainLoop Scenario LoopProofs Registration DataPath Telemetry EndToEnd.

(** ** The sender hears a packet *)

(** The kernel of a sender that finds [pkt] in its socket at time [now]. *)
Definition hearing (so : SenderOS) (now : Z) (pkt : list byte) : SenderOS := {|
  so_clock_gettime := fun _ => Some (now, 0); so_uninit := @so_uninit so;
  so_recvfrom := fun _ _ => (Zlength pkt, buffer_of pkt, []);
  so_sendto := @so_sendto so; so_socket := @so_socket so; so_setsockopt := @so_setsockopt so;
  so_bind := @so_bind so; so_getlines := @so_getlines so; so_urandom_open := @so_urandom_open so; so_urandom_read := @so_urandom_read so;
  so_getaddrinfo := @so_getaddrinfo so; inet_addr := @inet_addr so
|}.
Definition hears (so : SenderOS) (now : Z) (pkt : list byte) (p : nat) : SM unit :=
  @handle_srtla_data (hearing so now pkt) p.

Lemma hearing_env (so : SenderOS) now pkt :
  (length pkt <= Z.to_nat MTU)%nat -> @SenderEnv (hearing so now pkt).
Proof.
  intros Hl. split. intros n l. cbn. unfold buffer_of.
  rewrite length_app, length_replicate. lia.
Qed.

Section Sender.
Context {so : SenderOS}.
Hypothesis sent_whole : forall t l b n d, so_sendto t l b n d = n.

(** The part of the handler after the packet was read. *)
Lemma hears_run now pkt p c s :
  SenderModel.lookup_conn p (conns s) = Some c -> 2 <= Zlength pkt ->
  hears so now pkt p s =
  (let os := hearing so now pkt in let type := get_srt_type (buffer_of pkt) (Zlength pkt) in
   if type =? SRTLA_TYPE_REG_NGP then @handle_reg_ngp os p now
   else if type =? SRTLA_TYPE_REG2 then @handle_reg2 os p now (buffer_of pkt)
   else (SenderModel.modify_conn p (fun c => c <| last_rcvd := now |>);;
         @handle_received os p (buffer_of pkt) (Zlength pkt) type))
  (s <| SenderModel.calls ::= S |> <| SenderModel.calls ::= S |>).
Proof.
  intros Hl Hn. unfold hears, handle_srtla_data, deref, recvfrom, SenderModel.get_seconds.
  unfold SenderModel.next_call, SenderModel.gets, mbind, SM_bind, mret, SM_ret. rewrite Hl. cbv beta iota.
  unfold so_recvfrom, so_clock_gettime. cbn [hearing]. cbv beta iota.
  destruct (Z.leb_spec (Zlength pkt) 0); [lia|done].
Qed.

Lemma hears_ok now pkt p s s' :
  sender_ok s -> p ∈ (ids s).*1 -> (length pkt <= Z.to_nat MTU)%nat ->
  hears so now pkt p s = SenderModel.Done tt s' -> sender_ok s' /\ ids s' = ids s.
Proof.
  intros Hs Hp Hl E. pose proof (hearing_env so now pkt Hl) as Henv.
  pose proof (@keeps_handle_srtla_data (hearing so now pkt) Henv p s Hs Hp) as H.
  unfold swp, hears in *. by rewrite E in H.
Qed.

(** REG_NGP: a sender without connections asks for a group. *)
Lemma ngp_heard now p c s :
  SenderModel.lookup_conn p (conns s) = Some c -> 0 <= fd c -> active_connections s = 0 ->
  SenderModel.pending_reg2_conn s = None -> pending_reg_timeout s < now ->
  exists s', hears so now (pad_payload (header_packet SRTLA_TYPE_REG_NGP)) p s = SenderModel.Done tt s' /\
    SenderModel.trace s' = SenderModel.IoSendto (fd c) (reg_packet SRTLA_TYPE_REG1 (srtla_id s)) SRTLA_TYPE_REG1_LEN
      (srtla_addr s) SRTLA_TYPE_REG1_LEN :: SenderModel.trace s /\
    SenderModel.pending_reg2_conn s' = Some p /\ conns s' = conns s /\ srtla_id s' = srtla_id s /\
    active_connections s' = 0.
Proof.
  intros Hl Hfd Ha Hp Ht. rewrite (hears_run _ _ _ c) by done. cbv zeta.
  assert (Etype : get_srt_type (buffer_of (pad_payload (header_packet SRTLA_TYPE_REG_NGP)))
    (Zlength (pad_payload (header_packet SRTLA_TYPE_REG_NGP))) = SRTLA_TYPE_REG_NGP) by reflexivity.
  rewrite Etype, Z.eqb_refl. set (s1 := upd SenderModel.calls S (upd SenderModel.calls S s)).
  unfold handle_reg_ngp, SenderModel.gets, mbind, SM_bind. cbv beta iota.
  change (active_connections s1) with (active_connections s).
  change (SenderModel.pending_reg2_conn s1) with (SenderModel.pending_reg2_conn s).
  change (pending_reg_timeout s1) with (pending_reg_timeout s).
  rewrite Ha, Hp, bool_decide_true, (proj2 (Z.ltb_lt _ _) Ht) by done.
  unfold send_reg1, send_reg, deref, SenderModel.gets, SenderModel.sendto, SenderModel.next_call, SenderModel.emit,
    SenderModel.modify, mbind, SM_bind, mret, SM_ret.
  change ((0 =? 0) && true && true) with true. cbv beta iota. change (conns s1) with (conns s). rewrite Hl. destruct (Z.ltb_spec (fd c) 0); [lia|]. cbv beta iota zeta.
  change (@so_sendto (hearing so now (pad_payload (header_packet SRTLA_TYPE_REG_NGP)))) with (@so_sendto so).
  rewrite sent_whole, Z.eqb_refl. change (0 =? 0) with true. cbn [SenderModel.when]. eexists. split; [reflexivity|]. by split_and!.
Qed.
Lemma zip_elem {A B C} (f : A -> B -> C) l rs x :
  x ∈ l -> length rs = length l -> exists r, f x r ∈ zip_with f l rs.
Proof.
  intros Hx. revert rs. induction Hx as [x l|x y l Hx IH]; intros [|r rs] Hl; cbn in *; try lia.
  - exists r. left.
  - destruct (IH rs ltac:(lia)) as (r' & Hr). exists r'. by right.
Qed.

(** REG2: the sender adopts the id and announces its open links. *)
Lemma reg2_heard now p c s id :
  sender_ok s -> SenderModel.lookup_conn p (conns s) = Some c ->
  SenderModel.pending_reg2_conn s = Some p -> length id = Z.to_nat SRTLA_ID_LEN ->
  take (Z.to_nat (SRTLA_ID_LEN / 2)) id = take (Z.to_nat (SRTLA_ID_LEN / 2)) (srtla_id s) ->
  exists s', hears so now (reg2_packet id) p s = SenderModel.Done tt s' /\
    (forall d, d ∈ conns s -> 0 <= fd d -> exists ret,
       SenderModel.IoSendto (fd d) (reg2_packet id) SRTLA_TYPE_REG2_LEN (srtla_addr s) ret ∈ SenderModel.trace s') /\
    srtla_id s' = id /\ conns s' = conns s /\ active_connections s' = active_connections s.
Proof.
  intros Hs Hl Hp Hid Hhalf. rewrite (hears_run _ _ _ c); [|done|rewrite length_reg2_packet; unfold Zlength; lia].
  cbv zeta.
  assert (Etype : get_srt_type (buffer_of (reg2_packet id)) (Zlength (reg2_packet id)) = SRTLA_TYPE_REG2).
  { unfold get_srt_type. rewrite length_reg2_packet. unfold Zlength. rewrite Hid. reflexivity. }
  rewrite Etype. change (SRTLA_TYPE_REG2 =? SRTLA_TYPE_REG_NGP) with false. rewrite Z.eqb_refl. cbv beta iota.
  set (s1 := upd SenderModel.calls S (upd SenderModel.calls S s)).
  assert (Hs1 : sender_ok s1) by (destruct Hs; by split).
  destruct (@group_id_adopted (hearing so now (reg2_packet id)) p now id
    (replicate (Z.to_nat MTU - length (reg2_packet id)) Byte.x00) s1 Hs1 Hp Hid Hhalf)
    as (s' & rets & E & H1 & _ & H2 & H3 & H4 & H5).
  exists s'. split_and!; try done. intros d Hd Hfd.
  destruct (zip_elem (fun c ret => SenderModel.IoSendto (fd c) (reg2_packet id) SRTLA_TYPE_REG2_LEN (srtla_addr s1) ret)
    (List.filter SenderUpkeep.open (conns s1)) rets d) as (ret & Hin); [|done|].
  { apply list_elem_of_In, filter_In. split; [by apply list_elem_of_In|by apply Z.leb_le]. }
  exists ret. rewrite H5. apply elem_of_app. left. apply list_elem_of_In. rewrite <- in_rev. by apply list_elem_of_In.
Qed.

Lemma lookup_conn_on_conn p f cs c : (forall c, SenderModel.c_ptr (f c) = SenderModel.c_ptr c) ->
  SenderModel.lookup_conn p cs = Some c -> SenderModel.lookup_conn p (SenderModel.on_conn p f cs) = Some (f c).
Proof.
  intros Hf. unfold SenderModel.lookup_conn, SenderModel.on_conn.
  induction cs as [|x cs IH]; cbn [map find_first]; [done|]. destruct (decide (SenderModel.c_ptr x = p)) as [E|E].
  - rewrite Hf, !(bool_decide_eq_true_2 _ E). by intros [= <-].
  - rewrite (bool_decide_eq_false_2 _ E). apply IH.
Qed.

(** REG3: the link is connected. *)
Lemma reg3_heard now p c s :
  SenderModel.lookup_conn p (conns s) = Some c -> active_connections s = 0 ->
  exists s', hears so now (pad_payload (header_packet SRTLA_TYPE_REG3)) p s = SenderModel.Done tt s' /\
    has_connected s' = true /\ srtla_id s' = srtla_id s /\
    SenderModel.lookup_conn p (conns s') = Some (c <| last_rcvd := now |>).
Proof.
  intros Hl Ha. set (pkt := pad_payload (header_packet SRTLA_TYPE_REG3)).
  destruct (@reg3_received (hearing so now pkt) p c s (replicate (Z.to_nat MTU - length pkt) Byte.x00) [] now 0 Hl)
    as (s' & E & H1 & _ & H3 & _ & H5); [rewrite Ha; lia|rewrite Ha; lia|reflexivity|reflexivity|].
  exists s'. split_and!; try done. rewrite H3. by apply lookup_conn_on_conn.
Qed.
End Sender.

(** ** The receiver answers *)

Section Receiver.
Context {os : OS} {hc : HandlerConfig}.
Hypothesis replies_sent : forall n a b, os_sendto n a b = Zlength b.
Hypothesis urandom_opens : forall n, os_urandom_open n = true.
Hypothesis urandom_reads : forall n k, 0 < k -> 1 <= Zlength (os_urandom_read n k).

(** An id that no group has: REG_NGP. *)
Lemma unknown_answered w id addr ts :
  inv w -> find_group_by_id id (groups w) = None ->
  exists w', process_single_packet (reg2_packet id) SRTLA_TYPE_REG2_LEN addr ts w = Done tt w' /\ inv w' /\
    groups w' = groups w /\ limiter w' = limiter w /\
    trace w' = IoSendto addr (pad_payload (header_packet SRTLA_TYPE_REG_NGP)) PAD_LEN :: trace w.
Proof.
  intros Hi Hf.
  assert (E : exists w', register_connection addr (reg2_packet id) ts w = Done (-1) w' /\ limiter w' = limiter w /\
    groups w' = groups w /\ trace w' = IoSendto addr (pad_payload (header_packet SRTLA_TYPE_REG_NGP)) PAD_LEN :: trace w).
  { unfold register_connection. rewrite (bind_done _ _ _ (groups w) w) by done.
    change (drop 2 (reg2_packet id)) with id. rewrite Hf. eexists. split; [reflexivity|]. cbn. by rewrite replies_sent. }
  destruct E as (w' & E & Hlim & Hg & Ht).
  pose proof (wp_done _ _ _ _ _ _ (wp_register_connection addr (reg2_packet id) ts (fun _ _ => False) w Hi) E) as [Hi' _].
  exists w'. split_and!; try done. unfold process_single_packet.
  change (is_srtla_reg1 (reg2_packet id) SRTLA_TYPE_REG2_LEN) with false.
  change (is_srtla_reg2 (reg2_packet id) SRTLA_TYPE_REG2_LEN) with true. cbv beta iota. by rewrite (bind_done _ _ _ _ _ E).
Qed.

(** The table a REG1 finds is what it was, or less. *)
Lemma reg1_verdict_subset addr ts w verdict gs x :
  reg1_verdict addr ts w = (verdict, gs) -> x ∈ gs -> x ∈ groups w.
Proof.
  intros Hv. destruct (reg1_verdict_table _ _ _ _ _ Hv) as [->|(_ & o & _ & ->)]; [done|].
  by intros [_ ?]%list_elem_of_filter.
Qed.

(** An admitted REG1 returns, and its reply was sent whole. *)
Lemma register_group_shape addr buf ts w :
  inv w -> fst (reg1_verdict addr ts w) = None ->
  exists r w' id, register_group addr buf ts w = Done r w' /\
    trace w' = IoSendto addr (pad_payload (reg2_packet id)) (Zlength (pad_payload (reg2_packet id))) :: trace w.
Proof.
  intros Hi Hv. destruct (reg1_refusal_run addr ts w Hi) as (w1 & Hrun & _ & Ht & _). rewrite Hv in Hrun.
  destruct (random_bytes_exact (SRTLA_ID_LEN / 2) w1) as (rnd & w2 & Er & _ & _); [done..|].
  destruct (get_random_bytes_run (SRTLA_ID_LEN / 2) w1) as (n & [E|(rnd' & _ & E)]); [done|congruence|].
  rewrite Er in E. injection E as <- ->. unfold register_group. rewrite (bind_done _ _ _ _ _ Hrun). cbv beta iota.
  unfold make_group. erewrite bind_done; [|by erewrite bind_done; [|exact Er]]. cbv zeta.
  match goal with |- context [reg2_packet (g_id ?g)] => set (group := g) end.
  unfold pad_sendto, sendto, mbind, M_bind, next_call, emit, modify, mret, M_ret. rewrite replies_sent.
  destruct (negb _); eexists _, _, (g_id group); (split; [reflexivity|]); cbn; by rewrite Ht.
Qed.
(** A REG1 that is not refused: a group, and REG2 with its id. *)
Lemma reg1_answered w id addr ts :
  inv w -> length id = Z.to_nat SRTLA_ID_LEN -> fst (reg1_verdict addr ts w) = None ->
  (forall g, g ∈ groups w -> take (Z.to_nat (SRTLA_ID_LEN / 2)) (g_id g) <> take (Z.to_nat (SRTLA_ID_LEN / 2)) id) ->
  exists w' id' g, process_single_packet (reg_packet SRTLA_TYPE_REG1 id) SRTLA_TYPE_REG1_LEN addr ts w = Done tt w' /\
    trace w' = IoSendto addr (reg2_packet id') SRTLA_TYPE_REG2_LEN :: trace w /\
    length id' = Z.to_nat SRTLA_ID_LEN /\
    take (Z.to_nat (SRTLA_ID_LEN / 2)) id' = take (Z.to_nat (SRTLA_ID_LEN / 2)) id /\
    inv w' /\ find_group_by_id id' (groups w') = Some g /\ g_id g = id' /\ connections g = [] /\
    owned_elsewhere addr g (groups w') = false /\
    created_at g = ts /\ forall x, x ∈ groups w' -> g_id x = id' -> x = g.
Proof.
  intros Hi Hid Hv Hfresh. set (buf := reg_packet SRTLA_TYPE_REG1 id).
  assert (Hlen : Zlength buf = SRTLA_TYPE_REG1_LEN) by (unfold Zlength, buf, reg_packet; rewrite length_app, Hid; done).
  destruct (register_group_shape addr buf ts w Hi Hv) as (r & w' & sent & E & Hsent).
  pose proof (register_group_run addr buf ts w Hi Hlen) as Hspec. rewrite E in Hspec.
  destruct (reg1_verdict addr ts w) as [verdict gs] eqn:Ev. cbn in Hv. subst verdict.
  destruct Hspec as (rnd & ret & Hrnd & Htr & Hcase).
  set (g0 := new_group (next_ptr w) (drop 2 buf) rnd ts <| last_address := addr |>) in *.
  assert (Hhalf : length (take (Z.to_nat (SRTLA_ID_LEN / 2)) id) = Z.to_nat (SRTLA_ID_LEN / 2)).
  { rewrite length_take, Hid. done. }
  assert (Egid : g_id g0 = take (Z.to_nat (SRTLA_ID_LEN / 2)) id ++ rnd) by done.
  assert (Hgl : length (g_id g0) = Z.to_nat SRTLA_ID_LEN).
  { rewrite Egid, length_app, Hhalf. unfold Zlength in Hrnd. change (SRTLA_ID_LEN / 2) with 128 in *.
    change (Z.to_nat SRTLA_ID_LEN) with 256%nat. lia. }
  assert (Hgt : take (Z.to_nat (SRTLA_ID_LEN / 2)) (g_id g0) = take (Z.to_nat (SRTLA_ID_LEN / 2)) id).
  { rewrite Egid, <- Hhalf at 1. apply take_app_length. }
  assert (Eret : ret = SRTLA_TYPE_REG2_LEN).
  { rewrite Htr in Hsent. assert (Ep : reg2_packet (g_id g0) = pad_payload (reg2_packet sent)) by congruence.
    assert (Er : ret = Zlength (pad_payload (reg2_packet sent))) by congruence.
    rewrite Er, <- Ep, length_reg2_packet. unfold Zlength. by rewrite Hgl. }
  subst ret. rewrite Z.eqb_refl in Hcase. destruct Hcase as (-> & Hgs & _).
  assert (Honly : forall x, x ∈ groups w' -> g_id x = g_id g0 -> x = g0).
  { rewrite Hgs. intros x [Hx|Hx]%elem_of_app Ex; [|by apply list_elem_of_singleton in Hx].
    exfalso. apply (Hfresh x); [by apply (reg1_verdict_subset _ _ _ _ _ _ Ev)|by rewrite Ex]. }
  destruct (reg1_done addr buf ts w w' (g_id g0) SRTLA_TYPE_REG2_LEN Hi Hlen E Htr) as (g & Hi' & Hf & Hg & Hc & Ho).
  { intros x Hx Ex. apply (Hfresh x Hx). by rewrite Ex. }
  assert (g = g0) as -> by (apply Honly; [by apply find_group_by_id_elem in Hf as [? _]|done]).
  exists w', (g_id g0), g0. split_and!; try done.
  unfold process_single_packet. change (is_srtla_reg1 buf SRTLA_TYPE_REG1_LEN) with true. cbv beta iota.
  by rewrite (bind_done _ _ _ _ _ E).
Qed.

(** A half that no group has makes an id that none has. *)
Lemma unknown_half w id :
  inv w -> length id = Z.to_nat SRTLA_ID_LEN ->
  (forall g, g ∈ groups w -> take (Z.to_nat (SRTLA_ID_LEN / 2)) (g_id g) <> take (Z.to_nat (SRTLA_ID_LEN / 2)) id) ->
  find_group_by_id id (groups w) = None.
Proof.
  intros [[_ _ Hgs _ _] _] Hid Hfresh. destruct (find_group_by_id id (groups w)) as [g|] eqn:E; [|done].
  exfalso. apply find_group_by_id_elem in E as [Hg E]. rewrite Forall_forall in Hgs.
  apply Z.eqb_eq in E. rewrite constant_time_compare_spec in E by (done || by apply Hgs).
  apply bool_decide_eq_true in E as <-. by apply (Hfresh g Hg).
Qed.
End Receiver.

(** ** A session goes on *)

Section Keepalives.
Context {os : OS} {hc : HandlerConfig} {so : SenderOS}.
Hypothesis replies_sent : forall n a b, os_sendto n a b = Zlength b.

(** The two bytes of a plain keepalive, and the echo of it. *)
Notation ping := (header_packet SRTLA_TYPE_KEEPALIVE).
Notation echo := (pad_payload (header_packet SRTLA_TYPE_KEEPALIVE)).

(** The receiver hears the connection and echoes. *)
Lemma ping_answered addr ts w g c :
  inv w -> find_by_address addr (groups w) = Some (g, Some c) ->
  exists w' g', process_single_packet ping 2 addr ts w = Done tt w' /\
    inv w' /\ find_by_address addr (groups w') = Some (g', Some (heard ts c)) /\ g_id g' = g_id g /\
    trace w' = IoSendto addr echo PAD_LEN :: trace w.
Proof.
  intros Hi Hfind. destruct (find_by_address_conn _ _ _ _ Hi Hfind) as (Hg & Hc & Ha).
  destruct (heard_run (g_ptr g) (c_ptr c) g c ts w ltac:(done)) as (w1 & g1 & E1 & P1 & S1 & T1 & I1 & _).
  unfold process_single_packet. change (is_srtla_reg1 ping 2) with false. change (is_srtla_reg2 ping 2) with false.
  cbv beta iota. rewrite (bind_done _ _ _ (groups w) w), Hfind by done. cbv zeta.
  rewrite (seq_done _ _ _ _ _ E1). change (is_srtla_keepalive ping 2) with true. cbv beta iota. unfold handle_keepalive.
  set (w2 := w1 <| calls ::= S |>).
  rewrite (bind_done _ _ _ (fst <$> os_clock_gettime (calls w1)) w2) by done.
  change (parse_keepalive_conn_info ping 2) with (@None connection_info_t). cbv beta iota zeta.
  rewrite (bind_done _ _ _ tt w2) by done.
  set (w3 := w2 <| calls ::= S |> <| trace ::= cons (IoSendto addr echo PAD_LEN) |>).
  assert (E3 : pad_sendto ping addr w2 = Done 2 w3).
  { unfold pad_sendto, sendto, mbind, M_bind, next_call, emit, modify, mret, M_ret. cbv beta iota zeta.
    rewrite replies_sent. reflexivity. }
  rewrite (bind_done _ _ _ _ _ E3). change (negb (2 =? 2)) with false. cbn [when].
  assert (P3 : points (g_ptr g) (c_ptr c) g1 (heard ts c) w3) by (eapply points_same; [|exact P1]; done).
  exists w3, g1. split; [done|]. split; [apply P3|]. split_and!; [|done|].
  - apply (points_found (g_ptr g) (c_ptr c)); [exact P3|]. rewrite <- Ha. unfold heard. by destruct (_ && _).
  - unfold w3, w2. cbn. by rewrite T1.
Qed.

(** The sender hears the echo, and keeps it to itself. *)
Lemma echo_heard now p c s :
  SenderModel.lookup_conn p (conns s) = Some c ->
  exists s', hears so now echo p s = SenderModel.Done tt s' /\
    conns s' = SenderModel.on_conn p (fun c => c <| last_rcvd := now |>) (conns s) /\
    SenderModel.trace s' = SenderModel.trace s.
Proof.
  intros Hl. rewrite (hears_run _ _ _ c) by done. cbv zeta.
  assert (Et : get_srt_type (buffer_of echo) (Zlength echo) = SRTLA_TYPE_KEEPALIVE) by reflexivity.
  rewrite Et. change (SRTLA_TYPE_KEEPALIVE =? SRTLA_TYPE_REG_NGP) with false.
  change (SRTLA_TYPE_KEEPALIVE =? SRTLA_TYPE_REG2) with false. cbv beta iota. by eexists.
Qed.

End Keepalives.
