(* ===== verification/Protocol.v ===== *)
(** * The protocol, without the implementation

    An abstract specification of the receiver: a table of sessions with
    their members, and the rules by which it may change.  There are no
    pointers, sockets, logs, scores or counters here.  Every rule carries a
    label: the datagram it consumes and what it passes on to the SRT server,
    or nothing.  What holds of every run
    of the specification is proved here by induction on its rules;
    [Refinement] shows that the receiver's loop is such a run. *)

From stdpp Require Import list.
From S2P Require Import Prelude Config Wire NetUtils Connection Registry Invariant.

(** ** Sessions *)

Record member := mkMember { m_address : sockaddr_storage; m_heard : Z }.
#[export] Instance member_eta : Eta member := fun m => mkMember (m_address m) (m_heard m).

Record session := mkSession {
  s_id : list byte;
  s_born : Z;
  s_last : sockaddr_storage;
  s_data : bool;
  s_members : list member
}.
#[export] Instance session_eta : Eta session := fun s =>
  mkSession (s_id s) (s_born s) (s_last s) (s_data s) (s_members s).

Definition table : Type := list session.

(** The addresses of the members; the addresses the session answers to. *)
Definition member_keys (s : session) : list addr_id := map (fun m => addr_key (m_address m)) (s_members s).
Definition keys (s : session) : list addr_id := addr_key (s_last s) :: member_keys s.

Definition pending (s : session) : Prop := s_members s = [] /\ s_data s = false.

(** ** Datagrams and labels *)

Definition datagram : Type := sockaddr_storage * list byte.

Definition reg1 (b : list byte) : Prop := is_srtla_reg1 b (Zlength b) = true.
Definition reg2 (b : list byte) : Prop := is_srtla_reg2 b (Zlength b) = true.
(** What a member sends that says only that it is alive: a keepalive, or
    something too short for SRT. *)
Definition sign_of_life (b : list byte) : Prop :=
  is_srtla_keepalive b (Zlength b) = true \/ Zlength b < SRT_MIN_LEN.

Inductive label :=
  | Hear (d : datagram) (out : option (list byte))
  | Internal.

Definition input (l : Z * label) : option datagram :=
  match l.2 with Hear d _ => Some d | _ => None end.
Definition output (l : Z * label) : list (list byte) :=
  match l.2 with Hear _ (Some b) => [b] | _ => [] end.
Definition inputs (L : list (Z * label)) : list datagram := omap input L.
Definition outputs (L : list (Z * label)) : list (list byte) := concat (map output L).

(** ** The rules *)

Definition opened (ts : Z) (a : sockaddr_storage) (id : list byte) : session := mkSession id ts a false [].
Definition joined (ts : Z) (a : sockaddr_storage) (s : session) : session :=
  s <| s_members ::= fun ms => ms ++ [mkMember a ts] |> <| s_last := a |>.

Inductive step (ts : Z) : label -> table -> table -> Prop :=
  (** REG1 from an address no session answers to opens a session, whose id
      is the client's half and a half of the receiver's. *)
  | step_create T a b rnd :
      reg1 b -> Zlength T < MAX_GROUPS -> (forall s, s ∈ T -> addr_key a ∉ keys s) ->
      Zlength rnd = SRTLA_ID_LEN / 2 ->
      step ts (Hear (a, b) None) T
        (T ++ [opened ts a (take (Z.to_nat (SRTLA_ID_LEN / 2)) (drop 2 b) ++ rnd)])
  (** REG2 makes its address a member of the first session whose whole id it
      carries, if no other session answers to the address. *)
  | step_join pre s post a b :
      reg2 b -> s_id s = drop 2 b -> (forall s', s' ∈ pre -> s_id s' <> drop 2 b) ->
      (forall s', s' ∈ pre ++ post -> addr_key a ∉ keys s') ->
      addr_key a ∉ member_keys s -> Zlength (s_members s) < MAX_CONNS_PER_GROUP ->
      step ts (Hear (a, b) None) (pre ++ s :: post) (pre ++ joined ts a s :: post)
  (** REG2 of a member: the session talks to that address from now on. *)
  | step_rejoin pre s post a b :
      reg2 b -> s_id s = drop 2 b -> (forall s', s' ∈ pre -> s_id s' <> drop 2 b) ->
      addr_key a ∈ member_keys s ->
      step ts (Hear (a, b) None) (pre ++ s :: post) (pre ++ s <| s_last := a |> :: post)
  (** A registration can be refused, or its reply can get lost. *)
  | step_refuse T a b :
      reg1 b \/ reg2 b -> step ts (Hear (a, b) None) T T
  (** Nothing else from an address that is nobody's member has an effect. *)
  | step_stranger T a b :
      ~ reg1 b -> ~ reg2 b -> (forall s, s ∈ T -> addr_key a ∉ member_keys s) ->
      step ts (Hear (a, b) None) T T
  (** A member is alive. *)
  | step_alive pre s post l m r a b :
      ~ reg1 b -> ~ reg2 b -> sign_of_life b ->
      s_members s = l ++ m :: r -> addr_key (m_address m) = addr_key a ->
      step ts (Hear (a, b) None) (pre ++ s :: post)
        (pre ++ s <| s_members := l ++ m <| m_heard := ts |> :: r |> :: post)
  (** A member's packet, which goes to the server as it is or not at all. *)
  | step_data pre s post l m r a b out :
      ~ reg1 b -> ~ reg2 b -> ~ sign_of_life b ->
      s_members s = l ++ m :: r -> addr_key (m_address m) = addr_key a ->
      (out = None \/ out = Some b) ->
      step ts (Hear (a, b) out) (pre ++ s :: post)
        (pre ++ s <| s_members := l ++ m <| m_heard := ts |> :: r |>
                  <| s_data := true |> <| s_last := a |> :: post)
  (** A full table makes room: the oldest pending session goes. *)
  | step_evict pre s post :
      Zlength (pre ++ s :: post) = MAX_GROUPS -> pending s ->
      (forall s', s' ∈ pre ++ s :: post -> pending s' -> s_born s <= s_born s') ->
      step ts Internal (pre ++ s :: post) (pre ++ post)
  (** A member that was silent for too long leaves. *)
  | step_leave pre s post l m r :
      s_members s = l ++ m :: r -> m_heard m + CONN_TIMEOUT < ts ->
      step ts Internal (pre ++ s :: post) (pre ++ s <| s_members := l ++ r |> :: post)
  (** A session without members ends after its time. *)
  | step_expire pre s post :
      s_members s = [] ->
      s_born s + (if s_data s then GROUP_TIMEOUT else PENDING_GROUP_TIMEOUT) < ts ->
      step ts Internal (pre ++ s :: post) (pre ++ post)
  (** The SRT server rejects a session or cannot be reached: sessions that
      carry data, or share the id of one that does, can end at any time. *)
  | step_lost pre s post s' :
      s' ∈ pre ++ s :: post -> s_id s' = s_id s -> s_data s' = true ->
      step ts Internal (pre ++ s :: post) (pre ++ post).

(** Runs, with the labels in the order of their steps. *)
Inductive run_from (T0 : table) : list (Z * label) -> table -> Prop :=
  | run_nil : run_from T0 [] T0
  | run_snoc L T ts l T' : run_from T0 L T -> step ts l T T' -> run_from T0 (L ++ [(ts, l)]) T'.

Lemma run_one ts l T T' : step ts l T T' -> run_from T [(ts, l)] T'.
Proof. apply (run_snoc T []), run_nil. Qed.

Lemma run_app T0 L1 T1 L2 T2 : run_from T0 L1 T1 -> run_from T1 L2 T2 -> run_from T0 (L1 ++ L2) T2.
Proof.
  intros H1. induction 1 as [|L T ts l T' _ IH Hs]; [by rewrite app_nil_r|].
  rewrite app_assoc. by eapply run_snoc.
Qed.

Lemma inputs_app L1 L2 : inputs (L1 ++ L2) = inputs L1 ++ inputs L2.
Proof. apply omap_app. Qed.
Lemma outputs_app L1 L2 : outputs (L1 ++ L2) = outputs L1 ++ outputs L2.
Proof. unfold outputs. by rewrite map_app, concat_app. Qed.

(** ** Authenticity *)

(** The session was opened by a REG1 with the first half of its id, and each
    of its members presented the whole id from its own address. *)
Definition vouched (D : list datagram) (s : session) : Prop :=
  Zlength (s_id s) = SRTLA_ID_LEN /\
  (exists a b, (a, b) ∈ D /\ reg1 b /\
     take (Z.to_nat (SRTLA_ID_LEN / 2)) (s_id s) = take (Z.to_nat (SRTLA_ID_LEN / 2)) (drop 2 b)) /\
  (forall m, m ∈ s_members s -> exists b, (m_address m, b) ∈ D /\ reg2 b /\ drop 2 b = s_id s).

(** The sender of a packet had joined a session, that had been opened. *)
Definition entitled (D : list datagram) (a : sockaddr_storage) : Prop :=
  exists s m, vouched D s /\ m ∈ s_members s /\ addr_key (m_address m) = addr_key a.

Lemma vouched_mono D D' s : D ⊆ D' -> vouched D s -> vouched D' s.
Proof.
  intros Hs (Hl & (a & b & Hin & Hr & Ht) & Hm). split; [done|]. split; [exists a, b; auto|].
  intros m Hm'. destruct (Hm m Hm') as (b' & ? & ? & ?). exists b'. auto.
Qed.

(** Sessions with the id and some of the members of a vouched one. *)
Lemma vouched_less D s s' :
  s_id s' = s_id s ->
  (forall m, m ∈ s_members s' -> exists m0, m0 ∈ s_members s /\ m_address m0 = m_address m) ->
  vouched D s -> vouched D s'.
Proof.
  intros Hid Hm (Hl & H1 & H2). unfold vouched. rewrite Hid. split_and!; [done|done|].
  intros m Hin. destruct (Hm m Hin) as (m0 & Hin0 & <-). by apply H2.
Qed.

Lemma reg1_len b : reg1 b -> Zlength b = SRTLA_TYPE_REG1_LEN.
Proof. unfold reg1, is_srtla_reg1. destruct (Z.eqb_spec (Zlength b) SRTLA_TYPE_REG1_LEN); done. Qed.
Lemma reg2_len b : reg2 b -> Zlength b = SRTLA_TYPE_REG2_LEN.
Proof. unfold reg2, is_srtla_reg2. destruct (Z.eqb_spec (Zlength b) SRTLA_TYPE_REG2_LEN); done. Qed.

Lemma opened_vouched ts a b rnd D :
  reg1 b -> Zlength rnd = SRTLA_ID_LEN / 2 ->
  vouched (D ++ [(a, b)]) (opened ts a (take (Z.to_nat (SRTLA_ID_LEN / 2)) (drop 2 b) ++ rnd)).
Proof.
  intros Hb Hr. pose proof (reg1_len b Hb) as Hl.
  assert (Ht : length (take (Z.to_nat (SRTLA_ID_LEN / 2)) (drop 2 b)) = Z.to_nat (SRTLA_ID_LEN / 2)).
  { rewrite length_take, length_drop. unfold Zlength in Hl. change SRTLA_TYPE_REG1_LEN with 258 in Hl.
    change (Z.to_nat (SRTLA_ID_LEN / 2)) with 128%nat. lia. }
  split; [|split].
  - unfold Zlength in *. cbn. rewrite length_app, Ht. change (SRTLA_ID_LEN / 2) with 128 in *.
    change SRTLA_ID_LEN with 256. lia.
  - exists a, b. split; [set_solver|]. split; [done|]. cbn [s_id opened]. rewrite <- Ht at 1. apply take_app_length.
  - intros m Hm. by apply elem_of_nil in Hm.
Qed.

Lemma joined_vouched ts a b s D :
  reg2 b -> s_id s = drop 2 b -> vouched D s -> vouched (D ++ [(a, b)]) (joined ts a s).
Proof.
  intros Hb Hid Hs. apply (vouched_mono _ (D ++ [(a, b)])) in Hs as (Hl & H1 & H2); [|set_solver].
  split_and!; [done|done|]. cbn. intros m [Hm|Hm]%elem_of_app; [by apply H2|].
  apply list_elem_of_singleton in Hm as ->. cbn. exists b. split_and!; [set_solver|done|done].
Qed.

(** Every rule keeps every session vouched for. *)
Lemma step_vouched D ts l T T' :
  step ts l T T' -> (forall s, s ∈ T -> vouched D s) ->
  forall s, s ∈ T' -> vouched (D ++ inputs [(ts, l)]) s.
Proof.
  intros Hstep HD.
  assert (Hk : forall s, s ∈ T -> vouched (D ++ inputs [(ts, l)]) s)
    by (intros s Hs; eapply vouched_mono; [|by apply HD]; set_solver).
  destruct Hstep as [T a b rnd Hb Hfull Hfree Hr|pre s0 post a b Hb Hid _ _ _ _|pre s0 post a b|T a b|T a b
    |pre s0 post l m r a b _ _ _ Hm _|pre s0 post l m r a b out _ _ _ Hm _ _|pre s0 post|pre s0 post l m r Hm
    |pre s0 post|pre s0 post s']; try exact Hk; cbn [inputs omap list_omap input snd].
  - intros s [Hs|Hs]%elem_of_app; [by apply Hk|]. apply list_elem_of_singleton in Hs as ->.
    by apply opened_vouched.
  - intros s [Hs|[->|Hs]%elem_of_cons]%elem_of_app; [apply Hk; set_solver| |apply Hk; set_solver].
    apply joined_vouched; [done|done|]. apply HD. set_solver.
  - intros s [Hs|[->|Hs]%elem_of_cons]%elem_of_app; [apply Hk; set_solver| |apply Hk; set_solver].
    apply (vouched_less _ s0); [done|by intros m Hm; exists m|apply Hk; set_solver].
  - intros s [Hs|[->|Hs]%elem_of_cons]%elem_of_app; [apply Hk; set_solver| |apply Hk; set_solver].
    apply (vouched_less _ s0); [done| |apply Hk; set_solver]. cbn. rewrite Hm.
    intros m' [Hin|[->|Hin]%elem_of_cons]%elem_of_app; [exists m'|exists m|exists m']; set_solver.
  - intros s [Hs|[->|Hs]%elem_of_cons]%elem_of_app; [apply Hk; set_solver| |apply Hk; set_solver].
    apply (vouched_less _ s0); [done| |apply Hk; set_solver]. cbn. rewrite Hm.
    intros m' [Hin|[->|Hin]%elem_of_cons]%elem_of_app; [exists m'|exists m|exists m']; set_solver.
  - intros s Hs. apply Hk. set_solver.
  - intros s [Hs|[->|Hs]%elem_of_cons]%elem_of_app; [apply Hk; set_solver| |apply Hk; set_solver].
    apply (vouched_less _ s0); [done| |apply Hk; set_solver]. cbn. rewrite Hm.
    intros m' Hin. exists m'. set_solver.
  - intros s Hs. apply Hk. set_solver.
  - intros s Hs. apply Hk. set_solver.
Qed.

Lemma run_vouched L T : run_from [] L T -> forall s, s ∈ T -> vouched (inputs L) s.
Proof.
  induction 1 as [|L T ts l T' _ IH Hs]; [intros s Hs; by apply elem_of_nil in Hs|].
  rewrite inputs_app. by eapply step_vouched.
Qed.

Lemma run_split T0 L1 L2 T : run_from T0 (L1 ++ L2) T -> exists T1, run_from T0 L1 T1 /\ run_from T1 L2 T.
Proof.
  revert T. induction L2 as [|x L2 IH] using rev_ind; intros T.
  - rewrite app_nil_r. intros H. exists T. split; [done|constructor].
  - rewrite app_assoc. inversion 1 as [E|L T1 ts l T2 HL Hs E1].
    + by destruct (L1 ++ L2).
    + apply app_inj_tail in E1 as [-> <-]. destruct (IH _ HL) as (T3 & H3 & H4).
      exists T3. split; [done|]. by eapply run_snoc.
Qed.

Lemma run_one_inv ts l T T' : run_from T [(ts, l)] T' -> step ts l T T'.
Proof.
  intros H. remember [(ts, l)] as L eqn:EL. destruct H as [|L T1 ts' l' T2 HL Hs]; [done|].
  apply (app_inj_tail L []) in EL as [-> [= -> ->]]. remember [] as L' eqn:EL'.
  destruct HL as [|L T3]; [done|]. by destruct L.
Qed.

(** What is passed on was sent by a member of a session, unchanged. *)
Lemma run_passes L T L1 ts a b out L2 :
  run_from [] L T -> L = L1 ++ (ts, Hear (a, b) (Some out)) :: L2 ->
  out = b /\ ~ reg1 b /\ ~ reg2 b /\ ~ sign_of_life b /\ entitled (inputs L1) a.
Proof.
  intros Hrun ->. apply run_split in Hrun as (T1 & H1 & H2).
  apply (run_split T1 [_]) in H2 as (T2 & H2 & _).
  apply run_one_inv in H2 as Hs.
  inversion Hs as [| | | | | |pre s post l m r a' b' out' N1 N2 N3 Hm Ha Ho| | | |]; subst.
  split; [by destruct Ho as [|[= ->]]|]. split_and!; try done.
  exists s, m. split; [apply (run_vouched _ _ H1); set_solver|]. split; [rewrite Hm; set_solver|done].
Qed.

(** Every byte string sent to the server is accounted for. *)
Lemma run_outputs L T data :
  run_from [] L T -> data ∈ outputs L ->
  exists D1 D2 a, inputs L = D1 ++ (a, data) :: D2 /\
    ~ reg1 data /\ ~ reg2 data /\ ~ sign_of_life data /\ entitled D1 a.
Proof.
  intros Hrun Hin. unfold outputs in Hin. apply list_elem_of_In, in_concat in Hin as (o & Ho & Hd).
  apply in_map_iff in Ho as ([ts l] & <- & Hl). apply list_elem_of_In in Hl, Hd.
  destruct l as [[a b] [out|]|]; cbn in Hd; try by apply elem_of_nil in Hd.
  apply list_elem_of_singleton in Hd as <-. apply list_elem_of_split in Hl as (L1 & L2 & E).
  destruct (run_passes L T L1 ts a b data L2 Hrun E) as (-> & ?).
  exists (inputs L1), (inputs L2), a. split; [|done]. rewrite E, inputs_app. done.
Qed.

(** ** Order *)

Lemma step_order ts l T T' :
  step ts l T T' -> output (ts, l) `sublist_of` map snd (inputs [(ts, l)]).
Proof. destruct 1 as [| | | | | |pre s post l m r a b out _ _ _ _ _ [-> | ->]| | | |]; apply sublist_nil_l || done. Qed.

(** The outputs are inputs, each at most once, in their order. *)
Lemma run_order T0 L T : run_from T0 L T -> outputs L `sublist_of` map snd (inputs L).
Proof.
  induction 1 as [|L T ts l T' _ IH Hs]; [done|]. rewrite outputs_app, inputs_app, map_app.
  apply sublist_app; [done|]. cbn [outputs map concat]. rewrite app_nil_r. by eapply step_order.
Qed.
