(* ===== verification/Simulation.v ===== *)
(** * What the code lets the protocol see

    The abstraction of the receiver's state to the table of [Protocol], and
    the class [Within R] of code whose every run relates its states by [R].
    Most code is [Within unseen]: it changes nothing the protocol sees. *)

From stdpp Require Import list gmap.
From S2P Require Import Prelude Config Wire NetUtils NakDedup AuthRateLimiter Connection World.
From S2P Require Import Registry Quality SrtHandler SrtlaHandler Exporter MainLoop Hoare Invariant.
From S2P Require Import RegistryProofs Accounts Protocol.

(** ** The abstraction *)

Definition member_of (c : Connection) : member := mkMember (address c) (last_received c).
Definition session_of (g : ConnectionGroup) : session :=
  mkSession (g_id g) (created_at g) (last_address g) (data_seen g) (map member_of (connections g)).
(** A session with the identity of its group. *)
Definition face (g : ConnectionGroup) : nat * session := (g_ptr g, session_of g).
Definition faces (w : world) : list (nat * session) := map face (groups w).
Definition view (w : world) : table := map session_of (groups w).

(** What was sent on connected sockets, oldest first. *)
Definition payload (e : io) : option (list byte) :=
  match e with IoSend _ data _ => Some data | _ => None end.
Definition sends (w : world) : list (list byte) := reverse (omap payload (trace w)).

Lemma view_faces w : view w = map snd (faces w).
Proof. unfold view, faces. by rewrite map_map. Qed.

(** ** Relations between states *)

Definition unseen (w w' : world) : Prop :=
  faces w' = faces w /\ sends w' = sends w /\ (next_ptr w <= next_ptr w')%nat /\ last_run w' = last_run w.
(** Nothing is sent on a connected socket. *)
Definition silent (w w' : world) : Prop := sends w' = sends w.
(** Everything is as before, or the group [p] is gone. *)
Definition maybe_gone (p : nat) (w w' : world) : Prop :=
  faces w' = faces w \/ faces w' = filter (fun f => f.1 <> p) (faces w).
(** Groups handed out before: none comes back, and data stays seen. *)
Definition ageing (w w' : world) : Prop :=
  (next_ptr w <= next_ptr w')%nat /\
  forall p s', (p < next_ptr w)%nat -> (p, s') ∈ faces w' ->
    exists s, (p, s) ∈ faces w /\ s_id s' = s_id s /\ (s_data s = true -> s_data s' = true).

(** Preorders that hold whenever nothing is seen. *)
Class Passive (R : relation world) : Prop := {
  #[global] passive_preorder :: PreOrder R;
  passive_unseen w w' : unseen w w' -> R w w'
}.

#[export] Instance unseen_passive : Passive unseen.
Proof.
  split; [split|done].
  - by intros w.
  - intros a b c (F1 & S1 & N1 & R1) (F2 & S2 & N2 & R2). split_and!; [congruence|congruence|lia|congruence].
Qed.
#[export] Instance silent_passive : Passive silent.
Proof.
  split; [split|].
  - by intros w.
  - intros a b c. unfold silent. congruence.
  - by intros w w' (_ & ? & _).
Qed.
#[export] Instance maybe_gone_passive p : Passive (maybe_gone p).
Proof.
  assert (Hidem : forall l : list (nat * session),
    filter (fun f => f.1 <> p) (filter (fun f => f.1 <> p) l) = filter (fun f => f.1 <> p) l).
  { intros l. rewrite list_filter_filter. apply list_filter_iff. intros x. tauto. }
  split; [split|].
  - intros w. by left.
  - intros a b c [E1|E1] [E2|E2]; unfold maybe_gone; rewrite E2, E1; auto.
  - intros w w' (E & _). by left.
Qed.
#[export] Instance ageing_passive : Passive ageing.
Proof.
  split; [split|].
  - intros w. split; [done|]. eauto.
  - intros a b c [N1 H1] [N2 H2]. split; [lia|]. intros p s3 Hp H3.
    destruct (H2 p s3 ltac:(lia) H3) as (s2 & Hs2 & I2 & D2).
    destruct (H1 p s2 Hp Hs2) as (s1 & Hs1 & I1 & D1). exists s1. split_and!; [done|congruence|auto].
  - intros w w' (F & _ & N & _). split; [done|]. rewrite F. eauto.
Qed.

(** ** Code that stays within a relation *)

Class Within (R : relation world) {A} (m : M A) : Prop := within : forall w, R w (state_of (m w)).

Lemma within_run {A} R (m : M A) `{!Within R m} w : R w (run m w).
Proof. apply within. Qed.
Lemma within_done {A} R (m : M A) `{HR : !Within R m} w a w' : m w = Done a w' -> R w w'.
Proof. intros E. specialize (HR w). by rewrite E in HR. Qed.

Section Structure.
Context {R : relation world} `{HR : !PreOrder R}.

#[export] Instance within_ret {A} (a : A) : Within R (mret a).
Proof. intros w. cbn. reflexivity. Qed.
#[export] Instance within_skip : Within R skip.
Proof. apply within_ret. Qed.
#[export] Instance within_raise {A} e : Within R (raise (A:=A) e).
Proof. intros w. cbn. reflexivity. Qed.
#[export] Instance within_bind {A B} (m : M A) (k : A -> M B) :
  Within R m -> (forall a, Within R (k a)) -> Within R (m ≫= k).
Proof.
  intros Hm Hk w. unfold mbind, M_bind. specialize (Hm w). destruct (m w) as [a w1|e w1]; [|done].
  etransitivity; [exact Hm|apply Hk].
Qed.
Lemma within_assoc {A B C} (m : M A) (k : A -> M B) (h : B -> M C) :
  Within R (m ≫= fun a => k a ≫= h) -> Within R ((m ≫= k) ≫= h).
Proof. intros H w. specialize (H w). unfold mbind, M_bind in *. by destruct (m w). Qed.
Lemma within_ret_bind {A B} (a : A) (k : A -> M B) : Within R (k a) -> Within R (mret a ≫= k).
Proof. intros H w. apply H. Qed.
#[export] Instance within_when b m : Within R m -> Within R (when b m).
Proof. destruct b; [done|]. intros _. apply within_skip. Qed.
#[export] Instance within_if {A} (b : bool) (m1 m2 : M A) :
  Within R m1 -> Within R m2 -> Within R (if b then m1 else m2).
Proof. by destruct b. Qed.
#[export] Instance within_option {A B} (o : option A) (m1 : A -> M B) (m2 : M B) :
  (forall a, Within R (m1 a)) -> Within R m2 -> Within R (match o with Some a => m1 a | None => m2 end).
Proof. by destruct o. Qed.
#[export] Instance within_pair {A B C} (o : A * B) (m : A -> B -> M C) :
  (forall a b, Within R (m a b)) -> Within R (let '(a, b) := o in m a b).
Proof. by destruct o. Qed.
#[export] Instance within_mfor {A} (l : list A) body : (forall x, Within R (body x)) -> Within R (mfor l body).
Proof. intros Hb. induction l; cbn [mfor]; apply _. Qed.
#[export] Instance within_mconcat {A B} (f : A -> M (list B)) l :
  (forall x, Within R (f x)) -> Within R (mconcat f l).
Proof. intros Hf. induction l; cbn [mconcat]; apply _. Qed.
#[export] Instance within_get : Within R get.
Proof. intros w. cbn. reflexivity. Qed.
#[export] Instance within_gets {A} (f : world -> A) : Within R (gets f).
Proof. intros w. cbn. reflexivity. Qed.
#[export] Instance within_deref_group p : Within R (deref_group p).
Proof. intros w. unfold deref_group. destruct (lookup_group p (groups w)); cbn; reflexivity. Qed.
#[export] Instance within_deref_conn gp cp : Within R (deref_conn gp cp).
Proof. unfold deref_conn. apply _. Qed.

(** Code that is not seen is within every passive relation. *)
Lemma within_unseen {A} (m : M A) : Passive R -> Within unseen m -> Within R m.
Proof. intros HP Hm w. apply passive_unseen, Hm. Qed.
End Structure.

#[export] Hint Extern 50 (Within ?R _) =>
  (lazymatch R with unseen => fail | _ => apply within_unseen end) : typeclass_instances.

(** *** Elementary actions *)

Lemma unseen_outside w w' :
  groups w' = groups w -> next_ptr w' = next_ptr w -> trace w' = trace w -> last_run w' = last_run w -> unseen w w'.
Proof. intros G N T R. unfold unseen, faces, sends. rewrite G, N, T, R. split_and!; done. Qed.

#[export] Instance within_next_call : Within unseen next_call.
Proof. intros w. by apply unseen_outside. Qed.
#[export] Instance within_inc_by c n : Within unseen (inc_by c n).
Proof. intros w. by apply unseen_outside. Qed.
#[export] Instance within_inc c : Within unseen (inc c).
Proof. apply within_inc_by. Qed.
#[export] Instance within_fresh_ptr : Within unseen fresh_ptr.
Proof. intros w. split_and!; [done|done|cbn; lia|done]. Qed.

(** Actions other than a [send]. *)
Class Unsent (e : io) : Prop := unsent : payload e = None.
#[export] Hint Extern 0 (Unsent _) => reflexivity : typeclass_instances.
#[export] Instance within_emit e : Unsent e -> Within unseen (emit e).
Proof. intros He w. unfold unseen, sends. cbn. by rewrite He. Qed.

(** Updates of a group, of a connection, that the protocol does not see. *)
Class SameFace (f : ConnectionGroup -> ConnectionGroup) : Prop := same_face g : face (f g) = face g.
Class SameMember (f : Connection -> Connection) : Prop := same_member c : member_of (f c) = member_of c.
#[export] Hint Extern 0 (SameFace _) => (intros ?; reflexivity) : typeclass_instances.
#[export] Hint Extern 0 (SameMember _) => (intros ?; reflexivity) : typeclass_instances.

#[export] Instance same_face_on_conn cp f :
  SameMember f -> SameFace (fun g => g <| connections ::= on_conn cp f |>).
Proof.
  intros Hf g. unfold face, session_of. cbn. rewrite on_conn_field; [done|]. intros c _. apply Hf.
Qed.
#[export] Instance within_modify_group p f : SameFace f -> Within unseen (modify_group p f).
Proof.
  intros Hf w. split_and!; [|done..]. change (map face (on_group p f (groups w)) = map face (groups w)).
  unfold on_group. rewrite map_map. apply map_ext.
  intros g. case_decide; [apply Hf|done].
Qed.
#[export] Instance within_modify_conn gp cp f : SameMember f -> Within unseen (modify_conn gp cp f).
Proof. intros Hf. unfold modify_conn. apply _. Qed.

Lemma zip_members (f : Connection -> QualityMetrics -> Connection) (cs : list Connection) ms :
  (forall c m, member_of (f c m) = member_of c) -> length cs = length ms ->
  map member_of (zip_with f cs ms) = map member_of cs.
Proof.
  intros Hf. revert ms. induction cs as [|c cs IH]; intros [|m ms] Hl; cbn in *; try done.
  rewrite Hf, IH; [done|lia].
Qed.

#[export] Instance same_face_evaluate t ms : SameFace (evaluate_group_at t ms).
Proof.
  intros g. unfold face, session_of. cbn. do 2 f_equal. apply zip_members; [|by rewrite !length_map].
  intros c m. unfold evaluate_conn. by case_match.
Qed.
#[export] Instance same_face_adjust t : SameFace (adjust_weights_at t).
Proof.
  intros g. unfold adjust_weights_at. case_match; [done|]. unfold face, session_of. cbn.
  do 2 f_equal. by rewrite map_map.
Qed.

(** ** Code that is not seen *)

Section Unseen.
Context {os : OS} {hc : HandlerConfig} {ec : ExporterConfig}.

#[export] Instance within_sendto d b : Within unseen (sendto d b).
Proof. unfold sendto. apply _. Qed.
#[export] Instance within_sendmmsg d b : Within unseen (sendmmsg d b).
Proof. unfold sendmmsg. apply _. Qed.
#[export] Instance within_respond fd b : Within unseen (respond fd b).
Proof. unfold respond. apply _. Qed.
#[export] Instance within_recv fd : Within unseen (recv fd).
Proof. unfold recv. apply _. Qed.
#[export] Instance within_socket : Within unseen socket.
Proof. unfold socket. apply _. Qed.
#[export] Instance within_setsockopt fd : Within unseen (setsockopt fd).
Proof. unfold setsockopt. apply _. Qed.
#[export] Instance within_fcntl_getfl fd : Within unseen (fcntl_getfl fd).
Proof. unfold fcntl_getfl. apply _. Qed.
#[export] Instance within_fcntl_setfl fd : Within unseen (fcntl_setfl fd).
Proof. unfold fcntl_setfl. apply _. Qed.
#[export] Instance within_connect_srt fd : Within unseen (connect_srt fd).
Proof. unfold connect_srt, connect. apply _. Qed.
#[export] Instance within_close fd : Within unseen (close fd).
Proof. unfold close. do 2 (apply within_bind; [apply _|intros ?]). intros w. by apply unseen_outside. Qed.
#[export] Instance within_epoll_add fd p : Within unseen (epoll_add fd p).
Proof.
  unfold epoll_add. do 2 (apply within_bind; [apply _|intros ?]). apply within_bind; [|apply _].
  apply within_when. intros w. by apply unseen_outside.
Qed.
#[export] Instance within_epoll_remove fd : Within unseen (epoll_remove fd).
Proof. unfold epoll_remove. do 2 (apply within_bind; [apply _|intros ?]). intros w. by apply unseen_outside. Qed.
#[export] Instance within_get_local_port fd : Within unseen (get_local_port fd).
Proof. unfold get_local_port. apply _. Qed.
#[export] Instance within_get_seconds : Within unseen get_seconds.
Proof. unfold get_seconds. apply _. Qed.
#[export] Instance within_get_ms : Within unseen get_ms.
Proof. unfold get_ms. apply _. Qed.
#[export] Instance within_open_file : Within unseen open_file.
Proof. unfold open_file. apply _. Qed.
#[export] Instance within_pad_sendto b d : Within unseen (pad_sendto b d).
Proof. unfold pad_sendto. apply _. Qed.
#[export] Instance within_read_random fuel : forall b n, Within unseen (read_random fuel b n).
Proof. induction fuel; intros b n; cbn [read_random]; apply _. Qed.
#[export] Instance within_get_random_bytes n : Within unseen (get_random_bytes n).
Proof. unfold get_random_bytes. apply _. Qed.
#[export] Instance within_write_info g : Within unseen (write_socket_info_file g).
Proof. unfold write_socket_info_file. apply _. Qed.
#[export] Instance within_destroy_group g : Within unseen (destroy_group g).
Proof. unfold destroy_group, remove_socket_info_file. apply _. Qed.

#[export] Instance within_evaluate_group p t : Within unseen (evaluate_group p t).
Proof. unfold evaluate_group. apply _. Qed.
#[export] Instance within_adjust_weights p t : Within unseen (adjust_weights p t).
Proof. unfold adjust_weights. apply _. Qed.
#[export] Instance within_quality_pass ts : Within unseen (quality_pass ts).
Proof. unfold quality_pass. apply _. Qed.

#[export] Instance within_log_forward_drop : Within unseen log_forward_drop.
Proof.
  unfold log_forward_drop. apply within_bind; [intros w; by apply unseen_outside|]. intros _.
  apply within_bind; [apply _|]. intros [now|]; [|apply _].
  apply within_bind; [apply _|]. intros last. apply within_if; [apply _|].
  apply within_bind; [intros w; by apply unseen_outside|]. apply _.
Qed.
#[export] Instance within_relay_to_clients g b n : Within unseen (relay_to_clients g b n).
Proof. unfold relay_to_clients. apply _. Qed.
#[export] Instance within_relay_to_last g b n : Within unseen (relay_to_last g b n).
Proof. unfold relay_to_last. apply _. Qed.
#[export] Instance within_record_auth_failure a t : Within unseen (record_auth_failure a t).
Proof. unfold record_auth_failure. apply within_bind; [apply _|]. intros _ w. by apply unseen_outside. Qed.

#[export] Instance within_reply t a : Within unseen (reply t a).
Proof. unfold reply. apply _. Qed.
#[export] Instance within_send_keepalive c : Within unseen (send_keepalive c).
Proof. unfold send_keepalive. apply _. Qed.
#[export] Instance within_reject_connection t c a : Within unseen (reject_connection t c a).
Proof. unfold reject_connection. apply _. Qed.
#[export] Instance within_register_packet gp cp sn : Within unseen (register_packet gp cp sn).
Proof. unfold register_packet. apply _. Qed.
#[export] Instance within_handle_keepalive gp cp a b n : Within unseen (handle_keepalive gp cp a b n).
Proof. unfold handle_keepalive. apply _. Qed.
#[export] Instance within_is_duplicate_nak gp b n : Within unseen (is_duplicate_nak gp b n).
Proof. unfold is_duplicate_nak. apply _. Qed.
#[export] Instance within_account_nak gp cp b n t : Within unseen (account_nak gp cp b n t).
Proof. unfold account_nak. apply _. Qed.
#[export] Instance within_cleanup_conn t cb c : (forall c, Within unseen (cb c)) -> Within unseen (cleanup_conn t cb c).
Proof. intros Hcb. unfold cleanup_conn, cleanup_recovery. apply _. Qed.
#[export] Instance within_cleanup_conns t cb cs :
  (forall c, Within unseen (cb c)) -> Within unseen (cleanup_conns t cb cs).
Proof. intros Hcb. induction cs; cbn [cleanup_conns]; apply _. Qed.
#[export] Instance within_cleanup_groups t cb gs :
  (forall c, Within unseen (cb c)) -> Within unseen (cleanup_groups t cb gs).
Proof. intros Hcb. unfold cleanup_groups, cleanup_group. induction gs; apply _. Qed.
#[export] Instance within_render now : Within unseen (render now).
Proof. unfold render, render_conns, render_group, group_port. apply _. Qed.
End Unseen.

(** ** Code that sends nothing to the server *)

Lemma within_modify_silent f : (forall w, trace (f w) = trace w) -> Within silent (modify f).
Proof. intros Hf w. unfold silent, sends. cbn. by rewrite Hf. Qed.
#[export] Instance silent_modify_group p f : Within silent (modify_group p f).
Proof. by apply within_modify_silent. Qed.
#[export] Instance silent_set_groups gs : Within silent (set_groups gs).
Proof. by apply within_modify_silent. Qed.
#[export] Instance silent_add_group g : Within silent (add_group g).
Proof. by apply within_modify_silent. Qed.

(** ** Updates under which groups age *)

Class Ages (f : ConnectionGroup -> ConnectionGroup) : Prop :=
  ages g : g_ptr (f g) = g_ptr g /\ g_id (f g) = g_id g /\ (data_seen g = true -> data_seen (f g) = true).
#[export] Hint Extern 0 (Ages _) => (intros ?; split_and!; intros; solve [reflexivity|assumption]) : typeclass_instances.

Lemma elem_of_faces p s w : (p, s) ∈ faces w <-> exists g, g ∈ groups w /\ p = g_ptr g /\ s = session_of g.
Proof.
  unfold faces. rewrite list_elem_of_fmap. split.
  - intros (g & [= -> ->] & Hg). by exists g.
  - intros (g & Hg & -> & ->). by exists g.
Qed.

Lemma ageing_groups w w' :
  (next_ptr w <= next_ptr w')%nat ->
  (forall g', g' ∈ groups w' -> (g_ptr g' < next_ptr w)%nat -> exists g, g ∈ groups w /\ g_ptr g' = g_ptr g /\
     g_id g' = g_id g /\ (data_seen g = true -> data_seen g' = true)) ->
  ageing w w'.
Proof.
  intros Hn Hg. split; [done|]. intros p s' Hp (g' & Hg' & -> & ->)%elem_of_faces.
  destruct (Hg g' Hg' Hp) as (g & Hin & E & Hid & Hd). exists (session_of g).
  split; [apply elem_of_faces; by exists g|done].
Qed.

#[export] Instance ageing_modify_group p f : Ages f -> Within ageing (modify_group p f).
Proof.
  intros Hf w. apply ageing_groups; [done|]. cbn. intros g' (g & Hg & ->)%elem_of_on_group _.
  exists g. split; [done|]. destruct (Hf g) as (? & ? & ?). case_decide; by split_and!.
Qed.
#[export] Instance ageing_modify_conn gp cp f : Within ageing (modify_conn gp cp f).
Proof. unfold modify_conn. apply _. Qed.

(** ** Removal *)

Lemma faces_without p w : map face (without p (groups w)) = filter (fun f => f.1 <> p) (faces w).
Proof.
  unfold faces, without. induction (groups w) as [|g gs IH]; [done|].
  cbn [map]. rewrite !filter_cons. cbn [face fst]. case_decide; [cbn [map]; by f_equal|done].
Qed.

Section Removing.
Context {os : OS} {hc : HandlerConfig} {ec : ExporterConfig}.

#[export] Instance silent_remove_group p : Within silent (remove_group p).
Proof. unfold remove_group. apply _. Qed.

Lemma remove_group_split p w : exists m, Within unseen m /\
  remove_group p w = m (w <| groups := without p (groups w) |>).
Proof.
  unfold remove_group, mbind, M_bind, gets, set_groups, modify.
  exists (match lookup_group p (groups w) with Some g => destroy_group g | None => skip end).
  split; [|done]. apply _.
Qed.
#[export] Instance gone_remove_group p : Within (maybe_gone p) (remove_group p).
Proof.
  intros w. destruct (remove_group_split p w) as (m & Hm & ->).
  etransitivity; [|apply passive_unseen, Hm]. right. rewrite <- faces_without. done.
Qed.
#[export] Instance ageing_remove_group p : Within ageing (remove_group p).
Proof.
  intros w. destruct (remove_group_split p w) as (m & Hm & ->).
  etransitivity; [|apply passive_unseen, Hm]. apply ageing_groups; [done|]. cbn.
  intros g [_ Hg]%list_elem_of_filter _. by exists g.
Qed.
#[export] Instance within_srt_remove_group R p c :
  Passive R -> Within R (remove_group p) -> Within R (srt_remove_group p c).
Proof. intros HR Hp. unfold srt_remove_group. apply _. Qed.
#[export] Instance within_abandon R p sock :
  Passive R -> Within R (remove_group p) -> Within R (abandon_socket p sock).
Proof. intros HR Hp. unfold abandon_socket. apply _. Qed.
#[export] Instance within_ensure R p :
  Passive R -> Within R (remove_group p) -> Within R (ensure_group_socket p).
Proof. intros HR Hp. unfold ensure_group_socket. apply _. Qed.
#[export] Instance within_handle_srt_packet R p b n :
  Passive R -> Within R (remove_group p) -> Within R (handle_srt_packet p b n).
Proof. intros HR Hp. unfold handle_srt_packet. apply _. Qed.
#[export] Instance within_handle_srt_data R p :
  Passive R -> Within R (remove_group p) -> Within R (handle_srt_data p).
Proof. intros HR Hp. unfold handle_srt_data. apply _. Qed.

(** What [send] changes is the trace. *)
#[export] Instance gone_send p fd b : Within (maybe_gone p) (send fd b).
Proof. intros w. by left. Qed.
#[export] Instance ageing_send fd b : Within ageing (send fd b).
Proof. intros w. split; [done|]. intros p s Hp Hs. by exists s. Qed.
#[export] Instance within_forward R p b :
  Passive R -> Within R (remove_group p) -> (forall fd, Within R (send fd b)) ->
  Within R (forward_to_srt_server p b).
Proof. intros HR Hp Hs. unfold forward_to_srt_server. apply _. Qed.
#[export] Instance within_send_response fuel client : forall rest, Within unseen (send_response fuel client rest).
Proof. induction fuel; intros rest; cbn [send_response]; apply _. Qed.
#[export] Instance within_exporter scrapes : Within unseen (exporter_handle_event scrapes).
Proof. unfold exporter_handle_event, serve. apply _. Qed.

#[export] Instance silent_evict : Within silent evict_oldest_pending_group.
Proof. unfold evict_oldest_pending_group. apply _. Qed.
#[export] Instance ageing_evict : Within ageing evict_oldest_pending_group.
Proof. unfold evict_oldest_pending_group. apply _. Qed.
#[export] Instance silent_register_group a b t : Within silent (register_group a b t).
Proof. unfold register_group, reg1_refusal, make_group. apply _. Qed.
#[export] Instance silent_register_connection a b t : Within silent (register_connection a b t).
Proof. unfold register_connection. apply _. Qed.
#[export] Instance ageing_register_connection a b t : Within ageing (register_connection a b t).
Proof. unfold register_connection. apply _. Qed.
#[export] Instance ageing_handle_data gp cp b n a t : Within ageing (handle_data gp cp b n a t).
Proof. unfold handle_data. apply _. Qed.
#[export] Instance silent_cleanup_inactive t cb :
  (forall c, Within unseen (cb c)) -> Within silent (cleanup_inactive t cb).
Proof.
  intros Hcb. unfold cleanup_inactive. apply within_bind; [apply _|]. intros run_at. apply within_if; [apply _|].
  apply within_bind; [by apply within_modify_silent|]. apply _.
Qed.
End Removing.

(** A new group gets an identity that was not handed out before. *)
#[export] Instance ageing_register_group {os : OS} a b t : Within ageing (register_group a b t).
Proof.
  unfold register_group. apply within_bind; [unfold reg1_refusal; apply _|]. intros [reason|]; [apply _|].
  intros w. unfold make_group, mbind, M_bind.
  pose proof (within_get_random_bytes (SRTLA_ID_LEN / 2) w) as H1.
  destruct (get_random_bytes _ w) as [rnd w1|e w1]; [|exact (passive_unseen (R := ageing) _ _ H1)].
  transitivity w1; [exact (passive_unseen (R := ageing) _ _ H1)|]. clear H1. unfold fresh_ptr. cbn [mret M_ret].
  set (w2 := w1 <| next_ptr ::= S |>). assert (H2 : unseen w1 w2) by apply within_fresh_ptr.
  cbv zeta. set (g := new_group _ _ _ _ <| last_address := a |>).
  pose proof (within_pad_sendto (reg2_packet (g_id g)) a w2) as H3.
  destruct (pad_sendto _ _ w2) as [ret w3|e w3]; cbn [state_of] in H3;
    [|apply (passive_unseen (R := ageing)); by transitivity w2].
  assert (H4 : unseen w1 w3) by (by transitivity w2).
  destruct (negb _); [apply (passive_unseen (R := ageing)); transitivity w3; [done|apply within_inc]|].
  cbn. apply ageing_groups; [apply H4|]. cbn. intros g' [Hg'|Hg']%elem_of_app Hp.
  - destruct (passive_unseen (R := ageing) _ _ H4) as [_ Hage].
    destruct (Hage (g_ptr g') (session_of g') Hp) as (s & Hs & Hid & Hd); [apply elem_of_faces; by exists g'|].
    apply elem_of_faces in Hs as (g0 & Hg0 & E & ->). by exists g0.
  - apply list_elem_of_singleton in Hg' as ->. cbn in Hp. lia.
Qed.
