(* ===== verification/Types.v ===== *)
(** * The machine types of the receiver's state

    The state is modelled with unbounded integers and the wrap-around of the
    unsigned types written out where the code computes.  Here every field is
    shown to stay within the type it is declared with in src/receiver_config.h,
    src/connection/*.h, src/utils/*.h and src/metrics/prometheus.h, and every
    date to leave room for the time-outs that are added to it: no signed
    addition or subtraction on dates overflows, and no value is stored in a
    field too narrow for it. *)

From stdpp Require Import list gmap.
From S2P Require Import Prelude Config Wire NetUtils NakDedup AuthRateLimiter Connection World.
From S2P Require Import Registry Double Quality SrtHandler SrtlaHandler Exporter MainLoop.
From S2P Require Import Scenario LoopProofs Accounts Simulation.

#[local] Arguments htobe32 : simpl never.
#[local] Arguments next_recv_index : simpl never.

(** ** Types *)

Definition unsigned (width x : Z) : Prop := 0 <= x < 2 ^ width.
Definition signed (width x : Z) : Prop := - 2 ^ (width - 1) <= x < 2 ^ (width - 1).
(** A [time_t] that the clock can give. *)
Class date (x : Z) : Prop := date_range : 0 <= x < 2 ^ 62.

Record stats_typed (s : ConnectionStats) : Prop := {
  st_bytes : unsigned 64 (bytes_received s);
  st_packets : unsigned 64 (packets_received s);
  st_lost : unsigned 32 (packets_lost s);
  st_eval : unsigned 64 (last_eval_time s);
  st_last_bytes : unsigned 64 (last_bytes_received s);
  st_last_packets : unsigned 64 (last_packets_received s);
  st_last_lost : unsigned 32 (last_packets_lost s);
  st_points : unsigned 32 (error_points s);
  st_weight : unsigned 8 (weight_percent s);
  st_nack : unsigned 16 (nack_count s);
  st_rtt : unsigned 32 (rtt_ms s);
  st_history : Forall (unsigned 32) (rtt_history s);
  st_history_idx : unsigned 8 (rtt_history_idx s);
  st_keepalive : date (last_keepalive s);
  st_window : signed 32 (window s);
  st_in_flight : signed 32 (in_flight s);
  st_sender_naks : unsigned 32 (sender_nak_count s);
  st_last_sender_naks : unsigned 32 (last_sender_nak_count s);
  st_bitrate : unsigned 32 (sender_bitrate_bps s);
  st_legacy_points : unsigned 32 (legacy_error_points s);
  st_legacy_weight : unsigned 8 (legacy_weight_percent s)
}.

Record conn_typed (c : Connection) : Prop := {
  ct_received : date (last_received c);
  ct_index : signed 32 (recv_index c);
  ct_log : Forall (unsigned 32) (recv_log c);
  ct_stats : stats_typed (stats c);
  ct_recovery : date (recovery_start c);
  ct_start : date (connection_start c);
  ct_capabilities : unsigned 32 (sender_capabilities c)
}.

Definition nak_entry_typed (h : Z) (e : NakHashEntry) : Prop :=
  unsigned 64 h /\ unsigned 64 (timestamp_ms e) /\ signed 32 (repeat_count e).

Record group_typed (g : ConnectionGroup) : Prop := {
  gt_conns : Forall conn_typed (connections g);
  gt_created : date (created_at g);
  gt_socket : signed 32 (srt_socket g);
  gt_bandwidth : unsigned 64 (total_target_bandwidth g);
  gt_quality : date (last_quality_eval g);
  gt_balance : date (last_load_balance_eval g);
  gt_naks : map_Forall nak_entry_typed (nak_cache g);
  gt_epoll : signed 32 (epoll_fd g)
}.

(** The count of failures is reset at the threshold; a block ends up to
    [AUTH_FAIL_COOLDOWN] after a date. *)
Definition entry_typed (_ : list byte) (e : Entry) : Prop :=
  0 <= failures e < AUTH_FAIL_THRESHOLD /\ date (window_start e) /\ 0 <= blocked_until e < 2 ^ 62 + AUTH_FAIL_COOLDOWN.

Record typed (w : world) : Prop := {
  ty_groups : Forall group_typed (groups w);
  ty_limiter : map_Forall entry_typed (limiter w);
  ty_counters : forall c, unsigned 64 (counters w c);
  ty_last_run : date (last_run w);
  ty_dropped : unsigned 64 (dropped_since_log w);
  ty_log_ms : unsigned 64 (last_log_ms w)
}.

(** The types of what the kernel answers: [CLOCK_MONOTONIC_COARSE] counts
    from the start of the system, [socket] and [epoll_create1] return [int]. *)
Class KernelTyped {os : OS} {hc : HandlerConfig} : Prop := {
  kt_clock t s ns : os_clock_gettime t = Some (s, ns) -> date s;
  kt_socket t : signed 32 (os_socket t);
  kt_epoll : signed 32 epoll_fd_
}.

(** ** Values *)

Lemma u8_typed z : unsigned 8 (u8 z).
Proof. apply u8_range. Qed.
Lemma u16_typed z : unsigned 16 (u16 z).
Proof. apply u16_range. Qed.
Lemma u32_typed z : unsigned 32 (u32 z).
Proof. apply u32_range. Qed.
Lemma u64_typed z : unsigned 64 (u64 z).
Proof. apply u64_range. Qed.
Lemma i32_typed z : signed 32 (i32 z).
Proof. apply i32_range. Qed.
Lemma be32_typed a b c d : unsigned 32 (be32 a b c d).
Proof. apply be32_range. Qed.
Create HintDb typed discriminated.
#[export] Hint Resolve u8_typed u16_typed u32_typed u64_typed i32_typed be32_typed : typed.

Ltac in_range := solve [
  unfold unsigned, signed, date, WEIGHT_FULL, WEIGHT_EXCELLENT, WEIGHT_DEGRADED, WEIGHT_FAIR, WEIGHT_POOR,
    WEIGHT_CRITICAL in *; lia].

Lemma Forall_insert_any {A} (P : A -> Prop) l i x : Forall P l -> P x -> Forall P (<[i := x]> l).
Proof. intros Hl Hx. by apply Forall_insert. Qed.

Lemma hash_typed buf n k : unsigned 64 (hash_nak_payload buf n k).
Proof.
  unfold hash_nak_payload. destruct (n <=? 16); [in_range|].
  match goal with |- unsigned 64 (fold_left ?f ?l ?x) => generalize l; intros ks end.
  assert (Hstart : unsigned 64 FNV_OFFSET_BASIS) by (unfold FNV_OFFSET_BASIS; in_range).
  revert Hstart. generalize FNV_OFFSET_BASIS. induction ks as [|i ks IH]; intros h Hh; cbn; [done|].
  apply IH, u64_typed.
Qed.
Lemma to_u64_typed x : unsigned 64 (to_u64 x).
Proof. destruct x; cbn; try in_range. apply u64_typed. Qed.
Lemma bandwidths_typed l acc : unsigned 64 acc -> unsigned 64 (fold_left (fun acc b => u64 (acc + b)) l acc).
Proof. revert acc. induction l as [|b l IH]; intros acc Ha; cbn; [done|]. apply IH, u64_typed. Qed.

Lemma parsed_typed buf n info : parse_keepalive_conn_info buf n = Some info -> conn_info_ok info.
Proof.
  unfold parse_keepalive_conn_info. destruct (n <? _); [discriminate|]. do 3 (destruct (negb _); [discriminate|]).
  intros [= <-]. unfold conn_info_ok, read_be32.
  cbn [ci_conn_id ci_window ci_in_flight ci_rtt_ms ci_nak_count ci_bitrate_bytes_per_sec].
  split_and!; first [apply i32_range|apply be32_range].
Qed.

(** ** Updates of statistics, connections and groups *)

Lemma initial_stats_typed : stats_typed initial_stats.
Proof. split; cbn; try in_range. repeat constructor; in_range. Qed.
Lemma on_packet_received_typed n s : stats_typed s -> stats_typed (on_packet_received n s).
Proof. intros []. split; cbn; eauto with typed. Qed.
Lemma on_nak_detected_typed n s : stats_typed s -> stats_typed (on_nak_detected n s).
Proof. intros []. split; cbn; eauto with typed. Qed.
Lemma telemetry_typed info t s :
  conn_info_ok info -> date t -> stats_typed s -> stats_typed (update_connection_telemetry info t s).
Proof.
  intros (_ & H1 & H2 & H3 & H4 & H5) Ht []. split; cbn; eauto with typed. by apply Forall_insert_any.
Qed.
Lemma weight_typed p : unsigned 8 (weight_of_points p).
Proof. unfold weight_of_points. repeat case_match; in_range. Qed.
Lemma legacy_weight_typed p : unsigned 8 (legacy_weight p).
Proof. unfold legacy_weight. repeat case_match; in_range. Qed.
Lemma nak_points_typed d s : stats_typed s -> stats_typed (calculate_nak_error_points s d).2.
Proof. intros H. unfold calculate_nak_error_points. case_match; [done|]. destruct H. by split. Qed.
Lemma points_typed p s : unsigned 32 p -> stats_typed s -> stats_typed (s <| error_points := p |>).
Proof. intros Hp []. by split. Qed.
Lemma evaluate_stats_typed t ms med mn m s :
  unsigned 64 ms -> stats_typed s -> stats_typed (evaluate_stats t ms med mn m s).
Proof.
  intros Hms Hs. unfold evaluate_stats.
  set (s1 := s <| error_points := _ |>). assert (H1 : stats_typed s1) by (apply points_typed; [apply u32_typed|done]).
  match goal with |- context [reset_period ms ?x] => set (s2 := x) end.
  assert (H2 : stats_typed s2).
  { unfold s2. case_match; [|done]. pose proof (nak_points_typed (packets_diff m) s1 H1) as Hn.
    destruct (calculate_nak_error_points s1 (packets_diff m)) as [k s3]. apply points_typed; [apply u32_typed|done]. }
  clearbody s2. destruct H2. split; cbn; eauto using legacy_weight_typed with typed. in_range.
Qed.

Class StatsTyped (f : ConnectionStats -> ConnectionStats) : Prop := stats_kept s : stats_typed s -> stats_typed (f s).
Class ConnTyped (f : Connection -> Connection) : Prop := conn_kept c : conn_typed c -> conn_typed (f c).
Class GroupTyped (f : ConnectionGroup -> ConnectionGroup) : Prop := group_kept g : group_typed g -> group_typed (f g).

(** Updates of single fields. *)
Ltac field_update := solve [let H := fresh in intros ? H; destruct H; split; cbn; first [assumption|in_range]].
#[export] Hint Extern 0 (ConnTyped _) => field_update : typeclass_instances.
#[export] Hint Extern 0 (GroupTyped _) => field_update : typeclass_instances.

#[export] Instance on_packet_kept n : StatsTyped (on_packet_received n).
Proof. intros s. apply on_packet_received_typed. Qed.
#[export] Instance on_nak_kept n : StatsTyped (on_nak_detected n).
Proof. intros s. apply on_nak_detected_typed. Qed.

#[export] Instance conn_stats_typed f : StatsTyped f -> ConnTyped (fun c => c <| stats ::= f |>).
Proof. intros Hf c []. split; cbn; auto. Qed.
Lemma group_conns_typed g cs :
  group_typed g -> Forall conn_typed cs -> group_typed (g <| connections := cs |>).
Proof. intros [] Hc. by split. Qed.

Lemma Forall_on_conn cp f cs : ConnTyped f -> Forall conn_typed cs -> Forall conn_typed (on_conn cp f cs).
Proof.
  intros Hf Hc. unfold on_conn. apply Forall_map. eapply Forall_impl; [exact Hc|]. intros c H. cbn.
  case_decide; [by apply Hf|done].
Qed.
#[export] Instance group_on_conn cp f : ConnTyped f -> GroupTyped (fun g => g <| connections ::= on_conn cp f |>).
Proof. intros Hf g Hg. apply group_conns_typed; [done|]. apply Forall_on_conn, Hg. done. Qed.

#[export] Instance log_packet_typed sn : ConnTyped (log_packet sn).
Proof.
  intros c []. split; cbn; try done.
  - unfold next_recv_index, RECV_ACK_INT. destruct (_ || _) eqn:E; [in_range|]. apply orb_false_iff in E as [E1 E2].
    apply Z.leb_gt in E1. apply Z.ltb_ge in E2. in_range.
  - apply Forall_insert_any; [done|unfold htobe32; apply be32_typed].
Qed.
Lemma new_connection_typed p a t : date t -> conn_typed (new_connection p a t).
Proof.
  intros Ht. split; cbn; try done; try in_range.
  - repeat constructor; in_range.
  - apply initial_stats_typed.
Qed.
Lemma new_group_typed p id rnd t a : date t -> group_typed (new_group p id rnd t <| last_address := a |>).
Proof. intros Ht. split; cbn; try done; try in_range. Qed.
Lemma add_connection_typed c : conn_typed c -> GroupTyped (add_connection c).
Proof.
  intros Hc g Hg. apply group_conns_typed; [done|]. apply Forall_app_2; [apply Hg|by apply Forall_singleton].
Qed.
Lemma evaluate_conn_typed t ms med mn m c : unsigned 64 ms -> conn_typed c -> conn_typed (evaluate_conn t ms med mn c m).
Proof.
  intros Hms Hc. unfold evaluate_conn. case_match; [done|].
  apply conn_stats_typed; [|done]. intros s. by apply evaluate_stats_typed.
Qed.
Lemma evaluate_conns_typed t ms med mn cs infos :
  unsigned 64 ms -> Forall conn_typed cs -> Forall conn_typed (zip_with (evaluate_conn t ms med mn) cs infos).
Proof.
  intros Hms Hc. revert infos. induction Hc as [|c cs Hc _ IH]; intros [|i infos]; cbn [zip_with]; constructor.
  - by apply evaluate_conn_typed.
  - apply IH.
Qed.
#[export] Instance evaluate_group_typed t ms : date t -> unsigned 64 ms -> GroupTyped (evaluate_group_at t ms).
Proof.
  intros Ht Hms g []. split; cbn; try done; [by apply evaluate_conns_typed|apply bandwidths_typed; in_range].
Qed.
#[export] Instance adjust_weights_typed t : date t -> GroupTyped (adjust_weights_at t).
Proof.
  intros Ht g Hg. unfold adjust_weights_at. case_match; [done|]. destruct Hg. split; cbn; try done.
  apply Forall_map. eapply Forall_impl; [exact gt_conns0|]. intros c Hc. unfold reweigh. cbn.
  apply conn_stats_typed; [|done]. intros s []. split; cbn; try done. apply weight_typed.
Qed.
Lemma accept_nak_typed cache h ms :
  map_Forall nak_entry_typed cache -> unsigned 64 h -> unsigned 64 ms ->
  map_Forall nak_entry_typed (should_accept_nak cache h ms).2.
Proof.
  intros Hc Hh Hms. unfold should_accept_nak. destruct (cache !! h) as [e|] eqn:E; cbn [snd].
  - do 2 (case_match; [done|]). destruct (Z.leb_spec MAX_REPEATS (repeat_count e)) as [|Hlt]; [done|].
    apply map_Forall_insert_2; [|done]. destruct (Hc h e E) as (_ & _ & Hr).
    split_and!; [done|done|]. cbn. unfold MAX_REPEATS in Hlt. in_range.
  - apply map_Forall_insert_2; [|done]. split_and!; [done|done|]. cbn. in_range.
Qed.
Lemma entry_failure_typed k e t : date t -> entry_typed k e -> entry_typed k (entry_failure e t).
Proof.
  intros Ht (Hf & Hw & Hb). unfold entry_failure.
  match goal with |- context [upd failures Z.succ ?x] => set (e1 := x) end.
  assert (H1 : entry_typed k e1).
  { unfold e1. case_match; [|done]. split_and!; cbn; unfold AUTH_FAIL_THRESHOLD; try done; lia. }
  clearbody e1. destruct H1 as (Hf1 & Hw1 & Hb1). unfold AUTH_FAIL_THRESHOLD in *.
  destruct (Z.leb_spec 5 (failures (e1 <| failures ::= Z.succ |>))) as [Hle|Hlt]; split_and!; cbn in *;
    unfold AUTH_FAIL_COOLDOWN, AUTH_FAIL_THRESHOLD in *; try in_range.
Qed.
Lemma record_failure_typed a t m :
  date t -> map_Forall entry_typed m -> map_Forall entry_typed (record_failure a t m).
Proof.
  intros Ht Hm. unfold record_failure. apply map_Forall_insert_2; [|done]. apply entry_failure_typed; [done|].
  destruct (m !! key_for a) as [e|] eqn:E; cbn; [by apply (Hm (key_for a))|].
  split_and!; cbn; unfold AUTH_FAIL_THRESHOLD, AUTH_FAIL_COOLDOWN; in_range.
Qed.

(** ** Code that keeps the types *)

Definition retyped (w w' : world) : Prop := typed w -> typed w'.
#[export] Instance retyped_preorder : PreOrder retyped.
Proof. split; [intros w H; exact H|]. intros a b c H1 H2 H. apply H2, H1, H. Qed.

(** Code that keeps the types and whose values are in [T]. *)
Definition returns {A} (T : A -> Prop) (m : M A) : Prop := forall w, typed w ->
  match m w with Done a w' => typed w' /\ T a | Raised _ w' => typed w' end.

Lemma returns_within {A} (T : A -> Prop) m : returns T m -> Within retyped m.
Proof. intros Hm w Hw. specialize (Hm w Hw). destruct (m w); [apply Hm|done]. Qed.
Lemma within_returns {A} (m : M A) : Within retyped m -> returns (fun _ => True) m.
Proof. intros Hm w Hw. specialize (Hm w Hw). destruct (m w); cbn in Hm; auto. Qed.
Lemma returns_ret {A} (T : A -> Prop) a : T a -> returns T (mret a).
Proof. by intros Ha w Hw. Qed.
Lemma returns_bind {A B} (T : A -> Prop) (U : B -> Prop) (m : M A) k :
  returns T m -> (forall a, T a -> returns U (k a)) -> returns U (m ≫= k).
Proof.
  intros Hm Hk w Hw. unfold mbind, M_bind. specialize (Hm w Hw). destruct (m w) as [a w1|e w1]; [|done].
  destruct Hm as [Hw1 Ha]. by apply Hk.
Qed.
Lemma retyped_bind {A B} (T : A -> Prop) (m : M A) (k : A -> M B) :
  returns T m -> (forall a, T a -> Within retyped (k a)) -> Within retyped (m ≫= k).
Proof.
  intros Hm Hk. apply (returns_within (fun _ => True)). apply (returns_bind T); [done|].
  intros a Ha. by apply within_returns, Hk.
Qed.
Lemma returns_gets {A} (T : A -> Prop) f : (forall w, typed w -> T (f w)) -> returns T (gets f).
Proof. intros Hf w Hw. split; [done|by apply Hf]. Qed.

Lemma retyped_same w w' :
  groups w' = groups w -> limiter w' = limiter w -> counters w' = counters w -> last_run w' = last_run w ->
  dropped_since_log w' = dropped_since_log w -> last_log_ms w' = last_log_ms w -> retyped w w'.
Proof. intros G L C R D M []. split; rewrite ?G, ?L, ?C, ?R, ?D, ?M; done. Qed.
Lemma retyped_outside f :
  (forall w, groups (f w) = groups w /\ limiter (f w) = limiter w /\ counters (f w) = counters w /\
    last_run (f w) = last_run w /\ dropped_since_log (f w) = dropped_since_log w /\ last_log_ms (f w) = last_log_ms w) ->
  Within retyped (modify f).
Proof. intros Hf w. destruct (Hf w) as (? & ? & ? & ? & ? & ?). by apply retyped_same. Qed.

#[export] Instance retyped_next_call : Within retyped next_call.
Proof. intros w. by apply retyped_same. Qed.
#[export] Instance retyped_emit e : Within retyped (emit e).
Proof. by apply retyped_outside. Qed.
#[export] Instance retyped_fresh_ptr : Within retyped fresh_ptr.
Proof. intros w. by apply retyped_same. Qed.
#[export] Instance retyped_inc_by c n : Within retyped (inc_by c n).
Proof. intros w []. split; cbn; try done. intros c'. case_decide; [apply u64_typed|done]. Qed.
#[export] Instance retyped_inc c : Within retyped (inc c).
Proof. apply retyped_inc_by. Qed.
#[export] Instance retyped_modify_group p f : GroupTyped f -> Within retyped (modify_group p f).
Proof.
  intros Hf w []. split; cbn; try done. unfold on_group. apply Forall_map.
  eapply Forall_impl; [exact ty_groups0|]. intros g Hg. cbn. case_decide; [by apply Hf|done].
Qed.
#[export] Instance retyped_modify_conn p q f : ConnTyped f -> Within retyped (modify_conn p q f).
Proof. intros Hf. by apply retyped_modify_group, group_on_conn. Qed.
Lemma retyped_set_groups gs : Forall group_typed gs -> Within retyped (set_groups gs).
Proof. intros Hg w []. by split. Qed.
Lemma retyped_add_group g : group_typed g -> Within retyped (add_group g).
Proof. intros Hg w []. split; cbn; try done. apply Forall_app_2; [done|by apply Forall_singleton]. Qed.
Lemma returns_groups : returns (Forall group_typed) (gets groups).
Proof. apply returns_gets. by intros w []. Qed.
Lemma returns_deref_group p : returns group_typed (deref_group p).
Proof.
  intros w Hw. unfold deref_group. destruct (lookup_group p (groups w)) as [g|] eqn:E; [|done]. split; [done|].
  apply find_first_Some in E as [Hg _]. destruct Hw as [HG]. rewrite Forall_forall in HG. by apply HG.
Qed.

(** ** The receiver *)

Section Receiver.
Context {os : OS} {hc : HandlerConfig} {ec : ExporterConfig} {kt : KernelTyped}.

(** *** System calls *)

#[export] Instance retyped_sendto d b : Within retyped (sendto d b).
Proof. unfold sendto. apply _. Qed.
#[export] Instance retyped_sendmmsg d b : Within retyped (sendmmsg d b).
Proof. unfold sendmmsg. apply _. Qed.
#[export] Instance retyped_pad_sendto b d : Within retyped (pad_sendto b d).
Proof. unfold pad_sendto. apply _. Qed.
#[export] Instance retyped_send fd b : Within retyped (send fd b).
Proof. unfold send. apply _. Qed.
#[export] Instance retyped_respond fd b : Within retyped (respond fd b).
Proof. unfold respond. apply _. Qed.
#[export] Instance retyped_recv fd : Within retyped (recv fd).
Proof. unfold recv. apply _. Qed.
#[export] Instance retyped_setsockopt fd : Within retyped (setsockopt fd).
Proof. unfold setsockopt. apply _. Qed.
#[export] Instance retyped_fcntl_getfl fd : Within retyped (fcntl_getfl fd).
Proof. unfold fcntl_getfl. apply _. Qed.
#[export] Instance retyped_fcntl_setfl fd : Within retyped (fcntl_setfl fd).
Proof. unfold fcntl_setfl. apply _. Qed.
#[export] Instance retyped_connect_srt fd : Within retyped (connect_srt fd).
Proof. unfold connect_srt, connect. apply _. Qed.
#[export] Instance retyped_close fd : Within retyped (close fd).
Proof. unfold close. do 2 (apply within_bind; [apply _|intros ?]). by apply retyped_outside. Qed.
#[export] Instance retyped_epoll_add fd p : Within retyped (epoll_add fd p).
Proof.
  unfold epoll_add. do 2 (apply within_bind; [apply _|intros ?]). apply within_bind; [|apply _].
  apply within_when. by apply retyped_outside.
Qed.
#[export] Instance retyped_epoll_remove fd : Within retyped (epoll_remove fd).
Proof. unfold epoll_remove. do 2 (apply within_bind; [apply _|intros ?]). by apply retyped_outside. Qed.
#[export] Instance retyped_get_local_port fd : Within retyped (get_local_port fd).
Proof. unfold get_local_port. apply _. Qed.
#[export] Instance retyped_open_file : Within retyped open_file.
Proof. unfold open_file. apply _. Qed.
#[export] Instance retyped_read_random fuel : forall b n, Within retyped (read_random fuel b n).
Proof. induction fuel; intros b n; cbn [read_random]; apply _. Qed.
#[export] Instance retyped_get_random_bytes n : Within retyped (get_random_bytes n).
Proof. unfold get_random_bytes. apply _. Qed.

Lemma returns_socket : returns (signed 32) socket.
Proof.
  unfold socket. apply (returns_bind (fun _ => True)); [apply within_returns, _|]. intros t _.
  apply (returns_bind (fun _ => True)); [apply within_returns, _|]. intros _ _. apply returns_ret, kt_socket.
Qed.
Lemma returns_get_seconds : returns (fun now => date (default 0 now)) get_seconds.
Proof.
  unfold get_seconds. apply (returns_bind (fun _ => True)); [apply within_returns, _|]. intros t _. apply returns_ret.
  destruct (os_clock_gettime t) as [[s ns]|] eqn:E; cbn; [by apply (kt_clock t s ns)|in_range].
Qed.
Lemma returns_get_ms : returns (fun now => unsigned 64 (default 0 now)) get_ms.
Proof.
  unfold get_ms. apply (returns_bind (fun _ => True)); [apply within_returns, _|]. intros t _. apply returns_ret.
  destruct (os_clock_gettime t) as [[s ns]|] eqn:E; cbn; [apply u64_typed|in_range].
Qed.

(** *** Groups *)

#[export] Instance retyped_write_info g : Within retyped (write_socket_info_file g).
Proof. unfold write_socket_info_file. apply _. Qed.
#[export] Instance retyped_destroy_group g : Within retyped (destroy_group g).
Proof. unfold destroy_group, remove_socket_info_file. apply _. Qed.
#[export] Instance retyped_remove_group p : Within retyped (remove_group p).
Proof.
  unfold remove_group. apply (retyped_bind _ _ _ returns_groups). intros gs Hg.
  apply within_bind; [|apply _]. apply retyped_set_groups.
  eapply Forall_sublist_of; [exact Hg|apply sublist_filter].
Qed.
#[export] Instance retyped_srt_remove_group p c : Within retyped (srt_remove_group p c).
Proof. unfold srt_remove_group. apply _. Qed.
#[export] Instance retyped_evict : Within retyped evict_oldest_pending_group.
Proof. unfold evict_oldest_pending_group. apply _. Qed.
#[export] Instance retyped_evaluate_group p t : date t -> Within retyped (evaluate_group p t).
Proof.
  intros Ht. unfold evaluate_group. apply within_bind; [apply _|]. intros g.
  do 2 (apply within_if; [apply _|]). apply within_bind; [apply _|]. intros _.
  apply (retyped_bind _ _ _ returns_get_ms). intros [ms|] Hms; [|apply _]. cbn in Hms.
  by apply retyped_modify_group, evaluate_group_typed.
Qed.
#[export] Instance retyped_adjust_weights p t : date t -> Within retyped (adjust_weights p t).
Proof. unfold adjust_weights. apply _. Qed.
#[export] Instance retyped_quality_pass t : date t -> Within retyped (quality_pass t).
Proof. intros Ht. unfold quality_pass. apply _. Qed.

(** *** The SRT server's side *)

#[export] Instance retyped_log_forward_drop : Within retyped log_forward_drop.
Proof.
  unfold log_forward_drop. apply within_bind.
  { intros w []. split; cbn; try done. apply u64_typed. }
  intros _. apply (retyped_bind _ _ _ returns_get_ms). intros [ms|] Hms; [|apply _]. cbn in Hms.
  apply within_bind; [apply _|]. intros last. apply within_if; [apply _|]. apply within_bind; [|apply _].
  intros w []. split; cbn; try done.
Qed.
#[export] Instance retyped_abandon_socket gp s : Within retyped (abandon_socket gp s).
Proof. unfold abandon_socket. apply _. Qed.
#[export] Instance retyped_ensure_group_socket gp : Within retyped (ensure_group_socket gp).
Proof.
  unfold ensure_group_socket. apply within_bind; [apply _|]. intros g. apply within_if; [apply _|].
  apply (retyped_bind _ _ _ returns_socket). intros fd Hfd. pose proof kt_epoll as He. apply _.
Qed.
#[export] Instance retyped_forward gp b : Within retyped (forward_to_srt_server gp b).
Proof. unfold forward_to_srt_server. apply _. Qed.
#[export] Instance retyped_record_auth_failure a t : date t -> Within retyped (record_auth_failure a t).
Proof.
  intros Ht. unfold record_auth_failure. apply within_bind; [apply _|]. intros _ w []. split; cbn; try done.
  by apply record_failure_typed.
Qed.
#[export] Instance retyped_handle_srt_packet gp b n : Within retyped (handle_srt_packet gp b n).
Proof.
  unfold handle_srt_packet. do 2 (apply within_bind; [apply _|intros ?]). apply within_bind.
  { apply within_when. apply (retyped_bind _ _ _ returns_get_seconds). apply _. }
  unfold relay_to_clients, relay_to_last. apply _.
Qed.
#[export] Instance retyped_handle_srt_data gp : Within retyped (handle_srt_data gp).
Proof. unfold handle_srt_data. apply _. Qed.

(** *** The clients' side *)

#[export] Instance retyped_reply type a : Within retyped (reply type a).
Proof. unfold reply. apply _. Qed.
#[export] Instance retyped_send_keepalive c : Within retyped (send_keepalive c).
Proof. unfold send_keepalive. apply _. Qed.
Lemma returns_make_group id t : date t -> returns (fun g => forall a, group_typed (g <| last_address := a |>)) (make_group id t).
Proof.
  intros Ht. unfold make_group. do 2 (apply (returns_bind (fun _ => True)); [apply within_returns, _|intros ? _]).
  apply returns_ret. intros addr. by apply new_group_typed.
Qed.
#[export] Instance retyped_register_group a b t : date t -> Within retyped (register_group a b t).
Proof.
  intros Ht. unfold register_group. apply within_bind; [unfold reg1_refusal; apply _|]. intros [c|]; [apply _|].
  apply (retyped_bind _ _ _ (returns_make_group _ _ Ht)). intros g Hg. cbv zeta. apply within_bind; [apply _|].
  intros ret. apply within_if; [apply _|]. apply within_bind; [by apply retyped_add_group|apply _].
Qed.
#[export] Instance retyped_register_connection a b t : date t -> Within retyped (register_connection a b t).
Proof.
  intros Ht. unfold register_connection, reject_connection. apply within_bind; [apply _|]. intros gs.
  destruct (find_group_by_id _ gs) as [g|]; [|apply _]. cbv zeta. do 2 (apply within_if; [apply _|]).
  match goal with |- Within _ (?m ≫= _) => assert (Hn : returns (fun new => forall c, new = Some c -> conn_typed c) m) end.
  { case_match; [by apply returns_ret|]. apply (returns_bind (fun _ => True)); [apply within_returns, _|].
    intros p _. apply returns_ret. intros c [= <-]. by apply new_connection_typed. }
  apply (retyped_bind _ _ _ Hn). intros [c|] Hc; [|apply _].
  pose proof (add_connection_typed c (Hc c eq_refl)). apply _.
Qed.
#[export] Instance retyped_register_packet gp cp sn : Within retyped (register_packet gp cp sn).
Proof. unfold register_packet. apply _. Qed.
#[export] Instance retyped_handle_keepalive gp cp a b n : Within retyped (handle_keepalive gp cp a b n).
Proof.
  unfold handle_keepalive. apply (retyped_bind _ _ _ returns_get_seconds). intros now Hnow. cbv zeta.
  apply within_bind; [|apply _]. destruct (parse_keepalive_conn_info b n) as [info|] eqn:E; [|apply _].
  apply retyped_modify_conn, conn_stats_typed. intros s. apply telemetry_typed; [|done]. by eapply parsed_typed.
Qed.
#[export] Instance retyped_is_duplicate_nak gp b n : Within retyped (is_duplicate_nak gp b n).
Proof.
  unfold is_duplicate_nak. cbv zeta. apply (retyped_bind _ _ _ returns_get_ms). intros now Hnow.
  apply (retyped_bind _ _ _ (returns_deref_group gp)). intros g Hg.
  pose proof (accept_nak_typed (nak_cache g) _ _ (gt_naks g Hg) (hash_typed b n 128) Hnow) as Hc.
  destruct (should_accept_nak _ _ _) as [ok cache]. cbn in Hc. apply _.
Qed.
#[export] Instance retyped_account_nak gp cp b n t : date t -> Within retyped (account_nak gp cp b n t).
Proof. intros Ht. unfold account_nak. apply _. Qed.
#[export] Instance retyped_handle_data gp cp b n a t : date t -> Within retyped (handle_data gp cp b n a t).
Proof. intros Ht. unfold handle_data. apply _. Qed.
#[export] Instance retyped_process_single_packet b n a t : date t -> Within retyped (process_single_packet b n a t).
Proof.
  intros Ht. unfold process_single_packet. do 2 (apply within_if; [apply _|]). apply within_bind; [apply _|]. intros gs.
  destruct (find_by_address a gs) as [[g [c|]]|]; apply _.
Qed.
#[export] Instance retyped_process_packets r t : date t -> Within retyped (process_packets r t).
Proof. intros Ht. unfold process_packets, process_datagram. apply _. Qed.

(** *** The loop *)

Lemma returns_cleanup_conn t c : conn_typed c ->
  returns (fun kept => forall c', kept = Some c' -> conn_typed c') (cleanup_conn t send_keepalive c).
Proof.
  intros Hc. unfold cleanup_conn. apply (returns_bind conn_typed).
  { unfold cleanup_recovery. repeat case_match; try by apply returns_ret.
    all: apply (returns_bind (fun _ => True)); [apply within_returns, _|]; intros _ _; apply returns_ret;
      destruct Hc; split; cbn; try done; in_range. }
  intros c1 Hc1. case_match.
  - apply (returns_bind (fun _ => True)); [apply within_returns, _|]. intros _ _. by apply returns_ret.
  - apply (returns_bind (fun _ => True)); [apply within_returns, _|]. intros _ _. apply returns_ret. by intros c' [= <-].
Qed.
Lemma returns_cleanup_conns t cs : Forall conn_typed cs -> returns (Forall conn_typed) (cleanup_conns t send_keepalive cs).
Proof.
  induction 1 as [|c cs Hc _ IH]; cbn [cleanup_conns]; [by apply returns_ret|].
  apply (returns_bind _ _ _ _ (returns_cleanup_conn t c Hc)). intros kept Hk.
  apply (returns_bind _ _ _ _ IH). intros rest Hr. apply returns_ret. destruct kept; [|done]. constructor; auto.
Qed.
Lemma returns_cleanup_group t g : group_typed g ->
  returns (fun kept => forall g', kept = Some g' -> group_typed g') (cleanup_group t send_keepalive g).
Proof.
  intros Hg. unfold cleanup_group. cbv zeta.
  apply (returns_bind _ _ _ _ (returns_cleanup_conns t _ (gt_conns g Hg))). intros cs Hcs.
  pose proof (group_conns_typed g cs Hg Hcs) as Hg'. case_match.
  - do 2 (apply (returns_bind (fun _ => True)); [apply within_returns, _|intros _ _]). by apply returns_ret.
  - apply (returns_bind (fun _ => True)); [apply within_returns, _|]. intros _ _. apply returns_ret. by intros g' [= <-].
Qed.
Lemma returns_cleanup_groups t gs :
  Forall group_typed gs -> returns (Forall group_typed) (cleanup_groups t send_keepalive gs).
Proof.
  induction 1 as [|g gs Hg _ IH]; cbn [cleanup_groups]; [by apply returns_ret|].
  apply (returns_bind _ _ _ _ (returns_cleanup_group t g Hg)). intros kept Hk.
  apply (returns_bind _ _ _ _ IH). intros rest Hr. apply returns_ret. destruct kept; [|done]. constructor; auto.
Qed.
#[export] Instance retyped_cleanup_inactive t : date t -> Within retyped (cleanup_inactive t send_keepalive).
Proof.
  intros Ht. unfold cleanup_inactive. apply within_bind; [apply _|]. intros run_at. apply within_if; [apply _|].
  apply within_bind; [intros w []; by split|]. intros _. apply (retyped_bind _ _ _ returns_groups). intros gs Hg.
  apply within_if; [apply _|]. apply (retyped_bind _ _ _ (returns_cleanup_groups t gs Hg)). apply retyped_set_groups.
Qed.
#[export] Instance retyped_send_response fuel client : forall rest, Within retyped (send_response fuel client rest).
Proof. induction fuel; intros rest; cbn [send_response]; apply _. Qed.
#[export] Instance retyped_exporter scrapes : Within retyped (exporter_handle_event scrapes).
Proof.
  assert (Hs : Within retyped get_seconds) by apply (returns_within _ _ returns_get_seconds).
  unfold exporter_handle_event, serve, render, render_conns, render_group, group_port. apply _.
Qed.
#[export] Instance retyped_handle_event t ev : date t -> Within retyped (handle_event t ev).
Proof. intros Ht. destruct ev; cbn [handle_event]; apply _. Qed.
#[export] Instance retyped_handle_events t events : date t -> Within retyped (handle_events t events).
Proof. intros Ht. induction events; cbn [handle_events]; apply _. Qed.
Lemma retyped_loop_iteration events : Within retyped (loop_iteration events).
Proof.
  unfold loop_iteration. apply (retyped_bind _ _ _ returns_get_seconds). intros [ts|] Hts; [|apply _]. cbn in Hts.
  do 2 (apply within_bind; [apply _|intros _]). apply within_bind; [|apply _].
  intros w []. split; cbn; try done. intros k e [He _]%map_lookup_filter_Some. by apply ty_limiter0.
Qed.

Lemma initial_typed : typed initial_world.
Proof. split; cbn; try done; intros; in_range. Qed.

(** C3: types.  In every state the receiver reaches, each field of the
    counters, the throttle, the groups, the connections and their statistics
    holds a value of the machine type it is declared with; dates lie between 0
    and 2^62, which leaves room in [time_t] for the time-outs that are added
    to them; the count of failures of a host stays below its threshold. *)
Theorem receiver_typed w : reachable w -> typed w.
Proof.
  induction 1 as [|w events w' _ IH E]; [apply initial_typed|].
  pose proof (retyped_loop_iteration events) as H. by apply (within_done retyped _ _ _ _ E).
Qed.

End Receiver.

(** ** The sample session *)

Lemma sample_typed now sent received : date now -> @KernelTyped (sample_os now sent received) sample_cfg.
Proof. intros Hn. split; cbn; [by intros t s ns [= <- _]|intros; in_range|in_range]. Qed.

Lemma receiver_typed_witness : length (groups w_joined) = 1%nat /\ typed w_joined.
Proof.
  split; [vm_compute; reflexivity|].
  apply (@receiver_typed os0 sample_cfg sample_exporter); [|apply joined_reachable].
  apply sample_typed. in_range.
Defined.
