(* ===== verification/Refinement.v ===== *)
(** * The receiver implements the protocol

    Every iteration of the receiver's loop is a run of [Protocol]: the
    datagrams it consumes, in their order, are the inputs of the run, and what
    it sends on connected sockets are the outputs.  Properties of the
    specification so become properties of every reachable state. *)

From stdpp Require Import list gmap.
From S2P Require Import Prelude Config Wire NetUtils NakDedup AuthRateLimiter Connection World.
From S2P Require Import Registry Quality SrtHandler SrtlaHandler Exporter MainLoop Hoare Invariant.
From S2P Require Import RegistryProofs QualityProofs HandlerProofs Scenario LoopProofs Accounts.
From S2P Require Import Registration Protocol Simulation.

#[local] Arguments on_group : simpl never.
#[local] Arguments on_conn : simpl never.

(** ** Objects in their places *)

Lemma on_group_split p f pre g post :
  g_ptr g = p -> (forall x, x ∈ pre ++ post -> g_ptr x <> p) ->
  on_group p f (pre ++ g :: post) = pre ++ f g :: post.
Proof.
  intros Hg Hx.
  assert (Hid : forall l, (forall x, x ∈ l -> g_ptr x <> p) -> on_group p f l = l).
  { intros l Hl. unfold on_group. rewrite <- (map_id l) at 2. apply map_ext_in. intros x Hin%list_elem_of_In.
    rewrite decide_False; [done|]. by apply Hl. }
  unfold on_group. rewrite map_app. cbn [map]. rewrite decide_True by done. fold (on_group p f).
  change (on_group p f pre ++ f g :: on_group p f post = pre ++ f g :: post).
  rewrite !Hid; [done|..]; intros x Hin; apply Hx, elem_of_app; auto.
Qed.

Lemma on_conn_place p f pre c post :
  c_ptr c = p -> (forall x, x ∈ pre ++ post -> c_ptr x <> p) ->
  on_conn p f (pre ++ c :: post) = pre ++ f c :: post.
Proof.
  intros Hg Hx.
  assert (Hid : forall l, (forall x, x ∈ l -> c_ptr x <> p) -> on_conn p f l = l).
  { intros l Hl. unfold on_conn. rewrite <- (map_id l) at 2. apply map_ext_in. intros x Hin%list_elem_of_In.
    rewrite decide_False; [done|]. by apply Hl. }
  unfold on_conn. rewrite map_app. cbn [map]. rewrite decide_True by done. fold (on_conn p f).
  change (on_conn p f pre ++ f c :: on_conn p f post = pre ++ f c :: post).
  rewrite !Hid; [done|..]; intros x Hin; apply Hx, elem_of_app; auto.
Qed.

Lemma without_split p pre g post :
  g_ptr g = p -> (forall x, x ∈ pre ++ post -> g_ptr x <> p) ->
  without p (pre ++ g :: post) = pre ++ post.
Proof.
  intros Hg Hx. unfold without. rewrite filter_app, filter_cons, decide_False by tauto.
  rewrite <- filter_app. apply filter_all. exact Hx.
Qed.

(** A unique key tells an element from the others. *)
Lemma NoDup_split_key {A B} (k : A -> B) l x r :
  NoDup (map k (l ++ x :: r)) -> forall y, y ∈ l ++ r -> k y <> k x.
Proof.
  rewrite map_app. cbn. intros (_ & Hd & [Hx _]%NoDup_cons)%NoDup_app y [Hy|Hy]%elem_of_app E.
  - apply (Hd (k y)); [by apply list_elem_of_fmap_2|]. rewrite E. by left.
  - apply Hx. rewrite <- E. by apply list_elem_of_fmap_2.
Qed.

Lemma group_place w g :
  inv w -> g ∈ groups w -> exists pre post, groups w = pre ++ g :: post /\
    forall x, x ∈ pre ++ post -> g_ptr x <> g_ptr g.
Proof.
  intros [Hr _] Hg. apply list_elem_of_split in Hg as (pre & post & E). exists pre, post. split; [done|].
  apply NoDup_split_key. rewrite <- E. apply Hr.
Qed.

Lemma conn_place w g c :
  inv w -> g ∈ groups w -> c ∈ connections g -> exists l r, connections g = l ++ c :: r /\
    forall x, x ∈ l ++ r -> c_ptr x <> c_ptr c.
Proof.
  intros [Hr _] Hg Hc. apply list_elem_of_split in Hc as (l & r & E). exists l, r. split; [done|].
  apply NoDup_split_key. rewrite <- E. destruct Hr as [_ _ Hok _ _]. rewrite Forall_forall in Hok. by apply Hok.
Qed.

Lemma find_first_split {A} (p : A -> bool) l x :
  find_first p l = Some x -> exists pre post, l = pre ++ x :: post /\ forall y, y ∈ pre -> p y = false.
Proof.
  induction l as [|y l IH]; cbn; [done|]. destruct (p y) eqn:Ep.
  - intros [= ->]. exists [], l. split; [done|]. intros z Hz. by apply elem_of_nil in Hz.
  - intros Hf. destruct (IH Hf) as (pre & post & -> & Hpre). exists (y :: pre), post.
    split; [done|]. intros z [->|Hz]%elem_of_cons; auto.
Qed.

Lemma keys_owned g : keys (session_of g) = owned g.
Proof. unfold keys, owned, member_keys, conn_addrs. cbn. by rewrite map_map. Qed.
Lemma member_keys_conns g : member_keys (session_of g) = conn_addrs g.
Proof. unfold member_keys, conn_addrs. cbn. by rewrite map_map. Qed.

Lemma is_pending_spec g : is_pending g = true <-> pending (session_of g).
Proof.
  unfold is_pending, pending. cbn. rewrite negb_true_iff, orb_false_iff, negb_false_iff, bool_decide_eq_true.
  destruct (connections g); cbn; intuition done.
Qed.

(** ** Runs of the specification between states of the receiver *)

Definition at_time (ts : Z) (l : Z * label) : Prop := l.1 = ts.

(** From [w] to [w'] the protocol consumes [ds], at time [ts]. *)
Definition simulates (ts : Z) (ds : list datagram) (w w' : world) : Prop :=
  exists L, run_from (view w) L (view w') /\ inputs L = ds /\ sends w' = sends w ++ outputs L /\
    Forall (at_time ts) L.

Lemma simulates_trans ts ds1 ds2 w1 w2 w3 :
  simulates ts ds1 w1 w2 -> simulates ts ds2 w2 w3 -> simulates ts (ds1 ++ ds2) w1 w3.
Proof.
  intros (L1 & R1 & I1 & O1 & F1) (L2 & R2 & I2 & O2 & F2). exists (L1 ++ L2). split_and!.
  - by eapply run_app.
  - by rewrite inputs_app, I1, I2.
  - by rewrite O2, O1, outputs_app, app_assoc.
  - by apply Forall_app_2.
Qed.

Lemma simulates_same ts w w' : view w' = view w -> sends w' = sends w -> simulates ts [] w w'.
Proof. intros V S. exists []. rewrite V, S, app_nil_r. split_and!; by constructor. Qed.

Lemma unseen_view w w' : unseen w w' -> view w' = view w.
Proof. intros (F & _). by rewrite !view_faces, F. Qed.
Lemma simulates_unseen ts w w' : unseen w w' -> simulates ts [] w w'.
Proof. intros H. apply simulates_same; [by apply unseen_view|apply H]. Qed.

Lemma simulates_step ts l w w' :
  step ts l (view w) (view w') -> sends w' = sends w ++ output (ts, l) ->
  simulates ts (inputs [(ts, l)]) w w'.
Proof.
  intros Hs Ho. exists [(ts, l)]. split_and!; [by apply run_one|done| |by repeat constructor].
  rewrite Ho. cbn. by rewrite app_nil_r.
Qed.

(** Internal steps of the specification. *)
Definition drifts (ts : Z) (T T' : table) : Prop :=
  exists L, run_from T L T' /\ inputs L = [] /\ outputs L = [] /\ Forall (at_time ts) L.

#[export] Instance drifts_preorder ts : PreOrder (drifts ts).
Proof.
  split.
  - intros T. exists []. split_and!; by constructor.
  - intros a b c (L1 & R1 & I1 & O1 & F1) (L2 & R2 & I2 & O2 & F2). exists (L1 ++ L2).
    split_and!; [by eapply run_app|by rewrite inputs_app, I1, I2|by rewrite outputs_app, O1, O2|by apply Forall_app_2].
Qed.
Lemma drifts_step ts T T' : step ts Internal T T' -> drifts ts T T'.
Proof. intros H. exists [(ts, Internal)]. split_and!; [by apply run_one|done|done|by repeat constructor]. Qed.

Lemma simulates_drift ts w w' : drifts ts (view w) (view w') -> sends w' = sends w -> simulates ts [] w w'.
Proof. intros (L & R & I & O & F) S. exists L. by rewrite S, O, app_nil_r. Qed.

(** Internal steps, then one that consumes a datagram. *)
Lemma simulates_after ts T l w w' :
  drifts ts (view w) T -> step ts l T (view w') -> sends w' = sends w ++ output (ts, l) ->
  simulates ts (inputs [(ts, l)]) w w'.
Proof.
  intros (L & R & I & O & F) Hs Ho. exists (L ++ [(ts, l)]). split_and!.
  - by eapply run_snoc.
  - by rewrite inputs_app, I.
  - rewrite outputs_app, O, Ho. cbn. by rewrite app_nil_r.
  - apply Forall_app_2; [done|by repeat constructor].
Qed.

(** ** Registrations *)

Section Registrations.
Context {os : OS} {hc : HandlerConfig}.

(** The checks of a REG1 leave the table, or evict. *)
Lemma drifts_verdict addr ts w verdict gs :
  inv w -> reg1_verdict addr ts w = (verdict, gs) -> drifts ts (view w) (map session_of gs).
Proof.
  intros Hi Hv. destruct (reg1_verdict_table _ _ _ _ _ Hv) as [->|(Hfull & o & Ho & ->)]; [reflexivity|].
  apply oldest_pending_some in Ho as (Hin & Hp & Hold).
  destruct (group_place w o Hi Hin) as (pre & post & E & Hx). unfold view. rewrite E, without_split by done.
  rewrite !map_app. cbn [map]. apply drifts_step, step_evict.
  - change (session_of o :: map session_of post) with (map session_of (o :: post)).
    rewrite <- map_app, <- E. unfold Zlength. rewrite length_map. destruct Hi as [[Hsz _ _ _ _] _].
    unfold Zlength in *. lia.
  - by apply is_pending_spec.
  - change (session_of o :: map session_of post) with (map session_of (o :: post)).
    rewrite <- map_app, <- E. intros s' (g & -> & Hg)%list_elem_of_fmap Hps.
    apply Hold; [done|by apply is_pending_spec].
Qed.

Lemma verdict_room addr ts w gs :
  inv w -> reg1_verdict addr ts w = (None, gs) -> Zlength gs < MAX_GROUPS.
Proof.
  intros Hi. unfold reg1_verdict. destruct (is_blocked _ _ _); [done|].
  destruct (Z.leb_spec MAX_GROUPS (Zlength (groups w))); cbn [fmap option_fmap option_map].
  - destruct (oldest_pending (groups w)) as [o|] eqn:Eo; cbn; [|done].
    apply oldest_pending_some in Eo as (Hin & _). destruct (find_by_address _ _); intros [= <-].
    erewrite length_without; [|apply Hi|exact Hin|done]. destruct Hi as [[Hsz _ _ _ _] _]. lia.
  - destruct (find_by_address _ _); by intros [= <-].
Qed.

Lemma simulates_reg1 addr b ts w :
  inv w -> reg1 b -> simulates ts [(addr, b)] w (run (register_group addr b ts) w).
Proof.
  intros Hi Hb.
  assert (Hsl : sends (run (register_group addr b ts) w) = sends w) by exact (within_run silent (register_group addr b ts) w).
  pose proof (register_group_run addr b ts w Hi (reg1_len b Hb)) as Hrun. unfold run in *.
  destruct (reg1_verdict addr ts w) as [verdict gs] eqn:Ev.
  pose proof (drifts_verdict _ _ _ _ _ Hi Ev) as Hd.
  assert (Hrefuse : view (state_of (register_group addr b ts w)) = map session_of gs ->
    simulates ts [(addr, b)] w (state_of (register_group addr b ts w))).
  { intros V. apply (simulates_after ts _ (Hear (addr, b) None) _ _ Hd); [|by rewrite Hsl, app_nil_r].
    rewrite V. apply step_refuse. by left. }
  destruct (register_group addr b ts w) as [r w'|e w']; cbn [state_of] in *;
    [|apply Hrefuse; unfold view; by destruct Hrun as (_ & _ & -> & _)].
  destruct verdict as [reason|]; [apply Hrefuse; unfold view; by destruct Hrun as (_ & -> & _)|].
  destruct Hrun as (rnd & ret & Hr & _ & Hcase). destruct (ret =? SRTLA_TYPE_REG2_LEN);
    destruct Hcase as (_ & Hg & _); [|apply Hrefuse; unfold view; by rewrite Hg].
  apply (simulates_after ts _ (Hear (addr, b) None) _ _ Hd); [|by rewrite Hsl, app_nil_r].
  unfold view. rewrite Hg, map_app. destruct (reg1_room _ _ _ _ Ev) as [_ Hfree]. cbn [map].
  apply step_create; [done|..|done].
  - unfold Zlength. rewrite length_map. by apply (verdict_room addr ts w).
  - intros s (g & -> & Hgin)%list_elem_of_fmap. rewrite keys_owned. by apply (find_by_address_none _ _ Hfree).
Qed.

(** The first group a REG2 names. *)
Lemma find_group_place b w g :
  inv w -> reg2 b -> find_group_by_id (drop 2 b) (groups w) = Some g ->
  exists pre post, groups w = pre ++ g :: post /\ g_id g = drop 2 b /\
    (forall x, x ∈ pre -> g_id x <> drop 2 b) /\ (forall x, x ∈ pre ++ post -> g_ptr x <> g_ptr g).
Proof.
  intros [Hr _] Hb Hf. pose proof (reg2_len b Hb) as Hl.
  assert (Hlen : length (drop 2 b) = Z.to_nat SRTLA_ID_LEN).
  { rewrite length_drop. unfold Zlength in Hl. change SRTLA_TYPE_REG2_LEN with 258 in Hl.
    change (Z.to_nat SRTLA_ID_LEN) with 256%nat. lia. }
  assert (Hids : forall x, x ∈ groups w -> length (g_id x) = Z.to_nat SRTLA_ID_LEN).
  { intros x Hx. pose proof (ro_groups _ _ Hr) as Hok. rewrite Forall_forall in Hok. by apply Hok. }
  destruct (find_first_Some _ _ _ Hf) as [Hin Hg].
  destruct (find_first_split _ _ _ Hf) as (pre & post & E & Hpre). exists pre, post. split_and!; [done|..].
  - rewrite constant_time_compare_spec in Hg; [|by apply Hids|done]. by apply bool_decide_eq_true in Hg.
  - intros x Hx Heq. specialize (Hpre x Hx). rewrite constant_time_compare_spec in Hpre; [| |done].
    + by apply bool_decide_eq_false in Hpre.
    + apply Hids. rewrite E. apply elem_of_app. by left.
  - apply NoDup_split_key. rewrite <- E. apply Hr.
Qed.

Lemma simulates_reg2 addr b ts w :
  inv w -> reg2 b -> simulates ts [(addr, b)] w (run (register_connection addr b ts) w).
Proof.
  intros Hi Hb.
  assert (Hsl : sends (run (register_connection addr b ts) w) = sends w) by exact (within_run silent (register_connection addr b ts) w).
  destruct (register_connection_run addr b ts w Hi) as (r & w' & E & Hspec). unfold run in *. rewrite E in *.
  cbn [state_of] in *. clear E. unfold reg2_spec in Hspec.
  assert (Hstep : step ts (Hear (addr, b) None) (view w) (view w') -> simulates ts [(addr, b)] w w').
  { intros Hs. apply (simulates_step ts _ _ _ Hs). by rewrite Hsl, app_nil_r. }
  assert (Hrefuse : groups w' = groups w -> simulates ts [(addr, b)] w w').
  { intros Eg. apply Hstep. unfold view. rewrite Eg. apply step_refuse. by right. }
  destruct (find_group_by_id (drop 2 b) (groups w)) as [g|] eqn:Ef; [|by apply Hrefuse; destruct Hspec as (_ & -> & _)].
  destruct (find_group_place b w g Hi Hb Ef) as (pre & post & Ew & Hid & Hpre & Hx).
  assert (Hgin : g ∈ groups w) by (rewrite Ew; set_solver).
  destruct (owned_elsewhere addr g (groups w)) eqn:Eo; [by apply Hrefuse; destruct Hspec as (_ & -> & _)|].
  assert (Hothers : forall s, s ∈ map session_of pre ++ map session_of post -> addr_key addr ∉ keys s).
  { rewrite <- map_app. intros s (x & -> & Hxin)%list_elem_of_fmap. rewrite keys_owned. intros Hk.
    apply not_true_iff_false in Eo. apply Eo, existsb_exists. exists x. split.
    - apply list_elem_of_In. rewrite Ew. set_solver.
    - rewrite bool_decide_eq_false_2 by (by apply Hx). cbn. by apply bool_decide_eq_true. }
  assert (Hids : forall s, s ∈ map session_of pre -> s_id s <> drop 2 b).
  { intros s (x & -> & Hxin)%list_elem_of_fmap. by apply Hpre. }
  assert (Hview : forall f, groups w' = on_group (g_ptr g) f (groups w) ->
    view w' = map session_of pre ++ session_of (f g) :: map session_of post).
  { intros f Eg. unfold view. rewrite Eg, Ew, on_group_split by done. by rewrite map_app. }
  assert (Hview0 : view w = map session_of pre ++ session_of g :: map session_of post).
  { unfold view. by rewrite Ew, map_app. }
  destruct (bool_decide (addr_key addr ∈ conn_addrs g)) eqn:Em.
  - destruct Hspec as (n & io & _ & Hcase). destruct (_ =? 2); [|by apply Hrefuse, Hcase].
    destruct Hcase as (_ & Eg & _). apply Hstep. rewrite Hview0, (Hview _ Eg).
    apply (step_rejoin ts _ (session_of g)); [done|done|done|]. rewrite member_keys_conns. by apply bool_decide_eq_true in Em.
  - destruct (Z.leb_spec MAX_CONNS_PER_GROUP (Zlength (connections g)));
      [by apply Hrefuse; destruct Hspec as (_ & -> & _)|].
    destruct Hspec as (n & io & _ & Hcase). destruct (_ =? 2); [|by apply Hrefuse, Hcase].
    destruct Hcase as (_ & Eg & _). apply Hstep. rewrite Hview0, (Hview _ Eg).
    match goal with |- step _ _ _ (_ ++ ?s :: _) => replace s with (joined ts addr (session_of g)) end.
    + apply step_join; [done|done|done|done| |].
      * rewrite member_keys_conns. by apply bool_decide_eq_false in Em.
      * unfold Zlength in *. cbn. by rewrite length_map.
    + unfold joined, session_of. cbn. by rewrite map_app.
Qed.
End Registrations.

(** ** Packets of members *)

(** A step that consumes a datagram, then internal steps. *)
Lemma simulates_then ts l T w w' :
  step ts l (view w) T -> drifts ts T (view w') -> sends w' = sends w ++ output (ts, l) ->
  simulates ts (inputs [(ts, l)]) w w'.
Proof.
  intros Hs (L & R & I & O & F) Ho. exists ([(ts, l)] ++ L). split_and!.
  - eapply run_app; [by apply run_one|done].
  - by rewrite inputs_app, I, app_nil_r.
  - rewrite outputs_app, O, Ho. cbn. by rewrite !app_nil_r.
  - apply Forall_app_2; [by repeat constructor|done].
Qed.

(** Losing the group [p], whose session carries data. *)
Lemma drifts_gone ts (p : nat) F F' pre s post s' :
  F = pre ++ (p, s) :: post -> (forall x, x ∈ pre ++ post -> x.1 <> p) ->
  s' ∈ map snd F -> s_id s' = s_id s -> s_data s' = true ->
  F' = F \/ F' = filter (fun f => f.1 <> p) F -> drifts ts (map snd F) (map snd F').
Proof.
  intros -> Hx Hs' Hid Hd [->| ->]; [reflexivity|].
  rewrite filter_app, filter_cons, decide_False by (cbn; tauto).
  rewrite <- filter_app, filter_all by exact Hx. rewrite !map_app. cbn [map snd].
  apply drifts_step. apply (step_lost ts _ s _ s'); [|done|done]. revert Hs'. rewrite map_app. done.
Qed.

Section Packets.
Context {os : OS} {hc : HandlerConfig}.

(** Code that sends [b] at most once. *)
Definition sends_at_most {A} (b : list byte) (m : M A) : Prop :=
  forall w, exists out, (out = None \/ out = Some b) /\
    sends (state_of (m w)) = sends w ++ match out with Some x => [x] | None => [] end.

Lemma at_most_silent {A} b (m : M A) : Within silent m -> sends_at_most b m.
Proof. intros Hm w. exists None. split; [by left|]. rewrite app_nil_r. apply Hm. Qed.
Lemma at_most_bind {A B} b (m : M A) (k : A -> M B) :
  Within silent m -> (forall a, sends_at_most b (k a)) -> sends_at_most b (m ≫= k).
Proof.
  intros Hm Hk w. unfold mbind, M_bind. specialize (Hm w). unfold silent in Hm.
  destruct (m w) as [a w1|e w1]; cbn [state_of] in Hm.
  - rewrite <- Hm. apply Hk.
  - exists None. split; [by left|]. by rewrite app_nil_r.
Qed.
Lemma at_most_last {A B} b (m : M A) (k : A -> M B) :
  sends_at_most b m -> (forall a, Within silent (k a)) -> sends_at_most b (m ≫= k).
Proof.
  intros Hm Hk w. unfold mbind, M_bind. destruct (Hm w) as (out & Ho & E). exists out. split; [done|].
  destruct (m w) as [a w1|e w1]; [|done]. etransitivity; [apply Hk|done].
Qed.

Lemma at_most_send b fd : sends_at_most b (send fd b).
Proof. intros w. exists (Some b). split; [by right|].
  change (reverse (b :: omap payload (trace w)) = sends w ++ [b]). by rewrite reverse_cons.
Qed.
Lemma at_most_forward gp b : sends_at_most b (forward_to_srt_server gp b).
Proof.
  unfold forward_to_srt_server. apply at_most_bind; [apply _|]. intros ok.
  destruct (negb ok); [apply at_most_silent, _|]. apply at_most_bind; [apply _|]. intros g.
  apply at_most_last; [apply at_most_send|]. apply _.
Qed.

(** What [handle_data] does once the group is marked. *)
Definition pass_on (gp cp : nat) (buf : list byte) (n ts : Z) : M unit :=
  modify_conn gp cp (fun c => c <| stats ::= on_packet_received n |>);;
  go_on ← account_nak gp cp buf n ts;
  if negb go_on then skip else
  let sn := get_srt_sn buf n in
  when (0 <=? sn) (register_packet gp cp sn);;
  forward_to_srt_server gp buf;;
  skip.

#[export] Instance gone_pass_on gp cp b n ts : Within (maybe_gone gp) (pass_on gp cp b n ts).
Proof. unfold pass_on. apply _. Qed.
Lemma at_most_pass_on gp cp b n ts : sends_at_most b (pass_on gp cp b n ts).
Proof.
  unfold pass_on. apply at_most_bind; [apply _|]. intros _. apply at_most_bind; [apply _|]. intros go.
  destruct (negb go); [apply at_most_silent, _|]. apply at_most_bind; [apply _|]. intros _.
  apply at_most_last; [apply at_most_forward|apply _].
Qed.

Definition marked (addr : sockaddr_storage) (s : session) : session :=
  s <| s_data := true |> <| s_last := addr |>.

(** The member [c] of [g] in its place, and the table after a word from it. *)
Record placed (w : world) (g : ConnectionGroup) (c : Connection)
  (pre post : list ConnectionGroup) (l r : list Connection) : Prop := {
  pl_groups : groups w = pre ++ g :: post;
  pl_conns : connections g = l ++ c :: r;
  pl_gptr x : x ∈ pre ++ post -> g_ptr x <> g_ptr g;
  pl_cptr x : x ∈ l ++ r -> c_ptr x <> c_ptr c
}.

Definition heard_session (ts : Z) (g : ConnectionGroup) (c : Connection) (l r : list Connection) : session :=
  session_of g <| s_members := map member_of l ++ member_of c <| m_heard := ts |> :: map member_of r |>.

Lemma heard_faces ts w g c pre post l r :
  placed w g c pre post l r ->
  faces (w <| groups ::= on_group (g_ptr g)
    (fun g => g <| connections ::= on_conn (c_ptr c) (fun c => c <| last_received := ts |>) |>) |>) =
  map face pre ++ (g_ptr g, heard_session ts g c l r) :: map face post.
Proof.
  intros [Eg Ec Hg Hc]. unfold faces. cbn [groups upd]. cbn. rewrite Eg, on_group_split by done.
  rewrite map_app. cbn [map]. do 2 f_equal. unfold face, heard_session, session_of. cbn.
  rewrite Ec, on_conn_place by done. rewrite map_app. done.
Qed.

Lemma find_placed w addr g c :
  inv w -> find_by_address addr (groups w) = Some (g, Some c) ->
  addr_key (address c) = addr_key addr /\ exists pre post l r, placed w g c pre post l r.
Proof.
  intros Hi Hf. destruct (find_by_address_some _ _ _ _ Hf) as (Hg & _ & Hc & Ha). split; [done|].
  destruct (group_place w g Hi Hg) as (pre & post & E1 & H1).
  destruct (conn_place w g c Hi Hg Hc) as (l & r & E2 & H2). by exists pre, post, l, r.
Qed.

Lemma mark_faces addr p s pre post (w : world) :
  faces w = pre ++ (p, s) :: post -> (forall x, x ∈ pre ++ post -> x.1 <> p) ->
  faces (w <| groups ::= on_group p (fun g => g <| data_seen := true |> <| last_address := addr |>) |>) =
  pre ++ (p, marked addr s) :: post.
Proof.
  intros E Hx. set (f := fun x : nat * session => if decide (x.1 = p) then (x.1, marked addr x.2) else x).
  transitivity (map f (faces w)).
  - unfold faces. cbn. unfold on_group. rewrite !map_map. apply map_ext. intros g. unfold f. cbn. by case_decide.
  - assert (Hid : forall l, (forall x, x ∈ l -> x.1 <> p) -> map f l = l).
    { intros l Hl. rewrite <- (map_id l) at 2. apply map_ext_in. intros x Hin%list_elem_of_In.
      unfold f. rewrite decide_False; [done|]. by apply Hl. }
    rewrite E, map_app. cbn [map]. rewrite !Hid by (intros x Hin; apply Hx, elem_of_app; auto).
    unfold f at 1. cbn. by rewrite decide_True.
Qed.

Lemma run_skip {A} (m : M A) w : run (m;; skip) w = run m w.
Proof. unfold run, mbind, M_bind. by destruct (m w). Qed.
Lemma run_done {A B} (m : M A) (k : A -> M B) w a w' : m w = Done a w' -> run (m ≫= k) w = run (k a) w'.
Proof. intros E. unfold run. by rewrite (bind_done _ _ _ _ _ E). Qed.

(** Nobody's member. *)
Lemma stranger_keys w addr :
  inv w -> (forall g c, find_by_address addr (groups w) <> Some (g, Some c)) ->
  forall s, s ∈ view w -> addr_key addr ∉ member_keys s.
Proof.
  intros Hi Hno s (g & -> & Hg)%list_elem_of_fmap. rewrite member_keys_conns. intros Hk.
  apply list_elem_of_fmap in Hk as (c & Ha & Hc).
  by apply (Hno g c), find_by_address_complete.
Qed.

(** The rest of a member's packet, from the state in which it was heard. *)
Lemma simulates_member ts b addr w w2 g c pre post l r :
  ~ reg1 b -> ~ reg2 b -> placed w g c pre post l r -> addr_key (address c) = addr_key addr ->
  faces w2 = map face pre ++ (g_ptr g, heard_session ts g c l r) :: map face post -> sends w2 = sends w ->
  simulates ts [(addr, b)] w (run (
    if is_srtla_keepalive b (Zlength b) then handle_keepalive (g_ptr g) (c_ptr c) addr b (Zlength b) else
    if Zlength b <? SRT_MIN_LEN then skip else
    handle_data (g_ptr g) (c_ptr c) b (Zlength b) addr ts) w2).
Proof.
  intros N1 N2 Hpl Ha F2 S2.
  assert (Hx : forall x, x ∈ map face pre ++ map face post -> x.1 <> g_ptr g).
  { rewrite <- map_app. intros x (y & -> & Hy)%list_elem_of_fmap. by apply (pl_gptr _ _ _ _ _ _ _ Hpl). }
  assert (Hv : view w = map session_of pre ++ session_of g :: map session_of post).
  { unfold view. rewrite (pl_groups _ _ _ _ _ _ _ Hpl), map_app. done. }
  assert (Hm : s_members (session_of g) = map member_of l ++ member_of c :: map member_of r).
  { cbn. rewrite (pl_conns _ _ _ _ _ _ _ Hpl), map_app. done. }
  assert (Hsnd : forall gs, map snd (map face gs) = map session_of gs) by (intros gs; by rewrite map_map).
  assert (Halive : forall w', unseen w2 w' -> sign_of_life b -> simulates ts [(addr, b)] w w').
  { intros w' (F3 & S3 & _) Hlife.
    apply (simulates_step ts (Hear (addr, b) None)); [|by rewrite S3, S2, app_nil_r].
    rewrite Hv, view_faces, F3, F2, map_app. cbn [map snd]. rewrite !Hsnd.
    by apply (step_alive ts _ (session_of g) _ _ (member_of c)). }
  destruct (is_srtla_keepalive b (Zlength b)) eqn:Ek.
  { apply Halive; [|by left]. apply (within_run unseen (handle_keepalive _ _ _ _ _)). }
  destruct (Z.ltb_spec (Zlength b) SRT_MIN_LEN) as [Hlt|Hge].
  { apply Halive; [|by right]. apply (within_run unseen skip). }
  assert (Hlife : ~ sign_of_life b) by (intros [?|?]; [congruence|lia]).
  unfold handle_data. set (w3 := w2 <| groups ::= on_group (g_ptr g)
    (fun g => g <| data_seen := true |> <| last_address := addr |>) |>).
  rewrite (run_done _ _ _ tt w3) by done. change (run _ w3) with (run (pass_on (g_ptr g) (c_ptr c) b (Zlength b) ts) w3).
  pose proof (mark_faces addr _ _ _ _ w2 F2 Hx) as F3. fold w3 in F3.
  assert (S3 : sends w3 = sends w) by (rewrite <- S2; done).
  pose proof (within_run (maybe_gone (g_ptr g)) (pass_on (g_ptr g) (c_ptr c) b (Zlength b) ts) w3) as Hgone.
  destruct (at_most_pass_on (g_ptr g) (c_ptr c) b (Zlength b) ts w3) as (out & Hout & S4). fold (run (A:=unit)) in S4.
  apply (simulates_then ts (Hear (addr, b) out) (map snd (faces w3))).
  - rewrite Hv, F3, map_app. cbn [map snd]. rewrite !Hsnd.
    by apply (step_data ts _ (session_of g) _ _ (member_of c)).
  - rewrite view_faces. eapply (drifts_gone ts (g_ptr g)); [exact F3|done| |reflexivity|reflexivity|exact Hgone].
    rewrite F3, map_app. apply elem_of_app. right. by left.
  - unfold run. rewrite S4, S3. by destruct out.
Qed.

Lemma simulates_packet b addr ts w :
  inv w -> simulates ts [(addr, b)] w (run (process_single_packet b (Zlength b) addr ts) w).
Proof.
  intros Hi. unfold process_single_packet.
  destruct (is_srtla_reg1 b (Zlength b)) eqn:E1; [rewrite run_skip; by apply simulates_reg1|].
  destruct (is_srtla_reg2 b (Zlength b)) eqn:E2; [rewrite run_skip; by apply simulates_reg2|].
  apply not_true_iff_false in E1, E2. rewrite (run_done _ _ _ (groups w) w) by done.
  assert (Hstranger : (forall g c, find_by_address addr (groups w) <> Some (g, Some c)) ->
    simulates ts [(addr, b)] w w).
  { intros Hno. apply (simulates_step ts (Hear (addr, b) None)); [|by rewrite app_nil_r].
    apply step_stranger; [done|done|]. by apply stranger_keys. }
  destruct (find_by_address addr (groups w)) as [[g [c|]]|] eqn:Ef; [|by apply Hstranger|by apply Hstranger].
  destruct (find_placed w addr g c Hi Ef) as (Ha & pre & post & l & r & Hpl). cbv zeta.
  rewrite (run_done _ _ _ tt (w <| groups ::= on_group (g_ptr g)
    (fun g => g <| connections ::= on_conn (c_ptr c) (fun c => c <| last_received := ts |>) |>) |>)) by done.
  pose proof (heard_faces ts _ _ _ _ _ _ _ Hpl) as F1. set (w1 := w <| groups ::= _ |>) in *.
  assert (S1 : sends w1 = sends w) by done. clearbody w1.
  set (m := when _ _). assert (Hm : Within unseen m) by apply _.
  destruct (m w1) as [[] w2|e w2] eqn:E3; [|by subst m; destruct (_ && _)].
  specialize (Hm w1). rewrite E3 in Hm. cbn [state_of] in Hm. destruct Hm as (F2 & S2 & _). rewrite (run_done _ _ _ _ _ E3).
  apply (simulates_member ts b addr w w2 g c pre post l r); [done|done|done|done| |];
    [by rewrite F2|by rewrite S2].
Qed.
End Packets.

(** ** Events *)

(** The datagrams of an event, as [process_packets] cuts them. *)
Definition arrival (msg : sockaddr_storage * list byte) : list datagram :=
  let buf := take (Z.to_nat MTU) msg.2 in if 0 <? Zlength buf then [(msg.1, buf)] else [].
Definition arrivals (ev : event) : list datagram :=
  match ev with
  | EvSrtla (Some msgs) => concat (map arrival (take RECV_BATCH_SIZE msgs))
  | _ => []
  end.
Definition datagrams (events : list event) : list datagram := concat (map arrivals events).

(** An outcome the protocol explains, as one that consumed [ds]; an exception
    may have left the end of [ds] unread. *)
Definition explained (ts : Z) (ds : list datagram) (w : world) (o : outcome unit) : Prop :=
  match o with
  | Done _ w' => inv w' /\ ageing w w' /\ simulates ts ds w w'
  | Raised _ w' => exists ds', ds' `prefix_of` ds /\ simulates ts ds' w w'
  end.

Lemma explained_seq ts ds1 ds2 w (m k : M unit) :
  explained ts ds1 w (m w) -> (forall w', inv w' -> ageing w w' -> explained ts ds2 w' (k w')) ->
  explained ts (ds1 ++ ds2) w ((m;; k) w).
Proof.
  intros H1 H2. unfold mbind, M_bind. destruct (m w) as [[] w1|e w1]; cbn [explained] in H1.
  - destruct H1 as (Hi1 & Hage & S1). specialize (H2 w1 Hi1 Hage). destruct (k w1) as [[] w2|e w2].
    + destruct H2 as (Hi2 & Hage2 & S2). split_and!; [done|by transitivity w1|by eapply simulates_trans].
    + destruct H2 as (ds' & Hp & S2). exists (ds1 ++ ds'). split; [by apply prefix_app|by eapply simulates_trans].
  - destruct H1 as (ds' & Hp & S1). exists ds'. split; [|done]. by apply prefix_app_r.
Qed.

Lemma explained_skip ts w : inv w -> explained ts [] w (skip w).
Proof. intros Hi. split_and!; [done|reflexivity|]. by apply simulates_same. Qed.

Section Events.
Context {os : OS} {hc : HandlerConfig} {ec : ExporterConfig} {so : StdinOpen}.

(** Scrapes are nothing the protocol sees. *)
Lemma explained_scrapes ts scrapes w :
  inv w -> explained ts [] w (exporter_handle_event scrapes w).
Proof.
  intros Hi.
  destruct (wp_total _ _ _ (wp_exporter scrapes (fun _ _ => False) w Hi)) as ([] & w' & E & Hi' & _).
  pose proof (within_done unseen _ _ _ _ E) as U. rewrite E.
  split_and!; [done|by apply (passive_unseen (R := ageing))|by apply simulates_unseen].
Qed.

#[export] Instance ageing_process_datagram ts msg : Within ageing (process_datagram ts msg).
Proof. unfold process_datagram, process_single_packet. apply _. Qed.

Lemma explained_datagram ts msg w :
  inv w -> explained ts (arrival msg) w (process_datagram ts msg w).
Proof.
  intros Hi. pose proof (wp_process_datagram ts msg (fun _ _ => True) w Hi (fun _ _ _ => I)) as Hwp.
  assert (Hsim : simulates ts (arrival msg) w (run (process_datagram ts msg) w)).
  { unfold process_datagram, arrival. cbv zeta. set (buf := take _ _).
    destruct (0 <? Zlength buf); cbn [when]; [|by apply simulates_same].
    set (w1 := run (inc_by BYTES_RECEIVED (Zlength buf)) (run (inc PACKETS_RECEIVED) w)).
    change (run _ w) with (run (process_single_packet buf (Zlength buf) msg.1 ts) w1).
    assert (U : unseen w w1) by (by apply unseen_outside).
    assert (Hi1 : inv w1) by (by apply (inv_same w)). clearbody w1.
    apply (simulates_trans ts [] _ w w1); [by apply simulates_unseen|by apply simulates_packet]. }
  pose proof (within_run ageing (process_datagram ts msg) w) as Hage. unfold run in *. unfold wp in Hwp.
  destruct (process_datagram ts msg w) as [[] w'|e w']; cbn [state_of] in *.
  - split_and!; [apply Hwp|done|done].
  - by exists (arrival msg).
Qed.

Lemma explained_batch ts msgs : forall w,
  inv w -> explained ts (concat (map arrival msgs)) w (mfor msgs (process_datagram ts) w).
Proof.
  induction msgs as [|msg msgs IH]; intros w Hi; [by apply explained_skip|]. cbn [map concat mfor].
  apply explained_seq; [by apply explained_datagram|]. auto.
Qed.

(** Taking an unseen step first, and dropping what comes back. *)
Lemma explained_after ts ds w w0 o :
  unseen w w0 -> inv w0 -> explained ts ds w0 o -> explained ts ds w o.
Proof.
  intros U Hi. destruct o as [[] w'|e w']; cbn.
  - intros (Hi' & A & S). split_and!; [done|by transitivity w0; [apply (passive_unseen (R := ageing))|]|].
    apply (simulates_trans ts [] ds w w0); [by apply simulates_unseen|done].
  - intros (ds' & Hp & S). exists ds'. split; [done|].
    apply (simulates_trans ts [] ds' w w0); [by apply simulates_unseen|done].
Qed.

Lemma explained_srtla ts received w :
  inv w -> explained ts (arrivals (EvSrtla received)) w (handle_event ts (EvSrtla received) w).
Proof.
  intros Hi. cbn [handle_event]. unfold process_packets. destruct received as [msgs|]; [|by apply explained_skip].
  cbn [arrivals]. set (l := take RECV_BATCH_SIZE msgs). set (w0 := run (inc RECV_BATCHES) w).
  assert (U : unseen w w0) by (by apply unseen_outside). assert (Hi0 : inv w0) by (by apply (inv_same w)).
  apply (explained_after ts _ w w0); [done|done|].
  pose proof (explained_batch ts l w0 Hi0) as H. unfold mbind, M_bind.
  change (inc RECV_BATCHES w) with (Done tt w0). cbv beta iota.
  by destruct (mfor l (process_datagram ts) w0) as [[] w'|e w'].
Qed.

(** *** Events of groups *)

(** [p] was handed out, and its group, if it is still there, carries data. *)
Definition carrying (w : world) (p : nat) : Prop :=
  (p < next_ptr w)%nat /\ forall s, (p, s) ∈ faces w -> s_data s = true.

Lemma carrying_ageing w w' p : ageing w w' -> carrying w p -> carrying w' p.
Proof.
  intros [Hn Ha] [Hp Hs]. split; [lia|]. intros s' Hs'. destruct (Ha p s' Hp Hs') as (s & Hin & _ & Hd).
  by apply Hd, Hs.
Qed.

(** A registration in the epoll set is that of a group that carries data. *)
Lemma registered_carrying w fd p : inv w -> (fd, p) ∈ epoll_set w -> carrying w p.
Proof.
  intros [Hr He] Hin. destruct (He fd p Hin) as (Hfd & g & Hg & Hp & Hs).
  pose proof (ro_below _ _ Hr) as Hb. pose proof (ro_groups _ _ Hr) as Hok.
  rewrite Forall_forall in Hb, Hok. split; [destruct (Hb g Hg); lia|].
  intros s (g' & Hg' & -> & ->)%elem_of_faces.
  assert (g' = g) as -> by (eapply NoDup_map_inj; [apply Hr|done..]).
  cbn. destruct (data_seen g) eqn:Ed; [done|]. pose proof (go_pending _ (Hok g Hg) Ed). lia.
Qed.

Lemma explained_group ts p w :
  inv w -> carrying w p -> explained ts [] w (handle_event ts (EvGroup p) w).
Proof.
  intros Hi [_ Hdata]. cbn [handle_event]. unfold mbind, M_bind, deref_group.
  destruct (lookup_group p (groups w)) as [g|] eqn:El; [|exists []; split; [done|by apply simulates_same]].
  apply lookup_group_elem in El as [Hg Hp]. cbn [gets].
  destruct (find_group_by_id (g_id g) (groups w)) as [sg|] eqn:Ef; [|by apply explained_skip].
  apply find_group_by_id_elem in Ef as [Hsg Hcmp].
  assert (Hok : forall x, x ∈ groups w -> length (g_id x) = Z.to_nat SRTLA_ID_LEN).
  { intros x Hx. destruct Hi as [Hr _]. pose proof (ro_groups _ _ Hr) as Hok. rewrite Forall_forall in Hok. by apply Hok. }
  apply Z.eqb_eq in Hcmp. rewrite constant_time_compare_spec in Hcmp by auto. apply bool_decide_eq_true in Hcmp.
  assert (Hlive : holds (g_ptr sg) (fun _ => True) w) by (apply ptrs_live; [by apply list_elem_of_fmap_2|done]).
  destruct (wp_total _ _ _ (wp_handle_srt_data (g_ptr sg) (fun _ _ => False) w Hi Hlive)) as ([] & w' & E & ok & Hset).
  rewrite E. pose proof (within_done (maybe_gone (g_ptr sg)) _ _ _ _ E) as Hgone.
  split; [apply Hset|]. split; [by apply (within_done ageing _ _ _ _ E)|].
  apply simulates_drift; [|by apply (within_done silent _ _ _ _ E)]. rewrite !view_faces.
  destruct (group_place w sg Hi Hsg) as (pre & post & Ew & Hx).
  assert (Hface : face g ∈ faces w) by (by apply list_elem_of_fmap_2).
  eapply (drifts_gone ts (g_ptr sg) _ _ (map face pre) (session_of sg) (map face post) (session_of g)).
  - unfold faces. by rewrite Ew, map_app.
  - rewrite <- map_app. intros x (y & -> & Hy)%list_elem_of_fmap. by apply Hx.
  - by apply (list_elem_of_fmap_2 snd) in Hface.
  - cbn. by rewrite Hcmp.
  - apply Hdata. by rewrite <- Hp.
  - exact Hgone.
Qed.

Lemma explained_event ts ev w :
  inv w -> (forall p, p ∈ event_ptrs [ev] -> carrying w p) ->
  explained ts (arrivals ev) w (handle_event ts ev w).
Proof.
  intros Hi Hc. destruct ev as [received|scrapes|p].
  - by apply explained_srtla.
  - by apply explained_scrapes.
  - apply explained_group; [done|]. apply Hc. by left.
Qed.

(** The events, of which the last ones may be left unread. *)
Definition explained_some (ts : Z) (events : list event) (w : world) (o : outcome unit) : Prop :=
  match o with
  | Done _ w' => inv w' /\ exists k, simulates ts (datagrams (take k events)) w w'
  | Raised _ w' => exists ds, ds `prefix_of` datagrams events /\ simulates ts ds w w'
  end.

Lemma event_ptrs_cons ev events : event_ptrs (ev :: events) = event_ptrs [ev] ++ event_ptrs events.
Proof. by destruct ev. Qed.

Lemma explained_events ts events : forall w,
  inv w -> (forall p, p ∈ event_ptrs events -> carrying w p) ->
  explained_some ts events w (handle_events ts events w).
Proof.
  induction events as [|ev events IH]; intros w Hi Hc.
  { split; [done|]. exists 0%nat. by apply simulates_same. }
  rewrite event_ptrs_cons in Hc. cbn [handle_events]. rewrite (bind_done _ _ _ (length (groups w)) w) by done.
  assert (H1 : explained ts (arrivals ev) w (handle_event ts ev w)).
  { apply explained_event; [done|]. intros p Hp. apply Hc, elem_of_app. by left. }
  unfold mbind, M_bind. destruct (handle_event ts ev w) as [[] w1|e w1]; cbn [explained] in H1.
  - destruct H1 as (Hi1 & Ha1 & S1). cbn [gets]. destruct (_ <? _)%nat.
    { split; [done|]. exists 1%nat. cbn. by rewrite app_nil_r. }
    assert (H2 : explained_some ts events w1 (handle_events ts events w1)).
    { apply IH; [done|]. intros p Hp. eapply carrying_ageing; [exact Ha1|]. apply Hc, elem_of_app. by right. }
    destruct (handle_events ts events w1) as [[] w2|e w2].
    + destruct H2 as (Hi2 & k & S2). split; [done|]. exists (S k). by eapply (simulates_trans ts (arrivals ev)).
    + destruct H2 as (ds & Hp & S2). exists (arrivals ev ++ ds). split; [by apply prefix_app|by eapply simulates_trans].
  - destruct H1 as (ds & Hp & S1). exists ds. split; [|done]. by apply prefix_app_r.
Qed.
End Events.

(** ** Cleanup *)

Lemma member_recovered t c : member_of (recovered t c) = member_of c.
Proof. unfold recovered. by case_match. Qed.

Lemma drifts_leave ts pre post cs : forall ms s,
  s_members s = ms ++ map member_of cs ->
  drifts ts (pre ++ s :: post) (pre ++ s <| s_members := ms ++ map member_of (survivors ts cs) |> :: post).
Proof.
  induction cs as [|c cs IH]; intros ms s Hm; cbn [map] in Hm.
  { replace (s <| s_members := _ |>) with s; [reflexivity|]. destruct s. cbn in *. by rewrite Hm. }
  unfold survivors. cbn [List.filter]. unfold conn_timed_out at 1.
  destruct (Z.ltb_spec (last_received c + CONN_TIMEOUT) ts) as [Ht|Ht]; cbn [negb].
  - transitivity (pre ++ s <| s_members := ms ++ map member_of cs |> :: post).
    + apply drifts_step. apply (step_leave ts pre s post ms (member_of c) (map member_of cs)); [exact Hm|exact Ht].
    + exact (IH ms (s <| s_members := ms ++ map member_of cs |>) eq_refl).
  - cbn [map]. rewrite member_recovered. specialize (IH (ms ++ [member_of c]) s).
    rewrite <- !app_assoc in IH. by apply IH.
Qed.

Lemma drifts_swept ts pre post g :
  drifts ts (pre ++ session_of g :: post) (pre ++ session_of (swept ts g) :: post).
Proof. apply (drifts_leave ts pre post (connections g) [] (session_of g)). done. Qed.

Lemma drifts_sweep ts gs : forall pre,
  drifts ts (pre ++ map session_of gs) (pre ++ map session_of (swept_groups ts gs)).
Proof.
  induction gs as [|g gs IH]; intros pre; [reflexivity|]. unfold swept_groups. cbn [List.filter map].
  etransitivity; [apply drifts_swept|]. destruct (expired ts g) eqn:Ex; cbn [negb].
  - etransitivity; [|apply IH]. apply drifts_step.
    unfold expired in Ex. apply andb_true_iff in Ex as [Ec%bool_decide_eq_true Et%Z.ltb_lt].
    apply step_expire; [cbn; by rewrite Ec|]. exact Et.
  - cbn [map]. specialize (IH (pre ++ [session_of (swept ts g)])). by rewrite <- !app_assoc in IH.
Qed.

(** ** Iterations *)

Section Iterations.
Context {os : OS} {hc : HandlerConfig} {ec : ExporterConfig} {so : StdinOpen}.

(** [epoll_wait] hands back pointers that are registered. *)
Definition delivered (events : list event) (w : world) : Prop :=
  forall p, p ∈ event_ptrs (take MAX_EPOLL_EVENTS events) -> exists fd, (fd, p) ∈ epoll_set w.

Lemma simulates_housekeeping ts w :
  inv w -> exists w', (cleanup_inactive ts send_keepalive;;
      modify (fun w => w <| limiter ::= cleanup ts |>);; quality_pass ts) w = Done tt w' /\
    inv w' /\ simulates ts [] w w'.
Proof.
  intros Hi.
  destruct (wp_total _ _ _ (wp_cleanup_inactive ts send_keepalive (fun _ _ => False) w Hi)) as ([] & w1 & E1 & Hi1 & Hg1).
  rewrite (bind_done _ _ _ _ _ E1). set (w2 := w1 <| limiter ::= cleanup ts |>).
  rewrite (bind_done _ _ _ tt w2) by done. assert (Hi2 : inv w2) by (by apply (inv_same w1)).
  destruct (wp_total _ _ _ (wp_quality_pass ts (fun _ _ => False) w2 Hi2)) as ([] & w3 & E3 & S3).
  exists w3. split; [done|]. split; [apply S3|].
  assert (U : unseen w1 w3).
  { transitivity w2; [by apply unseen_outside|]. apply (within_done unseen _ _ _ _ E3). }
  apply (simulates_trans ts [] [] w w1); [|by apply simulates_unseen].
  apply simulates_drift; [|by apply (within_done silent _ _ _ _ E1)].
  unfold view. rewrite Hg1. unfold after_cleanup. destruct (_ <? _); [reflexivity|].
  apply (drifts_sweep ts (groups w) []).
Qed.

Lemma explained_iteration w events :
  inv w -> delivered events w ->
  match fst <$> os_clock_gettime (calls w) with
  | None => exists w', loop_iteration events w = Done tt w' /\ inv w' /\ unseen w w'
  | Some ts => explained_some ts (take MAX_EPOLL_EVENTS events) w (loop_iteration events w)
  end.
Proof.
  intros Hi Hev. unfold loop_iteration. set (w0 := w <| calls ::= S |>).
  rewrite (bind_done _ _ _ (fst <$> os_clock_gettime (calls w)) w0) by done.
  assert (Hi0 : inv w0) by (by apply (inv_same w)). assert (U0 : unseen w w0) by (by apply unseen_outside).
  destruct (fst <$> os_clock_gettime (calls w)) as [ts|]; [|by exists w0].
  set (evs := take MAX_EPOLL_EVENTS events).
  assert (Hc : forall p, p ∈ event_ptrs evs -> carrying w0 p).
  { intros p Hp. destruct (Hev p Hp) as (fd & Hfd). by apply (registered_carrying w0 fd). }
  pose proof (explained_events ts evs w0 Hi0 Hc) as H1.
  assert (S0 : simulates ts [] w w0) by (by apply simulates_unseen).
  destruct (handle_events ts evs w0) as [[] w1|e w1] eqn:E1.
  - rewrite (bind_done _ _ _ _ _ E1). destruct H1 as (Hi1 & k & S1).
    destruct (simulates_housekeeping ts w1 Hi1) as (w2 & E2 & Hi2 & S2). rewrite E2.
    split; [done|]. exists k. apply (simulates_trans ts [] (datagrams (take k evs)) w w0); [done|].
    rewrite <- (app_nil_r (datagrams (take k evs))). by eapply simulates_trans.
  - rewrite (bind_raised _ _ _ _ _ E1). destruct H1 as (ds & Hp & S1). exists ds. split; [done|].
    by apply (simulates_trans ts [] _ w w0).
Qed.

(** C4: the receiver refines the protocol.  With standard input open and events
    whose pointers are registered ([StdinOpen], [delivered]), an iteration of
    the loop from a reachable state is a run of the specification at the time
    the iteration read from the clock: the run consumes the datagrams of the
    first events, in their order, ends in the table of sessions that the
    receiver's groups now form, and its outputs are exactly what the receiver
    sent on its sockets to the SRT server, in order.  An exception cuts the
    run short; without a clock nothing happens. *)
Theorem receiver_refines w events :
  reachable w -> delivered events w ->
  match fst <$> os_clock_gettime (calls w), loop_iteration events w with
  | Some ts, Done _ w' => exists k L, run_from (view w) L (view w') /\
      inputs L = datagrams (take k (take MAX_EPOLL_EVENTS events)) /\
      sends w' = sends w ++ outputs L /\ Forall (at_time ts) L
  | Some ts, Raised _ w' => exists L, run_from (view w) L (view w') /\
      inputs L `prefix_of` datagrams (take MAX_EPOLL_EVENTS events) /\
      sends w' = sends w ++ outputs L /\ Forall (at_time ts) L
  | None, o => exists w', o = Done tt w' /\ view w' = view w /\ sends w' = sends w
  end.
Proof.
  intros Hr Hev. pose proof (explained_iteration w events (reachable_inv w Hr) Hev) as H.
  destruct (fst <$> os_clock_gettime (calls w)) as [ts|].
  - destruct (loop_iteration events w) as [[] w'|e w'].
    + destruct H as (_ & k & L & R & I & O & F). by exists k, L.
    + destruct H as (ds & Hp & L & R & I & O & F). exists L. by rewrite I.
  - destruct H as (w' & E & _ & U). exists w'. split_and!; [done|by apply unseen_view|apply U].
Qed.

(** ** The history of a state *)

(** States reached by iterations whose events have registered pointers, with
    the datagrams that arrived. *)
Inductive reachable_by : list datagram -> world -> Prop :=
  | by_start : reachable_by [] initial_world
  | by_iteration D w events w' :
      reachable_by D w -> delivered events w -> loop_iteration events w = Done tt w' ->
      reachable_by (D ++ datagrams (take MAX_EPOLL_EVENTS events)) w'.

(** Every such state is reachable. *)
Lemma by_reachable D w : reachable_by D w -> reachable w.
Proof. induction 1 as [|D w events w' _ IH _ E]; [constructor|by eapply reachable_iteration]. Qed.

Lemma datagrams_take k events : datagrams (take k events) `sublist_of` datagrams events.
Proof.
  rewrite <- (take_drop k events) at 2. unfold datagrams. rewrite map_app, concat_app. by apply sublist_inserts_r.
Qed.

(** The whole life of the receiver is one run of the protocol. *)
Lemma history_run D w :
  reachable_by D w -> inv w /\ exists L, run_from [] L (view w) /\ inputs L `sublist_of` D /\ sends w = outputs L.
Proof.
  induction 1 as [|D w events w' _ [Hi (L & R & I & O)] Hev E].
  { split; [apply initial_inv|]. exists []. split_and!; [constructor|done|done]. }
  pose proof (explained_iteration w events Hi Hev) as H. rewrite E in H.
  destruct (fst <$> os_clock_gettime (calls w)) as [ts|].
  - destruct H as (Hi' & k & L' & R' & I' & O' & _). split; [done|]. exists (L ++ L'). split_and!.
    + by eapply run_app.
    + rewrite inputs_app, I'. apply sublist_app; [done|apply datagrams_take].
    + by rewrite O', O, outputs_app.
  - destruct H as (w1 & [= <-] & Hi' & U). split; [done|]. exists L. split_and!.
    + by rewrite (unseen_view _ _ U).
    + by apply sublist_inserts_r.
    + rewrite <- O. apply U.
Qed.

(** C6: membership is authentic.  In every state the receiver reaches, each
    group was opened by a REG1 that carried the first half of its 256-byte id,
    and each connection of the group was registered by a REG2 from the
    connection's own address that carried the whole id, receiver's half
    included: without the REG2 reply nobody joins a group.  As for the
    refinement, standard input is open and the events are registered. *)
Theorem membership_authentic D w g :
  reachable_by D w -> g ∈ groups w ->
  Zlength (g_id g) = SRTLA_ID_LEN /\
  (exists a b, (a, b) ∈ D /\ reg1 b /\
     take (Z.to_nat (SRTLA_ID_LEN / 2)) (g_id g) = take (Z.to_nat (SRTLA_ID_LEN / 2)) (drop 2 b)) /\
  forall c, c ∈ connections g -> exists b, (address c, b) ∈ D /\ reg2 b /\ drop 2 b = g_id g.
Proof.
  intros Hr Hg. destruct (history_run D w Hr) as [_ (L & R & I & _)].
  assert (Hs : session_of g ∈ view w) by (by apply list_elem_of_fmap_2).
  destruct (vouched_mono _ D _ (sublist_subseteq _ _ I) (run_vouched L _ R _ Hs)) as (Hl & H1 & H2).
  split_and!; [exact Hl|exact H1|]. intros c Hc. apply (H2 (member_of c)). by apply list_elem_of_fmap_2.
Qed.

(** Where a packet that was sent to the server came from. *)
Lemma forwarded_from D w fd data ret :
  reachable_by D w -> IoSend fd data ret ∈ trace w ->
  exists D1 D2 a, D = D1 ++ (a, data) :: D2 /\
    is_srtla_reg1 data (Zlength data) = false /\ is_srtla_reg2 data (Zlength data) = false /\
    is_srtla_keepalive data (Zlength data) = false /\ SRT_MIN_LEN <= Zlength data /\
    exists a1 b1 a2 b2, (a1, b1) ∈ D1 /\ reg1 b1 /\ (a2, b2) ∈ D1 /\ reg2 b2 /\ addr_key a2 = addr_key a /\
      take (Z.to_nat (SRTLA_ID_LEN / 2)) (drop 2 b2) = take (Z.to_nat (SRTLA_ID_LEN / 2)) (drop 2 b1).
Proof.
  intros Hr Hin. destruct (history_run D w Hr) as [_ (L & R & I & O)].
  assert (Hd : data ∈ outputs L).
  { rewrite <- O. unfold sends. rewrite elem_of_reverse, list_elem_of_omap. by exists (IoSend fd data ret). }
  destruct (run_outputs L _ data R Hd) as (D1 & D2 & a & E & N1 & N2 & N3 & s & m & Hv & Hm & Ha).
  rewrite E in I. apply sublist_app_l in I as (H1 & K & -> & I1 & I2).
  apply sublist_cons_l in I2 as (K1 & K2 & -> & I2).
  exists (H1 ++ K1), K2, a. split; [by rewrite <- app_assoc|].
  apply not_true_iff_false in N1, N2. split_and!; [done|done| | |].
  - apply not_true_iff_false. intros Hk. apply N3. by left.
  - apply Z.nlt_ge. intros Hk. apply N3. by right.
  - assert (Hsub : D1 ⊆ H1 ++ K1) by (apply sublist_subseteq; by apply sublist_inserts_r).
    destruct (vouched_mono _ _ _ Hsub Hv) as (_ & (a1 & b1 & Hin1 & Hb1 & Ht) & Hms).
    destruct (Hms m Hm) as (b2 & Hin2 & Hb2 & Hid). exists a1, b1, (m_address m), b2.
    split_and!; [done..|]. by rewrite Hid.
Qed.


(** C8: forwarding keeps the order and repeats nothing.  The packets the
    receiver's loop ever sent on sockets to the SRT server, in the order they
    were sent, are a subsequence of the datagrams of the history, byte for
    byte: no datagram was passed on twice and none overtook another.  As for
    the refinement, standard input is open and the events are registered. *)
Theorem forwarding_ordered D w : reachable_by D w -> sends w `sublist_of` map snd D.
Proof.
  intros Hr. destruct (history_run D w Hr) as [_ (L & R & I & O)]. rewrite O.
  transitivity (map snd (inputs L)); [by eapply run_order|by apply sublist_map].
Qed.
End Iterations.

(** ** The sample session *)

(** The datagrams of the session of [Scenario]. *)
Definition session_log : list datagram :=
  (([] ++ datagrams (says client1 reg1_packet)) ++
   datagrams (says client1 (reg2_request (last_reg2_id w_pending)))) ++
  datagrams (says client1 (data_packet 5)).

Lemma iterate_by D events w :
  @reachable_by os0 sample_cfg sample_exporter D w -> take MAX_EPOLL_EVENTS events = events ->
  event_ptrs events = [] -> exn_of (@loop_iteration os0 sample_cfg sample_exporter events w) = None ->
  @reachable_by os0 sample_cfg sample_exporter (D ++ datagrams events) (iterate events w).
Proof.
  intros Hr Ht Hp He. rewrite <- Ht at 1. apply (by_iteration D w); [exact Hr| |by apply exn_of_done].
  intros p. rewrite Ht, Hp. by intros ?%elem_of_nil.
Qed.

Lemma joined_by : @reachable_by os0 sample_cfg sample_exporter session_log w_joined.
Proof.
  do 3 (apply iterate_by; [|reflexivity|reflexivity|vm_compute; reflexivity]). apply by_start.
Qed.

Lemma late_delivered : delivered late_events w_joined.
Proof. intros p Hp. apply list_elem_of_singleton in Hp as ->. exists 7. vm_compute. left. Qed.

Lemma receiver_refines_witness :
  match @loop_iteration os0 sample_cfg sample_exporter late_events w_joined with
  | Done _ w' => exists k L, run_from (view w_joined) L (view w') /\
      inputs L = datagrams (take k (take MAX_EPOLL_EVENTS late_events)) /\
      sends w' = sends w_joined ++ outputs L /\ Forall (at_time 1000) L
  | Raised _ w' => exists L, run_from (view w_joined) L (view w') /\
      inputs L `prefix_of` datagrams (take MAX_EPOLL_EVENTS late_events) /\
      sends w' = sends w_joined ++ outputs L /\ Forall (at_time 1000) L
  end.
Proof.
  pose proof (@receiver_refines os0 sample_cfg sample_exporter (sample_stdin _ _ _) w_joined late_events
    joined_reachable late_delivered) as H.
  assert (E : fst <$> @os_clock_gettime os0 (calls w_joined) = Some 1000) by reflexivity.
  rewrite E in H. exact H.
Defined.

Lemma membership_authentic_witness :
  (exists a b, (a, b) ∈ session_log /\ reg1 b /\
     take (Z.to_nat (SRTLA_ID_LEN / 2)) (g_id (first_group w_joined)) =
     take (Z.to_nat (SRTLA_ID_LEN / 2)) (drop 2 b)) /\
  forall c, c ∈ connections (first_group w_joined) ->
    exists b, (address c, b) ∈ session_log /\ reg2 b /\ drop 2 b = g_id (first_group w_joined).
Proof.
  assert (Hin : first_group w_joined ∈ groups w_joined).
  { assert (Hl : length (groups w_joined) = 1%nat) by (vm_compute; reflexivity).
    unfold first_group. destruct (groups w_joined) as [|g gs]; [discriminate Hl|left]. }
  exact (proj2 (@membership_authentic os0 sample_cfg sample_exporter (sample_stdin _ _ _)
    session_log w_joined (first_group w_joined) joined_by Hin)).
Defined.


Lemma forwarding_ordered_witness :
  sends w_joined = [data_packet 5] /\ sends w_joined `sublist_of` map snd session_log.
Proof.
  split; [vm_compute; reflexivity|].
  apply (@forwarding_ordered os0 sample_cfg sample_exporter (sample_stdin _ _ _) session_log w_joined joined_by).
Defined.
