(* ===== verification/SenderSpeech.v ===== *)
(** * What the sender says, and to whom

    Every datagram the sender (src/sender.cpp) ever sends is a registration
    with the id of its group, a keepalive, a packet of its SRT caller as it was
    read, or something passed on to the caller.  Code is [Honest] when it adds
    nothing else. *)

From stdpp Require Import list.
From S2P Require Import Prelude Config Wire SenderModel SenderLog SenderProofs.

Definition s_state_of {A} (o : outcome A) : sender :=
  match o with Done _ s => s | Stopped _ s => s end.

(** ** Words *)

Section Words.
Context `{SenderOS} (L : Z).

Definition registration (buf : list byte) (n : Z) : Prop :=
  exists id, length id = Z.to_nat SRTLA_ID_LEN /\
    ((buf = reg_packet SRTLA_TYPE_REG1 id /\ n = SRTLA_TYPE_REG1_LEN) \/
     (buf = reg_packet SRTLA_TYPE_REG2 id /\ n = SRTLA_TYPE_REG2_LEN)).
Definition keepalive (buf : list byte) (n : Z) : Prop := buf = be16_bytes SRTLA_TYPE_KEEPALIVE /\ n = 2.

(** What a read of the listening socket [L] gave, and from whom, among the
    first [b] calls. *)
Definition caller_packet (b : nat) (buf : list byte) (n : Z) : Prop :=
  exists t from, (t < b)%nat /\ so_recvfrom t L = (n, buf, from).
Definition caller_addr (b : nat) (a : sockaddr) : Prop :=
  a = replicate 16 Byte.x00 \/ exists t n buf, (t < b)%nat /\ so_recvfrom t L = (n, buf, a).

(** Types of packets that end at the sender. *)
Definition consumed (type : Z) : bool :=
  bool_decide (type ∈ [SRTLA_TYPE_REG_NGP; SRTLA_TYPE_REG2; SRTLA_TYPE_ACK; SRTLA_TYPE_KEEPALIVE; SRTLA_TYPE_REG3]).
(** What is passed on to the caller: a packet that another socket gave, of
    no such type. *)
Definition passed (b : nat) (fd : Z) (buf : list byte) (n : Z) (dst : sockaddr) : Prop :=
  fd = L /\ caller_addr b dst /\ 0 < n /\ consumed (get_srt_type buf n) = false /\
  exists t l from, (t < b)%nat /\ l <> L /\ so_recvfrom t l = (n, buf, from).

Definition said (b : nat) (e : io) : Prop :=
  match e with
  | IoSendto fd buf n dst ret =>
      (fd <> L /\ (registration buf n \/ keepalive buf n \/ caller_packet b buf n)) \/ passed b fd buf n dst
  | _ => True
  end.

(** [L] was opened by call [tL], and is no connection's descriptor; [t0]
    calls at least were made. *)
Record speech_ok (tL t0 : nat) (s : sender) : Prop := {
  sp_listen : listenfd s = L;
  sp_calls : (tL < calls s)%nat;
  sp_from : (t0 <= calls s)%nat;
  sp_fds : forall c, c ∈ conns s -> fd c <> L;
  sp_id : length (srtla_id s) = Z.to_nat SRTLA_ID_LEN;
  sp_caller : caller_addr (calls s) (srt_addr s);
  sp_said : Forall (said (calls s)) (trace s)
}.

Lemma caller_addr_mono b b' a : (b <= b')%nat -> caller_addr b a -> caller_addr b' a.
Proof. intros Hb [->|(t & n & buf & Ht & E)]; [by left|right]. exists t, n, buf. split; [lia|done]. Qed.
Lemma said_mono b b' e : (b <= b')%nat -> said b e -> said b' e.
Proof.
  intros Hb. destruct e; [|done..]. intros [[Hl [Hr|[Hk|(t & from & Ht & E)]]]|(H1 & H2 & H3 & H4 & t & l & from & Ht & E)].
  - left. auto.
  - left. auto.
  - left. split; [done|]. right. right. exists t, from. split; [lia|done].
  - right. split_and!; [done|by eapply caller_addr_mono|done|done|]. exists t, l, from. split; [lia|done].
Qed.

End Words.

(** ** Code that maintains what is said *)

(** Descriptors of connections: none is new, but for those not open. *)
Definition no_new_fds (cs cs' : list conn_t) : Prop :=
  forall c', c' ∈ cs' -> fd c' = -1 \/ exists c, c ∈ cs /\ fd c' = fd c.

(** Properties of what was said, of the id, of the descriptors and of the
    two ends of the caller's socket. *)
Class Framed (I : sender -> Prop) : Prop := {
  framed_fields s s' : listenfd s' = listenfd s -> srtla_id s' = srtla_id s -> srt_addr s' = srt_addr s ->
    trace s' = trace s -> (calls s <= calls s')%nat -> no_new_fds (conns s) (conns s') -> I s -> I s';
  framed_socket fd s : I s -> I (s <| trace ::= cons (IoSocket fd) |>);
  framed_close fd s : I s -> I (s <| trace ::= cons (IoClose fd) |>)
}.

Lemma no_new_fds_refl cs : no_new_fds cs cs.
Proof. intros c Hc. right. by exists c. Qed.
Lemma no_new_fds_map (f : conn_t -> conn_t) cs : (forall c, c ∈ cs -> fd (f c) = fd c) -> no_new_fds cs (map f cs).
Proof. intros Hf c' (c & -> & Hc)%list_elem_of_fmap. right. exists c. auto. Qed.
Lemma no_new_fds_same cs cs' : map fd cs' = map fd cs -> no_new_fds cs cs'.
Proof.
  intros E c' Hc'. right. assert (H : fd c' ∈ map fd cs') by (by apply list_elem_of_fmap_2). rewrite E in H.
  apply list_elem_of_fmap in H as (c & Ec & Hc). by exists c.
Qed.

Class Maintains (I : sender -> Prop) {A} (m : SM A) : Prop := maintains : forall s, I s -> I (s_state_of (m s)).

Section Structure.
Context {I : sender -> Prop} `{HI : !Framed I}.
#[export] Instance maintains_ret {A} (a : A) : Maintains I (mret a).
Proof. by intros s. Qed.
#[export] Instance maintains_skip : Maintains I skip.
Proof. by intros s. Qed.
#[export] Instance maintains_stop {A} r : Maintains I (stop_with (A:=A) r).
Proof. by intros s. Qed.
#[export] Instance maintains_bind {A B} (m : SM A) (k : A -> SM B) :
  Maintains I m -> (forall a, Maintains I (k a)) -> Maintains I (m ≫= k).
Proof.
  intros Hm Hk s Hs. unfold mbind, SM_bind. specialize (Hm s Hs). destruct (m s) as [a s1|r s1]; [|done].
  by apply Hk.
Qed.
#[export] Instance maintains_if {A} (b : bool) (m1 m2 : SM A) : Maintains I m1 -> Maintains I m2 -> Maintains I (if b then m1 else m2).
Proof. by destruct b. Qed.
#[export] Instance maintains_dec {A} (Q : Prop) (b : {Q} + {~ Q}) (m1 m2 : SM A) :
  Maintains I m1 -> Maintains I m2 -> Maintains I (if b then m1 else m2).
Proof. by destruct b. Qed.
#[export] Instance maintains_when b m : Maintains I m -> Maintains I (when b m).
Proof. destruct b; [done|]. intros _. apply maintains_skip. Qed.
#[export] Instance maintains_option {A B} (o : option A) (m1 : A -> SM B) m2 :
  (forall a, Maintains I (m1 a)) -> Maintains I m2 -> Maintains I (match o with Some a => m1 a | None => m2 end).
Proof. by destruct o. Qed.
#[export] Instance maintains_pair {A B C} (o : A * B) (m : A -> B -> SM C) :
  (forall a b, Maintains I (m a b)) -> Maintains I (let '(a, b) := o in m a b).
Proof. by destruct o. Qed.
#[export] Instance maintains_mfor {A} (l : list A) body : (forall x, Maintains I (body x)) -> Maintains I (mfor l body).
Proof. intros Hb. induction l; cbn [mfor]; apply _. Qed.
#[export] Instance maintains_gets {A} (f : sender -> A) : Maintains I (gets f).
Proof. by intros s. Qed.
#[export] Instance maintains_int_op {A} (o : option A) : Maintains I (int_op o).
Proof. destruct o; [apply maintains_ret|apply maintains_stop]. Qed.
Lemma maintains_int_bind {A B} (o : option A) (k : A -> SM B) :
  (forall a, o = Some a -> Maintains I (k a)) -> Maintains I (int_op o ≫= k).
Proof. intros Hk s Hs. unfold mbind, SM_bind, int_op. destruct o as [a|]; [|done]. by apply Hk. Qed.
#[export] Instance maintains_deref p : Maintains I (deref p).
Proof. intros s. unfold deref. by destruct (lookup_conn p (conns s)). Qed.

(** Changes of other fields. *)
Lemma maintains_modify f :
  (forall s, listenfd (f s) = listenfd s /\ srtla_id (f s) = srtla_id s /\
             srt_addr (f s) = srt_addr s /\ trace (f s) = trace s /\ (calls s <= calls (f s))%nat /\
             no_new_fds (conns s) (conns (f s))) -> Maintains I (modify f).
Proof. intros Hf s. destruct (Hf s) as (E1 & E2 & E3 & E4 & E5 & E6). by apply framed_fields. Qed.
End Structure.


#[export] Hint Extern 5 (Maintains _ (modify _)) =>
  apply maintains_modify; intros ?; split_and!; first [reflexivity|apply no_new_fds_refl] : typeclass_instances.

#[export] Typeclasses Opaque mbind SM_bind mret SM_ret when skip mfor gets modify int_op stop_with next_call emit deref
  modify_conn for_conns get_seconds get_ms sendto recvfrom socket setsockopt bind_ close add_active_fd
  remove_active_fd send_reg send_reg1 send_reg2 select_conn send_packet handle_srt_data word on_conns
  nak_range nak_loop ack_loop handle_reg_ngp handle_reg2 to_srt handle_received handle_srtla_data setup_conn
  setup_lines setup_conns drop_conn update_conns open_socket open_each open_conns send_keepalive housekeep_conn
  check_global_timeout housekeeping_at connection_housekeeping iteration set_srtla_addr schedule_update_conns.

#[export] Instance maintains_set_srtla_addr I a : Framed I -> Maintains I (set_srtla_addr a).
Proof. intros HI. unfold set_srtla_addr. apply _. Qed.
#[export] Instance maintains_schedule_update I : Framed I -> Maintains I schedule_update_conns.
Proof. intros HI. unfold schedule_update_conns. apply _. Qed.

(** *** Updates that keep the descriptors *)

Class SameFd (f : conn_t -> conn_t) : Prop := same_fd c : fd (f c) = fd c.
#[export] Hint Extern 0 (SameFd _) => (intros ?; reflexivity) : typeclass_instances.
Class SameFds (f : list conn_t -> option (list conn_t)) : Prop :=
  same_fds cs cs' : f cs = Some cs' -> map fd cs' = map fd cs.

Lemma nak_conn_fd i c c' : nak_conn i c = Some c' -> fd c' = fd c.
Proof. unfold nak_conn. destruct (c_int _); [|done]. by intros [= <-]. Qed.
#[export] Instance register_nak_fds v : SameFds (register_nak v).
Proof.
  intros cs. induction cs as [|c cs IH]; intros cs'; cbn; [by intros [= <-]|]. destruct (find_log v c) as [i|].
  - destruct (nak_conn i c) as [c'|] eqn:E; [|done]. intros [= <-]. cbn. by rewrite (nak_conn_fd _ _ _ E).
  - destruct (register_nak v cs) as [r|]; [|done]. intros [= <-]. cbn. by rewrite (IH r).
Qed.
Lemma ack_entry_fd i c c' : ack_entry i c = Some c' -> fd c' = fd c.
Proof.
  unfold ack_entry. destruct (0 <? in_flight_pkts c); cbv zeta.
  all: destruct (c_int (_ * WINDOW_MULT)) as [load|]; cbn; [|done]; case_match; [|by intros [= <-]].
  all: destruct (c_int _); cbn; [|done]; by intros [= <-].
Qed.
Lemma ack_growth_fd c c' : ack_growth c = Some c' -> fd c' = fd c.
Proof. unfold ack_growth. case_match; [by intros [= <-]|]. destruct (c_int _); [|done]. by intros [= <-]. Qed.
Lemma srtla_ack_loop_fds v cs : forall found cs', srtla_ack_loop v found cs = Some cs' -> map fd cs' = map fd cs.
Proof.
  induction cs as [|c cs IH]; intros found cs'; cbn; [by intros [= <-]|]. set (hit := if found then None else find_log v c).
  destruct (match hit with Some i => ack_entry i c | None => Some c end) as [c1|] eqn:E1; [|done]. cbn.
  assert (F1 : fd c1 = fd c) by (destruct hit; [by eapply ack_entry_fd|congruence]).
  destruct (ack_growth c1) as [c2|] eqn:E2; [|done]. cbn. apply ack_growth_fd in E2.
  destruct (srtla_ack_loop v _ cs) as [r|] eqn:E3; [|done]. intros [= <-]. cbn. f_equal; [congruence|]. by eapply IH.
Qed.
#[export] Instance register_srtla_ack_fds v : SameFds (register_srtla_ack v).
Proof. intros cs cs'. apply srtla_ack_loop_fds. Qed.
Lemma srt_ack_fold_fd ack l : forall c n, fd (fold_left (srt_ack_step ack) l (c, n)).1 = fd c.
Proof. induction l as [|i l IH]; intros c n; cbn; [done|]. case_match; rewrite IH; done. Qed.
#[export] Instance conn_register_srt_ack_fd ack : SameFd (conn_register_srt_ack ack).
Proof.
  intros c. unfold conn_register_srt_ack. pose proof (srt_ack_fold_fd ack (log_order c) c 0) as E.
  by destruct (fold_left _ _ _) as [c' n].
Qed.
#[export] Instance maintains_register_srt_ack I ack : Framed I ->
  Maintains I (modify (fun s => s <| conns ::= register_srt_ack ack |>)).
Proof.
  intros HI. apply maintains_modify. intros s. split_and!; try done. apply no_new_fds_map.
  intros c _. apply conn_register_srt_ack_fd.
Qed.
Lemma reg_pkt_fd v c c' : reg_pkt v c = Some c' -> fd c' = fd c.
Proof. unfold reg_pkt. destruct (c_int _); [|done]. by intros [= <-]. Qed.

(** *** Calls that say nothing *)

Section Calls.
Context `{so : SenderOS} {I : sender -> Prop} `{HI : !Framed I}.

#[export] Instance maintains_next_call : Maintains I next_call.
Proof. intros s. apply framed_fields; try done; [cbn; lia|apply no_new_fds_refl]. Qed.
#[export] Instance maintains_modify_conn p f : SameFd f -> Maintains I (modify_conn p f).
Proof.
  intros Hf. apply maintains_modify. intros s. split_and!; try done. apply no_new_fds_map.
  intros c _. case_decide; [apply Hf|done].
Qed.
#[export] Instance maintains_for_conns body : (forall p, Maintains I (body p)) -> Maintains I (for_conns body).
Proof. intros Hb. unfold for_conns. apply _. Qed.
#[export] Instance maintains_on_conns f : SameFds f -> Maintains I (on_conns f).
Proof.
  intros Hf s Hs. unfold on_conns, mbind, SM_bind, gets, int_op. destruct (f (conns s)) as [cs'|] eqn:E; [|done].
  cbn. revert Hs. apply framed_fields; try done. apply no_new_fds_same. by apply Hf.
Qed.
#[export] Instance maintains_get_seconds : Maintains I get_seconds.
Proof. unfold get_seconds. apply _. Qed.
#[export] Instance maintains_get_ms : Maintains I get_ms.
Proof. unfold get_ms. apply _. Qed.
#[export] Instance maintains_socket : Maintains I socket.
Proof.
  unfold socket. apply maintains_bind; [apply _|]. intros t. apply maintains_bind; [|apply _].
  intros s. apply framed_socket.
Qed.
#[export] Instance maintains_setsockopt fd : Maintains I (setsockopt fd).
Proof. unfold setsockopt. apply _. Qed.
#[export] Instance maintains_bind_ fd : Maintains I (bind_ fd).
Proof. unfold bind_. apply _. Qed.
#[export] Instance maintains_close fd : Maintains I (close fd).
Proof. intros s. apply framed_close. Qed.
#[export] Instance maintains_add_active_fd fd : Maintains I (add_active_fd fd).
Proof. unfold add_active_fd. apply _. Qed.
#[export] Instance maintains_remove_active_fd fd : Maintains I (remove_active_fd fd).
Proof. unfold remove_active_fd. apply _. Qed.
#[export] Instance maintains_word buf i : Maintains I (word buf i).
Proof. unfold word. apply _. Qed.

#[export] Instance maintains_select_conn : Maintains I select_conn.
Proof. unfold select_conn. apply _. Qed.
#[export] Instance maintains_nak_range a b : Maintains I (nak_range a b).
Proof. unfold nak_range. apply _. Qed.
#[export] Instance maintains_nak_loop fuel : forall i buf n, Maintains I (nak_loop fuel i buf n).
Proof. induction fuel; intros i buf n; cbn [nak_loop]; apply _. Qed.
#[export] Instance maintains_ack_loop fuel : forall i buf n, Maintains I (ack_loop fuel i buf n).
Proof. induction fuel; intros i buf n; cbn [ack_loop]; apply _. Qed.
#[export] Instance maintains_setup_conn line : Maintains I (setup_conn line).
Proof.
  unfold setup_conn. destruct (parse_ip _); [|apply _]. apply maintains_bind; [apply _|]. intros cs.
  destruct (conn_find_by_src _ _); [apply _|]. apply maintains_bind; [apply _|]. intros q.
  apply maintains_bind; [|apply _]. apply maintains_modify. intros x. split_and!; try done. cbn.
  intros c [->|Hc]%elem_of_cons; [by left|]. right. by exists c.
Qed.
#[export] Instance maintains_setup_lines lines : Maintains I (setup_lines lines).
Proof. induction lines; cbn [setup_lines]; apply _. Qed.
#[export] Instance maintains_setup_conns : Maintains I setup_conns.
Proof. unfold setup_conns. apply _. Qed.
#[export] Instance maintains_drop_conn c : Maintains I (drop_conn c).
Proof.
  unfold drop_conn. do 4 (apply maintains_bind; [apply _|intros ?]). apply maintains_modify. intros x.
  split_and!; try done. cbn. intros c' [_ Hc']%list_elem_of_filter. right. by exists c'.
Qed.
#[export] Instance maintains_update_conns : Maintains I update_conns.
Proof.
  unfold update_conns. apply maintains_bind; [|apply _]. apply maintains_modify. intros x.
  split_and!; try done. by apply no_new_fds_map.
Qed.
#[export] Instance maintains_check_global_timeout ms : Maintains I (check_global_timeout ms).
Proof.
  unfold check_global_timeout. apply maintains_bind; [apply _|]. intros active. apply maintains_if; [apply _|].
  do 3 (apply maintains_bind; [apply _|intros ?]). apply maintains_if; [|apply _].
  apply maintains_bind; [apply _|]. intros connected. apply maintains_if; [apply _|].
  apply maintains_bind; [apply _|]. intros [|x [|y rest]]; apply _.
Qed.
End Calls.

(** ** The sender is honest *)

Notation Honest L tL t0 := (Maintains (speech_ok L tL t0)).

Section Handlers.
Context `{so : SenderOS} `{!SenderEnv} (L : Z) (tL : nat).
(** The listening socket stays open, so its descriptor is not given again. *)
Hypothesis listener_kept : forall t, so_socket t = L -> t = tL.
Hypothesis listener_valid : 0 <= L.

#[export] Instance speech_framed t0 : Framed (speech_ok L tL t0).
Proof.
  split.
  - intros s s' E1 E2 E3 E4 E5 E6 []. split; rewrite ?E1, ?E2, ?E3, ?E4; try done; try lia.
    + intros c Hc. destruct (E6 c Hc) as [->|(c0 & Hc0 & ->)]; [lia|auto].
    + by eapply caller_addr_mono.
    + eapply Forall_impl; [done|]. intros e. by apply said_mono.
  - intros fd s []. split; cbn; try done. by constructor.
  - intros fd s []. split; cbn; try done. by constructor.
Qed.

Lemma speech_from t0 t1 s : (t0 <= t1)%nat -> speech_ok L tL t1 s -> speech_ok L tL t0 s.
Proof. intros Ht []. split; try done. lia. Qed.
Lemma speech_now t0 s : speech_ok L tL t0 s -> speech_ok L tL (calls s) s.
Proof. intros []. by split. Qed.

(** Reading a connection, with what is known of its descriptor. *)
Lemma honest_deref t0 p {B} (k : conn_t -> SM B) :
  (forall c, fd c <> L -> Honest L tL t0 (k c)) -> Honest L tL t0 (deref p ≫= k).
Proof.
  intros Hk s Hs. unfold mbind, SM_bind, deref. destruct (lookup_conn p (conns s)) as [c|] eqn:E; [|done].
  apply Hk; [|done]. apply (sp_fds _ _ _ _ Hs). by apply lookup_conn_elem in E as [? _].
Qed.
Lemma honest_set_fd t0 p f : (forall c, fd c <> L -> fd (f c) <> L) -> Honest L tL t0 (modify_conn p f).
Proof.
  intros Hf s []. split; try done. cbn. intros c' (c & -> & Hc)%list_elem_of_fmap.
  case_decide; auto.
Qed.

(** Descriptors of new sockets. *)
Lemma honest_new_socket t0 {B} (k : Z -> SM B) :
  (forall sock, sock <> L -> Honest L tL t0 (k sock)) -> Honest L tL t0 (socket ≫= k).
Proof.
  intros Hk s Hs. unfold mbind, SM_bind, socket, next_call, emit, modify, mret, SM_ret. cbn.
  apply Hk; [|by apply (framed_socket (so_socket (calls s)) (s <| calls ::= S |>)), maintains_next_call].
  intros E. apply listener_kept in E. pose proof (sp_calls _ _ _ _ Hs). lia.
Qed.
#[export] Instance honest_open_socket t0 p : Honest L tL t0 (open_socket p).
Proof.
  unfold open_socket. apply honest_deref. intros c Hc. apply maintains_bind.
  { apply maintains_when. do 2 (apply maintains_bind; [apply _|intros ?]). apply honest_set_fd. cbn. lia. }
  intros _. apply honest_new_socket. intros sock Hsock. do 4 (apply maintains_if; [apply _|] ||
    (apply maintains_bind; [apply _|intros ?])). apply maintains_if; [apply _|].
  apply maintains_bind; [apply _|]. intros _. apply maintains_bind; [by apply honest_set_fd|apply _].
Qed.
#[export] Instance honest_open_each t0 ps : Honest L tL t0 (open_each ps).
Proof. induction ps; cbn [open_each]; apply _. Qed.
#[export] Instance honest_open_conns t0 : Honest L tL t0 open_conns.
Proof. unfold open_conns. apply _. Qed.

Lemma honest_emit t0 e : said L t0 e -> Honest L tL t0 (emit e).
Proof. intros He s []. split; cbn; try done. constructor; [by eapply said_mono|done]. Qed.

Lemma honest_sendto t0 fd buf n dst :
  (forall ret, said L t0 (IoSendto fd buf n dst ret)) -> Honest L tL t0 (sendto fd buf n dst).
Proof.
  intros Hs. unfold sendto. apply maintains_bind; [apply _|]. intros t.
  apply maintains_bind; [by apply honest_emit|apply _].
Qed.

(** *** Registrations and keepalives *)

Lemma honest_send_reg t0 type len p :
  (type = SRTLA_TYPE_REG1 /\ len = SRTLA_TYPE_REG1_LEN) \/ (type = SRTLA_TYPE_REG2 /\ len = SRTLA_TYPE_REG2_LEN) ->
  Honest L tL t0 (send_reg type len p).
Proof.
  intros Ht. unfold send_reg. apply honest_deref. intros c Hc. apply maintains_if; [apply _|].
  intros s Hs. unfold mbind at 1, SM_bind, gets. cbv beta iota. revert s Hs.
  enough (forall id, length id = Z.to_nat SRTLA_ID_LEN -> Honest L tL t0
    (dst ← gets srtla_addr; ret ← sendto (fd c) (reg_packet type id) len dst; mret (if ret =? len then 0 else -1))) as Hh
    by (intros s Hs; apply (Hh (srtla_id s)); [apply Hs|done]).
  intros id Hid. apply maintains_bind; [apply _|]. intros dst. apply maintains_bind; [|apply _].
  apply honest_sendto. intros ret. left. split; [done|]. left. exists id. split; [done|].
  destruct Ht as [[-> ->]|[-> ->]]; auto.
Qed.
#[export] Instance honest_send_reg1 t0 p : Honest L tL t0 (send_reg1 p).
Proof. apply honest_send_reg. by left. Qed.
#[export] Instance honest_send_reg2 t0 p : Honest L tL t0 (send_reg2 p).
Proof. apply honest_send_reg. by right. Qed.
#[export] Instance honest_send_keepalive t0 p : Honest L tL t0 (send_keepalive p).
Proof.
  unfold send_keepalive. apply honest_deref. intros c Hc. apply maintains_bind; [apply _|]. intros dst.
  apply maintains_bind; [|apply _]. apply honest_sendto. intros ret. left. split; [done|]. right. by left.
Qed.

(** *** Packets of the caller *)


Lemma honest_send_packet t0 p buf n : caller_packet L t0 buf n -> Honest L tL t0 (send_packet p buf n).
Proof.
  intros Hp. unfold send_packet. apply honest_deref. intros c Hc. apply maintains_bind; [apply _|]. intros dst.
  apply maintains_bind; [apply honest_sendto; intros ret; left; split; [done|]; by right; right|]. intros ret.
  apply maintains_if; [|apply _]. apply maintains_if; [|apply _]. apply maintains_int_bind.
  intros c' E. apply honest_set_fd. intros _ _. by rewrite (reg_pkt_fd _ _ _ E).
Qed.

(** What is known of a read in the code that follows it. *)
Lemma honest_recvfrom t0 fd {B} (k : Z * list byte * sockaddr -> SM B) :
  (forall t n buf from, so_recvfrom t fd = (n, buf, from) -> Honest L tL (S t) (k (n, buf, from))) ->
  Honest L tL t0 (recvfrom fd ≫= k).
Proof.
  intros Hk s Hs. unfold recvfrom, mbind, SM_bind, next_call, mret, SM_ret.
  destruct (so_recvfrom (calls s) fd) as [[n buf] from] eqn:E. set (s1 := s <| calls ::= S |>).
  assert (Hs1 : speech_ok L tL (S (calls s)) s1).
  { destruct (maintains_next_call (I := speech_ok L tL t0) s Hs). split; try done. }
  eapply speech_from; [|by apply (Hk _ _ _ _ E s1)]. pose proof (sp_from _ _ _ _ Hs). lia.
Qed.

#[export] Instance honest_handle_srt_data t0 : Honest L tL t0 (handle_srt_data L).
Proof.
  unfold handle_srt_data. apply honest_recvfrom. intros t n buf from E. apply maintains_bind.
  - apply maintains_when. intros s []. split; cbn; try done. right. exists t, n, buf. split; [lia|done].
  - intros _. apply maintains_bind; [apply _|]. intros [p|]; [|apply _]. apply honest_send_packet.
    exists t, from. split; [lia|done].
Qed.

(** *** Packets of the receiver *)

#[export] Instance honest_handle_reg_ngp t0 p ts : Honest L tL t0 (handle_reg_ngp p ts).
Proof. unfold handle_reg_ngp. apply _. Qed.

Lemma honest_handle_reg2 t0 p ts buf : length buf = Z.to_nat MTU -> Honest L tL t0 (handle_reg2 p ts buf).
Proof.
  intros Hb. unfold handle_reg2. apply maintains_bind; [apply _|]. intros pending. apply maintains_if; [apply _|].
  apply maintains_bind; [apply _|]. intros own. apply maintains_if; [apply _|]. apply maintains_bind; [|apply _].
  intros s []. split; cbn; try done. rewrite length_take, length_drop, Hb. done.
Qed.

Lemma honest_to_srt t0 buf n :
  0 < n -> consumed (get_srt_type buf n) = false -> (exists t l from, (t < t0)%nat /\ l <> L /\ so_recvfrom t l = (n, buf, from)) ->
  Honest L tL t0 (to_srt buf n).
Proof.
  intros Hn Hc Hr s Hs. unfold to_srt, mbind, SM_bind, gets.
  assert (Hh : Honest L tL (calls s) (sendto (listenfd s) buf n (srt_addr s);; skip)).
  { apply maintains_bind; [|apply _]. apply honest_sendto. intros ret. right.
    split_and!; [apply Hs|apply Hs|done|done|]. destruct Hr as (t & l & from & Ht & Hr). exists t, l, from.
    pose proof (sp_from _ _ _ _ Hs). split; [lia|done]. }
  eapply speech_from; [|apply Hh; by eapply speech_now]. apply Hs.
Qed.

Lemma honest_handle_received t0 p buf n :
  0 < n -> (exists t l from, (t < t0)%nat /\ l <> L /\ so_recvfrom t l = (n, buf, from)) ->
  get_srt_type buf n <> SRTLA_TYPE_REG_NGP -> get_srt_type buf n <> SRTLA_TYPE_REG2 ->
  Honest L tL t0 (handle_received p buf n (get_srt_type buf n)).
Proof.
  intros Hn Hr N1 N2.
  assert (Hto : get_srt_type buf n <> SRTLA_TYPE_ACK -> get_srt_type buf n <> SRTLA_TYPE_KEEPALIVE ->
    get_srt_type buf n <> SRTLA_TYPE_REG3 -> Honest L tL t0 (to_srt buf n)).
  { intros N3 N4 N5. apply honest_to_srt; [done| |done]. apply bool_decide_eq_false.
    rewrite !not_elem_of_cons. split_and!; try done. apply not_elem_of_nil. }
  unfold handle_received. destruct (Z.eqb_spec (get_srt_type buf n) SRT_TYPE_ACK) as [E|_].
  { do 2 (apply maintains_bind; [apply _|intros ?]). apply Hto; by rewrite E. }
  destruct (Z.eqb_spec (get_srt_type buf n) SRT_TYPE_NAK) as [E|_].
  { apply maintains_bind; [apply _|intros _]. apply Hto; by rewrite E. }
  destruct (Z.eqb_spec (get_srt_type buf n) SRTLA_TYPE_ACK); [apply _|].
  destruct (Z.eqb_spec (get_srt_type buf n) SRTLA_TYPE_KEEPALIVE); [apply _|].
  destruct (Z.eqb_spec (get_srt_type buf n) SRTLA_TYPE_REG3); [apply _|]. by apply Hto.
Qed.

#[export] Instance honest_handle_srtla_data t0 p : Honest L tL t0 (handle_srtla_data p).
Proof.
  unfold handle_srtla_data. apply honest_deref. intros c Hc. apply honest_recvfrom.
  intros t n buf from E. destruct (Z.leb_spec n 0); [apply _|].
  do 2 (apply maintains_bind; [apply _|intros ?]). cbv zeta.
  destruct (Z.eqb_spec (get_srt_type buf n) SRTLA_TYPE_REG_NGP) as [|N1]; [apply _|].
  destruct (Z.eqb_spec (get_srt_type buf n) SRTLA_TYPE_REG2) as [|N2].
  { apply honest_handle_reg2. pose proof (env_buffer t (fd c)) as Hb. by rewrite E in Hb. }
  apply maintains_bind; [apply _|]. intros _. apply honest_handle_received; [done| |done|done].
  exists t, (fd c), from. split; [lia|done].
Qed.

(** *** The loop *)

#[export] Instance honest_housekeep_conn t0 t p : Honest L tL t0 (housekeep_conn t p).
Proof. unfold housekeep_conn. apply _. Qed.
#[export] Instance honest_housekeeping t0 : Honest L tL t0 connection_housekeeping.
Proof. unfold connection_housekeeping, housekeeping_at. apply _. Qed.

#[export] Instance honest_iteration t0 hup ready : Honest L tL t0 (iteration hup ready).
Proof.
  unfold iteration. do 5 (apply maintains_bind; [apply _|intros ?]). cbv zeta.
  intros s Hs. unfold mbind at 1, SM_bind, gets. cbv beta iota. rewrite (sp_listen _ _ _ _ Hs). revert s Hs.
  change (Honest L tL t0 (when (bool_decide (L ∈ filter (fun fd => fd ∈ a3) ready)) (handle_srt_data L);;
    for_conns (fun p => c ← deref p; when ((0 <=? fd c) &&
      bool_decide (fd c ∈ filter (fun fd => fd ∈ a3) ready)) (handle_srtla_data p)))).
  apply _.
Qed.
End Handlers.

(** ** Start-up says nothing *)

Definition unspoken (e : io) : Prop := match e with IoSendto _ _ _ _ _ => False | _ => True end.

(** Before the sockets of the connections are opened. *)
Record mute (s : sender) : Prop := {
  mu_caller : srt_addr s = replicate 16 Byte.x00;
  mu_id : length (srtla_id s) = Z.to_nat SRTLA_ID_LEN;
  mu_fds : forall c, c ∈ conns s -> fd c = -1;
  mu_trace : Forall unspoken (trace s)
}.
#[export] Instance mute_framed : Framed mute.
Proof.
  split.
  - intros s s' _ E2 E3 E4 _ E6 []. split; rewrite ?E2, ?E3, ?E4; try done.
    intros c Hc. destruct (E6 c Hc) as [?|(c0 & Hc0 & ->)]; auto.
  - intros fd s []. split; cbn; try done. by constructor.
  - intros fd s []. split; cbn; try done. by constructor.
Qed.

(** The kernel does not give the descriptor of the listening socket, which
    stays open, to another one. *)
Class ListenerKept `{SenderOS} : Prop :=
  listener_kept s t t' : start initial_sender = Done tt s ->
    so_socket t = listenfd s -> so_socket t' = listenfd s -> t' = t.

Section Speech.
Context `{so : SenderOS} `{!SenderEnv} `{!ListenerKept}.

(** The code of [start] after the listening socket is there. *)
Definition start_rest : SM unit :=
  sock ← gets listenfd;
  ret ← bind_ sock;
  if ret <? 0 then stop_with (Exit 1) else
  add_active_fd sock;;
  connected ← open_conns;
  if connected <? 1 then stop_with (Exit 1) else
  t ← next_call;
  match so_getaddrinfo t with
  | Some (a :: rest) => modify (fun s => s <| addrs := a :: rest |>);; set_srtla_addr a
  | _ => stop_with (Exit 1)
  end.

#[local] Instance maintains_random_bytes I size : Framed I -> Maintains I (get_random_bytes size).
Proof. intros HI. unfold get_random_bytes. apply _. Qed.
Lemma random_bytes_length size s b s' : get_random_bytes size s = Done b s' -> Zlength b = size.
Proof.
  unfold get_random_bytes, mbind, SM_bind, next_call, mret, SM_ret, stop_with. cbn.
  destruct (so_urandom_open (calls s)); cbn; [|done].
  destruct (Z.eqb_spec (Zlength (so_urandom_read (S (calls s)) size)) size); cbn; [|done]. by intros [= <- _].
Qed.

Lemma start_split s : start initial_sender = Done tt s ->
  exists s1, mute s1 /\ 0 <= so_socket (calls s1) /\
    start_rest (s1 <| calls ::= S |> <| trace ::= cons (IoSocket (so_socket (calls s1))) |>
                   <| listenfd := so_socket (calls s1) |>) = Done tt s.
Proof.
  assert (M0 : mute initial_sender) by (split; [done|done| |constructor]; intros c Hc; by apply elem_of_nil in Hc).
  unfold start. unfold mbind at 1, SM_bind at 1.
  assert (M1 := maintains_setup_conns (I := mute) _ M0). destruct (setup_conns initial_sender) as [count s0|]; [|done].
  cbn [s_state_of] in M1. destruct (count <=? 0); [done|].
  unfold mbind at 1, SM_bind at 1.
  assert (M2 := maintains_random_bytes mute (SRTLA_ID_LEN / 2) _ _ M1).
  destruct (get_random_bytes (SRTLA_ID_LEN / 2) s0) as [rnd s2|] eqn:Er; [|done]. cbn [s_state_of] in M2.
  apply random_bytes_length in Er. unfold mbind at 1, SM_bind at 1, modify at 1. set (s1 := _ <| srtla_id ::= _ |>).
  assert (Hm : mute s1).
  { destruct M2. split; try done. cbn. rewrite length_app, length_drop. unfold Zlength in Er.
    change (SRTLA_ID_LEN / 2) with 128 in Er. change (Z.to_nat SRTLA_ID_LEN) with 256%nat in *. lia. }
  clearbody s1. unfold mbind at 1, SM_bind at 1.
  change (socket s1) with (Done (so_socket (calls s1))
    (s1 <| calls ::= S |> <| trace ::= cons (IoSocket (so_socket (calls s1))) |>)). cbv beta iota.
  destruct (Z.ltb_spec (so_socket (calls s1)) 0); [done|]. intros E. by exists s1.
Qed.

Lemma honest_start_rest L tL :
  (forall t, so_socket t = L -> t = tL) -> 0 <= L -> Honest L tL 0 start_rest.
Proof.
  intros HL Hp. pose proof (speech_framed L tL Hp 0) as HF. unfold start_rest.
  do 2 (apply maintains_bind; [apply _|intros ?]). apply maintains_if; [apply _|].
  apply maintains_bind; [apply _|]. intros _. apply maintains_bind; [by apply honest_open_conns|]. intros connected.
  apply maintains_if; [apply _|]. apply maintains_bind; [apply _|]. intros t.
  destruct (so_getaddrinfo t) as [[|]|]; apply _.
Qed.

(** The listening socket is not changed by the sockets of connections. *)
Definition listens (L : Z) (s : sender) : Prop := listenfd s = L.
#[local] Instance listens_framed L : Framed (listens L).
Proof. split; [|done|done]. intros s s' E. unfold listens. by rewrite E. Qed.
#[local] Instance listens_modify_conn L p f : Maintains (listens L) (modify_conn p f).
Proof. by intros s. Qed.
#[local] Instance listens_open_each L ps : Maintains (listens L) (open_each ps).
Proof. unfold open_each, open_socket. induction ps; apply _. Qed.
Lemma listens_start_rest L : Maintains (listens L) start_rest.
Proof.
  unfold start_rest, open_conns. do 2 (apply maintains_bind; [apply _|intros ?]). apply maintains_if; [apply _|].
  do 2 (apply maintains_bind; [apply _|intros ?]). apply maintains_if; [apply _|].
  apply maintains_bind; [apply _|]. intros t. destruct (so_getaddrinfo t) as [[|]|]; apply _.
Qed.

(** From its start the sender has said nothing but what it may say. *)
Lemma start_speech s : start initial_sender = Done tt s ->
  exists tL, 0 <= listenfd s /\ (forall t, so_socket t = listenfd s -> t = tL) /\ speech_ok (listenfd s) tL 0 s.
Proof.
  intros E. destruct (start_split s E) as (s1 & Hm & Hp & E1). set (L := so_socket (calls s1)) in *.
  set (s2 := _ <| listenfd := L |>) in E1.
  assert (Hl : listenfd s = L).
  { pose proof (listens_start_rest L s2 eq_refl) as Hl. by rewrite E1 in Hl. }
  rewrite Hl. exists (calls s1).
  assert (Hk : forall t, so_socket t = L -> t = calls s1) by (intros t Ht; by apply (listener_kept s (calls s1) t E); rewrite Hl).
  split_and!; [done|done|].
  assert (Hs2 : speech_ok L (calls s1) 0 s2).
  { destruct Hm as [M1 M2 M3 M4]. split; cbn; try done; [lia|lia| |by left|].
    - intros c Hc. rewrite (M3 c Hc). lia.
    - constructor; [done|]. eapply Forall_impl; [exact M4|]. by intros []. }
  pose proof (honest_start_rest L (calls s1) Hk Hp s2 Hs2) as Hh. by rewrite E1 in Hh.
Qed.

Lemma reachable_speech s : s_reachable s ->
  exists tL, 0 <= listenfd s /\ (forall t, so_socket t = listenfd s -> t = tL) /\ speech_ok (listenfd s) tL 0 s.
Proof.
  induction 1 as [s E|hup ready s s' _ (tL & Hp & Hk & IH) E]; [by apply start_speech|].
  pose proof (honest_iteration (listenfd s) tL Hk Hp 0 hup ready s IH) as Hh. rewrite E in Hh. cbn in Hh.
  rewrite (sp_listen _ _ _ _ Hh). by exists tL.
Qed.

(** Everything the sender ever sent on a socket of its links is a
    registration with a 256-byte id, a keepalive, or a packet of its SRT caller
    exactly as it was read from the listening socket; and what it sent through
    the listening socket was read from a link, is of a type that does not end
    at the sender, is unchanged, and goes to an address the caller wrote from. *)
Lemma reachable_said s fd buf n dst ret :
  s_reachable s -> IoSendto fd buf n dst ret ∈ trace s ->
  (fd <> listenfd s /\ (registration buf n \/ keepalive buf n \/ caller_packet (listenfd s) (calls s) buf n)) \/
  passed (listenfd s) (calls s) fd buf n dst.
Proof.
  intros Hr Hin. destruct (reachable_speech s Hr) as (tL & _ & _ & Hs). destruct Hs as [_ _ _ _ _ _ Hs].
  rewrite Forall_forall in Hs. apply (Hs _ Hin).
Qed.
End Speech.
