(* ===== verification/Speech.v ===== *)
(** * What the receiver says to its clients

    Every datagram the receiver sends to a client is one of its own control
    packets, an ACK, the echo of a keepalive, or a packet of the SRT server,
    relayed.  The code is [Within told]: it adds nothing else to the trace. *)

From stdpp Require Import list gmap.
From S2P Require Import Prelude Config Wire NetUtils NakDedup AuthRateLimiter Connection World.
From S2P Require Import Registry Quality SrtHandler SrtlaHandler Exporter MainLoop Hoare Invariant.
From S2P Require Import RegistryProofs HandlerProofs Scenario LoopProofs Accounts Protocol Simulation.

(** ** Answers *)

Section Answers.
Context {os : OS}.

(** A packet that [recv] read from the server into the receiver's buffer, in
    one of the first [k] calls. *)
Definition server_packet (k : nat) (buf : list byte) : Prop :=
  exists t fd p, (t < k)%nat /\ os_recv t fd = Some p /\ buf = take (Z.to_nat MTU) p /\ SRT_MIN_LEN <= Zlength buf.

Inductive answer (k : nat) : list byte -> Prop :=
  | answer_control type : type ∈ [SRTLA_TYPE_REG_ERR; SRTLA_TYPE_REG_NGP; SRTLA_TYPE_REG3; SRTLA_TYPE_KEEPALIVE] ->
      answer k (pad_payload (header_packet type))
  | answer_reg2 id : answer k (pad_payload (reg2_packet id))
  | answer_ack log : answer k (pad_payload (ack_packet log))
  | answer_echo b : is_srtla_keepalive b (Zlength b) = true -> answer k (pad_payload b)
  | answer_relay buf : server_packet k buf -> answer k buf
  | answer_relay_last buf : server_packet k buf -> answer k (pad_payload buf).

Definition answered (k : nat) (e : io) : Prop :=
  match e with
  | IoSendto _ data _ => answer k data
  | IoSendmmsg _ data _ => answer k data
  | _ => True
  end.

Lemma server_packet_mono k k' buf : (k <= k')%nat -> server_packet k buf -> server_packet k' buf.
Proof. intros Hk (t & fd & p & Ht & H). exists t, fd, p. split; [lia|done]. Qed.
Lemma answered_mono k k' e : (k <= k')%nat -> answered k e -> answered k' e.
Proof.
  intros Hk. assert (Ha : forall d, answer k d -> answer k' d).
  { intros d []; eauto using answer, server_packet_mono. }
  destruct e; cbn; auto.
Qed.

(** From a state after [t0] calls: calls are made and answers added. *)
Definition told (t0 : nat) (w w' : world) : Prop := (t0 <= calls w)%nat ->
  (calls w <= calls w')%nat /\ exists new, trace w' = new ++ trace w /\ Forall (answered (calls w')) new.

#[export] Instance told_preorder t0 : PreOrder (told t0).
Proof.
  split.
  - intros w _. split; [done|]. by exists [].
  - intros a b c H1 H2 Ha. destruct (H1 Ha) as (C1 & n1 & E1 & F1). destruct (H2 ltac:(lia)) as (C2 & n2 & E2 & F2).
    split; [lia|]. exists (n2 ++ n1). rewrite E2, E1, app_assoc. split; [done|]. apply Forall_app_2; [done|].
    eapply Forall_impl; [exact F1|]. intros e. by apply answered_mono.
Qed.

Lemma told_same t0 w w' : trace w' = trace w -> (calls w <= calls w')%nat -> told t0 w w'.
Proof. intros E C _. split; [done|]. by exists []. Qed.
Lemma told_modify t0 f : (forall w, trace (f w) = trace w /\ calls (f w) = calls w) -> Within (told t0) (modify f).
Proof. intros Hf w. destruct (Hf w) as [E C]. apply told_same; [done|]. cbn. by rewrite C. Qed.
#[export] Instance told_next_call t0 : Within (told t0) next_call.
Proof. intros w. apply told_same; [done|]. cbn. lia. Qed.
#[export] Instance told_inc_by t0 c n : Within (told t0) (inc_by c n).
Proof. by apply told_modify. Qed.
#[export] Instance told_inc t0 c : Within (told t0) (inc c).
Proof. apply told_inc_by. Qed.
#[export] Instance told_fresh_ptr t0 : Within (told t0) fresh_ptr.
Proof. intros w. by apply told_same. Qed.
#[export] Instance told_modify_group t0 p f : Within (told t0) (modify_group p f).
Proof. by apply told_modify. Qed.
#[export] Instance told_modify_conn t0 p q f : Within (told t0) (modify_conn p q f).
Proof. apply told_modify_group. Qed.
#[export] Instance told_set_groups t0 gs : Within (told t0) (set_groups gs).
Proof. by apply told_modify. Qed.
#[export] Instance told_add_group t0 g : Within (told t0) (add_group g).
Proof. by apply told_modify. Qed.

End Answers.

Class Answered {os : OS} (e : io) : Prop := is_answered : answered 0 e.
#[export] Hint Extern 0 (Answered _) => exact I : typeclass_instances.

Section Told.
Context {os : OS}.
#[export] Instance told_emit t0 e : Answered e -> Within (told t0) (emit e).
Proof.
  intros He w Hw. split; [done|]. exists [e]. split; [done|]. constructor; [|done]. eapply answered_mono; [|exact He]. lia.
Qed.
Lemma told_say t0 e : answered t0 e -> Within (told t0) (emit e).
Proof. intros He w Hw. split; [done|]. exists [e]. split; [done|]. constructor; [by eapply answered_mono|done]. Qed.

(** ** Calls that say nothing *)

Context {hc : HandlerConfig} {ec : ExporterConfig}.

#[export] Instance told_send t0 fd b : Within (told t0) (send fd b).
Proof. unfold send. apply _. Qed.
#[export] Instance told_respond t0 fd b : Within (told t0) (respond fd b).
Proof. unfold respond. apply _. Qed.
#[export] Instance told_socket t0 : Within (told t0) socket.
Proof. unfold socket. apply _. Qed.
#[export] Instance told_setsockopt t0 fd : Within (told t0) (setsockopt fd).
Proof. unfold setsockopt. apply _. Qed.
#[export] Instance told_fcntl_getfl t0 fd : Within (told t0) (fcntl_getfl fd).
Proof. unfold fcntl_getfl. apply _. Qed.
#[export] Instance told_fcntl_setfl t0 fd : Within (told t0) (fcntl_setfl fd).
Proof. unfold fcntl_setfl. apply _. Qed.
#[export] Instance told_connect_srt t0 fd : Within (told t0) (connect_srt fd).
Proof. unfold connect_srt, connect. apply _. Qed.
#[export] Instance told_close t0 fd : Within (told t0) (close fd).
Proof. unfold close. do 2 (apply within_bind; [apply _|intros ?]). by apply told_modify. Qed.
#[export] Instance told_epoll_add t0 fd p : Within (told t0) (epoll_add fd p).
Proof.
  unfold epoll_add. do 2 (apply within_bind; [apply _|intros ?]). apply within_bind; [|apply _].
  apply within_when. by apply told_modify.
Qed.
#[export] Instance told_epoll_remove t0 fd : Within (told t0) (epoll_remove fd).
Proof. unfold epoll_remove. do 2 (apply within_bind; [apply _|intros ?]). by apply told_modify. Qed.
#[export] Instance told_get_local_port t0 fd : Within (told t0) (get_local_port fd).
Proof. unfold get_local_port. apply _. Qed.
#[export] Instance told_get_seconds t0 : Within (told t0) get_seconds.
Proof. unfold get_seconds. apply _. Qed.
#[export] Instance told_get_ms t0 : Within (told t0) get_ms.
Proof. unfold get_ms. apply _. Qed.
#[export] Instance told_open_file t0 : Within (told t0) open_file.
Proof. unfold open_file. apply _. Qed.
#[export] Instance told_read_random t0 fuel : forall b n, Within (told t0) (read_random fuel b n).
Proof. induction fuel; intros b n; cbn [read_random]; apply _. Qed.
#[export] Instance told_get_random_bytes t0 n : Within (told t0) (get_random_bytes n).
Proof. unfold get_random_bytes. apply _. Qed.
#[export] Instance told_write_info t0 g : Within (told t0) (write_socket_info_file g).
Proof. unfold write_socket_info_file. apply _. Qed.
#[export] Instance told_destroy_group t0 g : Within (told t0) (destroy_group g).
Proof. unfold destroy_group, remove_socket_info_file. apply _. Qed.
#[export] Instance told_remove_group t0 p : Within (told t0) (remove_group p).
Proof. unfold remove_group. apply _. Qed.
#[export] Instance told_srt_remove_group t0 p c : Within (told t0) (srt_remove_group p c).
Proof. unfold srt_remove_group. apply _. Qed.
#[export] Instance told_evict t0 : Within (told t0) evict_oldest_pending_group.
Proof. unfold evict_oldest_pending_group. apply _. Qed.
#[export] Instance told_evaluate_group t0 p t : Within (told t0) (evaluate_group p t).
Proof. unfold evaluate_group. apply _. Qed.
#[export] Instance told_adjust_weights t0 p t : Within (told t0) (adjust_weights p t).
Proof. unfold adjust_weights. apply _. Qed.
#[export] Instance told_quality_pass t0 ts : Within (told t0) (quality_pass ts).
Proof. unfold quality_pass. apply _. Qed.
#[export] Instance told_log_forward_drop t0 : Within (told t0) log_forward_drop.
Proof.
  unfold log_forward_drop. apply within_bind; [by apply told_modify|]. intros _.
  apply within_bind; [apply _|]. intros [now|]; [|apply _]. apply within_bind; [apply _|]. intros last.
  apply within_if; [apply _|]. apply within_bind; [by apply told_modify|apply _].
Qed.
#[export] Instance told_record_auth_failure t0 a t : Within (told t0) (record_auth_failure a t).
Proof. unfold record_auth_failure. apply within_bind; [apply _|]. intros _. by apply told_modify. Qed.
#[export] Instance told_is_duplicate_nak t0 gp b n : Within (told t0) (is_duplicate_nak gp b n).
Proof. unfold is_duplicate_nak. apply _. Qed.
#[export] Instance told_account_nak t0 gp cp b n t : Within (told t0) (account_nak gp cp b n t).
Proof. unfold account_nak. apply _. Qed.
#[export] Instance told_forward t0 p b : Within (told t0) (forward_to_srt_server p b).
Proof. unfold forward_to_srt_server, ensure_group_socket, abandon_socket. apply _. Qed.
#[export] Instance told_render t0 now : Within (told t0) (render now).
Proof. unfold render, render_conns, render_group, group_port. apply _. Qed.
#[export] Instance told_recv t0 fd : Within (told t0) (recv fd).
Proof. unfold recv. apply _. Qed.
#[export] Instance told_send_response t0 fuel client : forall rest, Within (told t0) (send_response fuel client rest).
Proof. induction fuel; intros rest; cbn [send_response]; apply _. Qed.
#[export] Instance told_exporter t0 scrapes : Within (told t0) (exporter_handle_event scrapes).
Proof. unfold exporter_handle_event, serve. apply _. Qed.

(** ** What is said *)

Lemma told_sendto t0 d b : answer t0 b -> Within (told t0) (sendto d b).
Proof.
  intros Hb. unfold sendto. apply within_bind; [apply _|]. intros t. apply within_bind; [by apply told_say|apply _].
Qed.
Lemma told_sendmmsg t0 d b : answer t0 b -> Within (told t0) (sendmmsg d b).
Proof.
  intros Hb. unfold sendmmsg. apply within_bind; [apply _|]. intros t. apply within_bind; [by apply told_say|apply _].
Qed.
Lemma told_pad_sendto t0 b d : answer t0 (pad_payload b) -> Within (told t0) (pad_sendto b d).
Proof. intros Hb. unfold pad_sendto. apply within_bind; [by apply told_sendto|apply _]. Qed.

Lemma told_reply t0 type a :
  type ∈ [SRTLA_TYPE_REG_ERR; SRTLA_TYPE_REG_NGP; SRTLA_TYPE_REG3; SRTLA_TYPE_KEEPALIVE] ->
  Within (told t0) (reply type a).
Proof. intros Ht. unfold reply. apply within_bind; [by apply told_pad_sendto, answer_control|apply _]. Qed.
#[export] Instance told_send_keepalive t0 c : Within (told t0) (send_keepalive c).
Proof.
  unfold send_keepalive. apply within_bind; [|apply _]. apply told_pad_sendto, answer_control. set_solver.
Qed.
Lemma told_reject t0 type c a :
  type ∈ [SRTLA_TYPE_REG_ERR; SRTLA_TYPE_REG_NGP; SRTLA_TYPE_REG3; SRTLA_TYPE_KEEPALIVE] ->
  Within (told t0) (reject_connection type c a).
Proof. intros Ht. unfold reject_connection. apply within_bind; [by apply told_reply|apply _]. Qed.

#[export] Instance told_register_group t0 a b t : Within (told t0) (register_group a b t).
Proof.
  unfold register_group. apply within_bind; [unfold reg1_refusal; apply _|]. intros [reason|].
  - apply within_bind; [apply told_reply; set_solver|apply _].
  - apply within_bind; [unfold make_group; apply _|]. intros g. apply within_bind; [|apply _].
    apply told_pad_sendto, answer_reg2.
Qed.
#[export] Instance told_register_connection t0 a b t : Within (told t0) (register_connection a b t).
Proof.
  unfold register_connection. apply within_bind; [apply _|]. intros gs.
  destruct (find_group_by_id _ gs) as [g|]; [|apply told_reject; set_solver]. cbv zeta.
  apply within_if; [apply told_reject; set_solver|]. apply within_if; [apply told_reject; set_solver|].
  apply within_bind; [apply _|]. intros new. apply within_bind; [apply told_pad_sendto, answer_control; set_solver|].
  apply _.
Qed.
#[export] Instance told_register_packet t0 gp cp sn : Within (told t0) (register_packet gp cp sn).
Proof.
  unfold register_packet. do 2 (apply within_bind; [apply _|intros ?]). apply within_if; [|apply _].
  apply within_bind; [|apply _]. apply told_pad_sendto, answer_ack.
Qed.
Lemma told_handle_keepalive t0 gp cp a b :
  is_srtla_keepalive b (Zlength b) = true -> Within (told t0) (handle_keepalive gp cp a b (Zlength b)).
Proof.
  intros Hb. unfold handle_keepalive. do 2 (apply within_bind; [apply _|intros ?]). apply within_bind; [|apply _].
  by apply told_pad_sendto, answer_echo.
Qed.
#[export] Instance told_handle_data t0 gp cp b n a t : Within (told t0) (handle_data gp cp b n a t).
Proof. unfold handle_data. apply _. Qed.
#[export] Instance told_process_single_packet t0 b a t : Within (told t0) (process_single_packet b (Zlength b) a t).
Proof.
  unfold process_single_packet. do 2 (apply within_if; [apply _|]). apply within_bind; [apply _|]. intros gs.
  destruct (find_by_address a gs) as [[g [c|]]|]; try apply _. cbv zeta.
  do 2 (apply within_bind; [apply _|intros ?]). destruct (is_srtla_keepalive b (Zlength b)) eqn:E; [|apply _].
  by apply told_handle_keepalive.
Qed.
#[export] Instance told_process_packets t0 r t : Within (told t0) (process_packets r t).
Proof. unfold process_packets, process_datagram. apply _. Qed.

(** *** The server's packets *)

Lemma told_relay_to_clients t0 g b n : server_packet t0 b -> Within (told t0) (relay_to_clients g b n).
Proof.
  intros Hb. unfold relay_to_clients. apply within_bind; [by apply told_sendmmsg, answer_relay|apply _].
Qed.
Lemma told_relay_to_last t0 g b n : server_packet t0 b -> Within (told t0) (relay_to_last g b n).
Proof.
  intros Hb. unfold relay_to_last. apply within_bind; [by apply told_pad_sendto, answer_relay_last|apply _].
Qed.
Lemma told_handle_srt_packet t0 gp b n : server_packet t0 b -> Within (told t0) (handle_srt_packet gp b n).
Proof.
  intros Hb. unfold handle_srt_packet. do 3 (apply within_bind; [apply _|intros ?]). apply within_if; [apply _|].
  apply within_bind; [|apply _]. apply within_if; [by apply told_relay_to_clients|by apply told_relay_to_last].
Qed.
#[export] Instance told_handle_srt_data t0 gp : Within (told t0) (handle_srt_data gp).
Proof.
  unfold handle_srt_data. apply within_bind; [apply _|]. intros g w Hw. unfold mbind at 1, M_bind at 1.
  unfold recv, mbind at 1, M_bind at 1, next_call, mret, M_ret. set (w1 := w <| calls ::= S |>).
  assert (H1 : told t0 w w1) by (apply told_same; [done|cbn; lia]). cbv zeta.
  enough (H2 : told (S (calls w)) w1 (state_of ((
    let n := match take (Z.to_nat MTU) <$> os_recv (calls w) (srt_socket g) with Some buf => Zlength buf | None => -1 end in
    let buf := default [] (take (Z.to_nat MTU) <$> os_recv (calls w) (srt_socket g)) in
    when (SRT_MIN_LEN <=? n) (inc SRT_PACKETS_RECEIVED;; inc_by SRT_BYTES_RECEIVED n);;
    if n <? SRT_MIN_LEN then srt_remove_group gp GROUPS_REMOVED_SRT_ERROR
    else handle_srt_packet gp buf n) w1))).
  { apply (transitivity (R := told t0) H1); [|done]. intros _. by apply H2. }
  cbv zeta. clearbody w1. revert w1 H1. intros w1 _. revert w1.
  destruct (os_recv (calls w) (srt_socket g)) as [p|] eqn:Er; cbn [fmap option_fmap option_map default];
    [|intros w1; apply (within (R := told (S (calls w))))].
  set (buf := take (Z.to_nat MTU) p). change (Within (told (S (calls w))) (
    when (SRT_MIN_LEN <=? Zlength buf) (inc SRT_PACKETS_RECEIVED;; inc_by SRT_BYTES_RECEIVED (Zlength buf));;
    if Zlength buf <? SRT_MIN_LEN then srt_remove_group gp GROUPS_REMOVED_SRT_ERROR
    else handle_srt_packet gp buf (Zlength buf))).
  apply within_bind; [apply _|]. intros _. destruct (Z.ltb_spec (Zlength buf) SRT_MIN_LEN); [apply _|].
  apply told_handle_srt_packet. exists (calls w), (srt_socket g), p. split; [lia|done].
Qed.

(** *** The loop *)

#[export] Instance told_cleanup_groups t0 t gs : Within (told t0) (cleanup_groups t send_keepalive gs).
Proof.
  assert (Hc : forall cs, Within (told t0) (cleanup_conns t send_keepalive cs)).
  { intros cs. unfold cleanup_conns, cleanup_conn, cleanup_recovery. induction cs; apply _. }
  unfold cleanup_groups, cleanup_group. induction gs; apply _.
Qed.
#[export] Instance told_cleanup_inactive t0 t : Within (told t0) (cleanup_inactive t send_keepalive).
Proof.
  unfold cleanup_inactive. apply within_bind; [apply _|]. intros run_at. apply within_if; [apply _|].
  apply within_bind; [by apply told_modify|apply _].
Qed.
#[export] Instance told_handle_event t0 ts ev : Within (told t0) (handle_event ts ev).
Proof. destruct ev; cbn [handle_event]; apply _. Qed.
#[export] Instance told_handle_events t0 ts events : Within (told t0) (handle_events ts events).
Proof. induction events; cbn [handle_events]; apply _. Qed.
#[export] Instance told_loop_iteration t0 events : Within (told t0) (loop_iteration events).
Proof.
  unfold loop_iteration. apply within_bind; [apply _|]. intros [ts|]; [|apply _].
  do 2 (apply within_bind; [apply _|intros _]). apply within_bind; [by apply told_modify|apply _].
Qed.

(** Everything the receiver ever sent to a client, in every state it
    reaches, is one of its control packets (REG_ERR, REG_NGP, REG3, a
    keepalive, REG2 or an ACK), the echo of a keepalive, or a packet the SRT
    server sent, byte for byte and padded at most. *)
Lemma reachable_answered w e : reachable w -> e ∈ trace w -> answered (calls w) e.
Proof.
  intros Hr. enough (HF : Forall (answered (calls w)) (trace w)) by (rewrite Forall_forall in HF; apply HF).
  induction Hr as [|w events w' _ IH E]; [constructor|].
  destruct (within_done (told 0) _ _ _ _ E) as (Hc & new & -> & Hn); [lia|]. apply Forall_app_2; [done|].
  eapply Forall_impl; [exact IH|]. intros x. by apply answered_mono.
Qed.
End Told.
