(* ===== verification/Integrity.v ===== *)
(** * The stream, end to end

    Senders (src/sender.cpp) and a receiver (src/receiver_main.cpp) with a
    network between them that loses, repeats, delays and reorders datagrams
    but makes none up: what reaches the SRT server is what the callers gave the
    senders, and what reaches a caller is what the server sent. *)

From stdpp Require Import list gmap.
From S2P Require Import SenderModel SenderLog SenderProofs SenderSpeech SenderScenario.
From S2P Require Import Prelude Config Wire NetUtils AuthRateLimiter Connection World Registry.
From S2P Require Import SrtHandler SrtlaHandler Exporter MainLoop Hoare Invariant HandlerProofs Scenario.
From S2P Require Import LoopProofs Accounts Protocol Simulation Refinement Speech.

(** ** Packet types *)

Lemma be16_type z rest n : 2 <= n -> get_srt_type (be16_bytes z ++ rest) n = u16 z.
Proof.
  intros Hn. unfold get_srt_type. destruct (Z.ltb_spec n 2); [lia|]. apply (read_be16_bytes z rest).
Qed.

(** A prefix of at least two bytes has the type of the whole. *)
Lemma get_srt_type_take buf k n :
  (2 <= length (take k buf))%nat -> 2 <= n ->
  get_srt_type (take k buf) (Zlength (take k buf)) = get_srt_type buf n.
Proof.
  intros Hl Hn. unfold get_srt_type. unfold Zlength.
  destruct (Z.ltb_spec (Z.of_nat (length (take k buf))) 2); [lia|]. destruct (Z.ltb_spec n 2); [lia|].
  rewrite length_take in Hl. destruct k as [|[|k]]; [lia|lia|]. by destruct buf as [|x [|y buf]].
Qed.

Lemma pad_payload_app b : exists z, pad_payload b = b ++ z.
Proof. unfold pad_payload. destruct (_ <=? _); [exists []; by rewrite app_nil_r|by eexists]. Qed.
Lemma pad_payload_length b : (32 <= length (pad_payload b))%nat.
Proof.
  unfold pad_payload, PAD_LEN, Zlength. destruct (Z.leb_spec 32 (Z.of_nat (length b))); [lia|].
  rewrite length_app, length_replicate. lia.
Qed.
Lemma pad_payload_type z rest n :
  2 <= n -> get_srt_type (pad_payload (be16_bytes z ++ rest)) n = u16 z.
Proof.
  intros Hn. destruct (pad_payload_app (be16_bytes z ++ rest)) as (pad & ->). rewrite <- app_assoc.
  by apply be16_type.
Qed.
Lemma get_srt_type_app b z n :
  2 <= Zlength b -> 2 <= n -> get_srt_type (b ++ z) n = get_srt_type b (Zlength b).
Proof.
  intros Hb Hn. unfold get_srt_type. destruct (Z.ltb_spec n 2), (Z.ltb_spec (Zlength b) 2); try lia.
  unfold Zlength in Hb. destruct b as [|x [|y b]]; [cbn in Hb; lia|cbn in Hb; lia|done].
Qed.

(** The sender's registrations and keepalives are recognised as such. *)
Lemma registration_recognised buf n :
  registration buf n -> reg1 (take (Z.to_nat n) buf) \/ reg2 (take (Z.to_nat n) buf).
Proof.
  intros (id & Hid & Hcase).
  assert (Hlen : forall type, length (reg_packet type id) = 258%nat).
  { intros type. unfold reg_packet. rewrite length_app, Hid. done. }
  assert (Htake : forall type, take (Z.to_nat 258) (reg_packet type id) = reg_packet type id).
  { intros type. apply take_ge. by rewrite Hlen. }
  assert (Hz : forall type, Zlength (reg_packet type id) = 258) by (intros type; unfold Zlength; by rewrite Hlen).
  destruct Hcase as [[-> ->]|[-> ->]]; [left|right]; rewrite Htake; unfold reg1, reg2, is_srtla_reg1, is_srtla_reg2;
    rewrite Hz; cbn [negb Z.eqb]; unfold reg_packet; by rewrite be16_type.
Qed.
Lemma keepalive_recognised buf n :
  keepalive buf n -> is_srtla_keepalive (take (Z.to_nat n) buf) (Zlength (take (Z.to_nat n) buf)) = true.
Proof. intros [-> ->]. reflexivity. Qed.

(** The types of the receiver's own packets. *)
Lemma control_type type n : 2 <= n -> get_srt_type (pad_payload (header_packet type)) n = u16 type.
Proof. intros Hn. unfold header_packet. rewrite <- (app_nil_r (be16_bytes type)). by apply pad_payload_type. Qed.
Lemma ack_type log n : 2 <= n -> get_srt_type (pad_payload (ack_packet log)) n = SRTLA_TYPE_ACK.
Proof.
  intros Hn. change (ack_packet log) with
    (be16_bytes SRTLA_TYPE_ACK ++ ([Byte.x00; Byte.x00] ++ concat (map le32_bytes log))).
  by rewrite pad_payload_type.
Qed.
Lemma echo_type b n :
  is_srtla_keepalive b (Zlength b) = true -> 2 <= n -> get_srt_type (pad_payload b) n = SRTLA_TYPE_KEEPALIVE.
Proof.
  intros Hb%Z.eqb_eq Hn. destruct (pad_payload_app b) as (z & ->). rewrite get_srt_type_app; [done| |done].
  unfold get_srt_type in Hb. destruct (Z.ltb_spec (Zlength b) 2); done.
Qed.

(** A sender, on its own host, in a state it reached. *)
Record peer := mkPeer {
  p_os : SenderOS;
  p_env : @SenderEnv p_os;
  p_kept : @ListenerKept p_os;
  p_state : sender;
  p_reached : @s_reachable p_os p_state
}.

Section Network.
Context {os : OS} {hc : HandlerConfig} {ec : ExporterConfig} {stdin : StdinOpen}.

(** Every datagram the receiver got is one that one of the senders sent on a
    link, in any order, any number of times. *)
Definition carried_up (senders : list peer) (D : list datagram) : Prop :=
  forall a b, (a, b) ∈ D -> exists q fd buf n dst ret, q ∈ senders /\
    SenderModel.IoSendto fd buf n dst ret ∈ SenderModel.trace (p_state q) /\ fd <> listenfd (p_state q) /\
    b = take (Z.to_nat n) buf.

(** C9: the stream up.  When the network makes nothing up, all that the
    receiver's loop ever sent on sockets to the SRT server are packets that
    one of the senders read from its SRT caller, byte for byte.  The receiver's
    standard input is open and its events are registered. *)
Theorem stream_up senders D w fd data ret :
  reachable_by D w -> carried_up senders D -> IoSend fd data ret ∈ trace w ->
  exists q t n buf from, q ∈ senders /\ (t < SenderModel.calls (p_state q))%nat /\
    @so_recvfrom (p_os q) t (listenfd (p_state q)) = (n, buf, from) /\ data = take (Z.to_nat n) buf.
Proof.
  intros Hw Hnet Hin.
  destruct (forwarded_from D w fd data ret Hw Hin) as (D1 & D2 & a & -> & N1 & N2 & N3 & Hlen & _).
  destruct (Hnet a data) as ([so env kept s Hs] & fd' & buf & n & dst & ret' & Hq & Hsaid & Hfd & Ed); [set_solver|].
  cbn in Hsaid, Hfd.
  destruct (@reachable_said so env kept s _ _ _ _ _ Hs Hsaid) as [[_ [Hr|[Hk|(t & from & Ht & E)]]]|(? & _)];
    [..|by eexists _, t, n, buf, from|done].
  - apply registration_recognised in Hr. rewrite <- Ed in Hr. unfold reg1, reg2 in Hr.
    destruct Hr; congruence.
  - apply keepalive_recognised in Hk. rewrite <- Ed in Hk. congruence.
Qed.

Context {sos : SenderOS} {env : SenderEnv} {kept : ListenerKept}.

(** Every datagram a socket of a link has given the sender is one the
    receiver sent to a client. *)
Definition carried_down (w : world) (s : sender) : Prop :=
  forall t l n buf from, (t < SenderModel.calls s)%nat -> so_recvfrom t l = (n, buf, from) -> l <> listenfd s -> 0 < n ->
  exists e, e ∈ trace w /\
    match e with IoSendto _ data _ | IoSendmmsg _ data _ => data = take (Z.to_nat n) buf | _ => False end.

(** C10: the stream down.  When the network makes nothing up, all that the
    sender ever sent through its listening socket to the SRT caller are
    packets the receiver read from the SRT server, byte for byte and padded at
    most, and one packet of the receiver's own: REG_ERR. *)
Theorem stream_down s w buf n dst ret :
  s_reachable s -> reachable w -> carried_down w s ->
  SenderModel.IoSendto (listenfd s) buf n dst ret ∈ SenderModel.trace s ->
  (exists p, server_packet (calls w) p /\ (take (Z.to_nat n) buf = p \/ take (Z.to_nat n) buf = pad_payload p)) \/
  take (Z.to_nat n) buf = pad_payload (header_packet SRTLA_TYPE_REG_ERR).
Proof.
  intros Hs Hw Hnet Hsaid.
  destruct (reachable_said s _ _ _ _ _ Hs Hsaid) as [[? _]|(_ & _ & Hn & Hc & t & l & from & Hbefore & Hl & E)]; [done|].
  destruct (Hnet t l n buf from Hbefore E Hl Hn) as (e & He & Ed).
  assert (Ha : answer (calls w) (take (Z.to_nat n) buf)).
  { pose proof (reachable_answered w e Hw He) as Ha. destruct e; try done; by rewrite <- Ed. }
  clear Ed He. set (data := take (Z.to_nat n) buf) in *.
  assert (Htype : (16 <= length data)%nat -> consumed (get_srt_type data (Zlength data)) = false).
  { intros Hl16. unfold data in *. rewrite (get_srt_type_take buf _ n); [done|lia|].
    rewrite length_take in Hl16. lia. }
  assert (Hz : (32 <= length data)%nat -> 2 <= Zlength data) by (unfold Zlength; lia).
  destruct Ha as [type Ht|id|log|b Hb|p Hp|p Hp].
  - pose proof (pad_payload_length (header_packet type)) as Hpl. specialize (Htype ltac:(lia)).
    rewrite control_type in Htype by auto. right.
    repeat (apply elem_of_cons in Ht as [->|Ht]; [first [reflexivity|discriminate Htype]|]). by apply elem_of_nil in Ht.
  - pose proof (pad_payload_length (reg2_packet id)) as Hpl. specialize (Htype ltac:(lia)).
    unfold reg2_packet in Htype. rewrite pad_payload_type in Htype by (apply Hz; exact Hpl). discriminate Htype.
  - pose proof (pad_payload_length (ack_packet log)) as Hpl. specialize (Htype ltac:(lia)).
    rewrite ack_type in Htype by auto. discriminate Htype.
  - pose proof (pad_payload_length b) as Hpl. specialize (Htype ltac:(lia)).
    rewrite echo_type in Htype by auto. discriminate Htype.
  - left. exists p. auto.
  - left. exists p. auto.
Qed.
End Network.

(** ** A session over the network *)

(** The packet of the SRT server, the packet of its caller, and the ids of
    the group before and after the receiver added its half. *)
Definition hello : list byte := replicate 40 Byte.x01.
Definition spoken_packet : list byte := take 20 (buffer_of (be32_bytes 7)).
Definition half_id : list byte := replicate 128 Byte.x55 ++ replicate 128 Byte.x00.
Definition whole_id : list byte := replicate 128 Byte.x55 ++ replicate 128 (byte_of 4).

(** The receiver: an unknown id, a group, a connection, a packet, and a
    packet of the server. *)
Definition os_net : OS := sample_os 1000 send_all (Some hello).
Definition net_step (events : list event) (w : world) : world :=
  run (@loop_iteration os_net sample_cfg sample_exporter events) w.
Definition up_packets : list (list byte) :=
  [reg_packet SRTLA_TYPE_REG2 half_id; reg_packet SRTLA_TYPE_REG1 half_id;
   reg_packet SRTLA_TYPE_REG2 whole_id; spoken_packet].
Definition w_up : world := fold_left (fun w p => net_step (says client1 p) w) up_packets initial_world.
Definition w_net : world := net_step [EvGroup 0] w_up.
Definition D_up : list datagram := fold_left (fun D p => D ++ datagrams (says client1 p)) up_packets [].

(** The sender: what its link's socket gives on the calls that read it. *)
Definition down (t : nat) : Z * list byte :=
  if decide (t = 11%nat) then (32, pad_payload (header_packet SRTLA_TYPE_REG_NGP)) else
  if decide (t = 15%nat) then (258, reg2_packet whole_id) else
  if decide (t = 19%nat) then (32, pad_payload (header_packet SRTLA_TYPE_REG3)) else
  if decide (t = 25%nat) then (40, hello) else (-1, []).
Definition so_net : SenderOS := {|
  so_clock_gettime := fun _ => Some (100, 0);
  so_uninit := fun _ => 0;
  so_recvfrom := fun t l =>
    if l =? 13 then (20, buffer_of (be32_bytes 7), replicate 16 Byte.x01)
    else ((down t).1, buffer_of (down t).2, replicate 16 Byte.x09);
  so_sendto := fun _ _ _ n _ => n;
  so_socket := fun n => 10 + Z.of_nat n;
  so_setsockopt := fun _ _ => 0;
  so_bind := fun _ _ => 0;
  so_getlines := fun _ => Some [[Byte.x01; Byte.x0a]];
  so_urandom_open := fun _ => true; so_urandom_read := fun _ n => replicate (Z.to_nat n) Byte.x55;
  so_getaddrinfo := fun _ => Some [replicate 16 Byte.x09];
  inet_addr := fun line => match line with [b] => bval b | _ => 0xFFFFFFFF end
|}.
Definition s_begin : sender := end_of (@start so_net initial_sender).
Definition s_net : sender :=
  fold_left (fun s ready => end_of (@iteration so_net false ready s)) [[15]; [15]; [15]; [13; 15]] s_begin.

#[export] Instance net_env : @SenderEnv so_net.
Proof.
  split. intros t l. cbn. destruct (l =? 13); [reflexivity|]. unfold down. by repeat case_decide.
Qed.
#[export] Instance net_kept : @ListenerKept so_net.
Proof. intros s t t' _. cbn. lia. Qed.

Lemma net_sender : @s_reachable so_net s_net.
Proof.
  do 4 (eapply sr_step; [|apply ends_done; vm_compute; reflexivity]).
  apply sr_start, ends_done. vm_compute. reflexivity.
Qed.
Lemma net_listen : listenfd s_net = 13.
Proof. vm_compute. reflexivity. Qed.

Lemma net_by D events w :
  @reachable_by os_net sample_cfg sample_exporter D w -> take MAX_EPOLL_EVENTS events = events ->
  delivered events w -> exn_of (@loop_iteration os_net sample_cfg sample_exporter events w) = None ->
  @reachable_by os_net sample_cfg sample_exporter (D ++ datagrams events) (net_step events w).
Proof. intros Hr Ht Hd He. rewrite <- Ht at 1. apply (by_iteration D w); [exact Hr|done|by apply exn_of_done]. Qed.

Lemma up_by : @reachable_by os_net sample_cfg sample_exporter D_up w_up.
Proof.
  do 4 (apply net_by; [|reflexivity|by intros p Hp; apply elem_of_nil in Hp|vm_compute; reflexivity]). apply by_start.
Qed.
Lemma net_receiver : @reachable_by os_net sample_cfg sample_exporter (D_up ++ []) w_net.
Proof.
  apply (net_by D_up [EvGroup 0]); [apply up_by|reflexivity| |vm_compute; reflexivity].
  intros p Hp. apply list_elem_of_singleton in Hp as ->. exists 7. vm_compute. left.
Qed.

Definition net_peer : peer := mkPeer so_net net_env net_kept s_net net_sender.

(** The network carried what was said: each datagram is at its place in the
    other side's trace. *)
Ltac sent_at i :=
  exists net_peer; do 5 eexists; split; [by left|]; split; [apply (list_elem_of_lookup_2 _ i); vm_compute; reflexivity|
    split; [change (listenfd (p_state net_peer)) with (listenfd s_net); rewrite net_listen; lia|
      vm_compute; reflexivity]].
Lemma net_up : carried_up [net_peer] D_up.
Proof.
  assert (E : D_up = [(client1, reg_packet SRTLA_TYPE_REG2 half_id); (client1, reg_packet SRTLA_TYPE_REG1 half_id);
    (client1, reg_packet SRTLA_TYPE_REG2 whole_id); (client1, spoken_packet)]) by reflexivity.
  intros a b Hin. rewrite E in Hin. clear E.
  repeat apply elem_of_cons in Hin as [[= -> ->]|Hin].
  - sent_at 4%nat.
  - sent_at 3%nat.
  - sent_at 2%nat.
  - sent_at 1%nat.
  - by apply elem_of_nil in Hin.
Qed.

Ltac told_at i :=
  intros [= <- <- _] _; eexists; split; [apply (list_elem_of_lookup_2 _ i); vm_compute; reflexivity|vm_compute; reflexivity].
Lemma net_down : @carried_down so_net w_net s_net.
Proof.
  intros t l n buf from _ E Hl. rewrite net_listen in Hl. revert E. cbn [so_net so_recvfrom].
  apply Z.eqb_neq in Hl. rewrite Hl. unfold down.
  case_decide; [told_at 7%nat|]. case_decide; [told_at 6%nat|]. case_decide; [told_at 5%nat|].
  case_decide; [told_at 0%nat|]. cbn. intros [= <- _ _] ?. lia.
Qed.

Lemma stream_up_witness :
  IoSend 7 spoken_packet 20 ∈ trace w_up /\
  exists q t n buf from, q ∈ [net_peer] /\ (t < SenderModel.calls (p_state q))%nat /\
    @so_recvfrom (p_os q) t (listenfd (p_state q)) = (n, buf, from) /\ spoken_packet = take (Z.to_nat n) buf.
Proof.
  assert (Hin : IoSend 7 spoken_packet 20 ∈ trace w_up)
    by (apply (list_elem_of_lookup_2 _ 0%nat); vm_compute; reflexivity).
  split; [exact Hin|].
  exact (@stream_up os_net sample_cfg sample_exporter (sample_stdin _ _ _) [net_peer] D_up w_up 7 spoken_packet 20
    up_by net_up Hin).
Defined.

Lemma stream_down_witness :
  SenderModel.IoSendto (listenfd s_net) (buffer_of hello) 40 (replicate 16 Byte.x01) 40 ∈ SenderModel.trace s_net /\
  ((exists p, @server_packet os_net (calls w_net) p /\
      (take (Z.to_nat 40) (buffer_of hello) = p \/ take (Z.to_nat 40) (buffer_of hello) = pad_payload p)) \/
   take (Z.to_nat 40) (buffer_of hello) = pad_payload (header_packet SRTLA_TYPE_REG_ERR)).
Proof.
  assert (Hin : SenderModel.IoSendto (listenfd s_net) (buffer_of hello) 40 (replicate 16 Byte.x01) 40 ∈
    SenderModel.trace s_net) by (apply (list_elem_of_lookup_2 _ 0%nat); vm_compute; reflexivity).
  split; [exact Hin|].
  exact (@stream_down os_net sample_cfg sample_exporter so_net net_env net_kept s_net w_net (buffer_of hello) 40
    (replicate 16 Byte.x01) 40 net_sender (by_reachable _ _ net_receiver) net_down Hin).
Defined.
