(* ===== verification/Establishment.v ===== *)
(** * A session begins, through the receiver's loop

    [Session] follows a registration through the packet handler.  Here each
    datagram arrives in a turn of the receiver's loop (src/receiver_main.cpp):
    the packet is handled, then the cleanup, the throttle's cleanup and the
    quality pass run, and none of them takes away what the packet brought. *)

From stdpp Require Import list gmap.
From S2P Require Import SenderModel SenderProofs SenderProperties SenderUpkeep SenderScenario.
From S2P Require Import Prelude Config Wire NetUtils NakDedup AuthRateLimiter Connection World.
From S2P Require Import Registry Quality SrtHandler SrtlaHandler Exporter MainLoop Hoare Invariant.
From S2P Require Import RegistryProofs QualityProofs HandlerProofs Scenario LoopProofs Registration.
From S2P Require Import Accounts DataPath EndToEnd Session Protocol Simulation Refinement Speech.

(** ** Code that leaves the throttle alone *)

Definition same_limiter (w w' : world) : Prop := limiter w' = limiter w.
#[local] Instance same_limiter_preorder : PreOrder same_limiter.
Proof. split; [done|]. intros a b c. unfold same_limiter. congruence. Qed.

#[local] Hint Extern 5 (Within same_limiter (modify _)) => (intros ?; reflexivity) : typeclass_instances.
#[local] Hint Extern 5 (Within same_limiter (inc _)) => (intros ?; reflexivity) : typeclass_instances.
#[local] Hint Extern 5 (Within same_limiter next_call) => (intros ?; reflexivity) : typeclass_instances.
#[local] Hint Extern 5 (Within same_limiter (emit _)) => (intros ?; reflexivity) : typeclass_instances.
#[local] Hint Extern 5 (Within same_limiter (set_groups _)) => (intros ?; reflexivity) : typeclass_instances.
#[local] Hint Extern 5 (Within same_limiter (modify_group _ _)) => (intros ?; reflexivity) : typeclass_instances.

Section Limiter.
Context {os : OS}.

#[local] Instance limiter_pad_sendto b d : Within same_limiter (pad_sendto b d).
Proof. unfold pad_sendto, sendto. apply _. Qed.
#[local] Instance limiter_cleanup_conns t cs : Within same_limiter (cleanup_conns t send_keepalive cs).
Proof. unfold cleanup_conns, cleanup_conn, cleanup_recovery, send_keepalive. induction cs; apply _. Qed.
#[local] Instance limiter_cleanup_groups t gs : Within same_limiter (cleanup_groups t send_keepalive gs).
Proof.
  unfold cleanup_groups, cleanup_group, destroy_group, remove_socket_info_file, write_socket_info_file, get_local_port,
    open_file, epoll_remove, close. induction gs; apply _.
Qed.
Lemma limiter_cleanup_inactive t : Within same_limiter (cleanup_inactive t send_keepalive).
Proof. unfold cleanup_inactive. apply _. Qed.
Lemma limiter_quality_pass t : Within same_limiter (quality_pass t).
Proof. unfold quality_pass, evaluate_group, adjust_weights, get_ms. apply _. Qed.
End Limiter.

(** Forgetting failures blocks nobody. *)
Lemma cleanup_blocks_less addr now t entries :
  is_blocked addr now entries = false -> is_blocked addr now (cleanup t entries) = false.
Proof.
  unfold is_blocked, cleanup. destruct (filter _ entries !! key_for addr) as [e|] eqn:E; [|done].
  apply map_lookup_filter_Some in E as [-> _]. done.
Qed.

(** ** What a turn of the loop leaves of what it received *)

(** The groups of [w'] are those of [w] that a cleanup at [ts] keeps, or all. *)
Definition kept_at (ts : Z) (w w' : world) : Prop := faces w' = map face (after_cleanup ts w).

Lemma kept_from ts w w' g' :
  kept_at ts w w' -> g' ∈ groups w' ->
  exists g, g ∈ groups w /\ g_ptr g' = g_ptr g /\ g_id g' = g_id g /\ owned g' ⊆ owned g /\
    (connections g = [] -> connections g' = []).
Proof.
  intros Hk Hg'.
  assert (Hf : face g' ∈ map face (after_cleanup ts w)) by (rewrite <- Hk; by apply list_elem_of_fmap_2).
  apply list_elem_of_fmap in Hf as (x & Hx & Hin). injection Hx as Ep Ei _ El _ Em.
  assert (Eown : owned g' = owned x).
  { rewrite <- !keys_owned. unfold keys, member_keys. cbn. by rewrite El, Em. }
  assert (Hnil : connections x = [] -> connections g' = []).
  { intros E. rewrite E in Em. by destruct (connections g'). }
  unfold after_cleanup in Hin. destruct (_ <? _); [exists x; split_and!; [done..|by rewrite Eown|done]|].
  apply list_elem_of_fmap in Hin as (g & -> & Hin). apply list_elem_of_In, filter_In in Hin as [Hin _].
  exists g. split_and!; [by apply list_elem_of_In|done|done| |].
  - rewrite Eown. unfold owned, conn_addrs. cbn. intros k [->|Hk']%elem_of_cons; [left|right].
    apply list_elem_of_fmap in Hk' as (c & -> & Hc). unfold survivors in Hc.
    apply list_elem_of_fmap in Hc as (c0 & -> & Hc0). apply list_elem_of_In, filter_In in Hc0 as [Hc0 _].
    apply list_elem_of_fmap. exists c0. split; [|by apply list_elem_of_In].
    by replace (address (recovered ts c0)) with (address c0) by (symmetry; apply recovered_upd).
  - intros E. apply Hnil. cbn. by rewrite E.
Qed.

(** A group created or heard from now is kept, with the connections heard. *)
Lemma kept_now ts w w' g :
  kept_at ts w w' -> g ∈ groups w -> created_at g = ts \/ (exists c, c ∈ connections g /\ last_received c = ts) ->
  exists g', g' ∈ groups w' /\ g_ptr g' = g_ptr g /\ g_id g' = g_id g /\
    forall c, c ∈ connections g -> last_received c = ts ->
      exists c', c' ∈ connections g' /\ address c' = address c /\ last_received c' = ts.
Proof.
  intros Hk Hg Hnow.
  assert (Hx : exists x, x ∈ after_cleanup ts w /\ g_ptr x = g_ptr g /\ g_id x = g_id g /\
    forall c, c ∈ connections g -> last_received c = ts -> member_of c ∈ map member_of (connections x)).
  { unfold after_cleanup. destruct (_ <? _).
    { exists g. split_and!; [done..|]. intros c Hc _. by apply list_elem_of_fmap_2. }
    exists (swept ts g). split_and!; [|done|done|].
    - apply list_elem_of_fmap_2, list_elem_of_In, filter_In. split; [by apply list_elem_of_In|].
      apply negb_true_iff, expired_false. destruct Hnow as [Hc|(c & Hc & Hr)]; [right|left; exists c; split; [done|]].
      + rewrite Hc. unfold empty_timeout, GROUP_TIMEOUT, PENDING_GROUP_TIMEOUT. destruct (data_seen g); lia.
      + rewrite Hr. unfold CONN_TIMEOUT. lia.
    - intros c Hc Hr. cbn. unfold survivors. rewrite map_map.
      rewrite (map_ext _ member_of (fun c => member_recovered ts c)). apply list_elem_of_fmap_2, list_elem_of_In, filter_In.
      split; [by apply list_elem_of_In|]. unfold conn_timed_out. apply negb_true_iff, Z.ltb_ge. unfold CONN_TIMEOUT. lia. }
  destruct Hx as (x & Hx & Ep & Ei & Hc).
  assert (Hf : face x ∈ faces w') by (rewrite Hk; by apply list_elem_of_fmap_2).
  apply list_elem_of_fmap in Hf as (g' & Ef & Hg'). injection Ef as Ep' Ei' _ _ _ Em.
  exists g'. split_and!; [done|congruence|congruence|]. intros c Hcin Hr.
  specialize (Hc c Hcin Hr). rewrite Em in Hc. apply list_elem_of_fmap in Hc as (c' & Ec & Hc'). injection Ec as Ea El.
  exists c'. by rewrite <- Ea, <- El.
Qed.

Lemma kept_count ts w w' : kept_at ts w w' -> Zlength (groups w') <= Zlength (groups w).
Proof.
  intros Hk. assert (E : length (groups w') = length (after_cleanup ts w)).
  { rewrite <- (length_map face (groups w')), <- (length_map face (after_cleanup ts w)). by f_equal. }
  unfold Zlength. rewrite E. unfold after_cleanup. destruct (_ <? _); [done|]. unfold swept_groups.
  rewrite length_map. pose proof (sublist_length _ _ (filter_sublist_of (fun g => negb (expired ts g)) (groups w))). lia.
Qed.

(** ** One datagram in a turn of the loop *)

Section Turn.
Context {os : OS} {hc : HandlerConfig} {ec : ExporterConfig}.

(** The state in which the handler gets the datagram. *)
Definition received (pkt : list byte) (w : world) : world :=
  run (inc_by BYTES_RECEIVED (Zlength pkt)) (run (inc PACKETS_RECEIVED) (run (inc RECV_BATCHES) (w <| calls ::= S |>))).

Lemma events_one addr pkt ts w w1 :
  0 < Zlength pkt <= MTU ->
  process_single_packet pkt (Zlength pkt) addr ts (received pkt w) = Done tt w1 ->
  handle_events ts (take MAX_EPOLL_EVENTS (says addr pkt)) (w <| calls ::= S |>) = Done tt w1.
Proof.
  intros Hl E. change (take MAX_EPOLL_EVENTS (says addr pkt)) with (says addr pkt).
  unfold says. cbn [handle_events handle_event]. set (w0 := w <| calls ::= S |>).
  rewrite (bind_done _ _ _ (length (groups w0)) w0) by done.
  assert (Et : take (Z.to_nat MTU) pkt = pkt) by (apply take_ge; unfold Zlength in Hl; lia).
  assert (Ep : process_packets (Some [(addr, pkt)]) ts w0 = Done 1 w1).
  { unfold process_packets. change (take RECV_BATCH_SIZE [(addr, pkt)]) with [(addr, pkt)]. cbn [mfor].
    rewrite (bind_done _ _ _ tt (run (inc RECV_BATCHES) w0)) by done. unfold process_datagram. cbn [snd fst]. rewrite Et.
    rewrite (proj2 (Z.ltb_lt _ _)) by lia. cbn [when].
    set (w2 := run (inc RECV_BATCHES) w0). change (received pkt w) with
      (run (inc_by BYTES_RECEIVED (Zlength pkt)) (run (inc PACKETS_RECEIVED) w2)) in E.
    unfold mbind, M_bind at 1 2 3 4. change (inc PACKETS_RECEIVED w2) with (Done tt (run (inc PACKETS_RECEIVED) w2)).
    cbv beta iota. change (inc_by BYTES_RECEIVED (Zlength pkt) (run (inc PACKETS_RECEIVED) w2)) with
      (Done tt (run (inc_by BYTES_RECEIVED (Zlength pkt)) (run (inc PACKETS_RECEIVED) w2))). cbv beta iota. by rewrite E. }
  rewrite (bind_done _ _ _ tt w1); [|by rewrite (bind_done _ _ _ _ _ Ep)].
  rewrite (bind_done _ _ _ (length (groups w1)) w1) by done. by destruct (_ <? _)%nat.
Qed.

(** The turn after a datagram that was handled: it completes, adds to the log
    of the I/O, and keeps what is current. *)
Lemma turn_run addr pkt ts ns w w1 :
  0 < Zlength pkt <= MTU -> os_clock_gettime (calls w) = Some (ts, ns) ->
  process_single_packet pkt (Zlength pkt) addr ts (received pkt w) = Done tt w1 -> inv w1 ->
  exists w2 post, loop_iteration (says addr pkt) w = Done tt w2 /\ inv w2 /\ kept_at ts w1 w2 /\
    trace w2 = post ++ trace w1 /\ limiter w2 = cleanup ts (limiter w1).
Proof.
  intros Hl Hclock E Hi1.
  destruct (wp_total _ _ _ (wp_cleanup_inactive ts send_keepalive (fun _ _ => False) w1 Hi1)) as ([] & w2 & E2 & Hi2 & Hg2).
  set (w3 := w2 <| limiter ::= cleanup ts |>). assert (Hi3 : inv w3) by (by apply (inv_same w2)).
  destruct (wp_total _ _ _ (wp_quality_pass ts (fun _ _ => False) w3 Hi3)) as ([] & w4 & E4 & S4).
  destruct (within_done (told 0) _ _ _ _ E2 ltac:(lia)) as (_ & new1 & T1 & _).
  destruct (within_done (told 0) _ _ _ _ E4 ltac:(lia)) as (_ & new2 & T2 & _).
  pose proof (limiter_cleanup_inactive ts w1) as L1. rewrite E2 in L1.
  pose proof (limiter_quality_pass ts w3) as L2. rewrite E4 in L2. unfold same_limiter in L1, L2. cbn [state_of] in L1, L2.
  exists w4, (new2 ++ new1). split_and!.
  - unfold loop_iteration. rewrite (bind_done _ _ _ (fst <$> os_clock_gettime (calls w)) (w <| calls ::= S |>)) by done.
    rewrite Hclock. cbn [fmap option_fmap option_map fst]. rewrite (bind_done _ _ _ _ _ (events_one _ _ _ _ _ Hl E)).
    rewrite (bind_done _ _ _ _ _ E2). by rewrite (bind_done _ _ _ tt w3).
  - apply S4.
  - unfold kept_at. destruct (within_done unseen _ _ _ _ E4) as (F & _). rewrite F. unfold faces.
    change (groups w3) with (groups w2). by rewrite Hg2.
  - rewrite T2, <- app_assoc. change (trace w3) with (trace w2). by rewrite T1.
  - rewrite L2. change (limiter w3) with (cleanup ts (limiter w2)). by rewrite L1.
Qed.
End Turn.

(** ** The session *)

Section Session.
Context {os : OS} {hc : HandlerConfig} {ec : ExporterConfig} {so : SenderOS}.
Hypothesis replies_sent : forall n a b, os_sendto n a b = Zlength b.
Hypothesis urandom_opens : forall n, os_urandom_open n = true.
Hypothesis urandom_reads : forall n k, 0 < k -> 1 <= Zlength (os_urandom_read n k).
Hypothesis clock_reads : forall n, exists s ns, os_clock_gettime n = Some (s, ns).
Hypothesis sent_whole : forall t l b n d, so_sendto t l b n d = n.

Notation half id := (take (Z.to_nat (SRTLA_ID_LEN / 2)) id).

(** A receiver that has room for a client at [addr] whose half of an id is new. *)
Record welcoming (addr : sockaddr_storage) (id : list byte) (w : world) : Prop := {
  wel_inv : inv w;
  wel_throttle now : is_blocked addr now (limiter w) = false;
  wel_room : Zlength (groups w) < MAX_GROUPS;
  wel_free g : g ∈ groups w -> addr_key addr ∉ owned g;
  wel_half g : g ∈ groups w -> half (g_id g) <> half id
}.

Lemma welcoming_verdict addr id w ts : welcoming addr id w -> fst (reg1_verdict addr ts w) = None.
Proof.
  intros [_ Hb Hr Hf _]. unfold reg1_verdict. rewrite Hb, (proj2 (Z.leb_gt _ _) Hr).
  destruct (find_by_address addr (groups w)) as [[g oc]|] eqn:E; [|done].
  apply find_by_address_some in E as (Hg & Ho & _). by apply Hf in Ho.
Qed.

Lemma welcoming_received addr id pkt w : welcoming addr id w -> welcoming addr id (received pkt w).
Proof. intros []. by split. Qed.

Lemma welcoming_kept addr id ts w w1 w2 :
  welcoming addr id w -> inv w2 -> groups w1 = groups w -> limiter w1 = limiter w -> kept_at ts w1 w2 ->
  limiter w2 = cleanup ts (limiter w1) -> welcoming addr id w2.
Proof.
  intros [Hi Hb Hr Hf Hh] Hi2 G1 L1 Hk L2. split; [done|..].
  - intros now. rewrite L2, L1. by apply cleanup_blocks_less.
  - pose proof (kept_count _ _ _ Hk) as Hl. rewrite G1 in Hl. lia.
  - intros g Hg. destruct (kept_from _ _ _ _ Hk Hg) as (x & Hx & _ & _ & Ho & _). rewrite G1 in Hx.
    intros Hin. by apply (Hf x Hx), Ho.
  - intros g Hg. destruct (kept_from _ _ _ _ Hk Hg) as (x & Hx & _ & -> & _). rewrite G1 in Hx. by apply Hh.
Qed.

(** The turn with a REG2 that names no group. *)
Lemma turn_unknown addr id w :
  welcoming addr id w -> length id = Z.to_nat SRTLA_ID_LEN ->
  exists w' post, loop_iteration (says addr (reg2_packet id)) w = Done tt w' /\
    trace w' = post ++ IoSendto addr (pad_payload (header_packet SRTLA_TYPE_REG_NGP)) PAD_LEN :: trace w /\
    welcoming addr id w'.
Proof.
  intros Hw Hid. destruct (clock_reads (calls w)) as (ts & ns & Hclock).
  assert (Hl : Zlength (reg2_packet id) = SRTLA_TYPE_REG2_LEN) by (rewrite length_reg2_packet; unfold Zlength; by rewrite Hid).
  pose proof (welcoming_received addr id (reg2_packet id) w Hw) as Hw0.
  destruct (unknown_answered replies_sent (received (reg2_packet id) w) id addr ts (wel_inv _ _ _ Hw0))
    as (w1 & E1 & Hi1 & G1 & L1 & T1).
  { apply unknown_half; [apply Hw0|done|apply Hw0]. }
  rewrite <- Hl in E1.
  destruct (turn_run addr (reg2_packet id) ts ns w w1) as (w2 & post & E & Hi2 & Hk & T & L); [|done|done|done|].
  { rewrite Hl. done. }
  exists w2, post. split_and!; [done|by rewrite T, T1|]. by apply (welcoming_kept addr id ts w w1).
Qed.

(** The turn with a REG1: a group with its answer, without connections. *)
Lemma turn_reg1 addr id w :
  welcoming addr id w -> length id = Z.to_nat SRTLA_ID_LEN ->
  exists w' post id' g, loop_iteration (says addr (reg_packet SRTLA_TYPE_REG1 id)) w = Done tt w' /\
    trace w' = post ++ IoSendto addr (reg2_packet id') SRTLA_TYPE_REG2_LEN :: trace w /\
    length id' = Z.to_nat SRTLA_ID_LEN /\ half id' = half id /\ inv w' /\
    find_group_by_id id' (groups w') = Some g /\ connections g = [] /\ owned_elsewhere addr g (groups w') = false.
Proof.
  intros Hw Hid. destruct (clock_reads (calls w)) as (ts & ns & Hclock). set (pkt := reg_packet SRTLA_TYPE_REG1 id).
  assert (Hl : Zlength pkt = SRTLA_TYPE_REG1_LEN) by (unfold Zlength, pkt, reg_packet; rewrite length_app, Hid; done).
  pose proof (welcoming_received addr id pkt w Hw) as Hw0.
  destruct (reg1_answered replies_sent urandom_opens urandom_reads (received pkt w) id addr ts (wel_inv _ _ _ Hw0) Hid)
    as (w1 & id' & g1 & E1 & T1 & Hl' & Hh' & Hi1 & Hf1 & Hg1 & Hc1 & Ho1 & Hts & Honly).
  { by apply (welcoming_verdict addr id). }
  { apply Hw0. }
  fold pkt in E1. rewrite <- Hl in E1.
  destruct (turn_run addr pkt ts ns w w1) as (w2 & post & E & Hi2 & Hk & T & L); [|done|done|done|].
  { rewrite Hl. done. }
  assert (Hids : forall x, x ∈ groups w2 -> length (g_id x) = Z.to_nat SRTLA_ID_LEN).
  { intros x Hx. destruct Hi2 as [Hr _]. pose proof (ro_groups _ _ Hr) as Hok. rewrite Forall_forall in Hok. by apply Hok. }
  apply find_group_by_id_elem in Hf1 as [Hin1 _].
  destruct (kept_now ts w1 w2 g1 Hk Hin1 (or_introl Hts)) as (g2 & Hg2 & _ & Eid2 & _). rewrite Hg1 in Eid2.
  destruct (find_group_by_id id' (groups w2)) as [x|] eqn:Ex.
  2: { exfalso. pose proof (proj1 (find_first_None _ _) Ex g2 Hg2) as Hn. cbn in Hn.
       rewrite constant_time_compare_spec in Hn by (done || by apply Hids). by rewrite bool_decide_eq_true_2 in Hn. }
  pose proof (find_group_by_id_elem _ _ _ Ex) as [Hx Ecmp].
  apply Z.eqb_eq in Ecmp. rewrite constant_time_compare_spec in Ecmp by (done || by apply Hids). apply bool_decide_eq_true in Ecmp.
  destruct (kept_from ts w1 w2 x Hk Hx) as (y & Hy & Ep & Ei & _ & Hn).
  assert (y = g1) as -> by (apply Honly; congruence).
  exists w2, post, id', x. split_and!; [done|by rewrite T, T1|done|done|done|done|by apply Hn|].
  apply not_true_iff_false. intros (z & Hz & Hzo)%existsb_exists. apply list_elem_of_In in Hz.
  apply andb_true_iff in Hzo as [Hzp Hzk%bool_decide_eq_true]. apply negb_true_iff, bool_decide_eq_false in Hzp.
  destruct (kept_from ts w1 w2 z Hk Hz) as (z1 & Hz1 & Epz & _ & Hoz & _).
  apply not_true_iff_false in Ho1. apply Ho1, existsb_exists. exists z1. split; [by apply list_elem_of_In|].
  rewrite bool_decide_eq_false_2 by congruence. cbn. apply bool_decide_eq_true. by apply Hoz.
Qed.

(** The turn with the REG2 of a link: a connection, and REG3. *)
Lemma turn_reg2 addr id w g :
  inv w -> length id = Z.to_nat SRTLA_ID_LEN -> find_group_by_id id (groups w) = Some g -> connections g = [] ->
  owned_elsewhere addr g (groups w) = false ->
  exists w' post g' c', loop_iteration (says addr (reg2_packet id)) w = Done tt w' /\
    trace w' = post ++ IoSendto addr (pad_payload (header_packet SRTLA_TYPE_REG3)) PAD_LEN :: trace w /\
    inv w' /\ find_by_address addr (groups w') = Some (g', Some c') /\ g_id g' = id /\ address c' = addr.
Proof.
  intros Hi Hid Hf Hc Ho. destruct (clock_reads (calls w)) as (ts & ns & Hclock).
  assert (Hl : Zlength (reg2_packet id) = SRTLA_TYPE_REG2_LEN) by (rewrite length_reg2_packet; unfold Zlength; by rewrite Hid).
  destruct (reg2_joins replies_sent (received (reg2_packet id) w) id addr ts g) as
    (w1 & pre & g1 & c1 & E1 & T1 & F1 & G1 & _ & A1 & R1 & Hi1); try done.
  { unfold conn_addrs. rewrite Hc. apply not_elem_of_nil. }
  { by rewrite Hc. }
  rewrite <- Hl in E1.
  destruct (turn_run addr (reg2_packet id) ts ns w w1) as (w2 & post & E & Hi2 & Hk & T & _); [|done|done|done|].
  { rewrite Hl. done. }
  apply find_by_address_some in F1 as (Hg1 & _ & Hc1 & _).
  destruct (kept_now ts w1 w2 g1 Hk Hg1) as (g2 & Hg2 & _ & Eid & Hconn); [right; by exists c1|].
  destruct (Hconn c1 Hc1 R1) as (c2 & Hc2 & Ea & _).
  exists w2, (post ++ pre), g2, c2. split_and!; [done| |done| |congruence|congruence].
  - rewrite T, T1, <- app_assoc. done.
  - apply find_by_address_complete; [done|done|done|]. by rewrite Ea, A1.
Qed.

(** C16: a session begins, loop and all.  A sender without connections and a
    receiver that has room for it and does not throttle its host, whose clock
    and random device can be read, get the first link registered in three
    exchanges if the datagrams are delivered: each is taken in by a whole turn
    of the receiver's loop, which completes, cleanup and evaluation included,
    and is answered, with REG_NGP, REG2 and REG3 in turn; the sender hears the
    answers, asks for a group, adopts its id and announces it on every open
    link.  In the end the link's address leads to a connection of the group
    with the sender's id, and the sender counts the link as connected and as
    heard from now. *)
Theorem session_established w s p c addr t1 t2 t3 :
  welcoming addr (srtla_id s) w -> sender_ok s ->
  SenderModel.lookup_conn p (conns s) = Some c -> 0 <= fd c ->
  active_connections s = 0 -> SenderModel.pending_reg2_conn s = None -> pending_reg_timeout s < t1 ->
  exists w1 w2 w3 s1 s2 s3 id post1 post2 post3 g c',
    loop_iteration (says addr (reg_packet SRTLA_TYPE_REG2 (srtla_id s))) w = Done tt w1 /\
    trace w1 = post1 ++ IoSendto addr (pad_payload (header_packet SRTLA_TYPE_REG_NGP)) PAD_LEN :: trace w /\
    hears so t1 (pad_payload (header_packet SRTLA_TYPE_REG_NGP)) p s = SenderModel.Done tt s1 /\
    SenderModel.trace s1 = SenderModel.IoSendto (fd c) (reg_packet SRTLA_TYPE_REG1 (srtla_id s)) SRTLA_TYPE_REG1_LEN
      (srtla_addr s) SRTLA_TYPE_REG1_LEN :: SenderModel.trace s /\
    loop_iteration (says addr (reg_packet SRTLA_TYPE_REG1 (srtla_id s))) w1 = Done tt w2 /\
    trace w2 = post2 ++ IoSendto addr (reg2_packet id) SRTLA_TYPE_REG2_LEN :: trace w1 /\
    hears so t2 (reg2_packet id) p s1 = SenderModel.Done tt s2 /\
    (forall d, d ∈ conns s -> 0 <= fd d -> exists ret,
       SenderModel.IoSendto (fd d) (reg2_packet id) SRTLA_TYPE_REG2_LEN (srtla_addr s1) ret ∈ SenderModel.trace s2) /\
    loop_iteration (says addr (reg2_packet id)) w2 = Done tt w3 /\
    trace w3 = post3 ++ IoSendto addr (pad_payload (header_packet SRTLA_TYPE_REG3)) PAD_LEN :: trace w2 /\
    hears so t3 (pad_payload (header_packet SRTLA_TYPE_REG3)) p s2 = SenderModel.Done tt s3 /\
    inv w3 /\ find_by_address addr (groups w3) = Some (g, Some c') /\ g_id g = id /\ address c' = addr /\
    srtla_id s3 = id /\ has_connected s3 = true /\
    SenderModel.lookup_conn p (conns s3) = Some (c <| last_rcvd := t3 |>).
Proof.
  intros Hw Hs Hl Hfd Ha Hp Ht. pose proof (ok_id _ Hs) as Hid.
  destruct (turn_unknown addr (srtla_id s) w Hw Hid) as (w1 & post1 & E1 & T1 & Hw1).
  destruct (ngp_heard sent_whole t1 p c s Hl Hfd Ha Hp Ht) as (s1 & F1 & U1 & P1 & C1 & I1 & A1).
  assert (Hs1 : sender_ok s1).
  { apply (hears_ok t1 _ p s s1 Hs) in F1 as [? _]; [done| |vm_compute; lia].
    rewrite ids_ptrs. apply lookup_conn_elem in Hl as [Hin <-]. by apply list_elem_of_fmap_2. }
  destruct (turn_reg1 addr (srtla_id s) w1 Hw1 Hid)
    as (w2 & post2 & id & g2 & E2 & T2 & Hidl & Hhalf & Hi2 & Hf2 & Hc2 & Ho2).
  destruct (reg2_heard t2 p c s1 id Hs1) as (s2 & F2 & U2 & I2 & C2 & A2); rewrite ?C1, ?I1; try done.
  rewrite C1 in U2.
  destruct (turn_reg2 addr id w2 g2 Hi2 Hidl Hf2 Hc2 Ho2) as (w3 & post3 & g & c' & E3 & T3 & Hi3 & D3 & G3 & B3).
  destruct (reg3_heard t3 p c s2) as (s3 & F3 & H3 & I3 & K3); [by rewrite C2, C1|by rewrite A2|].
  exists w1, w2, w3, s1, s2, s3, id, post1, post2, post3, g, c'. split_and!; try done. by rewrite I3, I2.
Qed.
End Session.

(** ** The session goes on *)

Section Keepalives.
Context {os : OS} {hc : HandlerConfig} {ec : ExporterConfig} {so : SenderOS}.
Hypothesis replies_sent : forall n a b, os_sendto n a b = Zlength b.

(** The two bytes of a plain keepalive, and the echo of it. *)
Notation ping := (header_packet SRTLA_TYPE_KEEPALIVE).
Notation echo := (pad_payload (header_packet SRTLA_TYPE_KEEPALIVE)).

(** C17: keepalives keep a link.  A keepalive that the sender sends on a
    registered link, if it and its echo are delivered, counts as a word from
    the link on both sides.  The turn of the receiver's loop that takes it in
    completes, dates the connection with its time [ts] and answers with the
    echo; no cleanup up to fifteen seconds later would drop the connection.
    The sender dates the link, passes nothing on to the SRT caller, leaves its
    other links alone, and would use this one up to four seconds later.  Both
    are again in states that the theorem applies to: exchanges can follow each
    other for as long as the network delivers. *)
Theorem keepalive_exchange w s p c addr ts ns t g k :
  inv w -> find_by_address addr (groups w) = Some (g, Some k) -> os_clock_gettime (calls w) = Some (ts, ns) ->
  SenderModel.lookup_conn p (conns s) = Some c ->
  exists s1 s2 w' post g' k' ret,
    SenderModel.send_keepalive p s = SenderModel.Done tt s1 /\
    SenderModel.trace s1 = SenderModel.IoSendto (fd c) ping 2 (srtla_addr s) ret :: SenderModel.trace s /\
    loop_iteration (says addr ping) w = Done tt w' /\
    trace w' = post ++ IoSendto addr echo PAD_LEN :: trace w /\
    hears so t echo p s1 = SenderModel.Done tt s2 /\ SenderModel.trace s2 = SenderModel.trace s1 /\
    inv w' /\ find_by_address addr (groups w') = Some (g', Some k') /\ g_id g' = g_id g /\
    (forall now, now <= ts + CONN_TIMEOUT -> conn_timed_out k' now = false) /\
    conns s2 = SenderModel.on_conn p (fun c => c <| last_rcvd := t |>) (conns s) /\
    SenderModel.lookup_conn p (conns s2) = Some (c <| last_rcvd := t |>) /\
    (forall now, now <= t + SenderModel.CONN_TIMEOUT -> SenderModel.conn_timed_out (c <| last_rcvd := t |>) now = false).
Proof.
  intros Hi Hfind Hclock Hl.
  set (ret := so_sendto (SenderModel.calls s) (fd c) ping 2 (srtla_addr s)).
  set (s1 := s <| SenderModel.calls ::= S |>
               <| SenderModel.trace ::= cons (SenderModel.IoSendto (fd c) ping 2 (srtla_addr s) ret) |>).
  assert (E1 : SenderModel.send_keepalive p s = SenderModel.Done tt s1).
  { unfold SenderModel.send_keepalive, deref, mbind, SM_bind. by rewrite Hl. }
  destruct (ping_answered replies_sent addr ts (received ping w) g k) as (w1 & g1 & E2 & Hi1 & F1 & G1 & T1); [done|done|].
  destruct (turn_run addr ping ts ns w w1) as (w2 & post & E & Hi2 & Hk & T & _); [done|done|exact E2|done|].
  apply find_by_address_some in F1 as (Hg1 & _ & Hc1 & Ha1).
  assert (Hr : last_received (heard ts k) = ts) by (unfold heard; by destruct (_ && _)).
  destruct (kept_now ts w1 w2 g1 Hk Hg1) as (g2 & Hg2 & _ & Eid & Hconn); [right; by exists (heard ts k)|].
  destruct (Hconn _ Hc1 Hr) as (k2 & Hk2 & Ea & Hr2).
  destruct (echo_heard t p c s1 Hl) as (s2 & E3 & C3 & T3).
  exists s1, s2, w2, post, g2, k2, ret. split_and!; try done.
  - by rewrite T, T1.
  - apply find_by_address_complete; [done|done|done|]. by rewrite Ea.
  - congruence.
  - intros now Hn. unfold conn_timed_out. rewrite Hr2. by apply Z.ltb_ge.
  - rewrite C3. by apply lookup_conn_on_conn.
  - intros now Hn. by apply Z.ltb_ge.
Qed.
End Keepalives.

Lemma session_established_witness : exists w3 s3 g c',
  find_by_address client1 (groups w3) = Some (g, Some c') /\ srtla_id s3 = g_id g /\ has_connected s3 = true.
Proof.
  assert (Hl : SenderModel.lookup_conn 0 (conns s_started) =
    Some (default sample_conn (SenderModel.lookup_conn 0 (conns s_started)))) by (vm_compute; reflexivity).
  destruct (@session_established os0 sample_cfg sample_exporter sample_so (fun _ _ _ => eq_refl) (fun _ => eq_refl))
    with (w := initial_world) (s := s_started) (p := 0%nat)
      (c := default sample_conn (SenderModel.lookup_conn 0 (conns s_started)))
      (addr := client1) (t1 := 3) (t2 := 3) (t3 := 4)
    as (w1 & w2 & w3 & s1 & s2 & s3 & id & post1 & post2 & post3 & g & c' &
        _ & _ & _ & _ & _ & _ & _ & _ & _ & _ & _ & _ & D & G & _ & I & H & _).
  - intros n k Hk. cbn. unfold Zlength. rewrite length_replicate. lia.
  - intros n. by exists 1000, 0.
  - done.
  - split; [exact initial_inv|done|done|intros g Hg; by apply elem_of_nil in Hg|intros g Hg; by apply elem_of_nil in Hg].
  - exact started_ok.
  - exact Hl.
  - vm_compute. discriminate.
  - vm_compute. reflexivity.
  - vm_compute. reflexivity.
  - vm_compute. reflexivity.
  - exists w3, s3, g, c'. split; [exact D|]. split; [by rewrite I, G|exact H].
Defined.

Lemma keepalive_exchange_witness : exists w' g' k',
  find_by_address client1 (groups w') = Some (g', Some k') /\ conn_timed_out k' 1015 = false.
Proof.
  assert (Hl : SenderModel.lookup_conn 0 (conns s_started) =
    Some (default sample_conn (SenderModel.lookup_conn 0 (conns s_started)))) by (vm_compute; reflexivity).
  destruct (@keepalive_exchange os0 sample_cfg sample_exporter sample_so (fun _ _ _ => eq_refl) w_joined s_started 0%nat
    (default sample_conn (SenderModel.lookup_conn 0 (conns s_started))) client1 1000 0 3
    (first_group w_joined) (first_conn w_joined))
    as (s1 & s2 & w' & post & g' & k' & ret & _ & _ & _ & _ & _ & _ & _ & F & _ & L & _).
  - apply joined_inv.
  - vm_compute. reflexivity.
  - reflexivity.
  - exact Hl.
  - exists w', g', k'. split; [exact F|]. apply L. vm_compute. discriminate.
Defined.
