(* ===== verification/Forgetting.v ===== *)
(** * Forgetting: stale state does not outlive its time-outs

    [cleanup_inactive] (src/connection/connection_registry.cpp) runs at most
    once in [CLEANUP_PERIOD] seconds.  Whatever the handlers do between two
    runs, every group and every connection that a run kept, or that was
    registered or heard from since, is recent as of that run: the relation
    [upholds], within which all the code of an iteration stays. *)

From stdpp Require Import list gmap.
From S2P Require Import Prelude Config Wire NetUtils NakDedup AuthRateLimiter Connection World.
From S2P Require Import Registry Quality SrtHandler SrtlaHandler Exporter MainLoop Hoare Invariant.
From S2P Require Import RegistryProofs HandlerProofs Scenario LoopProofs Accounts Protocol Simulation Speech.

(** [CLOCK_MONOTONIC], which [get_seconds] reads, is not negative and does
    not go back. *)
Class MonotoneClock `{OS} : Prop := {
  clock_start n s ns : os_clock_gettime n = Some (s, ns) -> 0 <= s;
  clock_forward n m s ns s' ns' :
    (n <= m)%nat -> os_clock_gettime n = Some (s, ns) -> os_clock_gettime m = Some (s', ns') -> s <= s'
}.

(** ** What a cleanup run at [r] leaves *)

Definition empty_after (s : session) : Z := if s_data s then GROUP_TIMEOUT else PENDING_GROUP_TIMEOUT.
Definition recent (r : Z) (s : session) : Prop :=
  Forall (fun m => r <= m_heard m + CONN_TIMEOUT) (s_members s) /\
  (s_members s = [] -> r <= s_born s + empty_after s).
Definition current (ts : Z) (w : world) : Prop := last_run w <= ts /\ Forall (recent (last_run w)) (view w).
Definition upholds (ts : Z) (w w' : world) : Prop := current ts w -> current ts w'.

#[export] Instance upholds_passive ts : Passive (upholds ts).
Proof.
  split; [split|].
  - by intros w H.
  - intros a b c H1 H2 H. auto.
  - intros w w' (F & _ & _ & R). unfold upholds, current. by rewrite R, !view_faces, F.
Qed.

(** Updates of a group at time [ts] under which it stays recent. *)
Class Refreshes (ts : Z) (f : ConnectionGroup -> ConnectionGroup) : Prop :=
  refreshes r g : r <= ts -> recent r (session_of g) -> recent r (session_of (f g)).

#[export] Instance refreshes_mark ts addr :
  Refreshes ts (fun g => g <| data_seen := true |> <| last_address := addr |>).
Proof.
  intros r g _ [Hm He]. split; [done|]. intros E. specialize (He E). cbn in *.
  unfold empty_after in He. cbn in He. change GROUP_TIMEOUT with 30. change PENDING_GROUP_TIMEOUT with 5 in He.
  change GROUP_TIMEOUT with 30 in He. destruct (data_seen g); lia.
Qed.
#[export] Instance refreshes_last ts addr : Refreshes ts (fun g => g <| last_address := addr |>).
Proof. by intros r g _ [Hm He]. Qed.
#[export] Instance refreshes_join ts p addr : Refreshes ts (add_connection (new_connection p addr ts)).
Proof.
  intros r g Hr [Hm _]. unfold add_connection. split; cbn; rewrite map_app; [|by intros []%app_eq_nil].
  apply Forall_app_2; [done|]. constructor; [|done]. cbn. change CONN_TIMEOUT with 15. lia.
Qed.
#[export] Instance refreshes_hear ts cp :
  Refreshes ts (fun g => g <| connections ::= on_conn cp (fun c => c <| last_received := ts |>) |>).
Proof.
  intros r g Hr [Hm He]. split; cbn in *.
  - unfold on_conn. rewrite map_map. rewrite Forall_map in Hm |- *. eapply Forall_impl; [exact Hm|].
    intros c Hc. cbn in *. case_decide; [cbn; change CONN_TIMEOUT with 15; lia|done].
  - intros E. apply He. unfold on_conn in E. rewrite map_map in E. by destruct (connections g).
Qed.

#[export] Instance upholds_modify_group ts p f : Refreshes ts f -> Within (upholds ts) (modify_group p f).
Proof.
  intros Hf w [Hr Hv]. split; [done|]. unfold view in *. cbn. unfold on_group.
  rewrite Forall_map in Hv. rewrite map_map, Forall_map. eapply Forall_impl; [exact Hv|].
  intros g Hg. case_decide; [by apply Hf|done].
Qed.
#[export] Instance upholds_hear ts gp cp :
  Within (upholds ts) (modify_conn gp cp (fun c => c <| last_received := ts |>)).
Proof. unfold modify_conn. apply _. Qed.

(** Losing groups, and creating one. *)
Lemma upholds_sublist ts w w' :
  last_run w' = last_run w -> groups w' ⊆ groups w -> upholds ts w w'.
Proof.
  intros R Hs [Hr Hv]. split; [by rewrite R|]. rewrite R. unfold view in *. rewrite Forall_map in Hv |- *.
  rewrite Forall_forall in Hv |- *. auto.
Qed.
Lemma upholds_add ts g :
  created_at g = ts -> connections g = [] -> Within (upholds ts) (add_group g).
Proof.
  intros Hc Hn w [Hr Hv]. split; [done|]. unfold view in *. cbn. rewrite map_app. apply Forall_app_2; [done|].
  constructor; [|done]. split; cbn; rewrite Hn; [constructor|]. intros _. rewrite Hc. unfold empty_after.
  change GROUP_TIMEOUT with 30. change PENDING_GROUP_TIMEOUT with 5. destruct (s_data _); lia.
Qed.

Section Iteration.
Context {os : OS} {hc : HandlerConfig} {ec : ExporterConfig}.

#[export] Instance upholds_send ts fd b : Within (upholds ts) (send fd b).
Proof. by intros w H. Qed.
#[export] Instance upholds_remove_group ts p : Within (upholds ts) (remove_group p).
Proof.
  intros w. destruct (remove_group_split p w) as (m & Hm & ->).
  etransitivity; [|apply passive_unseen, Hm]. apply upholds_sublist; [done|].
  intros g [_ Hg]%list_elem_of_filter. done.
Qed.
#[export] Instance upholds_evict ts : Within (upholds ts) evict_oldest_pending_group.
Proof. unfold evict_oldest_pending_group. apply _. Qed.
#[export] Instance upholds_reg1_refusal ts addr t : Within (upholds ts) (reg1_refusal addr t).
Proof. unfold reg1_refusal. apply _. Qed.
#[export] Instance upholds_register_group ts addr b : Within (upholds ts) (register_group addr b ts).
Proof.
  unfold register_group, make_group. apply within_bind; [apply _|]. intros [reason|]; [apply _|].
  apply within_assoc, within_bind; [apply _|]. intros rnd. apply within_assoc, within_bind; [apply _|]. intros p.
  apply within_ret_bind. cbv zeta. apply within_bind; [apply _|]. intros ret. apply within_if; [apply _|].
  apply within_bind; [by apply upholds_add|apply _].
Qed.
#[export] Instance upholds_register_connection ts addr b : Within (upholds ts) (register_connection addr b ts).
Proof.
  unfold register_connection. apply within_bind; [apply _|]. intros gs.
  destruct (find_group_by_id _ _) as [g|]; [|apply _]. cbv zeta.
  do 2 (apply within_if; [apply _|]).
  destruct (match find_by_address addr gs with Some (_, c) => c | None => None end) as [c|].
  - apply within_ret_bind. apply _.
  - apply within_assoc, within_bind; [apply _|]. intros p. apply within_ret_bind. apply _.
Qed.
#[export] Instance upholds_handle_data gp cp b n a ts : Within (upholds ts) (handle_data gp cp b n a ts).
Proof. unfold handle_data. apply _. Qed.
#[export] Instance upholds_packet ts b n a : Within (upholds ts) (process_single_packet b n a ts).
Proof. unfold process_single_packet. apply _. Qed.
#[export] Instance upholds_handle_event ts ev : Within (upholds ts) (handle_event ts ev).
Proof. destruct ev; cbn [handle_event]; unfold process_packets, process_datagram; apply _. Qed.
#[export] Instance upholds_handle_events ts events : Within (upholds ts) (handle_events ts events).
Proof. induction events; cbn [handle_events]; apply _. Qed.

(** ** A cleanup run *)

Definition same_run (w w' : world) : Prop := last_run w' = last_run w.
#[local] Instance same_run_passive : Passive same_run.
Proof.
  split; [split|].
  - by intros w.
  - intros a b c. unfold same_run. congruence.
  - by intros w w' (_ & _ & _ & R).
Qed.

Lemma survivors_recent t cs : Forall (fun m => t <= m_heard m + CONN_TIMEOUT) (map member_of (survivors t cs)).
Proof.
  unfold survivors. rewrite map_map, Forall_map. apply Forall_forall. intros c Hc.
  apply list_elem_of_In, filter_In in Hc as [_ Hc]. cbn.
  unfold conn_timed_out in Hc. apply negb_true_iff, Z.ltb_ge in Hc.
  by replace (last_received (recovered t c)) with (last_received c) by (symmetry; apply recovered_times).
Qed.

Lemma swept_recent t gs : Forall (recent t) (map session_of (swept_groups t gs)).
Proof.
  unfold swept_groups. rewrite map_map, Forall_map. apply Forall_forall. intros g Hg.
  apply list_elem_of_In, filter_In in Hg as [_ Hg]. split; [apply survivors_recent|].
  intros Hn. apply negb_true_iff in Hg. unfold expired in Hg. apply map_eq_nil in Hn.
  rewrite bool_decide_eq_true_2 in Hg by exact Hn. by apply Z.ltb_ge in Hg.
Qed.

(** After a cleanup the last run is less than a period old. *)
Lemma current_cleanup ts w w' :
  current ts w -> cleanup_inactive ts send_keepalive w = Done tt w' ->
  current ts w' /\ ts < last_run w' + CLEANUP_PERIOD.
Proof.
  intros Hc. unfold cleanup_inactive. rewrite (bind_done _ _ _ (last_run w) w) by done.
  destruct (Z.ltb_spec ts (last_run w + CLEANUP_PERIOD)) as [Hlt|_]; [by intros [= <-]|].
  set (w1 := w <| last_run := ts |>). rewrite (bind_done _ _ _ tt w1) by done.
  rewrite (bind_done _ _ _ (groups w1) w1) by done. change CLEANUP_PERIOD with 3.
  case_bool_decide as En.
  { intros [= <-]. unfold current, view. rewrite En. cbn. split; [split; [lia|constructor]|lia]. }
  destruct (wp_total _ _ _ (wp_cleanup_groups ts send_keepalive (groups w1) (fun _ _ => False) w1)) as (gs & w2 & E & -> & _).
  rewrite (bind_done _ _ _ _ _ E). intros [= <-].
  pose proof (within_done same_run _ _ _ _ E) as R. unfold same_run in R. cbn in R.
  unfold current, view. cbn. rewrite R. split; [split; [lia|apply swept_recent]|lia].
Qed.

(** ** Iterations *)

Lemma calls_grow {A} (m : M A) `{!Within (told 0) m} w a w' : m w = Done a w' -> (calls w <= calls w')%nat.
Proof. intros E. apply (within_done (told 0) m w a w' E). lia. Qed.

Lemma current_iteration w events w' ts ns :
  os_clock_gettime (calls w) = Some (ts, ns) -> current ts w -> loop_iteration events w = Done tt w' ->
  current ts w' /\ ts < last_run w' + CLEANUP_PERIOD.
Proof.
  intros Hclock Hc. unfold loop_iteration. set (w0 := w <| calls ::= S |>).
  rewrite (bind_done _ _ _ (fst <$> os_clock_gettime (calls w)) w0) by done. rewrite Hclock. cbn [fmap option_fmap option_map fst].
  assert (Hc0 : current ts w0) by exact Hc. clearbody w0.
  destruct (handle_events ts (take MAX_EPOLL_EVENTS events) w0) as [[] w1|e w1] eqn:E1; [|by rewrite (bind_raised _ _ _ _ _ E1)].
  rewrite (bind_done _ _ _ _ _ E1). apply (within_done (upholds ts) _ _ _ _ E1) in Hc0.
  destruct (cleanup_inactive ts send_keepalive w1) as [[] w2|e w2] eqn:E2; [|by rewrite (bind_raised _ _ _ _ _ E2)].
  rewrite (bind_done _ _ _ _ _ E2). destruct (current_cleanup _ _ _ Hc0 E2) as [Hc2 Hlt].
  set (w3 := w2 <| limiter ::= cleanup ts |>). rewrite (bind_done _ _ _ tt w3) by done. intros E3.
  assert (Hc3 : current ts w3) by exact Hc2.
  destruct (within_done unseen _ _ _ _ E3) as (_ & _ & _ & R). change (last_run w3) with (last_run w2) in R.
  split; [by apply (within_done (upholds ts) _ _ _ _ E3)|by rewrite R].
Qed.

(** At every state it is current for every time the clock can show next. *)
Lemma reachable_current `{!MonotoneClock} w :
  reachable w -> forall n ts ns, (calls w <= n)%nat -> os_clock_gettime n = Some (ts, ns) -> current ts w.
Proof.
  induction 1 as [|w events w' _ IH E]; intros n ts ns Hn Hclock.
  { split; [by apply (clock_start n ts ns)|constructor]. }
  pose proof (calls_grow _ _ _ _ E) as Hgrow.
  destruct (os_clock_gettime (calls w)) as [[t0 ns0]|] eqn:E0.
  - destruct (current_iteration w events w' t0 ns0 E0) as [[Hr Hv] _]; [by apply (IH (calls w) t0 ns0)|done|].
    split; [|done]. pose proof (clock_forward (calls w) n t0 ns0 ts ns ltac:(lia) E0 Hclock). lia.
  - assert (Hc : current ts w) by (apply (IH n ts ns); [lia|done]). revert E. unfold loop_iteration.
    rewrite (bind_done _ _ _ (fst <$> os_clock_gettime (calls w)) (w <| calls ::= S |>)) by done. rewrite E0.
    by intros [= <-].
Qed.

(** C32: stale state is reclaimed.  After any iteration of any run of the
    receiver that reads [ts] from the clock, every connection left was heard
    from less than eighteen seconds before, [CONN_TIMEOUT] plus the period of
    the cleanup; and a group without connections is younger than its time-out
    plus that period: eight seconds when it never carried data, 33 otherwise.
    Whatever the clients send, nothing else occupies the table. *)
Theorem stale_state_reclaimed `{!MonotoneClock} w events w' ts ns g :
  reachable w -> os_clock_gettime (calls w) = Some (ts, ns) -> loop_iteration events w = Done tt w' ->
  g ∈ groups w' ->
  (forall c, c ∈ connections g -> ts < last_received c + CONN_TIMEOUT + CLEANUP_PERIOD) /\
  (connections g = [] -> ts < created_at g + empty_timeout g + CLEANUP_PERIOD).
Proof.
  intros Hr Hclock E Hg.
  destruct (current_iteration w events w' ts ns Hclock) as [[_ Hv] Hlt];
    [by apply (reachable_current w Hr (calls w) ts ns)|done|].
  unfold view in Hv. rewrite Forall_map, Forall_forall in Hv. destruct (Hv g Hg) as [Hm He]. cbn in Hm, He.
  rewrite Forall_map, Forall_forall in Hm. split.
  - intros c Hc. specialize (Hm c Hc). cbn in Hm. lia.
  - intros Hn. rewrite Hn in He. specialize (He eq_refl). unfold empty_after in He. cbn in He. unfold empty_timeout. lia.
Qed.
End Iteration.

(** ** The sample session *)

Lemma sample_clock now sent received : 0 <= now -> @MonotoneClock (sample_os now sent received).
Proof.
  intros Hn. split; cbn.
  - by intros n s ns [= <- _].
  - by intros n m s ns s' ns' _ [= <- _] [= <- _].
Qed.

Lemma stale_state_reclaimed_witness :
  length (connections (first_group w_joined)) = 1%nat /\
  1000 < last_received (first_conn w_joined) + CONN_TIMEOUT + CLEANUP_PERIOD.
Proof.
  split; [vm_compute; reflexivity|].
  destruct (@stale_state_reclaimed os0 sample_cfg sample_exporter (sample_clock 1000 _ _ ltac:(lia)) w_connected
    (says client1 (data_packet 5)) w_joined 1000 0 (first_group w_joined)) as [H _].
  - apply connected_reachable.
  - reflexivity.
  - apply exn_of_done. vm_compute. reflexivity.
  - vm_compute. left.
  - apply H. vm_compute. left.
Defined.
