(* ===== verification/Program.v ===== *)
(** * The receiver from [main] on

    [main] of src/receiver_main.cpp: options, start-up, and the loop with
    what start-up made.  The loop's theorems are about states reached from
    [initial_world], whose first system call has number 0; start-up makes
    calls of its own.  The code is [Shifted]: it runs after start-up as it
    runs from [initial_world] on the kernel that remains. *)

From Stdlib Require Strings.String.
From stdpp Require Import list gmap strings.
From S2P Require Import Prelude Config Wire NetUtils NakDedup AuthRateLimiter Connection World.
From S2P Require Import Registry Quality SrtHandler SrtlaHandler Exporter MainLoop Hoare Invariant.
From S2P Require Import HandlerProofs Scenario LoopProofs Startup Accounts Protocol Simulation.

(** ** Options *)

(** What argparse makes of the command line. *)
Record rec_args := mkArgs {
  srtla_port : Z;
  srt_hostname : string;
  srt_port : Z;
  metrics_port : Z;
  metrics_bind : string;
  metrics_detail : bool;
  log_level : string
}.

Definition default_args : rec_args := {|
  srtla_port := 5000; srt_hostname := "127.0.0.1"; srt_port := 4001;
  metrics_port := 0; metrics_bind := "127.0.0.1"; metrics_detail := false; log_level := "info"
|}.

Inductive severity := level_trace | level_debug | level_info | level_warn | level_err | level_critical.

(** The level, and whether the name is warned about. *)
Definition choose_level (name : string) : severity * bool :=
  if String.eqb name "trace" then (level_trace, false) else
  if String.eqb name "debug" then (level_debug, false) else
  if String.eqb name "info" then (level_info, false) else
  if String.eqb name "warn" then (level_warn, false) else
  if String.eqb name "error" then (level_err, false) else
  if String.eqb name "critical" then (level_critical, false) else
  (level_info, true).

(** ** The program *)

Section Main.
Context {os : OS} {start_os : StartOS}.
(** The version it is built with, and the C library's text of an address. *)
Variable (version : string) (ntop : Z -> list byte -> text).

Definition handler_config (st : started) : HandlerConfig :=
  {| srt_addr_ := s_srt_addr st; epoll_fd_ := s_epoll st |}.
Definition exporter_config (args : rec_args) (st : started) : ExporterConfig :=
  {| detailed_ := metrics_detail args; start_time_ := s_start_time st; VERSION := version; inet_ntop := ntop |}.

(** The first turns of the loop: [batches] are the events [epoll_wait] gives. *)
Definition main_loop (args : rec_args) (st : started) (batches : list (list event)) : M unit :=
  mfor batches (@loop_iteration os (handler_config st) (exporter_config args st)).

(** [None] when the program exits with a failure, which is before the loop;
    [args] is [None] when argparse throws. *)
Definition receiver_main (args : option rec_args) (batches : list (list event)) : M (option (severity * bool)) :=
  match args with
  | None => mret None
  | Some args =>
      let level := choose_level (log_level args) in
      st ← receiver_start (metrics_port args);
      match st with
      | None => mret None
      | Some st => main_loop args st batches;; mret (Some level)
      end
  end.
End Main.

(** ** The kernel after [k] calls *)

Definition after_calls (k : nat) (os : OS) : OS := {|
  os_sendto n := os_sendto (n + k); os_sendmmsg n := os_sendmmsg (n + k); os_send n := os_send (n + k);
  os_recv n := os_recv (n + k); os_socket n := os_socket (n + k); os_setsockopt n := os_setsockopt (n + k);
  os_fcntl_getfl n := os_fcntl_getfl (n + k); os_fcntl_setfl n := os_fcntl_setfl (n + k);
  os_connect n := os_connect (n + k); os_epoll_ctl n := os_epoll_ctl (n + k);
  os_getsockname n := os_getsockname (n + k); os_clock_gettime n := os_clock_gettime (n + k);
  os_open_file n := os_open_file (n + k); os_urandom_open n := os_urandom_open (n + k);
  os_urandom_read n := os_urandom_read (n + k)
|}.

(** A state, after [k] calls that left [T] behind. *)
Definition later (k : nat) (T : list io) (w : world) : world :=
  w <| calls ::= fun n => (n + k)%nat |> <| trace ::= fun t => t ++ T |>.
Definition later_outcome {A} (k : nat) (T : list io) (o : outcome A) : outcome A :=
  match o with Done a w => Done a (later k T w) | Raised e w => Raised e (later k T w) end.

Section Shift.
Context (k : nat) (T : list io).

(** Code and the same code on the kernel after [k] calls. *)
Class Shifted {A} (m m' : M A) : Prop := shifted w : m (later k T w) = later_outcome k T (m' w).

#[export] Instance shifted_ret {A} (a : A) : Shifted (mret a) (mret a).
Proof. by intros w. Qed.
#[export] Instance shifted_raise {A} e : Shifted (raise (A := A) e) (raise e).
Proof. by intros w. Qed.
#[export] Instance shifted_skip : Shifted skip skip.
Proof. by intros w. Qed.
#[export] Instance shifted_bind {A B} (m m' : M A) (f f' : A -> M B) :
  Shifted m m' -> (forall a, Shifted (f a) (f' a)) -> Shifted (m ≫= f) (m' ≫= f').
Proof.
  intros Hm Hf w. unfold mbind, M_bind. rewrite (Hm w). destruct (m' w) as [a w1|e w1]; cbn; [apply Hf|done].
Qed.
Lemma shifted_next {A} (f f' : nat -> M A) :
  (forall t, Shifted (f (t + k)%nat) (f' t)) -> Shifted (next_call ≫= f) (next_call ≫= f').
Proof. intros Hf w. exact (Hf (calls w) (w <| calls ::= S |>)). Qed.
#[export] Instance shifted_when b m m' : Shifted m m' -> Shifted (when b m) (when b m').
Proof. by destruct b. Qed.
#[export] Instance shifted_if {A} (b : bool) (m1 m2 m1' m2' : M A) :
  Shifted m1 m1' -> Shifted m2 m2' -> Shifted (if b then m1 else m2) (if b then m1' else m2').
Proof. by destruct b. Qed.
#[export] Instance shifted_option {A B} (o : option A) (m1 m1' : A -> M B) (m2 m2' : M B) :
  (forall a, Shifted (m1 a) (m1' a)) -> Shifted m2 m2' ->
  Shifted (match o with Some a => m1 a | None => m2 end) (match o with Some a => m1' a | None => m2' end).
Proof. by destruct o. Qed.
#[export] Instance shifted_pair {A B C} (o : A * B) (m m' : A -> B -> M C) :
  (forall a b, Shifted (m a b) (m' a b)) -> Shifted (let '(a, b) := o in m a b) (let '(a, b) := o in m' a b).
Proof. by destruct o. Qed.
#[export] Instance shifted_mfor {A} (l : list A) body body' :
  (forall x, Shifted (body x) (body' x)) -> Shifted (mfor l body) (mfor l body').
Proof. intros Hb. induction l; cbn [mfor]; apply _. Qed.
#[export] Instance shifted_mconcat {A B} (f f' : A -> M (list B)) l :
  (forall x, Shifted (f x) (f' x)) -> Shifted (mconcat f l) (mconcat f' l).
Proof. intros Hf. induction l; cbn [mconcat]; apply _. Qed.
#[export] Instance shifted_deref_group p : Shifted (deref_group p) (deref_group p).
Proof. intros w. unfold deref_group. change (groups (later k T w)) with (groups w). by destruct (lookup_group p (groups w)). Qed.
#[export] Instance shifted_deref_conn gp cp : Shifted (deref_conn gp cp) (deref_conn gp cp).
Proof. unfold deref_conn. apply _. Qed.
End Shift.

(** State the calls are not part of. *)
#[export] Hint Extern 5 (Shifted _ _ (gets _) (gets _)) => (intros ?; reflexivity) : typeclass_instances.
#[export] Hint Extern 5 (Shifted _ _ (modify _) (modify _)) => (intros ?; reflexivity) : typeclass_instances.
#[export] Hint Extern 5 (Shifted _ _ (inc_by _ _) (inc_by _ _)) => (intros ?; reflexivity) : typeclass_instances.
#[export] Hint Extern 5 (Shifted _ _ (inc _) (inc _)) => (intros ?; reflexivity) : typeclass_instances.
#[export] Hint Extern 5 (Shifted _ _ fresh_ptr fresh_ptr) => (intros ?; reflexivity) : typeclass_instances.
#[export] Hint Extern 5 (Shifted _ _ (emit _) (emit _)) => (intros ?; reflexivity) : typeclass_instances.
#[export] Hint Extern 5 (Shifted _ _ (set_groups _) (set_groups _)) => (intros ?; reflexivity) : typeclass_instances.
#[export] Hint Extern 5 (Shifted _ _ (add_group _) (add_group _)) => (intros ?; reflexivity) : typeclass_instances.
#[export] Hint Extern 5 (Shifted _ _ (modify_group _ _) (modify_group _ _)) => (intros ?; reflexivity) : typeclass_instances.
#[export] Hint Extern 5 (Shifted _ _ (modify_conn _ _ _) (modify_conn _ _ _)) => (intros ?; reflexivity) : typeclass_instances.

Section Code.
Context {os : OS} {hc : HandlerConfig} {ec : ExporterConfig} (k : nat) (T : list io).
Notation os' := (after_calls k os).
Notation "m ~~ m'" := (Shifted k T m m') (at level 70).

(** *** System calls *)

#[export] Instance shifted_sendto d b : @sendto os d b ~~ @sendto os' d b.
Proof. by intros w. Qed.
#[export] Instance shifted_sendmmsg d b : @sendmmsg os d b ~~ @sendmmsg os' d b.
Proof. by intros w. Qed.
#[export] Instance shifted_send fd b : @send os fd b ~~ @send os' fd b.
Proof. by intros w. Qed.
#[export] Instance shifted_respond fd b : @respond os fd b ~~ @respond os' fd b.
Proof. by intros w. Qed.
#[export] Instance shifted_recv fd : @recv os fd ~~ @recv os' fd.
Proof. by intros w. Qed.
#[export] Instance shifted_socket : @socket os ~~ @socket os'.
Proof. by intros w. Qed.
#[export] Instance shifted_setsockopt fd : @setsockopt os fd ~~ @setsockopt os' fd.
Proof. by intros w. Qed.
#[export] Instance shifted_fcntl_getfl fd : @fcntl_getfl os fd ~~ @fcntl_getfl os' fd.
Proof. by intros w. Qed.
#[export] Instance shifted_fcntl_setfl fd : @fcntl_setfl os fd ~~ @fcntl_setfl os' fd.
Proof. by intros w. Qed.
#[export] Instance shifted_connect fd : @connect os fd ~~ @connect os' fd.
Proof. by intros w. Qed.
#[export] Instance shifted_close fd : close fd ~~ close fd.
Proof. by intros w. Qed.
#[export] Instance shifted_epoll_remove fd : epoll_remove fd ~~ epoll_remove fd.
Proof. by intros w. Qed.
#[export] Instance shifted_epoll_add fd p : @epoll_add os fd p ~~ @epoll_add os' fd p.
Proof. unfold epoll_add. apply shifted_next. intros t. cbv zeta. cbn [os_epoll_ctl after_calls]. apply _. Qed.
#[export] Instance shifted_get_local_port fd : @get_local_port os fd ~~ @get_local_port os' fd.
Proof. by intros w. Qed.
#[export] Instance shifted_get_seconds : @get_seconds os ~~ @get_seconds os'.
Proof. by intros w. Qed.
#[export] Instance shifted_get_ms : @get_ms os ~~ @get_ms os'.
Proof. by intros w. Qed.
#[export] Instance shifted_open_file : @open_file os ~~ @open_file os'.
Proof. by intros w. Qed.

(** *** The handlers *)

#[export] Instance shifted_pad_sendto b d : @pad_sendto os b d ~~ @pad_sendto os' b d.
Proof. unfold pad_sendto. apply _. Qed.
#[export] Instance shifted_read_random fuel : forall b n, @read_random os fuel b n ~~ @read_random os' fuel b n.
Proof.
  induction fuel as [|fuel IH]; intros b n; cbn [read_random]; apply shifted_if; try apply _.
  apply shifted_next. intros t. cbv zeta. cbn [os_urandom_read after_calls]. apply _.
Qed.
#[export] Instance shifted_get_random_bytes n : @get_random_bytes os n ~~ @get_random_bytes os' n.
Proof. unfold get_random_bytes. apply shifted_next. intros t. cbn [os_urandom_open after_calls]. apply _. Qed.
#[export] Instance shifted_write_info g : @write_socket_info_file os g ~~ @write_socket_info_file os' g.
Proof. unfold write_socket_info_file. apply _. Qed.
#[export] Instance shifted_destroy_group g : @destroy_group os g ~~ @destroy_group os' g.
Proof. unfold destroy_group, remove_socket_info_file. apply _. Qed.
#[export] Instance shifted_remove_group p : @remove_group os p ~~ @remove_group os' p.
Proof. unfold remove_group. apply _. Qed.
#[export] Instance shifted_evict : @evict_oldest_pending_group os ~~ @evict_oldest_pending_group os'.
Proof. unfold evict_oldest_pending_group. apply _. Qed.
#[export] Instance shifted_evaluate_group p t : @evaluate_group os p t ~~ @evaluate_group os' p t.
Proof. unfold evaluate_group. apply _. Qed.
#[export] Instance shifted_adjust_weights p t : adjust_weights p t ~~ adjust_weights p t.
Proof. unfold adjust_weights. apply _. Qed.
#[export] Instance shifted_log_forward_drop : @log_forward_drop os ~~ @log_forward_drop os'.
Proof. unfold log_forward_drop. apply _. Qed.
#[export] Instance shifted_srt_remove_group p c : @srt_remove_group os p c ~~ @srt_remove_group os' p c.
Proof. unfold srt_remove_group. apply _. Qed.
#[export] Instance shifted_connect_srt fd : @connect_srt os hc fd ~~ @connect_srt os' hc fd.
Proof. unfold connect_srt. apply _. Qed.
#[export] Instance shifted_ensure p : @ensure_group_socket os hc p ~~ @ensure_group_socket os' hc p.
Proof. unfold ensure_group_socket, abandon_socket. apply _. Qed.
#[export] Instance shifted_forward p b : @forward_to_srt_server os hc p b ~~ @forward_to_srt_server os' hc p b.
Proof. unfold forward_to_srt_server. apply _. Qed.
#[export] Instance shifted_handle_srt_packet p b n : @handle_srt_packet os p b n ~~ @handle_srt_packet os' p b n.
Proof. unfold handle_srt_packet, relay_to_clients, relay_to_last, record_auth_failure. apply _. Qed.
#[export] Instance shifted_handle_srt_data p : @handle_srt_data os p ~~ @handle_srt_data os' p.
Proof. unfold handle_srt_data. apply _. Qed.
#[export] Instance shifted_send_keepalive c : @send_keepalive os c ~~ @send_keepalive os' c.
Proof. unfold send_keepalive. apply _. Qed.
#[export] Instance shifted_reply t a : @reply os t a ~~ @reply os' t a.
Proof. unfold reply. apply _. Qed.
#[export] Instance shifted_register_group a b t : @register_group os a b t ~~ @register_group os' a b t.
Proof. unfold register_group, reg1_refusal, make_group. apply _. Qed.
#[export] Instance shifted_register_connection a b t : @register_connection os a b t ~~ @register_connection os' a b t.
Proof. unfold register_connection, reject_connection. apply _. Qed.
#[export] Instance shifted_register_packet gp cp sn : @register_packet os gp cp sn ~~ @register_packet os' gp cp sn.
Proof. unfold register_packet. apply _. Qed.
#[export] Instance shifted_handle_keepalive gp cp a b n :
  @handle_keepalive os gp cp a b n ~~ @handle_keepalive os' gp cp a b n.
Proof. unfold handle_keepalive. apply _. Qed.
#[export] Instance shifted_account_nak gp cp b n t : @account_nak os gp cp b n t ~~ @account_nak os' gp cp b n t.
Proof. unfold account_nak, is_duplicate_nak. apply _. Qed.
#[export] Instance shifted_handle_data gp cp b n a t : @handle_data os hc gp cp b n a t ~~ @handle_data os' hc gp cp b n a t.
Proof. unfold handle_data. apply _. Qed.
#[export] Instance shifted_packet b n a t : @process_single_packet os hc b n a t ~~ @process_single_packet os' hc b n a t.
Proof. unfold process_single_packet. apply _. Qed.
#[export] Instance shifted_cleanup_conns t cs :
  cleanup_conns t (@send_keepalive os) cs ~~ cleanup_conns t (@send_keepalive os') cs.
Proof. unfold cleanup_conns, cleanup_conn, cleanup_recovery. induction cs; apply _. Qed.
#[export] Instance shifted_cleanup_groups t gs :
  @cleanup_groups os t (@send_keepalive os) gs ~~ @cleanup_groups os' t (@send_keepalive os') gs.
Proof. unfold cleanup_groups, cleanup_group. induction gs; apply _. Qed.

(** *** The exporter and the loop *)

#[export] Instance shifted_render now : @render os ec now ~~ @render os' ec now.
Proof.
  assert (Hr : forall out gs, (if negb detailed_ then mret out else
      conns ← @render_conns os ec now gs; mret (out ++ conns)) ~~ (if negb detailed_ then mret out else
      conns ← @render_conns os' ec now gs; mret (out ++ conns))).
  { intros out gs. unfold render_conns, render_group, group_port. apply _. }
  intros w. exact (Hr (render_defs "" (counters w) kDefs ++ render_gauges now w) (groups w) w).
Qed.
#[export] Instance shifted_send_response fuel client : forall rest,
  @send_response os fuel client rest ~~ @send_response os' fuel client rest.
Proof. induction fuel; intros rest; cbn [send_response]; apply _. Qed.
#[export] Instance shifted_exporter scrapes :
  @exporter_handle_event os ec scrapes ~~ @exporter_handle_event os' ec scrapes.
Proof. unfold exporter_handle_event, serve. apply _. Qed.
#[export] Instance shifted_handle_events t events :
  @handle_events os hc ec t events ~~ @handle_events os' hc ec t events.
Proof.
  assert (He : forall ev, @handle_event os hc ec t ev ~~ @handle_event os' hc ec t ev).
  { intros ev. destruct ev; cbn [handle_event]; unfold process_packets, process_datagram; apply _. }
  induction events; cbn [handle_events]; apply _.
Qed.
#[export] Instance shifted_loop_iteration events :
  @loop_iteration os hc ec events ~~ @loop_iteration os' hc ec events.
Proof. unfold loop_iteration, cleanup_inactive, quality_pass. apply _. Qed.
End Code.

(** ** Start-up *)

(** Nothing but calls has happened. *)
Definition fresh (w : world) : Prop := w = later (calls w) (trace w) initial_world.
Definition starting (w w' : world) : Prop := fresh w -> fresh w'.

#[export] Instance starting_preorder : PreOrder starting.
Proof. split; [by intros w H|]. intros a b c H1 H2 H. auto. Qed.

Section Start.
Context {os : OS} {start_os : StartOS}.

Lemma starting_modify f : (forall k T, fresh (f (later k T initial_world))) -> Within starting (modify f).
Proof. intros Hf w E. cbn. rewrite E. apply Hf. Qed.
#[local] Instance starting_next_call : Within starting next_call.
Proof. intros w E. cbn. by rewrite E. Qed.
#[local] Instance starting_emit e : Within starting (emit e).
Proof. by apply starting_modify. Qed.
#[local] Instance starting_close fd : Within starting (close fd).
Proof. unfold close. do 2 (apply within_bind; [apply _|intros ?]). by apply starting_modify. Qed.
#[local] Instance starting_probe addr : Within starting (probe addr).
Proof. unfold probe, probe_options, socket, setsockopt, connect, send, recv. apply _. Qed.
#[local] Instance starting_probe_all addrs : Within starting (probe_all addrs).
Proof. induction addrs; cbn [probe_all]; apply _. Qed.
#[local] Instance starting_resolve : Within starting resolve_srt_address.
Proof.
  unfold resolve_srt_address. apply within_bind; [apply _|]. intros t. apply within_option; [|apply _]. intros addrs.
  apply within_bind; [apply _|]. intros [a|]; [apply _|]. destruct addrs; apply _.
Qed.
#[local] Instance starting_exporter_start port : Within starting (exporter_start port).
Proof.
  unfold exporter_start. apply within_bind; [apply _|]. intros t. apply within_if; [apply _|].
  apply within_bind; [apply _|]. intros t'. destruct (st_getaddrinfo t') as [[|res addrs]|]; [apply _| |apply _].
  unfold listening, bind, listen, epoll_register, socket, setsockopt, fcntl_getfl, fcntl_setfl. apply _.
Qed.
Lemma starting_receiver_start port : Within starting (receiver_start port).
Proof.
  unfold receiver_start, set_socket_buffers, bind, epoll_register, socket, setsockopt, fcntl_getfl, fcntl_setfl. apply _.
Qed.
End Start.

(** ** The whole program *)

Section Whole.
Context {os : OS} {start_os : StartOS}.
Variable (version : string) (ntop : Z -> list byte -> text).

(** Turns of the loop after [k] calls. *)
Lemma loop_later {hc : HandlerConfig} {ec : ExporterConfig} k T batches : forall w,
  @reachable (after_calls k os) hc ec w ->
  match mfor batches (@loop_iteration os hc ec) (later k T w) with
  | Done _ w' => exists v, @reachable (after_calls k os) hc ec v /\ w' = later k T v
  | Raised e w' => exists v events v', @reachable (after_calls k os) hc ec v /\
      @loop_iteration (after_calls k os) hc ec events v = Raised e v' /\ w' = later k T v'
  end.
Proof.
  induction batches as [|events batches IH]; intros w Hw; [by exists w|]. cbn [mfor].
  unfold mbind, M_bind. rewrite (shifted k T (m := @loop_iteration os hc ec events)).
  destruct (@loop_iteration (after_calls k os) hc ec events w) as [[] w1|e w1] eqn:E; cbn [later_outcome].
  - apply IH. by eapply reachable_iteration.
  - by exists w, events, w1.
Qed.

Lemma stdin_after k : StdinOpen -> @StdinOpen (after_calls k os).
Proof. intros H n. apply H. Qed.

Lemma inv_later k T w : inv w -> inv (later k T w).
Proof. by apply inv_same. Qed.

(** The program from [main] on.  For every command line, kernel and
    sequence of events, the receiver either leaves with a failure before its
    loop, having touched none of its state, or start-up succeeds and each
    state the loop comes to is, up to the calls start-up made and what it
    left in the log of the I/O, a reachable state of the loop on the kernel
    that remains, configured with the address, the epoll and the options that
    start-up determined: so the invariants of reachable states hold in the
    program as it runs, and an exception that ends it is one an iteration
    throws in such a state. *)
Theorem program_runs_loop args batches :
  match receiver_main version ntop args batches initial_world with
  | Done None w' => fresh w'
  | Done (Some lv) w' => exists a st w0, args = Some a /\ lv = choose_level (log_level a) /\
      receiver_start (metrics_port a) initial_world = Done (Some st) w0 /\ fresh w0 /\
      exists v, @reachable (after_calls (calls w0) os) (handler_config st) (exporter_config version ntop a st) v /\
        w' = later (calls w0) (trace w0) v
  | Raised e w' => exists a st w0, args = Some a /\
      receiver_start (metrics_port a) initial_world = Done (Some st) w0 /\ fresh w0 /\
      exists v events v', @reachable (after_calls (calls w0) os) (handler_config st) (exporter_config version ntop a st) v /\
        @loop_iteration (after_calls (calls w0) os) (handler_config st) (exporter_config version ntop a st) events v =
          Raised e v' /\ w' = later (calls w0) (trace w0) v'
  end.
Proof.
  destruct args as [a|]; cbn [receiver_main]; [|done]. cbv zeta.
  destruct (startup_returns (metrics_port a) initial_world) as (o & w0 & E).
  rewrite (bind_done _ _ _ _ _ E).
  assert (F : fresh w0).
  { pose proof (starting_receiver_start (metrics_port a)) as HS. by apply (within_done starting _ _ _ _ E). }
  destruct o as [st|]; [|done]. unfold mbind, M_bind, main_loop.
  pose proof (@loop_later (handler_config st) (exporter_config version ntop a st) (calls w0) (trace w0) batches
    initial_world (reachable_start)) as H.
  rewrite <- F in H. destruct (mfor batches _ w0) as [[] w'|e w'].
  - destruct H as (v & Hv & ->). by exists a, st, w0; split_and!; [..|exists v].
  - destruct H as (v & events & v' & Hv & Ev & ->). exists a, st, w0. split_and!; [done..|]. by exists v, events, v'.
Qed.

(** The invariant holds in the program. *)
Corollary program_inv `{!StdinOpen} args batches lv w' :
  receiver_main version ntop args batches initial_world = Done (Some lv) w' -> inv w'.
Proof.
  intros E. pose proof (program_runs_loop args batches) as Hc. rewrite E in Hc.
  destruct Hc as (a & st & w0 & _ & _ & _ & _ & v & Hv & ->). apply inv_later.
  eapply (@reachable_inv (after_calls (calls w0) os)); [by apply stdin_after|exact Hv].
Qed.
End Whole.

(** ** A run *)

Definition print_bytes (_ : Z) (a : list byte) : text := concat (map (fun b => to_string (bval b)) a).
(** The program with its default options, a client's REG1 and a turn without events. *)
Definition sample_run : M (option (severity * bool)) :=
  @receiver_main os_start start_sample "1.0" print_bytes (Some default_args) [says client1 reg1_packet; []].

Example sample_run_done : result_of (sample_run initial_world) = Some (Some (level_info, false)).
Proof. vm_compute. reflexivity. Qed.
Example sample_run_group : map (fun g => created_at g) (groups (run sample_run initial_world)) = [1000].
Proof. vm_compute. reflexivity. Qed.
